(* ===== verification/_CoqProject ===== *)
-Q . S2P
Prelude.v
GoCore.v
GoFloat.v
GoText.v
GoNet.v
MemoryLimit.v
Jobs.v
NullTime.v
Extcron.v
Nodes.v
Store.v
Fsm.v
Replicas.v
Restore.v
JsCore.v
Runs.v
Running.v
Scheduler.v
Server.v
Leadership.v
Membership.v
Gossip.v
Addresses.v
Streams.v
Cluster.v
Shutdown.v
AgentTags.v
RaftPeers.v
Cascade.v
Attempts.v
Plugins.v
Notify.v
HttpExecutor.v
Executors.v
Keys.v
ShellExecutor.v
View.v
DepGraph.v
Hierarchy.v
DepLayout.v
DataProvider.v
JobList.v
Requests.v
Fields.v
Stats.v
DiagramView.v
Api.v
JobJson.v
JobViews.v
Routes.v
Dashboard.v
Shell.v
Site.v
Theme.v
Entry.v
