(* ===== verification/Prelude.v ===== *)
(** * Dkron: a verification library for the job scheduler and its web interface

    Dkron runs jobs on the nodes of a cluster at the times of a schedule.  A few
    of its servers replicate a log of commands; each keeps the jobs, executions
    and statistics in a store of its own.  One of them leads: it answers the
    requests that change jobs, holds the schedule, sends executions to nodes and
    receives their results.  The web interface is a React application that shows
    and edits what the server sends.

    ** The server (src/dkron, src/extcron; Go)

    - Jobs: the struct of job.go, its stored form, conversions, [Validate], the
      spreading of schedules ([scheduleHash]) and the next run.  What other code
      decides (parsed schedules, time zones) is the class [Env].
    - MemoryLimit: the memory limits of jobs, as the server checks them and as a
      node reads them (job.go, shell.go).
    - NullTime: the times of a job that may be absent and their JSON form
      (src/ntime), with the calendar and the texts of package time.
    - Extcron: the schedules src/extcron adds to the cron library (class [Cron]);
      it discharges the schedules of [Env].
    - Nodes: tags and [getTargetNodes] of agent.go and tags.go.
    - Store: store.go; the database is three maps, an operation is a function
      from the store to the store and its answer, and a transaction that fails
      returns the store it was given.
    - Fsm: fsm.go; [Apply] is one command of the log.  [reachable] are the stores
      a log leads to, [db_ok] and [children_listed] their invariants; [linked] is
      one where no command makes up dependent jobs ([honest_log]).
    - Replicas: several servers that apply one log at different times.
    - Runs: the results of executions in the store: counters, status, statistics.
    - Running: [isRunnable] of job.go and the cleaning of stale executions.
    - Restore: the tree of jobs of a backup (job.go, agent.go).
    - Scheduler: scheduler.go on top of the cron engine (class [Engine], its laws
      [EngineLaws], and an engine that obeys them).
    - Server: the leader.  Its state is the store, the scheduler and the pause of
      new jobs; the handlers of grpc.go, api.go, run.go and leader.go are
      functions on it, and [step] is all that happens to it, one handler after the
      other.
    - Leadership: the monitor of leadership and the leader loop of leader.go, and
      [Agent.Stop] of agent.go, as a step relation around the handlers of Server.
    - Membership: the reconciliation of the servers of the log with the members of
      the cluster (leader.go, utils.go), on raft as an interface (class [Raft]).
    - Gossip: what the events of serf tell an agent about the other servers, and
      the bootstrap of the log (serf.go, server_lookup.go, agent.go).
    - Addresses: where an agent listens, what it advertises, and how it joins a
      cluster (config.go, retry_join.go); tags of the command line (cmd/agent.go).
    - Streams: both ends of the call that runs an execution (grpc_agent.go,
      grpc_client.go), with a network that answers as it likes.
    - Cluster: what an agent answers about the leader, the servers, its health and
      the running executions (agent.go, grpc.go, api.go).
    - Shutdown: the process of an agent when it is told to stop (cmd/agent.go,
      agent.go, grpc_agent.go), a step relation of its goroutines and the outside.
    - AgentTags: what an agent announces of itself, and the reading of its
      configuration (agent.go, cmd/dkron.go, cmd/agent.go).
    - RaftPeers: how the log of a server is set up, listed and repaired by hand
      (agent.go, grpc.go, cmd/raft.go).
    - Cascade: [ExecutionDone] of grpc.go, [Run] of job.go, and a node that
      reports by itself (grpc_agent.go): the tree of calls a run has open, with a
      step relation.
    - Attempts: the wait before a retry and the groups of executions
      (execution.go, store.go).
    - Plugins: how plugins are found (cmd/plugins.go), and the processors of
      src/builtin/bins, which [ExecutionDone] calls.
    - Notify: telemetry, mails and web hooks (notifier.go).
    - ShellExecutor, HttpExecutor: the executors of src/plugin, on the node;
      Executors: those of src/builtin/bins that send a message to a service.
    - Keys: the key of the cluster (cmd/keygen.go, config.go).

    GoCore has the machine integers, byte strings and library functions the Go
    models use, GoText spaces, case, booleans and HTTP headers, GoNet the
    addresses of package net, GoFloat the rounding of floating-point numbers.

    ** The interface (src/ui/src, src/website; TypeScript and JavaScript)

    - JsCore: values, truthiness, maps, sets and sorting of JavaScript; View:
      React elements and how they are rendered.
    - DepGraph, DepLayout, DiagramView: the dependency diagram
      (JobDependencyDiagram.tsx): which jobs it shows, where, and as what.
    - Hierarchy: the diagram on the jobs a store holds (Fsm).
    - DataProvider: authProvider.ts and dataProvider.ts.  JobList: the groups of
      the job table.  Requests: the buttons that run and toggle jobs.
    - Api: the JSON, lists and counters of api.go and ui.go the pages rely on.
    - JobJson: the JSON of a job, as it is sent and as it is read (job.go, api.go).
    - Routes: the routes of api.go, and the way of a request from a URL of the
      interface to the handler that answers it (gin: class [Gin]; browser: [Web]).
    - Fields, Stats, JobViews, Dashboard, Shell, Site: the components of the
      pages, as functions from properties to element trees, one Module or
      Section per source file.  Theme: colours, and styles as functions of them.
      Entry: the buttons as elements, the mounting of the application, and the
      script of linkedin.js as a state machine of calls.

    ** What the theorems show

    - The state of the cluster: the stored hierarchy of jobs is consistent in
      every reachable store, up to names that are listed without reason where a
      command made them up; updates are all or nothing; every command returns;
      deletion on every branch; replicas agree on all but next runs (Fsm,
      Replicas).  The scheduler refines a map of the enabled root jobs, and on
      the leader it follows the store through handlers that do not overlap
      (Scheduler, Server); only a server whose leader loop has established
      leadership runs it, until it is told to stop (Leadership).
      The servers of the log follow the members (Membership); what an agent knows
      of the servers is what serf announced, and a log is bootstrapped only where
      nobody reports a cluster (Gossip); addresses are read, but for those on
      which an agent hangs (Addresses).  What a server announces is what the others
      read of it, after any number of reloads, unless its user's tags claim more,
      and the leader is found by it (AgentTags); a server removed by hand comes back
      when it is alive and not the leader (RaftPeers).  A backup is arranged as a whole or
      refused, and restored as a whole (Restore, Server).
    - Executions: what is counted, once; nothing finished is reopened; at most
      [MaxExecutions] are listed; statistics are the log's (Runs).  A job runs
      when it may and alone when it asks for that (Running); on nodes that
      qualify, as many as the tags ask for (Nodes); the leader is told what the
      node did, and sends an execution again only after a fault (Streams); what
      is shown as running is what the servers follow (Cluster); what a run sets
      off settles (Cascade), and the wait before a retry is bounded (Attempts).
      An agent that is told to stop waits for its executions, one of each group,
      and ends, but may lose a result it has not sent (Shutdown).  On the node, a
      process over its memory limit is killed when it has a group of its own, and
      reported when its end is noticed after the monitor's message is set
      (ShellExecutor); limits mean the same on the server and the node
      (MemoryLimit); a request is sent by a client made for settings with the key of
      those of its job, and its status compared with the codes expected (HttpExecutor); the
      other executors send one message, and say so but for NATS (Executors).
      Afterwards processors see and leave the output they should (Plugins), and
      messages go where they are configured to go (Notify).
    - Schedules: the activations of those that run once, durations without
      fractions read back as written (Extcron), times as well (NullTime), hashed fields in their ranges (Jobs).
    - The diagram shows the related jobs, each once, without overlap, on the
      canvas, with arrows between parents and children (DepGraph, DepLayout,
      Hierarchy).  The session of the interface refines being signed in
      (DataProvider); buttons do not send twice (Requests); lists are paged,
      grouped and sorted without loss (Api, JobList, JobViews), the tab of executions is given what the store has and a cut
      output can be loaded whole (Routes), a job that is opened and saved is
      unchanged (JobJson), cards and charts show the totals (Dashboard, Stats).

    ** Fuel and bounds

    [SetJob] calls itself for the old and the new parent of a job: [depth] is
    two, and more changes nothing (Fsm).  The walks of the diagram take one
    more than the number of jobs as fuel and are proved to need no more (DepGraph).  Element
    trees are expanded to a depth beyond that of the program's components (View).
    The other recursions are structural, or end by a measure: the loops of
    [AgentRun] by the attempts that are left, a cascade by its weight.  The
    process of an agent that stops ends by the steps it has left (Shutdown).  The
    [goto] of [AddrParts] takes fuel: two rounds are enough, except for the
    addresses on which no number is (Addresses).

    ** What is assumed

    Commands of the log and calls to other servers are delivered or, where a
    parameter says so, fail.  Handlers run from start to end, except for the
    calls [ExecutionDone] waits for; what happens when two of them overlap is
    recorded in examples.  What a theorem needs beyond this is in its statement and
    its comment.  A backup holds no [null] for a job.  Times are nanoseconds
    without the limits of [time.Time]; a handler that asks for the time twice gets
    one answer; the logarithm in the wait before a retry is exact (Attempts).

    ** Not modelled

    Raft, serf and gRPC, the database library, the cron library, the operating
    system and the network are other code, and parameters or interfaces where
    the sources call them; so are the clients of the services jobs send messages
    to.  Logging, metrics, tracing and the table of defaults have
    no state of the program.  The transport of raft, listeners and
    the order in which [Start] and [StartServer] wire libraries together call only
    other code.  The files that configure bundlers, linters and the generator of
    styles have no behaviour.  Generated clients and protocol messages and
    the bundled interface (src/dkron/ui-dist) have no source of their own here.
    What happens when two calls overlap is modelled for the fields processors
    share (Plugins) and recorded in examples elsewhere. *)

From stdpp Require Export base tactics list gmap fin_maps strings sorting pretty.
From Stdlib Require Export ZArith Lia Ascii.
From Stdlib Require String.

#[export] Set Default Goal Selector "!".
#[global] Open Scope Z_scope.

(** ** Notations *)

Declare Scope dkron_scope.
Delimit Scope dkron_scope with dk.

(** A fuelled or fallible computation: [None] propagates. *)
Notation "'let?' x := e 'in' k" :=
  (match e with Some x => k | None => None end)
  (at level 10, x pattern, e at level 200, k at level 200) : dkron_scope.

#[global] Open Scope dkron_scope.

(** ** Automation *)

Create HintDb dkron discriminated.
Create Rewrite HintDb dkron_simpl.

(** Case analysis on every [match] and [decide] in sight, keeping the equations. *)
Ltac split_cases :=
  repeat (first [ progress simplify_eq/= | case_decide | case_match ]); try done.

Ltac dk := eauto with dkron.

(** ** Lists *)

Section lists.
Context {A B : Type}.
Implicit Types (l : list A) (x y : A).

(** A generic maximum with a floor, as [Math.max(...l.map(f), m)] computes it. *)
Definition max_by (f : A → Z) (m : Z) (l : list A) : Z :=
  foldr (λ x acc, Z.max (f x) acc) m l.

Lemma max_by_floor f m l : m ≤ max_by f m l.
Proof. induction l as [|x l IH]; simpl; lia. Qed.

Lemma max_by_ub f m l x : x ∈ l → f x ≤ max_by f m l.
Proof.
  induction l as [|y l IH]; [by rewrite elem_of_nil|].
  rewrite elem_of_cons; intros [->|Hx]; simpl; [lia|].
  specialize (IH Hx). lia.
Qed.

Lemma max_by_attained f m l : max_by f m l = m ∨ ∃ x, x ∈ l ∧ max_by f m l = f x.
Proof.
  induction l as [|y l [IH|(x & Hx & IH)]]; simpl; [by left| |].
  - destruct (Z.max_spec (f y) (max_by f m l)) as [[_ ->]|[_ ->]]; [by left|].
    right; exists y. split; [by left|done].
  - destruct (Z.max_spec (f y) (max_by f m l)) as [[_ ->]|[_ ->]]; right.
    + exists x. split; [by right|done].
    + exists y. split; [by left|done].
Qed.

(** Sum of a projection, as [reduce((s, x) => s + f(x), 0)] computes it. *)
Definition sum_by (f : A → Z) (l : list A) : Z :=
  fold_left (λ s x, s + f x) l 0.

Lemma fold_left_sum f l z : fold_left (λ s x, s + f x) l z = z + sum_by f l.
Proof.
  revert z. unfold sum_by. induction l as [|x l IH]; intros z; simpl; [lia|].
  rewrite (IH (z + f x)), (IH (0 + f x)). lia.
Qed.

Lemma sum_by_nil f : sum_by f [] = 0.
Proof. done. Qed.

Lemma sum_by_cons f x l : sum_by f (x :: l) = f x + sum_by f l.
Proof. unfold sum_by at 1; simpl. rewrite fold_left_sum. lia. Qed.

Lemma sum_by_app f l1 l2 : sum_by f (l1 ++ l2) = sum_by f l1 + sum_by f l2.
Proof.
  induction l1 as [|x l1 IH]; simpl; [by rewrite sum_by_nil|].
  rewrite !sum_by_cons, IH. lia.
Qed.

Lemma sum_by_Permutation f l1 l2 : l1 ≡ₚ l2 → sum_by f l1 = sum_by f l2.
Proof.
  induction 1 as [|x l l' _ IH|x y l|l l' l'' _ IH1 _ IH2];
    rewrite ?sum_by_cons; lia.
Qed.

Lemma sum_by_plus f g l : sum_by (λ x, f x + g x) l = sum_by f l + sum_by g l.
Proof.
  induction l as [|x l IH]; [done|]. rewrite !sum_by_cons, IH. lia.
Qed.
End lists.

#[global] Arguments sum_by : simpl never.
#[export] Hint Rewrite @sum_by_nil @sum_by_cons @sum_by_app : dkron_simpl.
#[export] Hint Resolve max_by_floor max_by_ub : dkron.

Lemma sum_by_map {A B} (g : A → B) (f : B → Z) l :
  sum_by f (g <$> l) = sum_by (λ x, f (g x)) l.
Proof. induction l as [|x l IH]; [done|]. rewrite fmap_cons, !sum_by_cons, IH. done. Qed.

Lemma StronglySorted_weaken {A} (R S : A → A → Prop) l :
  (∀ x y, R x y → S x y) → StronglySorted R l → StronglySorted S l.
Proof.
  intros HRS. induction 1 as [|x l _ IH Hx]; constructor; [done|].
  eapply Forall_impl; [exact Hx|]. intros. by apply HRS.
Qed.

(** Removal of the first occurrence. *)
Fixpoint list_remove_one {A} `{EqDecision A} (x : A) (l : list A) : list A :=
  match l with
  | [] => []
  | y :: l => if decide (x = y) then l else y :: list_remove_one x l
  end.

Lemma list_remove_one_Permutation {A} `{EqDecision A} (x : A) l :
  x ∈ l → l ≡ₚ x :: list_remove_one x l.
Proof.
  induction l as [|y l IH]; [set_solver|]. cbn. rewrite elem_of_cons.
  case_decide as Hxy; [by subst|]. intros [?|Hx]; [done|].
  rewrite (IH Hx) at 1. apply Permutation_swap.
Qed.

Lemma length_list_remove_one {A} `{EqDecision A} (x : A) l :
  x ∈ l → length l = S (length (list_remove_one x l)).
Proof. intros Hx. by rewrite (list_remove_one_Permutation x l Hx) at 1. Qed.

(** ** Decimal digits *)

Definition byte_of (c : ascii) : Z := Z.of_N (N_of_ascii c).

Definition within (a b z : Z) : bool := (a <=? z) && (z <=? b).

Definition is_digit (c : ascii) : bool := within 48 57 (byte_of c).

Fixpoint all_digits (s : string) : bool :=
  match s with
  | EmptyString => true
  | String c s => is_digit c && all_digits s
  end.

(** The longest prefix of digits, and the rest. *)
Fixpoint span_digits (s : string) : string * string :=
  match s with
  | EmptyString => ("", "")
  | String c s' =>
      if is_digit c then let (ds, r) := span_digits s' in (String c ds, r) else ("", s)
  end.

Fixpoint digits_value (acc : Z) (s : string) : Z :=
  match s with
  | EmptyString => acc
  | String c s => digits_value (10 * acc + (byte_of c - 48)) s
  end.

Lemma is_digit_pos c : is_digit c = true → 0 ≤ byte_of c - 48 ≤ 9.
Proof. unfold is_digit, within. intros [?%Z.leb_le ?%Z.leb_le]%andb_prop. lia. Qed.

Lemma all_digits_app s t : all_digits (s +:+ t) = all_digits s && all_digits t.
Proof.
  induction s as [|c s IH]; [done|].
  change (is_digit c && all_digits (s +:+ t) = is_digit c && all_digits s && all_digits t).
  by rewrite IH, andb_assoc.
Qed.

Lemma span_digits_spec s ds r : span_digits s = (ds, r) →
  s = ds +:+ r ∧ all_digits ds = true ∧
  match r with EmptyString => True | String c _ => is_digit c = false end.
Proof.
  revert ds r. induction s as [|c s IH]; cbn; intros ds r; [by intros [= <- <-]|].
  destruct (is_digit c) eqn:Hc; [|by intros [= <- <-]].
  destruct (span_digits s) as [ds1 r1]. intros [= <- <-].
  destruct (IH _ _ eq_refl) as (-> & H1 & H2). split; [done|]. split; [|done]. cbn.
  by rewrite Hc, H1.
Qed.

(** Digits before the end or something that is none. *)
Lemma span_digits_app ds r : all_digits ds = true →
  match r with EmptyString => True | String c _ => is_digit c = false end →
  span_digits (ds +:+ r) = (ds, r).
Proof.
  intros Hds Hr. induction ds as [|d ds IH].
  - destruct r as [|c r]; [done|]. change ("" +:+ String c r) with (String c r). cbn. by rewrite Hr.
  - cbn in Hds. apply andb_prop in Hds as [Hd Hds].
    change (String d ds +:+ r) with (String d (ds +:+ r)). cbn. by rewrite Hd, (IH Hds).
Qed.

Lemma digits_value_nonneg acc s : all_digits s = true → 0 ≤ acc → 0 ≤ digits_value acc s.
Proof.
  revert acc. induction s as [|c s IH]; cbn; intros acc; [done|].
  intros [Hc Hs]%andb_prop Ha. apply is_digit_pos in Hc. apply IH; [done|]. lia.
Qed.

Lemma all_digits_forallb s : all_digits s = forallb is_digit (String.list_ascii_of_string s).
Proof. induction s as [|c s IH]; [done|]. cbn. by rewrite IH. Qed.

(** What a number prints as. *)
Lemma digit_of_char x : (x < 10)%N →
  is_digit (pretty_N_char x) = true ∧ byte_of (pretty_N_char x) - 48 = Z.of_N x.
Proof.
  intros Hx. assert (x = 0 ∨ x = 1 ∨ x = 2 ∨ x = 3 ∨ x = 4 ∨ x = 5 ∨ x = 6 ∨
    x = 7 ∨ x = 8 ∨ x = 9)%N by lia. naive_solver.
Qed.

Lemma pretty_go_digits x s : (0 < x)%N → all_digits s = true →
  all_digits (pretty_N_go x s) = true ∧ pretty_N_go x s ≠ "" ∧
  digits_value 0 (pretty_N_go x s) = digits_value (Z.of_N x) s.
Proof.
  revert s. induction (N.lt_wf_0 x) as [x _ IH]; intros s Hx Hs.
  rewrite pretty_N_go_step by done.
  destruct (digit_of_char (x mod 10)) as [Hd Hv]; [by apply N.mod_lt|].
  pose proof (N.div_mod' x 10). destruct (decide (x / 10 = 0)%N) as [H0|H0].
  - rewrite H0, pretty_N_go_0. cbn [all_digits digits_value]. rewrite Hd, Hv, Hs.
    split_and!; [done..|]. f_equal. lia.
  - destruct (IH (x / 10)%N) with (s := String (pretty_N_char (x mod 10)) s) as (H1 & H2 & H3);
      [by apply N.div_lt|by apply N.neq_0_lt_0|cbn [all_digits]; by rewrite Hd|].
    split_and!; [done..|]. rewrite H3. cbn [digits_value]. rewrite Hv. f_equal. lia.
Qed.

Lemma pretty_of_digits n : 0 ≤ n →
  all_digits (pretty n) = true ∧ pretty n ≠ "" ∧ digits_value 0 (pretty n) = n.
Proof.
  intros Hn. destruct n as [|p|p]; [done| |lia].
  change (pretty (Z.pos p)) with (pretty (N.pos p)). unfold pretty, pretty_N.
  rewrite decide_False by done. by apply pretty_go_digits.
Qed.

Lemma pretty_digits n : 0 ≤ n → all_digits (pretty n) = true.
Proof. apply pretty_of_digits. Qed.
Lemma pretty_not_empty n : 0 ≤ n → pretty n ≠ "".
Proof. apply pretty_of_digits. Qed.
Lemma digits_value_pretty n : 0 ≤ n → digits_value 0 (pretty n) = n.
Proof. apply pretty_of_digits. Qed.
