(* ===== verification/GoCore.v ===== *)
(** * GoCore: the part of Go the server's sources rely on

    Machine integers with their wrap-around, strings as sequences of bytes with
    the code points a [range] loop visits, and the functions of the packages
    [strings] and [strconv] the models use. *)

From S2P Require Import Prelude.

(** ** Integers *)

(** The [w]-bit signed integer with the bits of [z]. *)
Definition wrap (w : Z) (z : Z) : Z := (z + 2 ^ (w - 1)) mod 2 ^ w - 2 ^ (w - 1).
Definition int32 (z : Z) : Z := wrap 32 z.
Definition int64 (z : Z) : Z := wrap 64 z.
Definition uint32 (z : Z) : Z := z mod 2 ^ 32.

Definition in_int32 (z : Z) : Prop := - 2 ^ 31 ≤ z < 2 ^ 31.
Definition in_uint32 (z : Z) : Prop := 0 ≤ z < 2 ^ 32.

#[global] Instance in_int32_dec z : Decision (in_int32 z) := _.
#[global] Instance in_uint32_dec z : Decision (in_uint32 z) := _.

Lemma wrap_small w z : 0 < w → - 2 ^ (w - 1) ≤ z < 2 ^ (w - 1) → wrap w z = z.
Proof.
  intros Hw Hz. unfold wrap.
  assert (2 ^ w = 2 * 2 ^ (w - 1)) as Hp.
  { rewrite <- Z.pow_succ_r by lia. f_equal. lia. }
  rewrite Z.mod_small by lia. lia.
Qed.

Lemma wrap_range w z : 0 < w → - 2 ^ (w - 1) ≤ wrap w z < 2 ^ (w - 1).
Proof.
  intros Hw. unfold wrap.
  assert (2 ^ w = 2 * 2 ^ (w - 1)) as Hp.
  { rewrite <- Z.pow_succ_r by lia. f_equal. lia. }
  pose proof (Z.mod_pos_bound (z + 2 ^ (w - 1)) (2 ^ w)
    ltac:(apply Z.pow_pos_nonneg; lia)). lia.
Qed.

Lemma int32_id z : in_int32 z → int32 z = z.
Proof. intros Hz. apply wrap_small; [lia|exact Hz]. Qed.
Lemma int32_in z : in_int32 (int32 z).
Proof. apply (wrap_range 32). lia. Qed.
Lemma int64_id z : - 2 ^ 63 ≤ z < 2 ^ 63 → int64 z = z.
Proof. intros Hz. apply wrap_small; [lia|exact Hz]. Qed.
Lemma uint32_id z : in_uint32 z → uint32 z = z.
Proof. intros Hz. by apply Z.mod_small. Qed.
Lemma uint32_in z : in_uint32 (uint32 z).
Proof. by apply Z.mod_pos_bound. Qed.

#[export] Hint Resolve int32_in uint32_in : dkron.

(** Go's [%], whose result has the sign of the dividend. *)
Notation "a %% b" := (Z.rem a b) (at level 40, left associativity) : dkron_scope.

(** ** Code points *)

(** A continuation byte, and the range of the second byte after a leading one
    (no overlong forms, no surrogates, nothing above 0x10FFFF). *)
Definition is_cont (c : ascii) : bool := within 128 191 (byte_of c).
Definition second_ok (b0 : Z) (c1 : ascii) : bool :=
  if b0 =? 224 then within 160 191 (byte_of c1)
  else if b0 =? 237 then within 128 159 (byte_of c1)
  else if b0 =? 240 then within 144 191 (byte_of c1)
  else if b0 =? 244 then within 128 143 (byte_of c1)
  else is_cont c1.

Definition RuneError : Z := 65533.

(** The code points [for _, c := range s] visits; a byte that starts no valid
    encoding is visited as [RuneError]. *)
Fixpoint runes (s : string) : list Z :=
  match s with
  | EmptyString => []
  | String c0 s1 =>
      let b0 := byte_of c0 in
      if b0 <? 128 then b0 :: runes s1 else
      match s1 with
      | EmptyString => [RuneError]
      | String c1 s2 =>
          if within 194 223 b0 && is_cont c1 then
            ((b0 - 192) * 64 + (byte_of c1 - 128)) :: runes s2
          else
          match s2 with
          | EmptyString => RuneError :: runes s1
          | String c2 s3 =>
              if within 224 239 b0 && second_ok b0 c1 && is_cont c2 then
                ((b0 - 224) * 4096 + (byte_of c1 - 128) * 64 + (byte_of c2 - 128)) :: runes s3
              else
              match s3 with
              | EmptyString => RuneError :: runes s1
              | String c3 s4 =>
                  if within 240 244 b0 && second_ok b0 c1 && is_cont c2 && is_cont c3 then
                    ((b0 - 240) * 262144 + (byte_of c1 - 128) * 4096
                       + (byte_of c2 - 128) * 64 + (byte_of c3 - 128)) :: runes s4
                  else RuneError :: runes s1
              end
          end
      end
  end.

Lemma byte_of_range c : 0 ≤ byte_of c < 256.
Proof. unfold byte_of. pose proof (N_ascii_bounded c). lia. Qed.

(** A rune is a code point, and a string has at most as many runes as bytes. *)
Lemma runes_range_aux n : ∀ s, (String.length s ≤ n)%nat →
  Forall (λ r, 0 ≤ r ≤ 1114111) (runes s) ∧ (length (runes s) ≤ String.length s)%nat.
Proof.
  induction n as [|n IH]; intros [|c0 s1] Hn; cbn in Hn; try lia; try (by split; [constructor|cbn; lia]).
  pose proof (byte_of_range c0) as H0.
  assert (∀ t r, (String.length t ≤ String.length s1)%nat → 0 ≤ r ≤ 1114111 →
    Forall (λ r, 0 ≤ r ≤ 1114111) (r :: runes t) ∧
    (length (r :: runes t) ≤ String.length (String c0 s1))%nat) as Hstep.
  { intros t r Ht Hr. destruct (IH t) as [IH1 IH2]; [lia|]. split; [by constructor|cbn; lia]. }
  assert (0 ≤ RuneError ≤ 1114111) as He by (unfold RuneError; lia).
  cbn [runes]. case_match eqn:Hb; [apply Hstep; [lia|]; apply Z.ltb_lt in Hb; lia|].
  destruct s1 as [|c1 s2]; [split; [by repeat constructor|cbn; lia]|].
  pose proof (byte_of_range c1) as H1.
  case_match eqn:H2c.
  { apply andb_prop in H2c as [Hl Hc]. unfold is_cont, within in *.
    apply andb_prop in Hl as [?%Z.leb_le ?%Z.leb_le].
    apply andb_prop in Hc as [?%Z.leb_le ?%Z.leb_le]. apply Hstep; cbn; lia. }
  destruct s2 as [|c2 s3]; [apply Hstep; [done|exact He]|].
  pose proof (byte_of_range c2) as H2.
  case_match eqn:H3c.
  { apply andb_prop in H3c as [[Hl Hs]%andb_prop Hc]. unfold is_cont, within in *.
    apply andb_prop in Hl as [?%Z.leb_le ?%Z.leb_le].
    apply andb_prop in Hc as [?%Z.leb_le ?%Z.leb_le]. apply Hstep; [cbn; lia|].
    assert (128 ≤ byte_of c1 ≤ 191) as Hc1.
    { unfold second_ok, is_cont, within in Hs.
      repeat case_match; apply andb_prop in Hs as [?%Z.leb_le ?%Z.leb_le]; lia. }
    lia. }
  destruct s3 as [|c3 s4]; [apply Hstep; [done|exact He]|].
  case_match eqn:H4c; [|apply Hstep; [done|exact He]].
  apply andb_prop in H4c as [[[Hl Hs]%andb_prop Hc]%andb_prop Hd]. unfold is_cont, within in *.
  apply andb_prop in Hl as [?%Z.leb_le ?%Z.leb_le].
  apply andb_prop in Hc as [?%Z.leb_le ?%Z.leb_le].
  apply andb_prop in Hd as [?%Z.leb_le ?%Z.leb_le].
  apply Hstep; [cbn; lia|].
  assert (byte_of c0 = 244 → byte_of c1 ≤ 143) as H244.
  { intros E. rewrite E in Hs. cbn in Hs. unfold within in Hs.
    apply andb_prop in Hs as [_ ?%Z.leb_le]. lia. }
  assert (128 ≤ byte_of c1 ≤ 191) as Hc1.
  { unfold second_ok, is_cont, within in Hs.
    repeat case_match; apply andb_prop in Hs as [?%Z.leb_le ?%Z.leb_le]; lia. }
  lia.
Qed.

Lemma runes_range s : Forall (λ r, 0 ≤ r ≤ 1114111) (runes s).
Proof. by eapply runes_range_aux. Qed.
Lemma length_runes s : (length (runes s) ≤ String.length s)%nat.
Proof. by eapply runes_range_aux. Qed.

(** ** package strings *)

Definition HasPrefix (s p : string) : bool := String.prefix p s.
#[global] Arguments HasPrefix : simpl never.

Fixpoint ContainsChar (s : string) (c : ascii) : bool :=
  match s with
  | EmptyString => false
  | String d s => Ascii.eqb d c || ContainsChar s c
  end.

(** [strings.Contains] *)
Fixpoint Contains (s substr : string) : bool :=
  HasPrefix s substr || match s with EmptyString => false | String _ s => Contains s substr end.

(** The index of the first byte of a kind splits a string in two. *)
Fixpoint cut (c : ascii) (s : string) : option (string * string) :=
  match s with
  | EmptyString => None
  | String d s =>
      if Ascii.eqb d c then Some ("", s) else
      match cut c s with Some (a, b) => Some (String d a, b) | None => None end
  end.

(** The same for the last one. *)
Fixpoint cut_last (c : ascii) (s : string) : option (string * string) :=
  match s with
  | EmptyString => None
  | String d s =>
      match cut_last c s with
      | Some (a, b) => Some (String d a, b)
      | None => if Ascii.eqb d c then Some ("", s) else None
      end
  end.

(** [strings.Split] at one byte: always at least one part. *)
Fixpoint Split (c : ascii) (s : string) : list string :=
  match s with
  | EmptyString => [""]
  | String d s =>
      if Ascii.eqb d c then "" :: Split c s else
      match Split c s with
      | [] => [String d ""]
      | p :: ps => String d p :: ps
      end
  end.

Fixpoint Join (c : ascii) (ps : list string) : string :=
  match ps with
  | [] => ""
  | [p] => p
  | p :: ps => p +:+ String c (Join c ps)
  end.

(** [strings.ReplaceAll] of one byte. *)
Fixpoint ReplaceAll (s : string) (c : ascii) (by_ : string) : string :=
  match s with
  | EmptyString => ""
  | String d s => if Ascii.eqb d c then by_ +:+ ReplaceAll s c by_ else String d (ReplaceAll s c by_)
  end.

Lemma string_app_assoc (a b c : string) : (a +:+ b) +:+ c = a +:+ (b +:+ c).
Proof.
  induction a as [|x a IH]; [done|].
  change (String x ((a +:+ b) +:+ c) = String x (a +:+ (b +:+ c))). by rewrite IH.
Qed.

Lemma string_app_nil_r (a : string) : a +:+ "" = a.
Proof.
  induction a as [|x a IH]; [done|]. change (String x (a +:+ "") = String x a). by rewrite IH.
Qed.

Lemma HasPrefix_app (p s : string) : HasPrefix (p +:+ s) p = true.
Proof.
  unfold HasPrefix. induction p as [|c p IH]; [by destruct s|].
  change (String c p +:+ s) with (String c (p +:+ s)). cbn. by destruct (ascii_dec c c).
Qed.

Lemma Contains_prefix s p : HasPrefix s p = true → Contains s p = true.
Proof. intros Hp. destruct s; cbn [Contains]; by rewrite Hp. Qed.

Lemma Contains_app_r s t p : Contains t p = true → Contains (s +:+ t) p = true.
Proof.
  intros Ht. induction s as [|c s IH]; [done|]. change (String c s +:+ t) with (String c (s +:+ t)).
  cbn [Contains]. by rewrite IH, orb_true_r.
Qed.

Lemma Join_cons c p q ps : Join c (p :: q :: ps) = p +:+ String c (Join c (q :: ps)).
Proof. done. Qed.

Lemma Split_not_nil c s : Split c s ≠ [].
Proof. destruct s as [|d s]; [done|]. cbn. repeat case_match; done. Qed.

Lemma Join_Split c s : Join c (Split c s) = s.
Proof.
  induction s as [|d s IH]; [done|]. cbn [Split].
  destruct (Split c s) as [|p ps] eqn:Hs; [by apply Split_not_nil in Hs|].
  destruct (Ascii.eqb d c) eqn:Hd.
  - apply Ascii.eqb_eq in Hd as ->. rewrite Join_cons, IH. done.
  - destruct ps as [|q ps].
    + cbn in *. by rewrite IH.
    + rewrite Join_cons in *. rewrite <- IH. done.
Qed.

Lemma ContainsChar_app s t c : ContainsChar (s +:+ t) c = ContainsChar s c || ContainsChar t c.
Proof. 
  induction s as [|d s IH]; [done|].
  change (Ascii.eqb d c || ContainsChar (s +:+ t) c
    = Ascii.eqb d c || ContainsChar s c || ContainsChar t c).
  by rewrite IH, orb_assoc.
Qed.

(** What [cut] and [cut_last] find. *)
Lemma cut_spec c s a b : cut c s = Some (a, b) → s = a +:+ String c b ∧ ContainsChar a c = false.
Proof.
  revert a b. induction s as [|d s IH]; cbn; intros a b; [done|].
  destruct (Ascii.eqb_spec d c) as [->|Hd]; [by intros [= <- <-]|].
  destruct (cut c s) as [[a' b']|]; [|done]. intros [= <- <-].
  destruct (IH _ _ eq_refl) as [-> Ha]. split; [done|]. cbn. apply Ascii.eqb_neq in Hd. by rewrite Hd.
Qed.

Lemma cut_None c s : cut c s = None ↔ ContainsChar s c = false.
Proof.
  induction s as [|d s IH]; cbn; [done|]. destruct (Ascii.eqb d c); [done|].
  cbn. rewrite <- IH. by destruct (cut c s) as [[]|].
Qed.

Lemma cut_app c a b : ContainsChar a c = false → cut c (a +:+ String c b) = Some (a, b).
Proof.
  induction a as [|d a IH]; cbn; intros Ha.
  - change ("" +:+ String c b) with (String c b). cbn. by rewrite Ascii.eqb_refl.
  - apply orb_false_elim in Ha as [Hd Ha].
    change (String d a +:+ String c b) with (String d (a +:+ String c b)). cbn. by rewrite Hd, (IH Ha).
Qed.

Lemma cut_app_r c s t a b : cut c s = Some (a, b) → cut c (s +:+ t) = Some (a, b +:+ t).
Proof.
  intros [-> Ha]%cut_spec. rewrite string_app_assoc. by apply (cut_app c a (b +:+ t)).
Qed.

Lemma cut_last_None c s : cut_last c s = None ↔ ContainsChar s c = false.
Proof.
  induction s as [|d s IH]; cbn; [done|]. destruct (cut_last c s) as [[]|].
  - split; [done|]. intros [_ Hs]%orb_false_elim. by apply IH in Hs.
  - destruct (Ascii.eqb d c); cbn; [done|]. by rewrite <- IH.
Qed.

Lemma cut_last_spec c s a b : cut_last c s = Some (a, b) → s = a +:+ String c b ∧ ContainsChar b c = false.
Proof.
  revert a b. induction s as [|d s IH]; cbn; intros a b; [done|].
  destruct (cut_last c s) as [[a' b']|] eqn:E.
  - intros [= <- <-]. by destruct (IH _ _ eq_refl) as [-> Hb].
  - destruct (Ascii.eqb_spec d c) as [->|]; [|done]. intros [= <- <-]. split; [done|]. by apply cut_last_None.
Qed.

Lemma cut_last_app c a b : ContainsChar b c = false → cut_last c (a +:+ String c b) = Some (a, b).
Proof.
  intros Hb. induction a as [|d a IH].
  - change ("" +:+ String c b) with (String c b). cbn.
    apply cut_last_None in Hb. by rewrite Hb, Ascii.eqb_refl.
  - change (String d a +:+ String c b) with (String d (a +:+ String c b)). cbn. by rewrite IH.
Qed.

Lemma ContainsChar_Join c d ps : Ascii.eqb d c = false →
  ContainsChar (Join d ps) c = existsb (λ p, ContainsChar p c) ps.
Proof.
  intros Hd. induction ps as [|p [|q ps] IH]; [done|cbn; by rewrite orb_false_r|].
  rewrite Join_cons, ContainsChar_app. cbn [ContainsChar]. rewrite Hd, IH. done.
Qed.

Lemma ReplaceAll_absent s c r : ContainsChar s c = false → ReplaceAll s c r = s.
Proof.
  induction s as [|d s IH]; [done|]. cbn. intros [-> Hs]%orb_false_elim. by rewrite IH.
Qed.

Lemma ReplaceAll_removes s c r : ContainsChar r c = false → ContainsChar (ReplaceAll s c r) c = false.
Proof.
  intros Hr. induction s as [|d s IH]; [done|]. cbn. destruct (Ascii.eqb d c) eqn:Hd.
  - by rewrite ContainsChar_app, Hr, IH.
  - cbn. by rewrite Hd, IH.
Qed.

(** ** package strconv *)

(** [strconv.FormatBool] *)
Definition FormatBool (b : bool) : string := if b then "true" else "false".

(** [strconv.Atoi], and [strconv.ParseInt] in base 10: a sign and digits. The
    integer, which is cut to the range of [int], and whether there was no error. *)
Definition Atoi (s : string) : Z * bool :=
  let (negative, ds) :=
    match s with
    | String c ds =>
        if Ascii.eqb c "-" then (true, ds) else if Ascii.eqb c "+" then (false, ds) else (false, s)
    | EmptyString => (false, s)
    end in
  if String.eqb ds "" || negb (all_digits ds) then (0, false) else
  let v := if negative then - digits_value 0 ds else digits_value 0 ds in
  if v <? - 2 ^ 63 then (- 2 ^ 63, false)
  else if 2 ^ 63 <=? v then (2 ^ 63 - 1, false) else (v, true).

Lemma Atoi_digits ds : all_digits ds = true → ds ≠ "" →
  Atoi ds = if digits_value 0 ds <? 2 ^ 63 then (digits_value 0 ds, true) else (2 ^ 63 - 1, false).
Proof.
  intros Hds Hne. pose proof (digits_value_nonneg 0 ds Hds ltac:(lia)). unfold Atoi.
  destruct ds as [|c ds]; [done|]. cbn [String.eqb orb].
  assert (is_digit c = true) as Hc by (by apply andb_prop in Hds as [? _]).
  destruct (Ascii.eqb_spec c "-") as [->|]; [done|].
  destruct (Ascii.eqb_spec c "+") as [->|]; [done|]. rewrite Hds. cbn [negb orb].
  destruct (Z.ltb_spec (digits_value 0 (String c ds)) (- 2 ^ 63)); [lia|].
  by destruct (Z.ltb_spec (digits_value 0 (String c ds)) (2 ^ 63)),
    (Z.leb_spec (2 ^ 63) (digits_value 0 (String c ds))); try lia.
Qed.

(** The value, when the error is not looked at. *)
Lemma Atoi_pretty n : 0 ≤ n → (Atoi (pretty n)).1 = Z.min n (2 ^ 63 - 1).
Proof.
  intros Hn. rewrite Atoi_digits by (by apply pretty_digits || by apply pretty_not_empty).
  rewrite digits_value_pretty by lia. destruct (Z.ltb_spec n (2 ^ 63)); cbn [fst]; lia.
Qed.
