(* ===== verification/GoFloat.v ===== *)
(** * GoFloat: the floating-point arithmetic of the Go sources

    The numbers [strconv.ParseFloat] reads from digits with an optional
    fraction, multiplied by a constant and cut to an integer.  A number is not
    negative here, so a [float64] is a mantissa and an exponent, or the positive
    infinity; every operation rounds to the nearest number, ties to even. *)

From S2P Require Import Prelude GoCore.

(** ** Numbers *)

Inductive float64 : Type :=
  | Fin (mantissa exponent : Z)
  | Inf.

(** [n / (d * 2 ^ e)] rounded to an integer. *)
Definition round_even (n d e : Z) : Z :=
  let n := if e <? 0 then n * 2 ^ (- e) else n in
  let d := if e <? 0 then d else d * 2 ^ e in
  let q := n / d in
  match 2 * (n mod d) ?= d with
  | Lt => q
  | Gt => q + 1
  | Eq => if Z.even q then q else q + 1
  end.

(** The number next to [n / d]: the exponent is the one with a mantissa of 53
    bits, or that of the numbers closest to zero. *)
Definition float_div (n d : Z) : float64 :=
  if n =? 0 then Fin 0 0 else
  let e := Z.log2 n - Z.log2 d - 52 in
  let e := if round_even n d e <? 2 ^ 52 then e - 1 else e in
  let e := Z.max e (-1074) in
  let m := round_even n d e in
  if (if e <? 0 then m else m * 2 ^ e) <? 2 ^ 1024 then Fin m e else Inf.

(** [x * float64(k)] for a [k] that has an exact [float64]. *)
Definition float_mul (x : float64) (k : Z) : float64 :=
  match x with
  | Inf => Inf
  | Fin m e => if e <? 0 then float_div (m * k) (2 ^ (- e)) else float_div (m * k * 2 ^ e) 1
  end.

(** [int64(x)]: towards zero. Out of range the result depends on the machine. *)
Definition float_int64 (out_of_range : Z) (x : float64) : Z :=
  match x with
  | Inf => out_of_range
  | Fin m e =>
      let v := if e <? 0 then m / 2 ^ (- e) else m * 2 ^ e in
      if v <? 2 ^ 63 then v else out_of_range
  end.

(** [strconv.ParseFloat] of the digits [i], a point and the digits [f]; [None]
    when the number is too large. *)
Definition ParseFloat (i f : string) : option float64 :=
  match float_div (digits_value 0 (i +:+ f)) (10 ^ Z.of_nat (String.length f)) with
  | Inf => None
  | x => Some x
  end.

(** ** Lemmas *)

(** An integer below 2^53 is a [float64]. *)
Lemma float_div_int n : 0 < n < 2 ^ 53 →
  ∃ e, e ≤ 0 ∧ float_div n 1 = Fin (n * 2 ^ (- e)) e.
Proof.
  intros Hn. exists (Z.log2 n - 52).
  pose proof (Z.log2_spec n ltac:(lia)) as [Hlo Hhi].
  assert (Z.log2 n < 53) as Hl by (apply Z.log2_lt_pow2; lia).
  pose proof (Z.log2_nonneg n) as Hl0. split; [lia|].
  assert (round_even n 1 (Z.log2 n - 52) = n * 2 ^ (52 - Z.log2 n)) as Hr.
  { unfold round_even. destruct (Z.ltb_spec (Z.log2 n - 52) 0) as [H|H].
    - rewrite Z.mod_1_r, Z.div_1_r. cbn [Z.mul Z.compare]. by replace (- (Z.log2 n - 52)) with (52 - Z.log2 n) by lia.
    - assert (Z.log2 n = 52) as -> by lia. change (1 * 2 ^ (52 - 52)) with 1.
      rewrite Z.mod_1_r, Z.div_1_r. change (2 ^ (52 - 52)) with 1. rewrite Z.mul_1_r. done. }
  unfold float_div. destruct (Z.eqb_spec n 0); [lia|].
  replace (Z.log2 n - Z.log2 1 - 52) with (Z.log2 n - 52) by (cbn; lia). rewrite Hr.
  assert (2 ^ 52 ≤ n * 2 ^ (52 - Z.log2 n) < 2 ^ 53) as Hm.
  { replace (2 ^ 52) with (2 ^ Z.log2 n * 2 ^ (52 - Z.log2 n)) by (rewrite <- Z.pow_add_r by lia; f_equal; lia).
    replace (2 ^ 53) with (2 ^ (Z.succ (Z.log2 n)) * 2 ^ (52 - Z.log2 n)) by (rewrite <- Z.pow_add_r by lia; f_equal; lia).
    pose proof (Z.pow_pos_nonneg 2 (52 - Z.log2 n)). nia. }
  destruct (Z.ltb_spec (n * 2 ^ (52 - Z.log2 n)) (2 ^ 52)); [lia|].
  rewrite Z.max_l by lia. rewrite Hr.
  replace (52 - Z.log2 n) with (- (Z.log2 n - 52)) in * by lia.
  assert (((if Z.log2 n - 52 <? 0 then n * 2 ^ (- (Z.log2 n - 52))
     else n * 2 ^ (- (Z.log2 n - 52)) * 2 ^ (Z.log2 n - 52)) <? 2 ^ 1024) = true) as ->; [|done].
  apply Z.ltb_lt. assert (2 ^ 53 < 2 ^ 1024) by (by vm_compute).
  destruct (Z.ltb_spec (Z.log2 n - 52) 0); [lia|].
  assert (Z.log2 n = 52) as E by lia. rewrite E in *. cbn in *. lia.
Qed.

(** A quotient does not depend on a common factor. *)
Lemma round_even_scale n d e c : 0 < d → 0 < c → round_even (n * c) (d * c) e = round_even n d e.
Proof.
  intros Hd Hc. unfold round_even.
  assert (∀ n d, 0 < d →
    match 2 * ((n * c) mod (d * c)) ?= d * c with
    | Lt => n * c / (d * c)
    | Gt => n * c / (d * c) + 1
    | Eq => if Z.even (n * c / (d * c)) then n * c / (d * c) else n * c / (d * c) + 1
    end =
    match 2 * (n mod d) ?= d with
    | Lt => n / d | Gt => n / d + 1 | Eq => if Z.even (n / d) then n / d else n / d + 1
    end) as Hg.
  { clear n d Hd. intros n d Hd. rewrite Z.div_mul_cancel_r, Z.mul_mod_distr_r by lia.
    replace (2 * (n mod d * c)) with (2 * (n mod d) * c) by lia.
    by rewrite <- (Zmult_compare_compat_r _ d c) by lia. }
  destruct (Z.ltb_spec e 0).
  - rewrite <- (Hg (n * 2 ^ (- e)) d Hd). by replace (n * c * 2 ^ (- e)) with (n * 2 ^ (- e) * c) by lia.
  - rewrite <- (Hg n (d * 2 ^ e)) by (pose proof (Z.pow_pos_nonneg 2 e); lia).
    by replace (d * c * 2 ^ e) with (d * 2 ^ e * c) by lia.
Qed.

Lemma float_div_scale n d j : 0 ≤ n → 0 < d → 0 ≤ j →
  float_div (n * 2 ^ j) (d * 2 ^ j) = float_div n d.
Proof.
  intros Hn Hd Hj. pose proof (Z.pow_pos_nonneg 2 j ltac:(lia) Hj). unfold float_div.
  destruct (Z.eqb_spec n 0) as [->|]; [done|]. destruct (Z.eqb_spec (n * 2 ^ j) 0); [nia|].
  rewrite !Z.log2_mul_pow2 by lia.
  replace (j + Z.log2 n - (j + Z.log2 d) - 52) with (Z.log2 n - Z.log2 d - 52) by lia.
  by rewrite !round_even_scale by lia.
Qed.

(** Exact as long as the result has at most 53 bits. *)
Lemma float_mul_int out ds k :
  all_digits ds = true → 0 < k → digits_value 0 ds * k < 2 ^ 53 →
  ∃ x, ParseFloat ds "" = Some x ∧ float_int64 out (float_mul x k) = digits_value 0 ds * k.
Proof.
  intros Hds Hk Hv. unfold ParseFloat.
  rewrite string_app_nil_r.
  change (10 ^ Z.of_nat (String.length "")) with 1. set (v := digits_value 0 ds) in *.
  pose proof (digits_value_nonneg 0 ds Hds ltac:(lia)) as Hv0. fold v in Hv0.
  destruct (Z.eq_dec v 0) as [E|E].
  { rewrite E in *. exists (Fin 0 0). by split. }
  destruct (float_div_int v ltac:(nia)) as (e & He & ->). eexists. split; [done|].
  assert (float_mul (Fin (v * 2 ^ (- e)) e) k = float_div (v * k) 1) as ->.
  { unfold float_mul. destruct (Z.ltb_spec e 0).
    - rewrite <- (float_div_scale (v * k) 1 (- e)) by nia. f_equal; lia.
    - assert (e = 0) as -> by lia. f_equal. cbn. lia. }
  destruct (float_div_int (v * k) ltac:(nia)) as (e' & He' & ->). unfold float_int64.
  pose proof (Z.pow_pos_nonneg 2 (- e') ltac:(lia) ltac:(lia)).
  assert ((if e' <? 0 then v * k * 2 ^ (- e') / 2 ^ (- e') else v * k * 2 ^ (- e') * 2 ^ e') = v * k) as ->.
  { destruct (Z.ltb_spec e' 0); [apply Z.div_mul; lia|]. assert (e' = 0) as -> by lia. cbn. lia. }
  destruct (Z.ltb_spec (v * k) (2 ^ 63)); lia.
Qed.

(** Halfway cases go to the even neighbour, large numbers are rounded, and the
    largest number is not infinite. *)
Example float_examples :
  float_int64 0 (float_div 9007199254740993 1) = 9007199254740992 ∧
  float_int64 0 (float_div 9007199254740995 1) = 9007199254740996 ∧
  float_int64 0 (float_mul (float_div 5 10) 1000000000) = 500000000 ∧
  float_div (2 ^ 1024 - 2 ^ 970) 1 = Inf ∧ float_div (2 ^ 1024 - 2 ^ 970 - 1) 1 ≠ Inf ∧
  float_div 1 (2 ^ 1075) = Fin 0 (-1074) ∧ float_div 3 (2 ^ 1076) = Fin 1 (-1074).
Proof. by vm_compute. Qed.
