(* ===== verification/GoText.v ===== *)
(** * GoText: text in Go: spaces, case, booleans, HTTP headers

    [strings.TrimSpace], [strings.ToUpper], [strconv.ParseBool], splitting and
    joining, and the headers of package net/http with the way the sources read
    them from settings. *)

From S2P Require Import Prelude GoCore.

Definition bytes (l : list nat) : string := String.string_of_list_ascii (ascii_of_nat <$> l).

(** ** Spaces *)

(** The encodings of the spaces of [unicode.IsSpace]. *)
Definition space_runes : list string :=
  bytes <$> ([[9]; [10]; [11]; [12]; [13]; [32]; [194; 133]; [194; 160]; [225; 154; 128]]
    ++ ((λ n, [226; 128; n]) <$> seq 128 11)
    ++ [[226; 128; 168]; [226; 128; 169]; [226; 128; 175]; [226; 129; 159]; [227; 128; 128]])%nat.

Fixpoint strip_prefix (p s : string) : option string :=
  match p, s with
  | EmptyString, _ => Some s
  | String c p, String d s => if Ascii.eqb c d then strip_prefix p s else None
  | _, EmptyString => None
  end.

Fixpoint strip_any (ps : list string) (s : string) : option string :=
  match ps with
  | [] => None
  | p :: ps => match strip_prefix p s with Some r => Some r | None => strip_any ps s end
  end.

(** Some prefixes, none of them empty, as often as they come. *)
Fixpoint trim_left (fuel : nat) (ps : list string) (s : string) : string :=
  match fuel with
  | O => s
  | S fuel => match strip_any ps s with Some r => trim_left fuel ps r | None => s end
  end.

Definition rev_string (s : string) : string :=
  String.string_of_list_ascii (reverse (String.list_ascii_of_string s)).

Definition TrimSpace (s : string) : string :=
  let l := trim_left (String.length s) space_runes s in
  rev_string (trim_left (String.length l) (rev_string <$> space_runes) (rev_string l)).

(** ** Case *)

Definition upper_char (c : ascii) : ascii := if within 97 122 (byte_of c) then ascii_of_nat (nat_of_ascii c - 32) else c.
Definition lower_char (c : ascii) : ascii := if within 65 90 (byte_of c) then ascii_of_nat (nat_of_ascii c + 32) else c.

(** [strings.ToUpper], as far as it gives ASCII letters: the ASCII ones, and the
    two letters beyond ASCII (U+0131, U+017F) whose upper case is one. *)
Fixpoint ToUpper (s : string) : string :=
  match s with
  | EmptyString => EmptyString
  | String c s1 =>
      match s1 with
      | String d s2 =>
          if (byte_of c =? 196) && (byte_of d =? 177) then String "I" (ToUpper s2)
          else if (byte_of c =? 197) && (byte_of d =? 191) then String "S" (ToUpper s2)
          else String (upper_char c) (ToUpper s1)
      | EmptyString => String (upper_char c) EmptyString
      end
  end.

(** [strings.EqualFold] with a word of ASCII letters: besides their cases, U+017F
    folds to [s] and the Kelvin sign U+212A to [k]. *)
Fixpoint fold_ascii (s : string) : string :=
  match s with
  | EmptyString => EmptyString
  | String c s1 =>
      match s1 with
      | String d s2 =>
          if (byte_of c =? 197) && (byte_of d =? 191) then String "s" (fold_ascii s2) else
          match s2 with
          | String e s3 =>
              if (byte_of c =? 226) && (byte_of d =? 132) && (byte_of e =? 170) then String "k" (fold_ascii s3)
              else String (lower_char c) (fold_ascii s1)
          | EmptyString => String (lower_char c) (fold_ascii s1)
          end
      | EmptyString => String (lower_char c) EmptyString
      end
  end.
Definition EqualFoldWord (s word : string) : bool := String.eqb (fold_ascii s) (fold_ascii word).

(** ** Booleans *)

(** [strconv.ParseBool]; [None] is the error. *)
Definition ParseBool (s : string) : option bool :=
  if existsb (String.eqb s) ["1"; "t"; "T"; "true"; "TRUE"; "True"] then Some true
  else if existsb (String.eqb s) ["0"; "f"; "F"; "false"; "FALSE"; "False"] then Some false
  else None.

(** ** Headers *)

Definition is_letter (c : ascii) : bool := within 65 90 (byte_of c) || within 97 122 (byte_of c).

(** The bytes of a header's name. *)
Definition is_token (c : ascii) : bool :=
  is_letter c || is_digit c || ContainsChar "!#$%&'*+-.^_`|~" c.

Fixpoint canonical (upper : bool) (s : string) : string :=
  match s with
  | EmptyString => EmptyString
  | String c s => String (if upper then upper_char c else lower_char c) (canonical (Ascii.eqb c "-") s)
  end.

Fixpoint all_token (s : string) : bool :=
  match s with EmptyString => true | String c s => is_token c && all_token s end.

(** [textproto.CanonicalMIMEHeaderKey] *)
Definition CanonicalHeaderKey (s : string) : string := if all_token s then canonical true s else s.

Definition Header : Type := gmap string string.

(** [Header.Set]: one value under the canonical name. *)
Definition Header_Set (key value : string) (h : Header) : Header := <[CanonicalHeaderKey key := value]> h.

(** [kv := strings.Split(h, ":")], [kv[0]] and [strings.TrimSpace(kv[1])]; [None]
    is the panic of an index that is out of range. *)
Definition header_parts (h : string) : option (string * string) :=
  match Split ":" h with
  | k :: v :: _ => Some (k, TrimSpace v)
  | _ => None
  end.

Example TrimSpace_examples :
  TrimSpace "  a b  " = "a b" ∧ TrimSpace "" = "" ∧ TrimSpace "   " = "" ∧
  TrimSpace (bytes [194; 160; 97; 226; 128; 169]%nat) = "a".
Proof. by vm_compute. Qed.

Example header_examples :
  header_parts "content-type: text/plain" = Some ("content-type", "text/plain") ∧
  header_parts "Referer: https://dkron.io" = Some ("Referer", "https") ∧
  header_parts "Accept" = None ∧
  CanonicalHeaderKey "content-type" = "Content-Type" ∧ CanonicalHeaderKey "a b" = "a b" ∧
  EqualFoldWord "HoSt" "host" = true ∧ ToUpper "mb" = "MB".
Proof. by vm_compute. Qed.

(** ** Lemmas *)

(** What contains no separator is split as it was joined. *)
Lemma Split_absent c s : ContainsChar s c = false → Split c s = [s].
Proof.
  induction s as [|d s IH]; [done|]. cbn. intros [Hd Hs]%orb_false_elim. by rewrite Hd, (IH Hs).
Qed.

Lemma Split_app c s t : ContainsChar s c = false → Split c (s +:+ String c t) = s :: Split c t.
Proof.
  induction s as [|d s IH]; intros Hs.
  - change ("" +:+ String c t) with (String c t). cbn. by rewrite Ascii.eqb_refl.
  - cbn in Hs. apply orb_false_elim in Hs as [Hd Hs].
    change (String d s +:+ String c t) with (String d (s +:+ String c t)). cbn. by rewrite Hd, (IH Hs).
Qed.

Lemma Split_Join c ps : ps ≠ [] → Forall (λ p, ContainsChar p c = false) ps → Split c (Join c ps) = ps.
Proof.
  intros Hne Hps. induction Hps as [|p [|q ps] Hp Hps IH]; [done|by apply Split_absent|].
  by rewrite Join_cons, Split_app, IH.
Qed.

(** A header with exactly one colon is read as it is written. *)
Lemma header_parts_colon k v : ContainsChar k ":" = false → ContainsChar v ":" = false →
  header_parts (k +:+ String ":" v) = Some (k, TrimSpace v).
Proof. intros Hk Hv. unfold header_parts. by rewrite Split_app, Split_absent. Qed.

Lemma header_parts_panics h : ContainsChar h ":" = false ↔ header_parts h = None.
Proof.
  split; [intros Hh; unfold header_parts; by rewrite Split_absent|].
  intros Hh. apply not_true_iff_false. intros Hc. unfold header_parts in Hh.
  destruct (Split ":" h) as [|p [|q ps]] eqn:E; [by apply Split_not_nil in E| |done].
  pose proof (Join_Split ":" h) as Hj. rewrite E in Hj. cbn in Hj. subst p.
  clear Hh. revert E. induction h as [|c h IH]; [done|]. cbn in Hc |- *.
  destruct (Ascii.eqb c ":"); cbn in Hc; [by intros [= E ?]|].
  destruct (Split ":" h) as [|p ps] eqn:E'; [by apply Split_not_nil in E'|]. intros [= -> ->]. by apply IH.
Qed.

(** [Contains] finds a part. *)
Lemma HasPrefix_spec s p : HasPrefix s p = true ↔ ∃ b, s = p +:+ b.
Proof.
  split; [|intros [b ->]; apply HasPrefix_app]. unfold HasPrefix. revert s. induction p as [|c p IH]; intros s.
  - by exists s.
  - destruct s as [|d s]; [done|]. cbn. destruct (ascii_dec c d) as [->|]; [|done].
    intros [b ->]%IH. by exists b.
Qed.
