(* ===== verification/GoNet.v ===== *)
(** * GoNet: addresses in Go's package net

    Addresses with ports as text ([SplitHostPort], [JoinHostPort]), and IP
    addresses: their classes, their text, and [ParseIP]. *)

From S2P Require Import Prelude GoCore.

(** ** Host and port *)

Record AddrError := mkAddrError { Err : string; Addr : string }.

(** [AddrError.Error] *)
Definition AddrError_Error (e : AddrError) : string :=
  if String.eqb (Addr e) "" then Err e else "address " +:+ Addr e +:+ ": " +:+ Err e.

Definition missingPort : string := "missing port in address".
Definition tooManyColons : string := "too many colons in address".

(** What follows an opening bracket. *)
Definition bracketed (s : string) : option string :=
  match s with String c j => if Ascii.eqb c "[" then Some j else None | EmptyString => None end.

(** The port starts after the last colon; the host may be in brackets, and the
    first closing one has to be just before that colon. *)
Definition SplitHostPort (hostport : string) : string * string + AddrError :=
  let addrErr why := inr (mkAddrError why hostport) in
  let checked host port j k : string * string + AddrError :=
    if ContainsChar j "[" then addrErr "unexpected '[' in address"
    else if ContainsChar k "]" then addrErr "unexpected ']' in address"
    else inl (host, port) in
  match cut_last ":" hostport with
  | None => addrErr missingPort
  | Some (before, port) =>
      match bracketed hostport with
      | Some j =>
          match cut "]" j with
          | None => addrErr "missing ']' in address"
          | Some (host, k) =>
              match k with
              | EmptyString => addrErr missingPort
              | String c k' =>
                  if negb (Ascii.eqb c ":") then addrErr missingPort
                  else if ContainsChar k' ":" then addrErr tooManyColons
                  else checked host port j k
              end
          end
      | None => if ContainsChar before ":" then addrErr tooManyColons else checked before port hostport hostport
      end
  end.

Definition JoinHostPort (host port : string) : string :=
  if ContainsChar host ":" then "[" +:+ host +:+ "]:" +:+ port else host +:+ ":" +:+ port.

(** [(&net.TCPAddr{IP: ..., Port: ...}).String()], from the text of the address. *)
Definition TCPAddr_String (ip : string) (port : Z) : string := JoinHostPort ip (pretty port).

(** No brackets. *)
Definition plain (s : string) : bool := negb (ContainsChar s "[") && negb (ContainsChar s "]").

Lemma plain_app s t : plain (s +:+ t) = plain s && plain t.
Proof.
  unfold plain. rewrite !ContainsChar_app.
  by destruct (ContainsChar s "["), (ContainsChar s "]"), (ContainsChar t "["), (ContainsChar t "]").
Qed.

Lemma plain_cons c s : plain (String c s) = negb (Ascii.eqb c "[") && negb (Ascii.eqb c "]") && plain s.
Proof.
  unfold plain. cbn. by destruct (Ascii.eqb c "["), (Ascii.eqb c "]"), (ContainsChar s "["), (ContainsChar s "]").
Qed.

Lemma plain_spec s : plain s = true ↔ ContainsChar s "[" = false ∧ ContainsChar s "]" = false.
Proof. unfold plain. rewrite andb_true_iff, !negb_true_iff. done. Qed.

Lemma is_digit_ne c d : is_digit c = true → is_digit d = false → Ascii.eqb c d = false.
Proof. intros Hc Hd. apply Ascii.eqb_neq. intros ->. by rewrite Hd in Hc. Qed.

Lemma all_digits_plain s : all_digits s = true → plain s = true ∧ ContainsChar s ":" = false.
Proof.
  induction s as [|c s IH]; [done|]. cbn [all_digits]. intros [Hc Hs]%andb_prop.
  destruct (IH Hs) as [H1 H2]. rewrite plain_cons, H1. cbn [ContainsChar]. rewrite H2.
  assert (∀ d, is_digit d = false → Ascii.eqb c d = false) as Hne by (intros d; by apply is_digit_ne).
  by rewrite !Hne.
Qed.

(** What is joined is split again. *)
Lemma SplitHostPort_JoinHostPort host port :
  plain host = true → plain port = true → ContainsChar port ":" = false →
  SplitHostPort (JoinHostPort host port) = inl (host, port).
Proof.
  intros [Ho Hc]%plain_spec [Po Pc]%plain_spec Hp. unfold JoinHostPort. destruct (ContainsChar host ":") eqn:E.
  - change ("[" +:+ host +:+ "]:" +:+ port) with (String "[" (host +:+ String "]" (String ":" port))).
    unfold SplitHostPort. assert (cut_last ":" (String "[" (host +:+ String "]" (String ":" port))) =
      Some (String "[" (host +:+ "]"), port)) as ->.
    { rewrite <- (cut_last_app ":" (String "[" (host +:+ "]")) port Hp). f_equal.
      change (String "[" (host +:+ "]") +:+ String ":" port) with (String "[" ((host +:+ "]") +:+ String ":" port)).
      by rewrite string_app_assoc. }
    cbn [bracketed]. rewrite Ascii.eqb_refl, cut_app by done. cbn [negb Ascii.eqb]. rewrite ContainsChar_app.
    cbn. by rewrite Hp, Ho, Po, Pc.
  - change (host +:+ ":" +:+ port) with (host +:+ String ":" port). unfold SplitHostPort.
    rewrite cut_last_app by done. rewrite E, !ContainsChar_app, Ho, Hc. cbn. rewrite Po, Pc.
    destruct host as [|c host]; [done|]. change (String c host +:+ String ":" port) with (String c (host +:+ String ":" port)).
    cbn in Ho |- *. by destruct (Ascii.eqb c "[").
Qed.

(** The error is a missing port, and adding one does not help, exactly when
    something else than a colon follows the first closing bracket. *)
Definition stuck (address : string) : bool :=
  match bracketed address with
  | Some j => match cut "]" j with Some (_, String c _) => negb (Ascii.eqb c ":") | _ => false end
  | None => false
  end.

Lemma bracketed_app s t j : bracketed s = Some j → bracketed (s +:+ t) = Some (j +:+ t).
Proof.
  destruct s as [|c s]; [done|]. change (String c s +:+ t) with (String c (s +:+ t)). cbn.
  destruct (Ascii.eqb c "["); [by intros [= ->]|done].
Qed.

Lemma bracketed_None_app s t : s ≠ "" → bracketed s = None → bracketed (s +:+ t) = None.
Proof.
  destruct s as [|c s]; [done|]. change (String c s +:+ t) with (String c (s +:+ t)). cbn. by destruct (Ascii.eqb c "[").
Qed.

Lemma stuck_app s t : stuck s = true → stuck (s +:+ t) = true.
Proof.
  unfold stuck. destruct (bracketed s) as [j|] eqn:Hb; [|done]. rewrite (bracketed_app _ t _ Hb).
  destruct (cut "]" j) as [[h k]|] eqn:Hc; [|done]. rewrite (cut_app_r _ _ t _ _ Hc). by destruct k as [|c k].
Qed.

Lemma stuck_missingPort s : stuck s = true → SplitHostPort s = inr (mkAddrError missingPort s).
Proof.
  unfold stuck, SplitHostPort. destruct (bracketed s) as [j|] eqn:Hb; [|done].
  destruct (cut "]" j) as [[h [|c k]]|]; [done| |done]. intros ->.
  by destruct (cut_last ":" s) as [[a b]|].
Qed.

Lemma bracket_errors (b c : bool) (hp : string * string) addr :
  match
    (if b then inr (mkAddrError "unexpected '[' in address" addr)
     else if c then inr (mkAddrError "unexpected ']' in address" addr) else inl hp : string * string + AddrError)
  with inr e => Err e ≠ "missing port in address" | inl _ => True end.
Proof. destruct b; [discriminate|]. destruct c; [discriminate|]. exact I. Qed.

Lemma missingPort_added s e port :
  stuck s = false → SplitHostPort s = inr e → Err e = missingPort →
  plain port = true → ContainsChar port ":" = false →
  match SplitHostPort (s +:+ ":" +:+ port) with inr e' => Err e' ≠ missingPort | inl _ => True end.
Proof.
  intros Hs He Hm [Po Pc]%plain_spec Hp. unfold SplitHostPort, stuck, missingPort, tooManyColons in *.
  change (s +:+ ":" +:+ port) with (s +:+ String ":" port). rewrite (cut_last_app _ _ _ Hp).
  destruct (bracketed s) as [j|] eqn:Hb.
  - rewrite (bracketed_app _ _ _ Hb). destruct (cut "]" j) as [[h k]|] eqn:Hc.
    + rewrite (cut_app_r _ _ _ _ _ Hc). destruct k as [|c k].
      * change ("" +:+ String ":" port) with (String ":" port). cbn beta iota. rewrite Ascii.eqb_refl, Hp. cbn [negb].
        by apply bracket_errors.
      * destruct (Ascii.eqb_spec c ":") as [->|]; [|done]. cbn in He.
        exfalso. destruct (cut_last ":" s) as [[a b]|] eqn:Hl; [by destruct (ContainsChar _ ":"), (ContainsChar _ "["), (ContainsChar _ "]"); simplify_eq|].
        apply cut_last_None in Hl. apply cut_spec in Hc as [-> _]. destruct s as [|d s]; [done|]. cbn in Hb, Hl.
        destruct (Ascii.eqb d "["); [|done]. injection Hb as ->.
        rewrite ContainsChar_app in Hl. cbn in Hl. by rewrite !orb_true_r in Hl.
    + assert (ContainsChar (j +:+ String ":" port) "]" = false) as Hj%cut_None.
      { apply cut_None in Hc. rewrite ContainsChar_app, Hc. exact Pc. }
      by rewrite Hj.
  - destruct (cut_last ":" s) as [[a b]|] eqn:Hl; [by destruct (ContainsChar _ ":"), (ContainsChar _ "["), (ContainsChar _ "]"); simplify_eq|].
    apply cut_last_None in Hl. rewrite Hl.
    destruct (decide (s = "")) as [->|Hne]; [by apply bracket_errors|].
    rewrite bracketed_None_app by done. by apply bracket_errors.
Qed.

(** What is around the first closing bracket after one that opens an address. *)
Definition closing (s : string) : option (string * string) :=
  match bracketed s with Some j => cut "]" j | None => None end.

Lemma stuck_closing s :
  stuck s = match closing s with Some (_, String c _) => negb (Ascii.eqb c ":") | _ => false end.
Proof. unfold stuck, closing. by destruct (bracketed s). Qed.

Lemma closing_missingPort s e : SplitHostPort s = inr e → Err e = missingPort → ContainsChar s ":" = true →
  (∃ h, closing s = Some (h, "")) ∨ stuck s = true.
Proof.
  intros He Hm Hc. rewrite stuck_closing. unfold closing, SplitHostPort, missingPort, tooManyColons in *.
  destruct (cut_last ":" s) as [[a b]|] eqn:Hl; [|apply cut_last_None in Hl; congruence].
  destruct (bracketed s) as [j|].
  - destruct (cut "]" j) as [[h [|c k]]|]; [left; by exists h| |by simplify_eq].
    right. destruct (Ascii.eqb c ":"); [|done]. cbn in He.
    exfalso. by repeat case_match; simplify_eq.
  - exfalso. by repeat case_match; simplify_eq.
Qed.

Lemma closing_JoinHostPort a p : ContainsChar p "]" = false →
  closing (JoinHostPort a p) =
    if ContainsChar a ":" then
      match cut "]" a with Some (h, k) => Some (h, k +:+ "]:" +:+ p) | None => Some (a, ":" +:+ p) end
    else match closing a with Some (h, k) => Some (h, k +:+ ":" +:+ p) | None => None end.
Proof.
  intros Hp. unfold JoinHostPort, closing. destruct (ContainsChar a ":") eqn:Ha.
  - change ("[" +:+ a +:+ "]:" +:+ p) with (String "[" (a +:+ String "]" (":" +:+ p))).
    cbn [bracketed]. rewrite Ascii.eqb_refl. destruct (cut "]" a) as [[h k]|] eqn:Hc.
    + by rewrite (cut_app_r _ _ _ _ _ Hc).
    + apply cut_None in Hc. by rewrite cut_app.
  - destruct (bracketed a) as [j|] eqn:Hb.
    + rewrite (bracketed_app _ _ _ Hb). destruct (cut "]" j) as [[h k]|] eqn:Hc; [by rewrite (cut_app_r _ _ _ _ _ Hc)|].
      apply cut_None. apply cut_None in Hc. change (j +:+ ":" +:+ p) with (j +:+ String ":" p).
      rewrite ContainsChar_app, Hc. exact Hp.
    + destruct (decide (a = "")) as [->|Hne]; [done|]. by rewrite bracketed_None_app.
Qed.

Lemma ContainsChar_JoinHostPort a p : ContainsChar (JoinHostPort a p) ":" = true.
Proof.
  unfold JoinHostPort. destruct (ContainsChar a ":") eqn:Ha; rewrite !ContainsChar_app, ?Ha; [apply orb_true_r|done].
Qed.

(** An IPv6 address in brackets without a port, and in two pairs of brackets. *)
Lemma bracketed_missingPort h : ContainsChar h "]" = false → ContainsChar h ":" = true →
  SplitHostPort ("[" +:+ h +:+ "]") = inr (mkAddrError missingPort ("[" +:+ h +:+ "]")).
Proof.
  intros Hc Hcol. change ("[" +:+ h +:+ "]") with (String "[" (h +:+ String "]" "")). unfold SplitHostPort.
  cbn [bracketed]. rewrite Ascii.eqb_refl, cut_app by done.
  by destruct (cut_last ":" (String "[" (h +:+ String "]" ""))) as [[]|].
Qed.

(** ** IP addresses *)

(** Four bytes, or eight groups of 16 bits. *)
Inductive IP : Type :=
  | IPv4 (a b c d : Z)
  | IPv6 (groups : list Z).

#[global] Instance IP_eq_dec : EqDecision IP.
Proof. solve_decision. Defined.

Definition IP_ok (ip : IP) : Prop :=
  match ip with
  | IPv4 a b c d => Forall (λ x, 0 ≤ x < 256) [a; b; c; d]
  | IPv6 gs => length gs = 8%nat ∧ Forall (λ x, 0 ≤ x < 65536) gs
  end.

Definition IsUnspecified (ip : IP) : bool :=
  match ip with IPv4 0 0 0 0 => true | IPv4 _ _ _ _ => false | IPv6 gs => forallb (Z.eqb 0) gs end.
Definition IsLoopback (ip : IP) : bool :=
  match ip with IPv4 a _ _ _ => a =? 127 | IPv6 gs => bool_decide (gs = [0; 0; 0; 0; 0; 0; 0; 1]) end.
Definition IsMulticast (ip : IP) : bool :=
  match ip with
  | IPv4 a _ _ _ => Z.land a 240 =? 224
  | IPv6 (g :: _) => Z.shiftr g 8 =? 255
  | IPv6 [] => false
  end.
Definition IsLinkLocalUnicast (ip : IP) : bool :=
  match ip with
  | IPv4 a b _ _ => (a =? 169) && (b =? 254)
  | IPv6 (g :: _) => Z.land g 65472 =? 65152
  | IPv6 [] => false
  end.
Definition IsGlobalUnicast (ip : IP) : bool :=
  negb (bool_decide (ip = IPv4 255 255 255 255)) && negb (IsUnspecified ip) && negb (IsLoopback ip)
  && negb (IsMulticast ip) && negb (IsLinkLocalUnicast ip).

(** *** Text *)

Definition hex_digit (n : Z) : ascii :=
  match String.get (Z.to_nat n) "0123456789abcdef" with Some c => c | None => "0" end.

(** At most four digits, no leading zeros. *)
Definition hex16 (n : Z) : string :=
  (if n <? 4096 then "" else String (hex_digit (n / 4096)) "")
  +:+ (if n <? 256 then "" else String (hex_digit (n / 256 mod 16)) "")
  +:+ (if n <? 16 then "" else String (hex_digit (n / 16 mod 16)) "")
  +:+ String (hex_digit (n mod 16)) "".

Fixpoint zero_run (gs : list Z) : nat :=
  match gs with 0 :: gs => S (zero_run gs) | _ => O end.

(** The first of the longest runs of at least two zeros: its index and length. *)
Fixpoint longest_run (i : nat) (best : nat * nat) (gs : list Z) : nat * nat :=
  match gs with
  | [] => best
  | _ :: gs' =>
      let l := zero_run gs in
      longest_run (S i) (if Nat.leb 2 l && Nat.ltb best.2 l then (i, l) else best) gs'
  end.

Fixpoint join_groups (gs : list Z) : string :=
  match gs with
  | [] => ""
  | [g] => hex16 g
  | g :: gs => hex16 g +:+ ":" +:+ join_groups gs
  end.

Definition IP_String (ip : IP) : string :=
  match ip with
  | IPv4 a b c d => pretty a +:+ "." +:+ pretty b +:+ "." +:+ pretty c +:+ "." +:+ pretty d
  | IPv6 gs =>
      let (start, l) := longest_run 0 (O, O) gs in
      if Nat.eqb l 0 then join_groups gs
      else join_groups (take start gs) +:+ "::" +:+ join_groups (drop (start + l) gs)
  end.

Lemma pretty_plain n : 0 ≤ n → plain (pretty n) = true.
Proof. intros Hn. by apply all_digits_plain, pretty_digits. Qed.
Lemma pretty_no_colon n : 0 ≤ n → ContainsChar (pretty n) ":" = false.
Proof. intros Hn. by apply all_digits_plain, pretty_digits. Qed.

Lemma hex_digit_plain n : plain (String (hex_digit n) "") = true.
Proof.
  unfold hex_digit. generalize (Z.to_nat n) as m. intros m. by do 16 (destruct m as [|m]; [done|]).
Qed.

Lemma hex16_plain n : plain (hex16 n) = true.
Proof. unfold hex16. rewrite !plain_app, hex_digit_plain. repeat case_match; by rewrite ?hex_digit_plain. Qed.

Lemma join_groups_plain gs : plain (join_groups gs) = true.
Proof.
  induction gs as [|g [|h gs] IH]; [done|apply hex16_plain|].
  change (join_groups (g :: h :: gs)) with (hex16 g +:+ ":" +:+ join_groups (h :: gs)).
  by rewrite !plain_app, hex16_plain, IH.
Qed.

Lemma IP_String_plain ip : IP_ok ip → plain (IP_String ip) = true.
Proof.
  destruct ip as [a b c d|gs]; cbn [IP_ok IP_String]; intros Hok.
  - rewrite !Forall_cons in Hok. destruct Hok as (Ha & Hb & Hc & Hd & _).
    rewrite !plain_app. by rewrite !pretty_plain by lia.
  - destruct (longest_run 0 (O, O) gs) as [start l]. destruct (Nat.eqb l 0); [apply join_groups_plain|].
    by rewrite !plain_app, !join_groups_plain.
Qed.

(** *** [ParseIP] *)

Definition hex_value (c : ascii) : option Z :=
  let b := byte_of c in
  if within 48 57 b then Some (b - 48)
  else if within 97 102 b then Some (b - 87)
  else if within 65 70 b then Some (b - 55)
  else None.

(** One field of a dotted address: digits without a leading zero. *)
Definition parse_octet (s : string) : option Z :=
  if String.eqb s "" || negb (all_digits s) || (HasPrefix s "0" && negb (String.eqb s "0")) then None
  else let v := digits_value 0 s in if v <=? 255 then Some v else None.

Definition parseIPv4 (s : string) : option (Z * Z * Z * Z) :=
  match parse_octet <$> Split "." s with
  | [Some a; Some b; Some c; Some d] => Some (a, b, c, d)
  | _ => None
  end.

(** The digits of a group, at most four, and what follows; [None] when there are
    more. The number of digits comes first. *)
Fixpoint span_hex (n : nat) (acc : Z) (s : string) : option (nat * Z * string) :=
  match s with
  | EmptyString => Some (n, acc, s)
  | String c s' =>
      match hex_value c with
      | None => Some (n, acc, s)
      | Some v => if Nat.ltb 3 n then None else span_hex (S n) (acc * 16 + v) s'
      end
  end.

(** The groups of the address, from the one at [i] (of eight) on; [ellipsis] is
    the index of the [::] that was read. *)
Fixpoint parse_groups (fuel : nat) (ellipsis : option nat) (gs : list Z) (s : string)
    : option (option nat * list Z * string) :=
  match fuel with
  | O => Some (ellipsis, gs, s)
  | S fuel =>
      match span_hex 0 0 s with
      | None | Some (O, _, _) => None
      | Some (_, acc, rest) =>
          let i := length gs in
          match rest with
          | EmptyString => Some (ellipsis, gs ++ [acc], "")
          | String "." _ =>
              if (bool_decide (ellipsis = None) && negb (Nat.eqb i 6)) || Nat.ltb 8 (i + 2) then None
              else match parseIPv4 s with
                   | Some (a, b, c, d) => Some (ellipsis, gs ++ [a * 256 + b; c * 256 + d], "")
                   | None => None
                   end
          | String ":" EmptyString => None
          | String ":" (String ":" rest') =>
              match ellipsis with
              | Some _ => None
              | None =>
                  if String.eqb rest' "" then Some (Some (S i), gs ++ [acc], "")
                  else parse_groups fuel (Some (S i)) (gs ++ [acc]) rest'
              end
          | String ":" rest => parse_groups fuel ellipsis (gs ++ [acc]) rest
          | _ => None
          end
      end
  end.

Definition parseIPv6 (s : string) : option (list Z) :=
  let '(ellipsis, s) :=
    match s with String ":" (String ":" s') => (Some O, s') | _ => (None, s) end in
  if bool_decide (ellipsis = Some O) && String.eqb s "" then Some (replicate 8 0) else
  match parse_groups 8 ellipsis [] s with
  | Some (ellipsis, gs, "") =>
      match ellipsis with
      | Some e =>
          if Nat.ltb (length gs) 8 then Some (take e gs ++ replicate (8 - length gs) 0 ++ drop e gs) else None
      | None => if Nat.eqb (length gs) 8 then Some gs else None
      end
  | _ => None
  end.

(** A dot, a colon or a percent sign comes first; an address with a zone is no
    [IP], and one that is mapped from four bytes is one of four. *)
Fixpoint ip_kind (s : string) : option ascii :=
  match s with
  | EmptyString => None
  | String c s => if Ascii.eqb c "." || Ascii.eqb c ":" || Ascii.eqb c "%" then Some c else ip_kind s
  end.

Definition ParseIP (s : string) : option IP :=
  if ContainsChar s "%" then None else
  match ip_kind s with
  | Some "."%char => '(a, b, c, d) ← parseIPv4 s; Some (IPv4 a b c d)
  | Some ":"%char =>
      gs ← parseIPv6 s;
      Some (match gs with
            | [0; 0; 0; 0; 0; 65535; g; h] => IPv4 (g / 256) (g mod 256) (h / 256) (h mod 256)
            | _ => IPv6 gs
            end)
  | _ => None
  end.

Example ParseIP_examples :
  ParseIP "192.168.0.1" = Some (IPv4 192 168 0 1) ∧ ParseIP "192.168.00.1" = None ∧
  ParseIP "256.0.0.1" = None ∧ ParseIP "1.2.3" = None ∧ ParseIP "1.2.3.4:80" = None ∧
  ParseIP "::1" = Some (IPv6 [0; 0; 0; 0; 0; 0; 0; 1]) ∧ ParseIP "::" = Some (IPv6 (replicate 8 0)) ∧
  ParseIP "fe80::1:0:0:2" = Some (IPv6 [65152; 0; 0; 0; 1; 0; 0; 2]) ∧
  ParseIP "1:2:3:4:5:6:7::" = Some (IPv6 [1; 2; 3; 4; 5; 6; 7; 0]) ∧
  ParseIP "1:2:3:4:5:6:7:8" = Some (IPv6 [1; 2; 3; 4; 5; 6; 7; 8]) ∧
  ParseIP "1:2:3:4:5:6:7:8::" = None ∧ ParseIP "1::2::3" = None ∧ ParseIP ":1" = None ∧
  ParseIP "12345::" = None ∧ ParseIP "1:2:3:4:5:6:7" = None ∧ ParseIP "1:2:3:4:5:6:7:" = None ∧
  ParseIP "::ffff:1.2.3.4" = Some (IPv4 1 2 3 4) ∧ ParseIP "[::1]" = None ∧ ParseIP "host" = None ∧
  ParseIP "fe80::1%eth0" = None.
Proof. by vm_compute. Qed.

Example IP_String_examples :
  IP_String (IPv4 10 0 0 1) = "10.0.0.1" ∧ IP_String (IPv6 [0; 0; 0; 0; 0; 0; 0; 1]) = "::1" ∧
  IP_String (IPv6 (replicate 8 0)) = "::" ∧
  IP_String (IPv6 [65152; 0; 0; 0; 1; 0; 0; 2]) = "fe80::1:0:0:2" ∧
  IP_String (IPv6 [1; 0; 0; 2; 0; 0; 3; 4]) = "1::2:0:0:3:4" ∧
  IP_String (IPv6 [1; 0; 2; 3; 4; 5; 6; 7]) = "1:0:2:3:4:5:6:7" ∧
  IP_String (IPv6 [8193; 3512; 0; 0; 0; 0; 0; 0]) = "2001:db8::".
Proof. by vm_compute. Qed.

Lemma ip_kind_app_dot a b c : ip_kind a = Some c → ip_kind (a +:+ b) = Some c.
Proof.
  induction a as [|d a IH]; [done|]. change (String d a +:+ b) with (String d (a +:+ b)). cbn. by destruct (_ || _).
Qed.

(** Text with a colon is no dotted address. *)
Lemma parseIPv4_colon s : ContainsChar s ":" = true → parseIPv4 s = None.
Proof.
  intros Hs. unfold parseIPv4.
  assert (∀ p, ContainsChar p ":" = true → parse_octet p = None) as Hp.
  { intros p Hp. unfold parse_octet. destruct (all_digits p) eqn:Hd.
    - apply all_digits_plain in Hd as [_ Hd]. by rewrite Hd in Hp.
    - by rewrite orb_true_r. }
  rewrite <- (Join_Split "." s), ContainsChar_Join in Hs by done.
  destruct (Split "." s) as [|a [|b [|c [|d [|? ?]]]]]; cbn [fmap list_fmap] in *; try by repeat case_match.
  cbn in Hs. rewrite orb_false_r in Hs. apply orb_true_iff in Hs as [Hs|Hs]; [by rewrite (Hp a Hs)|].
  apply orb_true_iff in Hs as [Hs|Hs]; [rewrite (Hp b Hs)|apply orb_true_iff in Hs as [Hs|Hs];
    [rewrite (Hp c Hs)|rewrite (Hp d Hs)]]; by repeat case_match.
Qed.

Lemma parseIPv6_bracket s : parseIPv6 (String "[" s) = None.
Proof. done. Qed.

Lemma ip_kind_digits a t : all_digits a = true → ip_kind (a +:+ "." +:+ t) = Some "."%char.
Proof.
  induction a as [|c a IH]; [done|]. cbn [all_digits]. intros [Hc Ha]%andb_prop.
  change (String c a +:+ "." +:+ t) with (String c (a +:+ "." +:+ t)). cbn [ip_kind]. rewrite (IH Ha).
  assert (∀ d, is_digit d = false → Ascii.eqb c d = false) as Hne by (intros d; by apply is_digit_ne).
  by rewrite !Hne.
Qed.

Lemma IPv4_no_colon a b c d : IP_ok (IPv4 a b c d) → ContainsChar (IP_String (IPv4 a b c d)) ":" = false.
Proof.
  cbn [IP_ok IP_String]. rewrite !Forall_cons. intros (Ha & Hb & Hc & Hd & _).
  rewrite !ContainsChar_app. by rewrite !pretty_no_colon by lia.
Qed.

Lemma IPv6_colon gs : IP_ok (IPv6 gs) → ContainsChar (IP_String (IPv6 gs)) ":" = true.
Proof.
  cbn [IP_ok IP_String]. intros [Hl _]. destruct (longest_run 0 (O, O) gs) as [start l]. destruct (Nat.eqb l 0).
  - destruct gs as [|g [|h gs]]; [done..|].
    change (join_groups (g :: h :: gs)) with (hex16 g +:+ ":" +:+ join_groups (h :: gs)).
    rewrite !ContainsChar_app. cbn. by rewrite orb_true_r.
  - rewrite !ContainsChar_app. cbn. by rewrite orb_true_r.
Qed.

(** An address with a port is no IP address. *)
Lemma ParseIP_JoinHostPort ip port : IP_ok ip → ParseIP (JoinHostPort (IP_String ip) port) = None.
Proof.
  intros Hok. unfold ParseIP. destruct (ContainsChar _ "%"); [done|].
  assert (ContainsChar (JoinHostPort (IP_String ip) port) ":" = true) as Hcolon.
  { unfold JoinHostPort. destruct (ContainsChar (IP_String ip) ":") eqn:E; rewrite !ContainsChar_app, ?E; [done|].
    by rewrite orb_true_r. }
  destruct (ip_kind _) as [k|] eqn:Hk; [|done].
  destruct (decide (k = ".")%char) as [->|Hdot]; [by rewrite parseIPv4_colon|].
  destruct (decide (k = ":")%char) as [->|]; [|by repeat case_match].
  destruct ip as [a b c d|gs].
  - pose proof Hok as Hok'. cbn in Hok'. rewrite !Forall_cons in Hok'. destruct Hok' as (Ha & _). exfalso. apply Hdot.
    assert (ContainsChar (IP_String (IPv4 a b c d)) ":" = false) as E by (by apply IPv4_no_colon).
    unfold JoinHostPort in Hk. rewrite E in Hk.
    rewrite (ip_kind_app_dot _ _ "."%char) in Hk; [congruence|].
    apply ip_kind_digits, pretty_digits. lia.
  - unfold JoinHostPort. by rewrite IPv6_colon.
Qed.
