(* ===== verification/MemoryLimit.v ===== *)
(** * MemoryLimit: how much memory a job may use

    [validateMemoryLimit] of src/dkron/job.go, with which the server checks jobs,
    and [parseMemoryLimit] of src/plugin/shell/shell.go, with which the executor
    reads the limit on the node.  Fractions are numbers of GoFloat; what a machine
    makes of a number beyond [int64] is a parameter, and need not be the same on
    both sides. *)

From S2P Require Import Prelude GoCore GoFloat GoText.

(** ** The text *)

(** Digits and points. *)
Fixpoint span_number (s : string) : string * string :=
  match s with
  | EmptyString => ("", "")
  | String c s' =>
      if is_digit c || Ascii.eqb c "." then let (n, r) := span_number s' in (String c n, r) else ("", s)
  end.

(** [strconv.ParseFloat] of digits and points: at most one point, and a digit. *)
Definition ParseNumber (s : string) : option float64 :=
  match Split "." s with
  | [i] => if String.eqb i "" then None else ParseFloat i ""
  | [i; f] => if String.eqb i "" && String.eqb f "" then None else ParseFloat i f
  | _ => None
  end.

(** [value <= 0] of a number that is not negative. *)
Definition is_zero (x : float64) : bool := match x with Fin m _ => m =? 0 | Inf => false end.

Inductive limit_error : Type :=
  | ErrNotPositive
  | ErrFormat
  | ErrNumber
  | ErrUnit
  | ErrOverflow.

(** ** job.go *)

Definition validate_multiplier (unit : string) : option Z :=
  if existsb (String.eqb unit) [""; "B"; "BYTES"] then Some 1
  else if existsb (String.eqb unit) ["KB"; "K"] then Some 1024
  else if existsb (String.eqb unit) ["MB"; "M"] then Some (1024 * 1024)
  else if existsb (String.eqb unit) ["GB"; "G"] then Some (1024 * 1024 * 1024)
  else if existsb (String.eqb unit) ["TB"; "T"] then Some (1024 * 1024 * 1024 * 1024)
  else None.

(** [None]: the limit is valid. *)
Definition validateMemoryLimit (out_of_range : Z) (limit : string) : option limit_error :=
  if String.eqb limit "" then None else
  let (value, ok) := Atoi limit in
  if ok then (if value <=? 0 then Some ErrNotPositive else None) else
  let limit := ToUpper (TrimSpace limit) in
  let (numStr, unit) := span_number limit in
  if String.eqb numStr "" then Some ErrFormat else
  match ParseNumber numStr with
  | None => Some ErrNumber
  | Some value =>
      if is_zero value then Some ErrNotPositive else
      match validate_multiplier unit with
      | None => Some ErrUnit
      | Some multiplier =>
          let bytes := float_int64 out_of_range (float_mul value multiplier) in
          if bytes <=? 0 then Some ErrOverflow else None
      end
  end.

(** ** shell.go *)

Definition parse_multiplier (unit : string) : option Z :=
  if existsb (String.eqb unit) [""; "B"; "BYTES"] then Some 1
  else if existsb (String.eqb unit) ["KB"; "K"] then Some 1024
  else if existsb (String.eqb unit) ["MB"; "M"] then Some (1024 * 1024)
  else if existsb (String.eqb unit) ["GB"; "G"] then Some (1024 * 1024 * 1024)
  else if existsb (String.eqb unit) ["TB"; "T"] then Some (1024 * 1024 * 1024 * 1024)
  else None.

(** The number of bytes, 0 for no limit. *)
Definition parseMemoryLimit (out_of_range : Z) (limit : string) : Z + limit_error :=
  if String.eqb limit "" then inl 0 else
  let (value, ok) := Atoi limit in
  if ok then (if value <=? 0 then inr ErrNotPositive else inl value) else
  let limit := ToUpper (TrimSpace limit) in
  let (numStr, unit) := span_number limit in
  if String.eqb numStr "" then inr ErrFormat else
  match ParseNumber numStr with
  | None => inr ErrNumber
  | Some value =>
      if is_zero value then inr ErrNotPositive else
      match parse_multiplier unit with
      | None => inr ErrUnit
      | Some multiplier =>
          let bytes := float_int64 out_of_range (float_mul value multiplier) in
          if bytes <=? 0 then inr ErrOverflow else inl bytes
      end
  end.

(** ** Lemmas *)

(** The units and their multiples. *)
Definition unit_of (k : Z) (unit : string) : Prop :=
  (unit, k) ∈ [("B", 1); ("BYTES", 1); ("KB", 2 ^ 10); ("K", 2 ^ 10); ("MB", 2 ^ 20); ("M", 2 ^ 20);
               ("GB", 2 ^ 30); ("G", 2 ^ 30); ("TB", 2 ^ 40); ("T", 2 ^ 40)].

Lemma is_digit_not_dot c : is_digit c = true → Ascii.eqb c "." = false.
Proof. intros Hc. apply Ascii.eqb_neq. by intros ->. Qed.

Lemma span_number_app ds r : all_digits ds = true →
  match r with EmptyString => True | String c _ => is_digit c = false ∧ c ≠ "."%char end →
  span_number (ds +:+ r) = (ds, r).
Proof.
  intros Hds Hr. induction ds as [|d ds IH].
  - change ("" +:+ r) with r. destruct r as [|c r]; [done|]. destruct Hr as [H1 H2%Ascii.eqb_neq].
    cbn. by rewrite H1, H2.
  - cbn in Hds. apply andb_prop in Hds as [Hd Hds].
    change (String d ds +:+ r) with (String d (ds +:+ r)). cbn. by rewrite Hd, (IH Hds).
Qed.

Lemma ParseNumber_digits ds : all_digits ds = true → ds ≠ "" → ParseNumber ds = ParseFloat ds "".
Proof.
  intros Hds Hne. unfold ParseNumber. rewrite Split_absent; [by apply String.eqb_neq in Hne as ->|].
  clear Hne. induction ds as [|d ds IH]; [done|]. cbn in *. apply andb_prop in Hds as [Hd Hds].
  by rewrite (is_digit_not_dot d Hd), (IH Hds).
Qed.

Example limit_examples :
  parseMemoryLimit (- 2 ^ 63) "1.5 GB" = inr ErrUnit ∧ parseMemoryLimit (- 2 ^ 63) "1.5gb" = inl 1610612736 ∧
  parseMemoryLimit (- 2 ^ 63) " 512KB " = inl 524288 ∧ parseMemoryLimit (- 2 ^ 63) "1.2.3" = inr ErrNumber ∧
  parseMemoryLimit (- 2 ^ 63) "-5" = inr ErrNotPositive ∧ parseMemoryLimit (- 2 ^ 63) "0.5" = inr ErrOverflow ∧
  parseMemoryLimit (- 2 ^ 63) "MB" = inr ErrFormat ∧ parseMemoryLimit (- 2 ^ 63) "9000000TB" = inr ErrOverflow ∧
  parseMemoryLimit (2 ^ 63 - 1) "9000000TB" = inl (2 ^ 63 - 1) ∧ parseMemoryLimit 0 "+7" = inl 7.
Proof. by vm_compute. Qed.

(** Text of digits and a unit is neither trimmed nor changed. *)
Lemma rev_string_involutive s : rev_string (rev_string s) = s.
Proof.
  unfold rev_string. rewrite String.list_ascii_of_string_of_list_ascii, reverse_involutive.
  apply String.string_of_list_ascii_of_string.
Qed.

Lemma rev_string_app_char s c : rev_string (s +:+ String c "") = String c (rev_string s).
Proof.
  unfold rev_string. assert (String.list_ascii_of_string (s +:+ String c "") = String.list_ascii_of_string s ++ [c]) as ->.
  { induction s as [|d s IH]; [done|]. change (String d s +:+ String c "") with (String d (s +:+ String c "")).
    cbn. by rewrite IH. }
  by rewrite reverse_app.
Qed.

Lemma trim_left_none fuel ps s : strip_any ps s = None → trim_left fuel ps s = s.
Proof. destruct fuel; [done|]. cbn. by intros ->. Qed.

Lemma strip_digit c s : is_digit c = true → strip_any space_runes (String c s) = None.
Proof. by destruct c as [[] [] [] [] [] [] [] []]. Qed.

Definition unit_letter (c : ascii) : Prop := c ∈ ["B"; "S"; "K"; "M"; "G"; "T"]%char.

Lemma strip_letter c s : unit_letter c → strip_any (rev_string <$> space_runes) (String c s) = None.
Proof.
  intros Hc. unfold unit_letter in Hc.
  by repeat (apply elem_of_cons in Hc as [->|Hc]); [..|apply elem_of_nil in Hc].
Qed.

Lemma TrimSpace_number d s c : is_digit d = true → unit_letter c →
  TrimSpace (String d (s +:+ String c "")) = String d (s +:+ String c "").
Proof.
  intros Hd Hc. unfold TrimSpace. rewrite (trim_left_none _ _ (String d _)) by (by apply strip_digit).
  change (String d (s +:+ String c "")) with (String d s +:+ String c "") at 2.
  rewrite rev_string_app_char. rewrite trim_left_none by (by apply strip_letter).
  by rewrite <- rev_string_app_char, rev_string_involutive.
Qed.

Lemma upper_digit d : is_digit d = true → upper_char d = d ∧ (byte_of d =? 196) = false ∧ (byte_of d =? 197) = false.
Proof. by destruct d as [[] [] [] [] [] [] [] []]. Qed.

Lemma ToUpper_digits ds s : all_digits ds = true → ToUpper (ds +:+ s) = ds +:+ ToUpper s.
Proof.
  induction ds as [|d ds IH]; [done|]. cbn [all_digits]. intros [Hd Hds]%andb_prop.
  change (String d ds +:+ s) with (String d (ds +:+ s)).
  change (String d ds +:+ ToUpper s) with (String d (ds +:+ ToUpper s)). rewrite <- (IH Hds).
  destruct (upper_digit d Hd) as (Hu & H1 & H2). cbn [ToUpper].
  destruct (ds +:+ s) as [|e r]; [by rewrite Hu|]. by rewrite H1, H2, Hu.
Qed.

Lemma unit_spec k unit : unit_of k unit →
  parse_multiplier unit = Some k ∧ ToUpper unit = unit ∧ 0 < k ∧ all_digits unit = false ∧
  (∃ u c, unit = u +:+ String c "" ∧ unit_letter c) ∧
  match unit with EmptyString => True | String c _ => is_digit c = false ∧ c ≠ "."%char end.
Proof.
  intros Hu. unfold unit_of in Hu.
  repeat (apply elem_of_cons in Hu as [[= -> ->]|Hu]); [..|by apply elem_of_nil in Hu];
    (split_and!; try (vm_compute; reflexivity); try done);
    match goal with |- ∃ u c, ?x = _ ∧ _ =>
      first [exists "", "B"%char; split; [reflexivity|set_solver]
            |exists "BYTE", "S"%char; split; [reflexivity|set_solver]
            |exists "K", "B"%char; split; [reflexivity|set_solver]
            |exists "", "K"%char; split; [reflexivity|set_solver]
            |exists "M", "B"%char; split; [reflexivity|set_solver]
            |exists "", "M"%char; split; [reflexivity|set_solver]
            |exists "G", "B"%char; split; [reflexivity|set_solver]
            |exists "", "G"%char; split; [reflexivity|set_solver]
            |exists "T", "B"%char; split; [reflexivity|set_solver]
            |exists "", "T"%char; split; [reflexivity|set_solver]] end.
Qed.

(** What is positive on a machine that makes no positive number of an overflow did
    not overflow. *)
Lemma float_int64_exact o1 o2 x : o1 ≤ 0 → 0 < float_int64 o1 x → float_int64 o2 x = float_int64 o1 x.
Proof. unfold float_int64. destruct x as [m e|]; [|lia]. destruct (Z.ltb_spec (if e <? 0 then m / 2 ^ (- e) else m * 2 ^ e) (2 ^ 63)); [done|lia]. Qed.

Lemma multiplier_same unit : validate_multiplier unit = parse_multiplier unit.
Proof. done. Qed.

(** A number that is too large for [Atoi] or followed by a unit is read as text. *)
Lemma Atoi_unit ds unit : ds ≠ "" → all_digits unit = false → all_digits ds = true →
  (Atoi (ds +:+ unit)).2 = false.
Proof.
  intros Hne Hu Hds. destruct ds as [|d ds]; [done|]. cbn in Hds. apply andb_prop in Hds as [Hd Hds].
  change (String d ds +:+ unit) with (String d (ds +:+ unit)). unfold Atoi.
  assert (Ascii.eqb d "-" = false ∧ Ascii.eqb d "+" = false) as [-> ->]
    by (split; apply Ascii.eqb_neq; by intros ->).
  assert (all_digits (String d (ds +:+ unit)) = false) as ->; [|by rewrite orb_true_r].
  cbn. by rewrite all_digits_app, Hu, !andb_false_r.
Qed.

(** A limit that is valid on a server is read on every node. *)
Lemma valid_limit_both o1 o2 limit : o1 ≤ 0 → validateMemoryLimit o1 limit = None →
  ∃ n, 0 ≤ n ∧ parseMemoryLimit o1 limit = inl n ∧ parseMemoryLimit o2 limit = inl n.
Proof.
  intros Ho. unfold validateMemoryLimit, parseMemoryLimit.
  destruct (String.eqb limit ""); [exists 0; done|]. destruct (Atoi limit) as [v []].
  { destruct (Z.leb_spec v 0); [done|]. exists v. split_and!; [lia|done..]. }
  destruct (span_number _) as [numStr unit]. destruct (String.eqb numStr ""); [done|].
  destruct (ParseNumber numStr) as [x|]; [|done]. destruct (is_zero x); [done|].
  rewrite multiplier_same. destruct (parse_multiplier unit) as [k|]; [|done].
  destruct (Z.leb_spec (float_int64 o1 (float_mul x k)) 0) as [|Hpos]; [done|]. intros _.
  rewrite (float_int64_exact o1 o2) by done. exists (float_int64 o1 (float_mul x k)).
  destruct (Z.leb_spec (float_int64 o1 (float_mul x k)) 0); [lia|]. split_and!; [lia|done..].
Qed.

Lemma valid_limit_read o1 o2 limit : o1 ≤ 0 → validateMemoryLimit o1 limit = None →
  ∃ n, 0 ≤ n ∧ parseMemoryLimit o2 limit = inl n.
Proof. intros Ho Hv. destruct (valid_limit_both o1 o2 limit Ho Hv) as (n & ? & _ & ?). eauto. Qed.

(** ** Theorems *)

(** The server and the node agree on memory limits: on machines of one kind a
    limit is valid exactly when the executor can read it; a limit that is valid on
    a server whose conversions do not overflow to a positive number is read on
    every node, as the same number; and a whole number with a unit is that many
    bytes. *)
Lemma memory_limits_agree limit :
  (∀ o, validateMemoryLimit o limit = None ↔ ∃ n, parseMemoryLimit o limit = inl n) ∧
  (∀ o1 o2, o1 ≤ 0 → validateMemoryLimit o1 limit = None →
     ∃ n, 0 ≤ n ∧ parseMemoryLimit o1 limit = inl n ∧ parseMemoryLimit o2 limit = inl n) ∧
  (∀ o ds unit k, limit = ds +:+ unit → all_digits ds = true → unit_of k unit →
     0 < digits_value 0 ds * k < 2 ^ 53 → parseMemoryLimit o limit = inl (digits_value 0 ds * k)).
Proof.
  split_and!.
  - intros o. unfold validateMemoryLimit, parseMemoryLimit.
    destruct (String.eqb limit ""); [naive_solver|]. destruct (Atoi limit) as [v []].
    { destruct (v <=? 0); naive_solver. }
    destruct (span_number _) as [numStr unit]. destruct (String.eqb numStr ""); [naive_solver|].
    destruct (ParseNumber numStr) as [x|]; [|naive_solver]. destruct (is_zero x); [naive_solver|].
    rewrite multiplier_same. destruct (parse_multiplier unit) as [k|]; [|naive_solver].
    destruct (_ <=? 0); naive_solver.
  - intros o1 o2. apply valid_limit_both.
  - intros o ds unit k -> Hds Hu Hv. destruct (unit_spec k unit Hu) as (Hk & Hup & Hk0 & Hnd & (u & c & Hlast & Hc) & Hhead).
    assert (ds ≠ "") as Hne by (intros ->; cbn in Hv; lia).
    unfold parseMemoryLimit. destruct (String.eqb_spec (ds +:+ unit) "") as [E|_]; [by destruct ds|].
    pose proof (Atoi_unit ds unit Hne Hnd Hds) as Hat. destruct (Atoi (ds +:+ unit)) as [v ok]. cbn in Hat. subst ok.
    assert (TrimSpace (ds +:+ unit) = ds +:+ unit) as ->.
    { rewrite Hlast, <- string_app_assoc. destruct ds as [|d ds]; [done|]. cbn in Hds. apply andb_prop in Hds as [Hd _].
      change ((String d ds +:+ u) +:+ String c "") with (String d ((ds +:+ u) +:+ String c "")).
      by apply TrimSpace_number. }
    rewrite ToUpper_digits, Hup, span_number_app by done.
    destruct (String.eqb_spec ds ""); [done|]. rewrite ParseNumber_digits by done.
    destruct (float_mul_int o ds k Hds Hk0 (proj2 Hv)) as (x & Hx & Hval). rewrite Hx.
    assert (is_zero x = false) as ->.
    { destruct x as [m e|]; [|done]. apply Z.eqb_neq. intros ->.
      assert (float_mul (Fin 0 e) k = Fin 0 0) as E by (unfold float_mul; destruct (e <? 0); by rewrite ?Z.mul_0_l).
      rewrite E in Hval. change (float_int64 o (Fin 0 0)) with 0 in Hval. lia. }
    rewrite Hk, Hval. destruct (Z.leb_spec (digits_value 0 ds * k) 0); [lia|done].
Qed.

Lemma memory_limits_agree_witness :
  parseMemoryLimit (- 2 ^ 63) "512MB" = inl 536870912 ∧ validateMemoryLimit (- 2 ^ 63) "1.5GB" = None ∧
  ∃ n, 0 ≤ n ∧ parseMemoryLimit (- 2 ^ 63) "1.5GB" = inl n ∧ parseMemoryLimit (2 ^ 63 - 1) "1.5GB" = inl n.
Proof.
  split; [|split].
  - apply (proj2 (proj2 (memory_limits_agree "512MB")) (- 2 ^ 63) "512" "MB" (2 ^ 20)); [reflexivity|reflexivity| |].
    + unfold unit_of. do 4 right. left.
    + vm_compute. split; reflexivity.
  - apply (proj1 (memory_limits_agree "1.5GB")). exists 1610612736. vm_compute. reflexivity.
  - apply (proj1 (proj2 (memory_limits_agree "1.5GB"))); [lia|vm_compute; reflexivity].
Defined.
