(* ===== verification/Jobs.v ===== *)
(** * Jobs: the job of the server

    src/dkron/job.go: the [Job] struct and its protobuf form, the conversions
    between them, the validation of a job, the spreading of schedules by the
    hash of the name, and the next run. A time is its number of nanoseconds
    since 1970; the protobuf form is what the store keeps. *)

From S2P Require Import Prelude GoCore MemoryLimit.

(** ** Data *)

Definition time : Type := Z.

(** [time.Time{}], the first of January of the year 1, and the value of a
    missing protobuf timestamp, 1970. *)
Definition zero_time : time := -62135596800000000000.
Definition epoch : time := 0.

(** The configuration maps of executors and processors. *)
Definition Config : Type := gmap string string.

Module PbJob.
(** [proto.Job] as stored. A nullable time without value is [None]. *)
Record t := mk {
  Name : string;
  Displayname : string;
  Timezone : string;
  Schedule : string;
  Owner : string;
  OwnerEmail : string;
  SuccessCount : Z;
  ErrorCount : Z;
  Disabled : bool;
  Tags : Config;
  Retries : Z;
  DependentJobs : list string;
  ParentJob : string;
  Concurrency : string;
  Processors : gmap string Config;
  Executor : string;
  ExecutorConfig : Config;
  Status : string;
  Metadata : Config;
  LastSuccess : option time;
  LastError : option time;
  Next : option time;
  Ephemeral : bool;
  ExpiresAt : option time;
  StartsAt : option time;
}.

(** [var pbj dkronpb.Job] *)
Definition empty : t :=
  mk "" "" "" "" "" "" 0 0 false ∅ 0 [] "" "" ∅ "" ∅ "" ∅ None None None false None None.
End PbJob.

Module Job.
(** The struct without its agent, logger and [ChildJobs]. A nil map is an empty
    one, a nil slice an empty one, a nullable time without value [None]. *)
Record t := mk {
  ID : string;
  Name : string;
  DisplayName : string;
  Timezone : string;
  Schedule : string;
  Owner : string;
  OwnerEmail : string;
  SuccessCount : Z;
  ErrorCount : Z;
  LastSuccess : option time;
  LastError : option time;
  Disabled : bool;
  Tags : Config;
  Metadata : Config;
  Retries : Z;
  DependentJobs : list string;
  ParentJob : string;
  Processors : gmap string Config;
  Concurrency : string;
  Executor : string;
  ExecutorConfig : Config;
  Status : string;
  Next : time;
  Ephemeral : bool;
  StartsAt : option time;
  ExpiresAt : option time;
}.
End Job.

(** ** Conversions *)

Definition NewJobFromProto (p : PbJob.t) : Job.t :=
  Job.mk (PbJob.Name p) (PbJob.Name p) (PbJob.Displayname p) (PbJob.Timezone p)
    (PbJob.Schedule p) (PbJob.Owner p) (PbJob.OwnerEmail p) (PbJob.SuccessCount p)
    (PbJob.ErrorCount p) (PbJob.LastSuccess p) (PbJob.LastError p) (PbJob.Disabled p)
    (PbJob.Tags p) (PbJob.Metadata p) (PbJob.Retries p) (PbJob.DependentJobs p)
    (PbJob.ParentJob p) (PbJob.Processors p) (PbJob.Concurrency p) (PbJob.Executor p)
    (PbJob.ExecutorConfig p) (PbJob.Status p) (default epoch (PbJob.Next p))
    (PbJob.Ephemeral p) (PbJob.StartsAt p) (PbJob.ExpiresAt p).

Definition ToProto (j : Job.t) : PbJob.t :=
  PbJob.mk (Job.Name j) (Job.DisplayName j) (Job.Timezone j) (Job.Schedule j) (Job.Owner j)
    (Job.OwnerEmail j) (int32 (Job.SuccessCount j)) (int32 (Job.ErrorCount j)) (Job.Disabled j)
    (Job.Tags j) (uint32 (Job.Retries j)) (Job.DependentJobs j) (Job.ParentJob j)
    (Job.Concurrency j) (Job.Processors j) (Job.Executor j) (Job.ExecutorConfig j)
    (Job.Status j) (Job.Metadata j) (Job.LastSuccess j) (Job.LastError j) (Some (Job.Next j))
    (Job.Ephemeral j) (Job.ExpiresAt j) (Job.StartsAt j).

(** The assignments to fields the store makes. *)
Definition with_results (succ err : Z) (ls le : option time) (deps : list string)
    (status : string) (j : Job.t) : Job.t :=
  Job.mk (Job.ID j) (Job.Name j) (Job.DisplayName j) (Job.Timezone j) (Job.Schedule j)
    (Job.Owner j) (Job.OwnerEmail j) succ err ls le (Job.Disabled j) (Job.Tags j)
    (Job.Metadata j) (Job.Retries j) deps (Job.ParentJob j) (Job.Processors j)
    (Job.Concurrency j) (Job.Executor j) (Job.ExecutorConfig j) status (Job.Next j)
    (Job.Ephemeral j) (Job.StartsAt j) (Job.ExpiresAt j).

Definition with_Next (next : time) (j : Job.t) : Job.t :=
  Job.mk (Job.ID j) (Job.Name j) (Job.DisplayName j) (Job.Timezone j) (Job.Schedule j)
    (Job.Owner j) (Job.OwnerEmail j) (Job.SuccessCount j) (Job.ErrorCount j)
    (Job.LastSuccess j) (Job.LastError j) (Job.Disabled j) (Job.Tags j)
    (Job.Metadata j) (Job.Retries j) (Job.DependentJobs j) (Job.ParentJob j) (Job.Processors j)
    (Job.Concurrency j) (Job.Executor j) (Job.ExecutorConfig j) (Job.Status j) next
    (Job.Ephemeral j) (Job.StartsAt j) (Job.ExpiresAt j).

Definition with_DependentJobs (deps : list string) (j : Job.t) : Job.t :=
  with_results (Job.SuccessCount j) (Job.ErrorCount j) (Job.LastSuccess j) (Job.LastError j)
    deps (Job.Status j) j.

(** A job but for the results of runs, the next run and the dependent jobs. *)
Definition config (j : Job.t) : Job.t := with_Next 0 (with_results 0 0 None None [] "" j).

(** [t.After(u)] of nullable times. *)
Definition nullable_After (t u : option time) : bool :=
  match t, u with
  | None, _ => false
  | Some _, None => true
  | Some t, Some u => u <? t
  end.

(** ** Spreading schedules *)

Definition HashSymbol : ascii := "~".

Definition nameHash (j : Job.t) : Z :=
  fold_left (λ hash c, int64 (hash + c)) (runes (Job.Name j)) 0.

(** The hash reduced for the field at [partIndex]. *)
Definition partHash (hash partIndex : Z) : Z :=
  if partIndex =? 2 then hash %% 24
  else if partIndex =? 3 then hash %% 28 + 1
  else if partIndex =? 4 then hash %% 12 + 1
  else if partIndex =? 5 then hash %% 7
  else hash %% 60.

(** The loop over the parts; [None] is the early return of the spec. *)
Fixpoint hashParts (hash partIndex : Z) (parts : list string) : option (list string) :=
  match parts with
  | [] => Some []
  | part :: parts =>
      if HasPrefix part "@" then None
      else if HasPrefix part "TZ=" || HasPrefix part "CRON_TZ=" then
        let? rest := hashParts hash partIndex parts in Some (part :: rest)
      else
        let part :=
          if ContainsChar part HashSymbol
          then ReplaceAll part HashSymbol (pretty (partHash hash partIndex)) else part in
        let? rest := hashParts hash (partIndex + 1) parts in Some (part :: rest)
  end.

Definition scheduleHash (j : Job.t) : string :=
  let spec := Job.Schedule j in
  if negb (ContainsChar spec HashSymbol) then spec else
  match hashParts (nameHash j) 0 (Split " " spec) with
  | None => spec
  | Some parts => Join " " parts
  end.

(** ** Validation *)

Inductive error : Type :=
  | ErrEmptyName
  | ErrIllegalCharacter (r : Z)
  | ErrSameParent
  | ErrScheduleParse
  | ErrWrongConcurrency
  | ErrLocation
  | ErrTimeout
  | ErrMemoryLimit
  | ErrParentJobNotFound
  | ErrNoParent
  | ErrDependentJobs
  | ErrNotFound
  | ErrExecutionDoneForDeletedJob.

#[global] Instance error_eq_dec : EqDecision error.
Proof. solve_decision. Defined.

(** What a job is checked with: the lower-case letters of Unicode, the
    schedules [extcron.Parse] accepts with their next activation after a time
    (the zero time when there is none) and the schedule as asking for it leaves
    it, the time zones and the durations that parse, and what the machine makes of
    a number beyond its integers. *)
Class Env := {
  unicode_Ll : Z → bool;
  Schedule : Type;
  Parse : string → option Schedule;
  ScheduleNext : Schedule → time → time * Schedule;
  LoadLocation : string → bool;
  ParseDuration : string → bool;
  int64_overflow : Z;
}.

Section env.
Context `{Env}.

(** The characters the pattern [[^\p{Ll}0-9_-]] does not match. *)
Definition slug_rune (r : Z) : bool :=
  unicode_Ll r || within 48 57 r || (r =? 95) || (r =? 45).

(** The first illegal character. *)
Definition isSlug (candidate : string) : option Z :=
  List.find (λ r, negb (slug_rune r)) (runes candidate).

Definition config_get (k : string) (c : Config) : string := default "" (c !! k).

(** [None]: the job is valid. *)
Definition Validate (j : Job.t) : option error :=
  if String.eqb (Job.Name j) "" then Some ErrEmptyName else
  match isSlug (Job.Name j) with
  | Some chr => Some (ErrIllegalCharacter chr)
  | None =>
  if String.eqb (Job.ParentJob j) (Job.Name j) then Some ErrSameParent
  else if (negb (String.eqb (Job.Schedule j) "") || String.eqb (Job.ParentJob j) "")
       && negb (bool_decide (is_Some (Parse (scheduleHash j)))) then Some ErrScheduleParse
  else if negb (String.eqb (Job.Concurrency j) "allow")
       && negb (String.eqb (Job.Concurrency j) "forbid")
       && negb (String.eqb (Job.Concurrency j) "") then Some ErrWrongConcurrency
  else if negb (LoadLocation (Job.Timezone j)) then Some ErrLocation
  else if String.eqb (Job.Executor j) "shell"
       && negb (String.eqb (config_get "timeout" (Job.ExecutorConfig j)) "")
       && negb (ParseDuration (config_get "timeout" (Job.ExecutorConfig j))) then Some ErrTimeout
  else if String.eqb (Job.Executor j) "shell"
       && negb (String.eqb (config_get "mem_limit" (Job.ExecutorConfig j)) "")
       && negb (bool_decide (validateMemoryLimit int64_overflow (config_get "mem_limit" (Job.ExecutorConfig j)) = None))
       then Some ErrMemoryLimit
  else None
  end.

(** ** The next run *)

(** [None]: the schedule does not parse. The clock is read once. *)
Definition GetNext (now : time) (j : Job.t) : option time :=
  let later :=
    if negb (String.eqb (Job.Schedule j) "") then
      match Parse (scheduleHash j) with
      | None => None
      | Some s => Some (ScheduleNext s now).1
      end
    else Some zero_time in
  match Job.StartsAt j with
  | Some t => if now <? t then Some t else later
  | None => later
  end.

End env.

(** ** Lemmas *)

Lemma ToProto_NewJobFromProto j :
  NewJobFromProto (ToProto j) = j ↔
  in_int32 (Job.SuccessCount j) ∧ in_int32 (Job.ErrorCount j) ∧
  in_uint32 (Job.Retries j) ∧ Job.ID j = Job.Name j.
Proof.
  split.
  - intros E.
    rewrite <- (f_equal Job.SuccessCount E), <- (f_equal Job.ErrorCount E),
      <- (f_equal Job.Retries E), <- (f_equal Job.ID E) at 1. cbn. auto with dkron.
  - destruct j. cbn. intros (H1 & H2 & H3 & ->).
    unfold NewJobFromProto, ToProto. cbn.
    by rewrite !int32_id, uint32_id by done.
Qed.

(** What the store holds: the conversion to memory and back changes nothing. *)
Definition stored (p : PbJob.t) : Prop :=
  in_int32 (PbJob.SuccessCount p) ∧ in_int32 (PbJob.ErrorCount p) ∧
  in_uint32 (PbJob.Retries p) ∧ is_Some (PbJob.Next p).

Lemma NewJobFromProto_ToProto p : stored p → ToProto (NewJobFromProto p) = p.
Proof.
  destruct p. intros (? & ? & ? & [next Hn]). cbn in *. subst.
  unfold ToProto, NewJobFromProto. cbn. by rewrite !int32_id, uint32_id by done.
Qed.

(** A job as the store returns it. *)
Lemma config_stored j : Job.ID j = Job.Name j → in_uint32 (Job.Retries j) →
  config (NewJobFromProto (ToProto j)) = config j.
Proof.
  intros Hi Hr. destruct j. cbn in *. subst.
  unfold config, with_Next, with_results, NewJobFromProto, ToProto. cbn -[uint32]. by rewrite uint32_id.
Qed.

Lemma ToProto_stored j : stored (ToProto j).
Proof. split_and!; cbn; eauto with dkron. Qed.
#[export] Hint Resolve ToProto_stored : dkron.

Lemma nameHash_go l z : Forall (λ r, 0 ≤ r ≤ 1114111) l →
  0 ≤ z → z + 1114111 * Z.of_nat (length l) < 2 ^ 63 →
  0 ≤ fold_left (λ hash c, int64 (hash + c)) l z ≤ z + 1114111 * Z.of_nat (length l).
Proof.
  intros Hl. revert z. induction Hl as [|r l Hr _ IH]; intros z Hz Hb; cbn [fold_left length] in *; [lia|].
  rewrite int64_id by lia. specialize (IH (z + r)). lia.
Qed.

Lemma nameHash_range j : Z.of_nat (String.length (Job.Name j)) < 2 ^ 40 →
  0 ≤ nameHash j < 2 ^ 63.
Proof.
  intros Hn. unfold nameHash. pose proof (length_runes (Job.Name j)).
  pose proof (nameHash_go (runes (Job.Name j)) 0 (runes_range _)). lia.
Qed.

(** The values cron accepts in the fields of a schedule with seconds, by
    number; days of the month only as far as every month has them. *)
Definition field_range (k : Z) : Z * Z :=
  if k =? 2 then (0, 23) else if k =? 3 then (1, 28) else if k =? 4 then (1, 12)
  else if k =? 5 then (0, 6) else (0, 59).

Lemma partHash_range hash k : 0 ≤ hash →
  (field_range k).1 ≤ partHash hash k ≤ (field_range k).2.
Proof.
  intros Hh. unfold partHash, field_range.
  repeat case_match; cbn;
    match goal with |- context [?h %% ?n] => pose proof (Z.rem_bound_pos h n) end; lia.
Qed.

Definition is_tz (part : string) : bool := HasPrefix part "TZ=" || HasPrefix part "CRON_TZ=".

(** [parts'] are the parts of a schedule with every marker of field [k] replaced
    by one value of the range of that field; time zones do not count as fields
    and stay. *)
Inductive spread : Z → list string → list string → Prop :=
  | spread_nil k : spread k [] []
  | spread_tz k part parts parts' :
      is_tz part = true → spread k parts parts' → spread k (part :: parts) (part :: parts')
  | spread_field k v part parts parts' :
      is_tz part = false → (field_range k).1 ≤ v ≤ (field_range k).2 →
      spread (k + 1) parts parts' →
      spread k (part :: parts) (ReplaceAll part HashSymbol (pretty v) :: parts').

Lemma hashParts_None hash k parts :
  hashParts hash k parts = None ↔ Exists (λ p, HasPrefix p "@" = true) parts.
Proof.
  revert k. induction parts as [|p parts IH]; intros k; cbn.
  { rewrite Exists_nil. done. }
  rewrite Exists_cons. destruct (HasPrefix p "@"); [tauto|].
  assert (∀ (o : option (list string)) q,
    (let? rest := o in Some (q :: rest)) = None ↔ o = None) as Hb by (by intros []).
  case_match; rewrite Hb, IH; intuition congruence.
Qed.

Lemma hashParts_spread hash k parts parts' : 0 ≤ hash →
  hashParts hash k parts = Some parts' → spread k parts parts'.
Proof.
  intros Hh. revert k parts'. induction parts as [|p parts IH]; intros k parts' Hp; cbn in Hp.
  { simplify_eq. constructor. }
  fold (is_tz p) in Hp. destruct (HasPrefix p "@"); [done|].
  destruct (is_tz p) eqn:Htz.
  { destruct (hashParts hash k parts) eqn:E; simplify_eq. by constructor; [|apply IH]. }
  destruct (hashParts hash (k + 1) parts) eqn:E; simplify_eq.
  pose proof (partHash_range hash k Hh) as Hv. apply IH in E.
  destruct (ContainsChar p HashSymbol) eqn:Hc; [by constructor|].
  rewrite <- (ReplaceAll_absent p HashSymbol (pretty (partHash hash k)) Hc) at 2.
  by constructor.
Qed.

Lemma hashParts_absent hash k parts :
  forallb (λ p, negb (ContainsChar p HashSymbol)) parts = true →
  Forall (λ p, HasPrefix p "@" = false) parts →
  hashParts hash k parts = Some parts.
Proof.
  intros Hc Ha. revert k Hc. induction Ha as [|p parts Hat _ IH]; intros k Hc; cbn in *; [done|].
  apply andb_prop in Hc as [Hp%negb_true_iff Hc]. rewrite Hat, Hp.
  by destruct (_ || _); rewrite IH.
Qed.

(** The hash marker spreads schedules inside the ranges of cron: unless a
    part starts with [@], which leaves the schedule alone, every part but a time
    zone has all its markers replaced by one number that its field accepts, and
    nothing else changes; names of up to 2^40 bytes cannot overflow the hash. *)
Lemma scheduleHash_spreads (j : Job.t) :
  Z.of_nat (String.length (Job.Name j)) < 2 ^ 40 →
  (Exists (λ p, HasPrefix p "@" = true) (Split " " (Job.Schedule j)) ∧
     scheduleHash j = Job.Schedule j) ∨
  (∃ parts, spread 0 (Split " " (Job.Schedule j)) parts ∧ scheduleHash j = Join " " parts).
Proof.
  intros Hn. apply nameHash_range in Hn as [Hn _]. unfold scheduleHash.
  set (parts := Split " " (Job.Schedule j)).
  destruct (hashParts (nameHash j) 0 parts) as [parts'|] eqn:E.
  - right. exists parts'. split; [by eapply hashParts_spread|].
    destruct (ContainsChar (Job.Schedule j) HashSymbol) eqn:Hc; [done|]. cbn.
    assert (Forall (λ p, HasPrefix p "@" = false) parts) as Ha.
    { apply Forall_forall. intros p Hp. destruct (HasPrefix p "@") eqn:Hat; [|done].
      assert (hashParts (nameHash j) 0 parts = None) as E'; [|congruence].
      apply hashParts_None, Exists_exists. eauto. }
    rewrite hashParts_absent in E; [|clear E|done].
    + simplify_eq. by rewrite Join_Split.
    + rewrite <- (Join_Split " " (Job.Schedule j)), ContainsChar_Join in Hc by done.
      fold parts in Hc. apply forallb_forall. intros p Hp. apply negb_true_iff.
      destruct (ContainsChar p HashSymbol) eqn:Hx; [|done].
      rewrite <- Hc. symmetry. apply existsb_exists. eauto.
  - left. split; [by eapply hashParts_None|]. by destruct (negb _).
Qed.

Definition demo_job (name schedule : string) : Job.t :=
  Job.mk name name "" "" schedule "" "" 0 0 None None false ∅ ∅ 0 [] "" ∅ "" "shell" ∅ ""
    zero_time false None None.

Example scheduleHash_demo :
  scheduleHash (demo_job "backup" "TZ=Europe/Berlin 0 ~ ~ ~ ~ ~/2") =
    "TZ=Europe/Berlin 0 30 6 15 7 0/2".
Proof. reflexivity. Qed.

Lemma scheduleHash_spreads_witness :
  Z.of_nat (String.length "backup") < 2 ^ 40 ∧
  ((Exists (λ p, HasPrefix p "@" = true) (Split " " "0 ~ ~ * * *") ∧
     scheduleHash (demo_job "backup" "0 ~ ~ * * *") = "0 ~ ~ * * *") ∨
   (∃ parts, spread 0 (Split " " "0 ~ ~ * * *") parts ∧
     scheduleHash (demo_job "backup" "0 ~ ~ * * *") = Join " " parts)).
Proof.
  split; [reflexivity|].
  apply (scheduleHash_spreads (demo_job "backup" "0 ~ ~ * * *")). reflexivity.
Defined.

Section validate.
Context `{Env}.

Lemma isSlug_None s : isSlug s = None ↔ Forall (λ r, slug_rune r = true) (runes s).
Proof.
  unfold isSlug. induction (runes s) as [|r l IH]; cbn; [by split; constructor|].
  rewrite Forall_cons. destruct (slug_rune r); cbn; [tauto|]. intuition congruence.
Qed.

Lemma Validate_slug j : Validate j = None →
  Job.Name j ≠ "" ∧ isSlug (Job.Name j) = None ∧ Job.ParentJob j ≠ Job.Name j.
Proof.
  unfold Validate. destruct (String.eqb_spec (Job.Name j) ""); [done|].
  destruct (isSlug (Job.Name j)); [done|].
  destruct (String.eqb_spec (Job.ParentJob j) (Job.Name j)); [done|]. done.
Qed.

(** A job that is valid has a next run. *)
(** The single checks. *)
Lemma Validate_schedule_check j :
  (negb (String.eqb (Job.Schedule j) "") || String.eqb (Job.ParentJob j) "")
    && negb (bool_decide (is_Some (Parse (scheduleHash j)))) = false ↔
  (Job.Schedule j ≠ "" ∨ Job.ParentJob j = "" → is_Some (Parse (scheduleHash j))).
Proof.
  rewrite andb_false_iff, orb_false_iff, !negb_false_iff, bool_decide_eq_true,
    String.eqb_eq, String.eqb_neq.
  destruct (decide (Job.Schedule j = "")), (decide (Job.ParentJob j = "")); naive_solver.
Qed.
Lemma Validate_concurrency_check j :
  negb (String.eqb (Job.Concurrency j) "allow") && negb (String.eqb (Job.Concurrency j) "forbid")
    && negb (String.eqb (Job.Concurrency j) "") = false ↔
  Job.Concurrency j ∈ ["allow"; "forbid"; ""].
Proof.
  rewrite !andb_false_iff, !negb_false_iff, !String.eqb_eq, !elem_of_cons, elem_of_nil. tauto.
Qed.
Lemma Validate_option_check (ok : string → bool) executor v :
  String.eqb executor "shell" && negb (String.eqb v "") && negb (ok v) = false ↔
  (executor = "shell" → v = "" ∨ ok v = true).
Proof.
  rewrite !andb_false_iff, !negb_false_iff, String.eqb_eq, String.eqb_neq.
  destruct (decide (executor = "shell")); tauto.
Qed.

Lemma Validate_limit_check o executor v :
  String.eqb executor "shell" && negb (String.eqb v "") && negb (bool_decide (validateMemoryLimit o v = None)) = false ↔
  (executor = "shell" → validateMemoryLimit o v = None).
Proof.
  rewrite (Validate_option_check (λ v, bool_decide (validateMemoryLimit o v = None))), bool_decide_eq_true.
  split; [|tauto]. intros Hv He. destruct (Hv He) as [->|?]; done.
Qed.

(** The accepted jobs. *)
Lemma Validate_None j : Validate j = None ↔
  Job.Name j ≠ "" ∧ isSlug (Job.Name j) = None ∧ Job.ParentJob j ≠ Job.Name j ∧
  (Job.Schedule j ≠ "" ∨ Job.ParentJob j = "" → is_Some (Parse (scheduleHash j))) ∧
  Job.Concurrency j ∈ ["allow"; "forbid"; ""] ∧ LoadLocation (Job.Timezone j) = true ∧
  (Job.Executor j = "shell" →
     (config_get "timeout" (Job.ExecutorConfig j) = "" ∨
        ParseDuration (config_get "timeout" (Job.ExecutorConfig j)) = true) ∧
     validateMemoryLimit int64_overflow (config_get "mem_limit" (Job.ExecutorConfig j)) = None).
Proof.
  assert (∀ (b : bool) (err : error) (k : option error),
    (if b then Some err else k) = None ↔ b = false ∧ k = None) as Hif by (by intros []; naive_solver).
  unfold Validate. rewrite Hif, String.eqb_neq.
  destruct (isSlug (Job.Name j)); [naive_solver|].
  rewrite !Hif, String.eqb_neq, Validate_schedule_check, Validate_concurrency_check,
    (Validate_option_check ParseDuration), Validate_limit_check, negb_false_iff. tauto.
Qed.

Lemma Validate_schedule j : Validate j = None → Job.Schedule j ≠ "" ∨ Job.ParentJob j = "" →
  is_Some (Parse (scheduleHash j)) ∧ LoadLocation (Job.Timezone j) = true.
Proof. intros (_ & _ & _ & Hs & _ & Hl & _)%Validate_None Ho. auto. Qed.

Lemma Validate_GetNext now j : Validate j = None → is_Some (GetNext now j).
Proof.
  unfold Validate, GetNext. repeat (case_match; try done); subst; cbn in *;
    intros; try (by eexists); exfalso.
  all: match goal with
       | Hs : negb (String.eqb (Job.Schedule _) "") = true, Hp : Parse _ = None |- _ =>
           rewrite Hs, Hp in *; cbn in *; simplify_eq/=
       end.
  all: repeat match goal with
       | Hb : (_ && _) = false |- _ => rewrite bool_decide_eq_false_2 in Hb by (by intros [? ?]); done
       end.
Qed.

(** The checks read neither the results of runs nor the next one. *)
Lemma Validate_with_results succ err ls le deps status j :
  Validate (with_results succ err ls le deps status j) = Validate j.
Proof. done. Qed.
Lemma Validate_with_Next next j : Validate (with_Next next j) = Validate j.
Proof. done. Qed.
End validate.

(** ** A concrete environment *)

(** ASCII letters, schedules that are not empty and recur every minute, and no
    limits on the rest. *)
Definition demo_env : Env := {|
  unicode_Ll := within 97 122;
  Schedule := string;
  Parse s := if String.eqb s "" then None else Some s;
  ScheduleNext s now := (now + 60000000000, s);
  LoadLocation _ := true;
  ParseDuration _ := true;
  int64_overflow := - 2 ^ 63;
|}.
