(* ===== verification/NullTime.v ===== *)
(** * NullTime: times that may be absent

    src/ntime/nullabletime.go: the type of the times of a job (last success, last
    error, first and last start), with its JSON form; and what it uses of package
    time: the calendar, [time.Date], the texts of RFC 3339 and of a form field.
    A time is an instant (Jobs); it is written in UTC, as those of stored jobs
    are.  The theorems: what is written is read back; what is read. *)

From S2P Require Import Prelude GoCore Jobs.

(** ** Calendar *)

Definition leap (y : Z) : bool :=
  (y mod 4 =? 0) && (negb (y mod 100 =? 0) || (y mod 400 =? 0)).

(** Days from the start of year 1 to that of a year. *)
Definition year_start (y : Z) : Z :=
  365 * (y - 1) + (y - 1) / 4 - (y - 1) / 100 + (y - 1) / 400.

(** Days of a year before a month, and of a month. *)
Definition month_start (y m : Z) : Z :=
  nth (Z.to_nat (m - 1)) [0; 31; 59; 90; 120; 151; 181; 212; 243; 273; 304; 334; 365] 0 +
  (if (2 <? m) && leap y then 1 else 0).
Definition daysIn (m y : Z) : Z :=
  nth (Z.to_nat (m - 1)) [31; 28; 31; 30; 31; 30; 31; 31; 30; 31; 30; 31] 0 +
  (if (m =? 2) && leap y then 1 else 0).

Definition days_of_date (y m d : Z) : Z := year_start y + month_start y m + (d - 1).

(** The last month that starts by a day of the year. *)
Fixpoint month_of (y yday : Z) (m : nat) : Z :=
  match m with
  | O => 1
  | S m' => if month_start y (Z.of_nat m) <=? yday then Z.of_nat m else month_of y yday m'
  end.

Definition year_of (n : Z) : Z :=
  let y := 400 * n / 146097 + 1 in
  if n <? year_start y then y - 1 else if n <? year_start (y + 1) then y else y + 1.

Definition date_of_days (n : Z) : Z * Z * Z :=
  let y := year_of n in
  let yday := n - year_start y in
  let m := month_of y yday 12 in
  (y, m, yday - month_start y m + 1).

Module Civil.
Record t := mk { Year : Z; Month : Z; Day : Z; Hour : Z; Minute : Z; Second : Z; Nanosecond : Z }.
End Civil.

(** Days from year 1 to 1970, and nanoseconds. *)
Definition epoch_days : Z := 719162.
Definition ns_per_s : Z := 1000000000.

(** [time.Date] in UTC, and the fields of a time. *)
Definition Date (c : Civil.t) : time :=
  ((days_of_date (Civil.Year c) (Civil.Month c) (Civil.Day c) - epoch_days) * 86400 +
   Civil.Hour c * 3600 + Civil.Minute c * 60 + Civil.Second c) * ns_per_s + Civil.Nanosecond c.

Definition civil (t : time) : Civil.t :=
  let s := t / ns_per_s in
  let '(y, m, d) := date_of_days (s / 86400 + epoch_days) in
  let r := s mod 86400 in
  Civil.mk y m d (r / 3600) (r / 60 mod 60) (r mod 60) (t mod ns_per_s).

(** ** Texts *)

Definition digit_of (n : Z) : ascii := ascii_of_N (Z.to_N (48 + n)).

(** A number with leading zeros. *)
Fixpoint pad (width : nat) (n : Z) (s : string) : string :=
  match width with
  | O => s
  | S width => pad width (n / 10) (String (digit_of (n mod 10)) s)
  end.

Fixpoint trim_zeros (width : nat) (n : Z) : nat * Z :=
  match width with
  | O => (O, n)
  | S width' => if n mod 10 =? 0 then trim_zeros width' (n / 10) else (width, n)
  end.

(** The fraction of a second: nothing when it is zero, no zeros at its end. *)
Definition fraction (ns : Z) : string :=
  match trim_zeros 9 ns with
  | (O, _) => ""
  | (width, n) => String "." (pad width n "")
  end.

(** [t.UTC().Format(time.RFC3339Nano)] *)
Definition format_RFC3339 (t : time) : string :=
  let c := civil t in
  pad 4 (Civil.Year c) (String "-" (pad 2 (Civil.Month c) (String "-" (pad 2 (Civil.Day c)
    (String "T" (pad 2 (Civil.Hour c) (String ":" (pad 2 (Civil.Minute c)
      (String ":" (pad 2 (Civil.Second c) (fraction (Civil.Nanosecond c) +:+ "Z"))))))))))).

(** [getnum]: one digit is enough when the width is not fixed. *)
Definition getnum (fixed : bool) (s : string) : option (Z * string) :=
  match s with
  | String a r =>
      if negb (is_digit a) then None else
      let x := byte_of a - 48 in
      match r with
      | String b r' =>
          if is_digit b then Some (10 * x + (byte_of b - 48), r')
          else if fixed then None else Some (x, r)
      | EmptyString => if fixed then None else Some (x, r)
      end
  | EmptyString => None
  end.

(** A number in a range. *)
Definition field (fixed : bool) (lo hi : Z) (s : string) : option (Z * string) :=
  let? (n, r) := getnum fixed s in if within lo hi n then Some (n, r) else None.

Definition expect (c : ascii) (s : string) : option string :=
  match s with
  | String d r => if Ascii.eqb d c then Some r else None
  | EmptyString => None
  end.

Definition parse_year (s : string) : option (Z * string) :=
  match s with
  | String a (String b (String c (String d r))) =>
      let p := String a (String b (String c (String d ""))) in
      if all_digits p then Some (digits_value 0 p, r) else None
  | _ => None
  end.

(** [2006-01-02T15:04], and the rest of the text. *)
Definition parse_minute (s : string) : option (Civil.t * string) :=
  let? (y, s) := parse_year s in
  let? s := expect "-" s in
  let? (m, s) := field true 1 12 s in
  let? s := expect "-" s in
  let? (d, s) := getnum true s in
  let? s := expect "T" s in
  let? (h, s) := field false 0 23 s in
  let? s := expect ":" s in
  let? (mi, s) := field true 0 59 s in
  Some (Civil.mk y m d h mi 0 0, s).

(** The day is compared with the month at the end. *)
Definition checked (c : Civil.t) : option Civil.t :=
  if within 1 (daysIn (Civil.Month c) (Civil.Year c)) (Civil.Day c) then Some c else None.

(** At most nine digits of a fraction count. *)
Fixpoint fraction_value (width : nat) (ds : string) : Z :=
  match width, ds with
  | O, _ | _, EmptyString => 0
  | S width, String c ds => (byte_of c - 48) * 10 ^ Z.of_nat width + fraction_value width ds
  end.

(** A point or a comma and digits, or nothing. *)
Definition parse_fraction (s : string) : Z * string :=
  match s with
  | String c r =>
      if Ascii.eqb c "." || Ascii.eqb c "," then
        match span_digits r with
        | (EmptyString, _) => (0, s)
        | (ds, r) => (fraction_value 9 ds, r)
        end
      else (0, s)
  | EmptyString => (0, s)
  end.

(** The seconds to the east of UTC: [Z], or hours and minutes with a sign. *)
Definition parse_zone (s : string) : option (Z * string) :=
  match s with
  | String c r =>
      if Ascii.eqb c "Z" then Some (0, r) else
      let? sign := if Ascii.eqb c "+" then Some 1 else if Ascii.eqb c "-" then Some (-1) else None in
      let? (h, r) := field true 0 24 r in
      let? r := expect ":" r in
      let? (m, r) := field true 0 60 r in
      Some (sign * ((h * 60 + m) * 60), r)
  | EmptyString => None
  end.

(** [time.Parse] of the layouts [2006-01-02T15:04] and [time.RFC3339]. *)
Definition parse_local (s : string) : option time :=
  let? (c, s) := parse_minute s in
  if String.eqb s "" then Date <$> checked c else None.

Definition parse_RFC3339 (s : string) : option time :=
  let? (c, s) := parse_minute s in
  let? s := expect ":" s in
  let? (sec, s) := field true 0 59 s in
  let (ns, s) := parse_fraction s in
  let? (east, s) := parse_zone s in
  if String.eqb s "" then
    let? c := checked (Civil.mk (Civil.Year c) (Civil.Month c) (Civil.Day c) (Civil.Hour c)
                         (Civil.Minute c) sec ns) in
    Some (Date c - east * ns_per_s)
  else None.

(** *** JSON *)

(** A JSON value as a decoder is given it: [null], the text between quotes as it
    is written, or something else. *)
Inductive json_data : Type := Null | Quoted (raw : string) | Other.

Definition hex_value (c : ascii) : Z :=
  if is_digit c then byte_of c - 48
  else if within 97 102 (byte_of c) then byte_of c - 87
  else if within 65 70 (byte_of c) then byte_of c - 55 else 0.

(** The character of an escape. *)
Definition escaped (c : ascii) : ascii :=
  match List.find (λ kv, Ascii.eqb kv.1 c)
      [("b", ascii_of_nat 8); ("f", ascii_of_nat 12); ("n", ascii_of_nat 10);
       ("r", ascii_of_nat 13); ("t", ascii_of_nat 9)]%char with
  | Some (_, d) => d
  | None => c
  end.

(** The text a string stands for.  An escaped character beyond ASCII is left as
    the byte 255: no text of a time has either. *)
Fixpoint unescape (s : string) : string :=
  match s with
  | String c r =>
      if negb (Ascii.eqb c "092") then String c (unescape r) else
      match r with
      | String d r' =>
          if negb (Ascii.eqb d "u") then String (escaped d) (unescape r') else
          match r' with
          | String h1 (String h2 (String h3 (String h4 r''))) =>
              let code := ((hex_value h1 * 16 + hex_value h2) * 16 + hex_value h3) * 16 + hex_value h4 in
              String (if code <? 128 then ascii_of_N (Z.to_N code) else ascii_of_nat 255) (unescape r'')
          | _ => String d (unescape r')
          end
      | EmptyString => EmptyString
      end
  | EmptyString => EmptyString
  end.

(** [json.Marshal] of a time; [None] is the error. *)
Definition Marshal_time (t : time) : option json_data :=
  if within 0 9999 (Civil.Year (civil t)) then Some (Quoted (format_RFC3339 t)) else None.

(** [json.Unmarshal] into a time, with whether there was no error: the time is
    cleared by a text that is none. *)
Definition Unmarshal_time (data : json_data) (t : time) : time * bool :=
  match data with
  | Null => (t, true)
  | Quoted raw => match parse_RFC3339 raw with Some u => (u, true) | None => (zero_time, false) end
  | Other => (t, false)
  end.

(** ** NullableTime *)

Module NullableTime.
Record t := mk { hasValue : bool; at_ : time }.

Definition none : t := mk false zero_time.

Definition HasValue (v : t) : bool := hasValue v.
Definition Set_ (new : time) (v : t) : t := mk true new.
Definition Unset (v : t) : t := mk false (at_ v).

(** [None] is the panic. *)
Definition Get (v : t) : option time := if hasValue v then Some (at_ v) else None.

Definition After (v u : t) : bool :=
  if negb (hasValue v) then false
  else if negb (hasValue u) then true
  else at_ u <? at_ v.

Definition MarshalJSON (v : t) : option json_data :=
  if hasValue v then Marshal_time (at_ v) else Some Null.

(** The value after the call, and whether there was no error. *)
Definition UnmarshalJSON (data : json_data) (v : t) : t * bool :=
  match data with
  | Null => (mk false (at_ v), true)
  | _ =>
      let (u, ok) := Unmarshal_time data (at_ v) in
      if ok then (mk true u, true) else
      match data with
      | Quoted raw =>
          match parse_local (unescape raw) with
          | Some u => (mk true u, true)
          | None => (mk (hasValue v) u, false)
          end
      | _ => (mk (hasValue v) u, false)
      end
  end.
End NullableTime.

(** ** Lemmas *)

(** *** Calendar *)

#[local] Ltac Zify.zify_post_hook ::= Z.to_euclidean_division_equations.

Lemma year_of_spec n : year_start (year_of n) ≤ n < year_start (year_of n + 1).
Proof.
  unfold year_of, year_start. set (q := 400 * n / 146097).
  assert (146097 * q ≤ 400 * n < 146097 * (q + 1)) as Hq by (subst q; lia).
  repeat (case_match; [|]); lia.
Qed.

Lemma year_length y : year_start (y + 1) = year_start y + 365 + (if leap y then 1 else 0).
Proof.
  unfold year_start, leap. replace (y + 1 - 1) with y by lia.
  destruct (Z.eqb_spec (y mod 4) 0), (Z.eqb_spec (y mod 100) 0), (Z.eqb_spec (y mod 400) 0);
    cbn [andb orb negb]; lia.
Qed.

Lemma month_start_next y m : 1 ≤ m ≤ 12 → month_start y (m + 1) = month_start y m + daysIn m y.
Proof.
  intros Hm.
  assert (m ∈ [1; 2; 3; 4; 5; 6; 7; 8; 9; 10; 11; 12]) as Hin by (rewrite !elem_of_cons; lia).
  unfold month_start, daysIn. destruct (leap y);
    repeat (apply elem_of_cons in Hin as [->|Hin]; [reflexivity|]); by apply elem_of_nil in Hin.
Qed.

Lemma month_of_range y yday m : 0 ≤ yday < month_start y (Z.of_nat m + 1) →
  let r := month_of y yday m in
  (1 ≤ r ∧ r ≤ Z.max 1 (Z.of_nat m)) ∧ month_start y r ≤ yday < month_start y (r + 1).
Proof.
  induction m as [|m IH]; intros Hy; cbn [month_of].
  - change (month_start y (Z.of_nat 0 + 1)) with (0 + 0) in Hy. lia.
  - destruct (Z.leb_spec (month_start y (Z.of_nat (S m))) yday) as [Hle|Hlt]; [lia|].
    replace (Z.of_nat (S m)) with (Z.of_nat m + 1) in Hlt by lia.
    destruct (IH ltac:(lia)) as [Hr Hm]. lia.
Qed.

Lemma month_of_spec y yday : 0 ≤ yday < 365 + (if leap y then 1 else 0) →
  let m := month_of y yday 12 in
  1 ≤ m ≤ 12 ∧ month_start y m ≤ yday < month_start y m + daysIn m y.
Proof.
  intros Hy m. destruct (month_of_range y yday 12) as [Hm Hd].
  { unfold month_start. destruct (leap y); exact Hy. }
  fold m in Hm, Hd. rewrite month_start_next in Hd by lia. lia.
Qed.

Lemma date_of_days_spec n : let '(y, m, d) := date_of_days n in
  1 ≤ m ≤ 12 ∧ 1 ≤ d ≤ daysIn m y ∧ days_of_date y m d = n.
Proof.
  unfold date_of_days, days_of_date. pose proof (year_of_spec n) as Hy. rewrite year_length in Hy.
  destruct (month_of_spec (year_of n) (n - year_start (year_of n)) ltac:(lia)) as [Hm Hd]. lia.
Qed.

(** The fields of a time are in their ranges and give it back. *)
Record civil_ok (c : Civil.t) : Prop := {
  co_month : 1 ≤ Civil.Month c ≤ 12;
  co_day : 1 ≤ Civil.Day c ≤ daysIn (Civil.Month c) (Civil.Year c);
  co_hour : 0 ≤ Civil.Hour c ≤ 23;
  co_minute : 0 ≤ Civil.Minute c ≤ 59;
  co_second : 0 ≤ Civil.Second c ≤ 59;
  co_nanosecond : 0 ≤ Civil.Nanosecond c < ns_per_s;
}.

Lemma civil_spec t : civil_ok (civil t) ∧ Date (civil t) = t.
Proof.
  unfold civil, Date. pose proof (date_of_days_spec (t / ns_per_s / 86400 + epoch_days)) as Hd.
  destruct (date_of_days _) as [[y m] d]. destruct Hd as (Hm & Hd & Hn). cbn. rewrite Hn.
  unfold ns_per_s in *. split; [split; cbn; unfold ns_per_s; lia|]. lia.
Qed.

Lemma daysIn_le y m : daysIn m y ≤ 31.
Proof.
  unfold daysIn. destruct (Z.eqb_spec m 2) as [->|]; [by destruct (leap y)|]. cbn [andb].
  destruct (Z.to_nat (m - 1)) as [|[|[|[|[|[|[|[|[|[|[|[|k]]]]]]]]]]]]; cbn; try lia. destruct k; lia.
Qed.

Example calendar_examples :
  date_of_days 0 = (1, 1, 1) ∧ date_of_days epoch_days = (1970, 1, 1) ∧
  civil zero_time = Civil.mk 1 1 1 0 0 0 0 ∧
  civil 951782400000000001 = Civil.mk 2000 2 29 0 0 0 1 ∧ civil (-1) = Civil.mk 1969 12 31 23 59 59 999999999.
Proof. by vm_compute. Qed.

Example format_examples :
  format_RFC3339 0 = "1970-01-01T00:00:00Z" ∧ format_RFC3339 zero_time = "0001-01-01T00:00:00Z" ∧
  format_RFC3339 1120000000 = "1970-01-01T00:00:01.12Z" ∧ fraction 1 = ".000000001" ∧
  parse_RFC3339 "1970-01-01T01:00:00,5+01:00" = Some 500000000 ∧ parse_local "1970-01-01T0:01" = Some 60000000000 ∧
  parse_RFC3339 "1970-02-29T00:00:00Z" = None.
Proof. by vm_compute. Qed.

(** *** Digits *)

Lemma digit_of_digit n : 0 ≤ n ≤ 9 → is_digit (digit_of n) = true ∧ byte_of (digit_of n) - 48 = n.
Proof.
  intros Hn. assert (n ∈ [0; 1; 2; 3; 4; 5; 6; 7; 8; 9]) as Hin by (rewrite !elem_of_cons; lia).
  repeat (apply elem_of_cons in Hin as [->|Hin]; [done|]). by apply elem_of_nil in Hin.
Qed.

Lemma getnum_pad fixed n s : 0 ≤ n ≤ 99 → getnum fixed (pad 2 n s) = Some (n, s).
Proof.
  intros Hn. cbn [pad getnum].
  destruct (digit_of_digit (n / 10 mod 10)) as [H1 V1]; [lia|].
  destruct (digit_of_digit (n mod 10)) as [H2 V2]; [lia|].
  rewrite H1, H2. cbn [negb]. rewrite V1, V2. do 2 f_equal. lia.
Qed.

Lemma field_pad fixed lo hi n s : lo ≤ n ≤ hi → 0 ≤ lo → hi ≤ 99 → field fixed lo hi (pad 2 n s) = Some (n, s).
Proof.
  intros Hn Hlo Hhi. unfold field. rewrite getnum_pad by lia. unfold within.
  by rewrite (proj2 (Z.leb_le _ _)), (proj2 (Z.leb_le _ _)) by lia.
Qed.

Lemma parse_year_pad y s : 0 ≤ y ≤ 9999 → parse_year (pad 4 y s) = Some (y, s).
Proof.
  intros Hy. cbn [pad parse_year].
  destruct (digit_of_digit (y / 10 / 10 / 10 mod 10)) as [H1 V1]; [lia|].
  destruct (digit_of_digit (y / 10 / 10 mod 10)) as [H2 V2]; [lia|].
  destruct (digit_of_digit (y / 10 mod 10)) as [H3 V3]; [lia|].
  destruct (digit_of_digit (y mod 10)) as [H4 V4]; [lia|].
  cbn [all_digits digits_value]. rewrite H1, H2, H3, H4, V1, V2, V3, V4. cbn [andb]. do 2 f_equal. lia.
Qed.

Lemma expect_same c s : expect c (String c s) = Some s.
Proof. cbn. by rewrite Ascii.eqb_refl. Qed.

Lemma pad_app k n s t : pad k n (s +:+ t) = pad k n s +:+ t.
Proof. revert n s. induction k as [|k IH]; intros n s; [done|]. cbn [pad]. by rewrite <- IH. Qed.

Lemma pad_digits k n s : all_digits s = true → all_digits (pad k n s) = true.
Proof.
  revert n s. induction k as [|k IH]; intros n s Hs; [done|]. cbn [pad]. apply IH. cbn [all_digits].
  rewrite Hs, andb_true_r. apply digit_of_digit. lia.
Qed.

Lemma pad_nonempty k n s : pad (S k) n s ≠ "".
Proof.
  assert (∀ j m c r, pad j m (String c r) ≠ "") as H; [|apply H].
  induction j as [|j IH]; intros m c r; [done|]. apply IH.
Qed.

Lemma fraction_value_pad k w n s : (k ≤ w)%nat → 0 ≤ n < 10 ^ Z.of_nat k →
  fraction_value w (pad k n s) = n * 10 ^ Z.of_nat (w - k) + fraction_value (w - k) s.
Proof.
  revert n s. induction k as [|k IH]; intros n s Hk Hn.
  - replace n with 0 by (change (10 ^ Z.of_nat 0) with 1 in Hn; lia). cbn [pad]. rewrite Nat.sub_0_r. lia.
  - cbn [pad]. rewrite Nat2Z.inj_succ, Z.pow_succ_r in Hn by lia. rewrite IH by lia.
    replace (w - k)%nat with (S (w - S k)) by lia. cbn [fraction_value].
    destruct (digit_of_digit (n mod 10)) as [_ ->]; [lia|].
    rewrite Nat2Z.inj_succ, Z.pow_succ_r by lia.
    pose proof (Z.div_mod n 10 ltac:(lia)) as Hd.
    generalize dependent (n / 10). generalize dependent (n mod 10). intros r q -> . ring.
Qed.

Lemma trim_zeros_spec w n : 0 ≤ n < 10 ^ Z.of_nat w →
  let '(k, v) := trim_zeros w n in
  (k ≤ w)%nat ∧ 0 ≤ v < 10 ^ Z.of_nat k ∧ n = v * 10 ^ Z.of_nat (w - k).
Proof.
  revert n. induction w as [|w IH]; intros n Hn; cbn [trim_zeros].
  - split; [done|]. split; [done|]. lia.
  - destruct (Z.eqb_spec (n mod 10) 0) as [E|E].
    + rewrite Nat2Z.inj_succ, Z.pow_succ_r in Hn by lia. specialize (IH (n / 10) ltac:(lia)).
      destruct (trim_zeros w (n / 10)) as [k v]. destruct IH as (Hk & Hv & Hnv).
      split; [lia|]. split; [done|]. replace (S w - k)%nat with (S (w - k)) by lia.
      rewrite Nat2Z.inj_succ, Z.pow_succ_r by lia.
      pose proof (Z.div_mod n 10 ltac:(lia)) as Hd.
      rewrite Hd, E. rewrite Hnv at 1. ring.
    + split; [lia|]. split; [done|]. rewrite Nat.sub_diag. lia.
Qed.

Lemma parse_fraction_app ns : 0 ≤ ns < ns_per_s → parse_fraction (fraction ns +:+ "Z") = (ns, "Z").
Proof.
  intros Hns. pose proof (trim_zeros_spec 9 ns Hns) as Ht. unfold fraction.
  destruct (trim_zeros 9 ns) as [k v]. destruct Ht as (Hk & Hv & Hn). destruct k as [|k].
  - change (10 ^ Z.of_nat 0) with 1 in Hv. replace ns with 0 by lia. done.
  - change (String "." ?s +:+ ?t) with (String "." (s +:+ t)). unfold parse_fraction. cbn [Ascii.eqb orb].
    rewrite span_digits_app by (done || by apply pad_digits).
    destruct (pad (S k) v "") as [|c ds] eqn:E.
    + by apply pad_nonempty in E.
    + rewrite <- E, fraction_value_pad by lia. rewrite Hn. cbn [fraction_value].
      by destruct (9 - S k)%nat; cbn [fraction_value]; rewrite Z.add_0_r.
Qed.

(** *** Reading what is written *)

(** The text of a form field: a date and a minute. *)
Definition minute_text (c : Civil.t) (rest : string) : string :=
  pad 4 (Civil.Year c) (String "-" (pad 2 (Civil.Month c) (String "-" (pad 2 (Civil.Day c)
    (String "T" (pad 2 (Civil.Hour c) (String ":" (pad 2 (Civil.Minute c) rest)))))))).

Lemma parse_minute_text c rest : civil_ok c → 0 ≤ Civil.Year c ≤ 9999 →
  parse_minute (minute_text c rest) =
    Some (Civil.mk (Civil.Year c) (Civil.Month c) (Civil.Day c) (Civil.Hour c) (Civil.Minute c) 0 0, rest).
Proof.
  intros [Hm Hd Hh Hmi _ _] Hy. pose proof (daysIn_le (Civil.Year c) (Civil.Month c)).
  unfold parse_minute, minute_text.
  rewrite parse_year_pad, expect_same, field_pad, expect_same, getnum_pad, expect_same by lia.
  by rewrite field_pad, expect_same, field_pad by lia.
Qed.

Lemma checked_ok c : civil_ok c → checked c = Some c.
Proof.
  intros Hc. unfold checked, within. pose proof (co_day c Hc).
  by rewrite (proj2 (Z.leb_le _ _)), (proj2 (Z.leb_le _ _)) by lia.
Qed.

Lemma parse_format t : 0 ≤ Civil.Year (civil t) ≤ 9999 → parse_RFC3339 (format_RFC3339 t) = Some t.
Proof.
  intros Hy. destruct (civil_spec t) as [Hok Ht]. unfold parse_RFC3339.
  change (format_RFC3339 t) with (minute_text (civil t)
    (String ":" (pad 2 (Civil.Second (civil t)) (fraction (Civil.Nanosecond (civil t)) +:+ "Z")))).
  pose proof (co_second _ Hok). pose proof (co_nanosecond _ Hok).
  rewrite parse_minute_text, expect_same, field_pad, parse_fraction_app by (done || lia).
  cbn [parse_zone Ascii.eqb String.eqb Civil.Year Civil.Month Civil.Day Civil.Hour Civil.Minute].
  replace (Civil.mk _ _ _ _ _ _ _) with (civil t) by (by destruct (civil t)).
  rewrite checked_ok, Ht by done. f_equal. lia.
Qed.

Lemma unescape_plain s : ContainsChar s "092" = false → unescape s = s.
Proof.
  induction s as [|c s IH]; [done|]. cbn [ContainsChar]. intros [Hc Hs]%orb_false_elim.
  cbn [unescape]. by rewrite Hc, IH.
Qed.

Lemma pad_absent c k n s : is_digit c = false → ContainsChar (pad k n s) c = ContainsChar s c.
Proof.
  intros Hc. revert n s. induction k as [|k IH]; intros n s; [done|]. cbn [pad]. rewrite IH. cbn [ContainsChar].
  destruct (Ascii.eqb_spec (digit_of (n mod 10)) c) as [E|]; [|done].
  pose proof (proj1 (digit_of_digit (n mod 10) ltac:(lia))) as Hd. congruence.
Qed.

(** A text of a time has no other characters. *)
Lemma format_absent c t : is_digit c = false → ContainsChar "-T:.Z" c = false →
  ContainsChar (format_RFC3339 t) c = false.
Proof.
  intros Hd Hc. cbn [ContainsChar] in Hc. rewrite !orb_false_iff in Hc. destruct Hc as (H1 & H2 & H3 & H4 & H5 & _).
  unfold format_RFC3339. do 6 (rewrite pad_absent by done; cbn [ContainsChar]; rewrite ?H1, ?H2, ?H3; cbn [orb]).
  rewrite ContainsChar_app. cbn [ContainsChar]. rewrite H5, !orb_false_r. unfold fraction.
  destruct (trim_zeros 9 _) as [[|k] v]; [done|]. cbn [ContainsChar]. by rewrite H4, pad_absent.
Qed.

(** A form field without seconds is the start of that minute in UTC. *)
Lemma form_field_read c v : civil_ok c → 0 ≤ Civil.Year c ≤ 9999 → Civil.Second c = 0 → Civil.Nanosecond c = 0 →
  NullableTime.UnmarshalJSON (Quoted (minute_text c "")) v = (NullableTime.mk true (Date c), true).
Proof.
  intros Hok Hy Hs Hn.
  unfold NullableTime.UnmarshalJSON, Unmarshal_time, parse_RFC3339, parse_local.
  rewrite unescape_plain.
  { rewrite parse_minute_text by done. cbn [expect String.eqb].
    replace (Civil.mk _ _ _ _ _ 0 0) with c by (destruct c; cbn in *; congruence).
    by rewrite checked_ok. }
  unfold minute_text. by repeat (rewrite pad_absent by done; cbn [ContainsChar Ascii.eqb Bool.eqb orb]).
Qed.

(** ** Properties *)

(** The JSON form of a nullable time is read back as it was written, whatever
    the variable held before: no value as no value, a time to the nanosecond; and
    compares with others as before. Only a time whose year has not four digits is
    refused. A comparison is that of the values, where no value is before every
    other. *)
Lemma json_roundtrip (v w : NullableTime.t) :
  (match NullableTime.MarshalJSON v with
   | Some data =>
       let (w', ok) := NullableTime.UnmarshalJSON data w in
       ok = true ∧ NullableTime.Get w' = NullableTime.Get v ∧
       ∀ u, NullableTime.After w' u = NullableTime.After v u ∧ NullableTime.After u w' = NullableTime.After u v
   | None => ∃ t, NullableTime.Get v = Some t ∧ ¬ 0 ≤ Civil.Year (civil t) ≤ 9999
   end) ∧
  NullableTime.After v w = nullable_After (NullableTime.Get v) (NullableTime.Get w).
Proof.
  destruct v as [[] t], w as [b u]; (split; [|by destruct b]).
  - unfold NullableTime.MarshalJSON, Marshal_time. cbn [NullableTime.hasValue NullableTime.at_].
    destruct (within 0 9999 _) eqn:Hy; unfold within in Hy.
    + unfold NullableTime.UnmarshalJSON, Unmarshal_time. rewrite parse_format by lia. done.
    + exists t. split; [done|]. lia.
  - split; [done|]. split; [done|]. by intros [[] u'].
Qed.
