(* ===== verification/Extcron.v ===== *)
(** * Extcron: the schedules dkron adds to cron

    src/extcron: the parser of schedules (extparser.go), the schedules that run
    once (simple.go, after.go) and the durations of their grace periods
    (duration.go).  The cron library, the dates and the result of cutting a
    number that is too large for an integer are parameters (class [Cron]). *)

From S2P Require Import Prelude GoCore GoFloat Jobs.

(** What the sources use of other code: the schedules [cron.Parser] accepts with
    their next activations, [time.Parse] of RFC 3339, and [int64(x)] of a number
    out of range, which depends on the machine. *)
Class Cron := {
  CronSchedule : Type;
  cron_Parse : string → option CronSchedule;
  cron_Next : CronSchedule → time → time;
  ParseRFC3339 : string → option time;
  float_out_of_range : Z;
}.

(** [Next] returns a time later than the given one, or the zero time. *)
Class CronLaws `{Cron} : Prop :=
  cron_Next_later s t : cron_Next s t = zero_time ∨ t < cron_Next s t.

(** ** Durations *)

Module Iso.
(** The matches of [iso8601DurationRegex]; an empty string is a group that took
    part in no match. The seconds are the digits before and after the point. *)
Record t := mk {
  Years : string; Months : string; Days : string;
  T : bool;
  Hours : string; Minutes : string; Seconds : string; Fraction : string;
}.
End Iso.

(** [(?:(\d+)<letter>)?]: the digits and the rest. *)
Definition match_part (letter : ascii) (s : string) : string * string :=
  match span_digits s with
  | (EmptyString, _) => ("", s)
  | (ds, String c r) => if Ascii.eqb c letter then (ds, r) else ("", s)
  | (_, EmptyString) => ("", s)
  end.

(** [(?:(\d+(?:\.\d+)?)S)?]: the digits, those after the point, and the rest. *)
Definition match_seconds (s : string) : string * string * string :=
  match span_digits s with
  | (EmptyString, _) => ("", "", s)
  | (ds, String c r) =>
      if Ascii.eqb c "S" then (ds, "", r)
      else if Ascii.eqb c "." then
        match match_part "S" r with
        | (EmptyString, _) => ("", "", s)
        | (fs, r) => (ds, fs, r)
        end
      else ("", "", s)
  | (_, EmptyString) => ("", "", s)
  end.

(** [FindStringSubmatch] *)
Definition iso_match (s : string) : option Iso.t :=
  match s with
  | EmptyString => None
  | String p s =>
      if negb (Ascii.eqb p "P") then None else
      let (y, s) := match_part "Y" s in
      let (mo, s) := match_part "M" s in
      let (d, s) := match_part "D" s in
      match s with
      | EmptyString => Some (Iso.mk y mo d false "" "" "" "")
      | String t s =>
          if negb (Ascii.eqb t "T") then None else
          let (h, s) := match_part "H" s in
          let (mi, s) := match_part "M" s in
          let '(sec, f, s) := match_seconds s in
          if String.eqb s "" then Some (Iso.mk y mo d true h mi sec f) else None
      end
  end.

Definition second_ns : Z := 1000000000.
Definition minute_ns : Z := 60 * second_ns.
Definition hour_ns : Z := 60 * minute_ns.

(** One [if matches[i] != ""] with an integer. *)
Definition add_part (digits : string) (unit : Z) (duration : Z) : option Z :=
  if String.eqb digits "" then Some duration else
  let (v, ok) := Atoi digits in
  if ok then Some (int64 (duration + int64 (v * unit))) else None.

Section cron.
Context `{Cron}.

Definition add_seconds (digits fraction : string) (duration : Z) : option Z :=
  if String.eqb digits "" then Some duration else
  let? seconds := ParseFloat digits fraction in
  Some (int64 (duration + float_int64 float_out_of_range (float_mul seconds second_ns))).

(** The nanoseconds; [None] is an error. *)
Definition ParseISO8601Duration (s : string) : option Z :=
  if String.eqb s "" then None else
  let? m := iso_match s in
  let? duration := add_part (Iso.Years m) (365 * 24 * hour_ns) 0 in
  let? duration := add_part (Iso.Months m) (30 * 24 * hour_ns) duration in
  let? duration := add_part (Iso.Days m) (24 * hour_ns) duration in
  let? duration := add_part (Iso.Hours m) hour_ns duration in
  let? duration := add_part (Iso.Minutes m) minute_ns duration in
  let? duration := add_seconds (Iso.Seconds m) (Iso.Fraction m) duration in
  if duration =? 0 then None else Some duration.

(** ** Schedules *)

Record AfterSchedule := mkAfter { Date : time; GracePeriod : Z; consumed : bool }.

(** A schedule that remembers whether its run in the grace period was used. *)
Inductive schedule : Type :=
  | SimpleSchedule (date : time)
  | After (s : AfterSchedule)
  | Standard (s : CronSchedule).

Definition At (date : time) : schedule := SimpleSchedule date.

Definition SimpleSchedule_Next (date t : time) : time :=
  if t <? date then date else zero_time.

Definition AfterSchedule_Next (s : AfterSchedule) (t : time) : time * AfterSchedule :=
  if consumed s then (zero_time, s)
  else if t <? Date s then (Date s, s)
  else if negb (Date s + GracePeriod s <? t)
  then (t + 1, mkAfter (Date s) (GracePeriod s) true)
  else (zero_time, s).

Definition Next (s : schedule) (t : time) : time * schedule :=
  match s with
  | SimpleSchedule date => (SimpleSchedule_Next date t, s)
  | After s => let (next, s) := AfterSchedule_Next s t in (next, After s)
  | Standard c => (cron_Next c t, s)
  end.

(** ** The parser *)

(** [s[n:]] *)
Fixpoint from (n : nat) (s : string) : string :=
  match n, s with
  | S n, String _ s => from n s
  | _, _ => s
  end.

(** The bytes of the white space [s] starts with, 0 for none: the white space of
    Unicode in UTF-8. *)
Definition space_bytes (s : string) : nat :=
  match byte_of <$> String.list_ascii_of_string (String.substring 0 3 s) with
  | [] => 0%nat
  | b :: bs =>
      if within 9 13 b || (b =? 32) then 1%nat else
      match b, bs with
      | 194, c :: _ => if (c =? 133) || (c =? 160) then 2%nat else 0%nat
      | 225, [154; 128] | 226, [129; 159] | 227, [128; 128] => 3%nat
      | 226, [128; c] =>
          if within 128 138 c || within 168 169 c || (c =? 175) then 3%nat else 0%nat
      | _, _ => 0%nat
      end
  end.

(** [strings.Fields]: [skip] bytes of a white space are left, [field] was read. *)
Fixpoint fields_loop (skip : nat) (field : string) (s : string) : list string :=
  let emit := if String.eqb field "" then [] else [field] in
  match s with
  | EmptyString => emit
  | String c s' =>
      match skip with
      | S skip => fields_loop skip field s'
      | O =>
          match space_bytes s with
          | O => fields_loop 0 (field +:+ String c "") s'
          | S skip => emit ++ fields_loop skip "" s'
          end
      end
  end.
Definition Fields (s : string) : list string := fields_loop 0 "" s.

Definition Parse (spec : string) : option schedule :=
  if String.eqb spec "@manually" then Some (At zero_time) else
  let spec := if String.eqb spec "@minutely" then "0 * * * * *" else spec in
  if HasPrefix spec "@at " then
    let? date := ParseRFC3339 (from 4 spec) in Some (At date)
  else if HasPrefix spec "@after " then
    match Fields (from 7 spec) with
    | [date; grace] =>
        let? date := ParseRFC3339 date in
        if negb (HasPrefix grace "<") then None else
        let? gracePeriod := ParseISO8601Duration (from 1 grace) in
        Some (After (mkAfter date gracePeriod false))
    | _ => None
    end
  else let? c := cron_Parse spec in Some (Standard c).

(** ** The engine *)

(** The activations of a schedule added to the engine of the cron library at
    [t]: it asks for the next activation when the schedule is added and each
    time it has woken up for one, some delay after it was due. *)
Fixpoint activations (delays : list Z) (s : schedule) (t : time) : list time :=
  let (next, s) := Next s t in
  if next =? zero_time then [] else
  next :: match delays with
          | [] => []
          | delay :: delays => activations delays s (next + delay)
          end.

End cron.

(** ** The format of durations *)














Section durations.
Context `{Cron}.




(** A fraction of a second is cut after it was rounded: a nanosecond is lost. *)
Lemma fraction_cut : ParseISO8601Duration "PT1.001S" = Some 1000999999.
Proof. vm_compute. reflexivity. Qed.

(** Nothing checks that the sum fits: 300 years are a negative duration, and a
    schedule with that grace period has none. *)
Lemma long_duration_negative : ParseISO8601Duration "P300Y" = Some (-8985944073709551616).
Proof. vm_compute. reflexivity. Qed.
End durations.

(** ** The parser on descriptors *)

Definition graphic (c : ascii) : bool := within 33 126 (byte_of c).
(** A word of ASCII characters that are seen. *)
Fixpoint word (s : string) : bool :=
  match s with
  | EmptyString => true
  | String c s => graphic c && word s
  end.

Lemma space_bytes_graphic c s : graphic c = true → space_bytes (String c s) = 0%nat.
Proof. destruct c as [[] [] [] [] [] [] [] []]; intros Hc; (discriminate || reflexivity). Qed.

Lemma fields_loop_word field w s : word w = true →
  fields_loop 0 field (w +:+ s) = fields_loop 0 (field +:+ w) s.
Proof.
  revert field. induction w as [|c w IH]; intros field; cbn.
  - intros _. by rewrite string_app_nil_r.
  - intros [Hc Hw]%andb_prop. change (String c w +:+ s) with (String c (w +:+ s)).
    cbn [fields_loop]. rewrite (space_bytes_graphic c _ Hc), (IH _ Hw).
    by rewrite string_app_assoc.
Qed.

Lemma Fields_two v w : word v = true → word w = true → v ≠ "" → w ≠ "" →
  Fields (v +:+ String " " w) = [v; w].
Proof.
  intros Hv Hw Hvn Hwn. unfold Fields. rewrite fields_loop_word by done.
  change ("" +:+ v) with v. cbn [fields_loop].
  change (space_bytes (String " " w)) with 1%nat.
  destruct (String.eqb_spec v ""); [done|]. cbn. f_equal.
  rewrite <- (string_app_nil_r w) at 1. rewrite fields_loop_word by done.
  change ("" +:+ w) with w. cbn. by destruct (String.eqb_spec w "").
Qed.

Section descriptors.
Context `{Cron}.

Lemma Parse_manually : Parse "@manually" = Some (At zero_time).
Proof. done. Qed.
Lemma Parse_minutely : Parse "@minutely" = Parse "0 * * * * *".
Proof. done. Qed.
Lemma Parse_at d : Parse ("@at " +:+ d) = At <$> ParseRFC3339 d.
Proof.
  unfold Parse. change (String.eqb ("@at " +:+ d) "@manually") with false.
  change (String.eqb ("@at " +:+ d) "@minutely") with false. cbv zeta iota.
  rewrite HasPrefix_app. change (from 4 ("@at " +:+ d)) with d. by destruct (ParseRFC3339 d).
Qed.

Lemma Parse_after d p : word d = true → word p = true → d ≠ "" →
  Parse ("@after " +:+ d +:+ " <" +:+ p) =
    let? date := ParseRFC3339 d in
    let? grace := ParseISO8601Duration p in Some (After (mkAfter date grace false)).
Proof.
  intros Hd Hp Hn. set (args := d +:+ " <" +:+ p). unfold Parse.
  change (String.eqb ("@after " +:+ args) "@manually") with false.
  change (String.eqb ("@after " +:+ args) "@minutely") with false. cbv zeta iota.
  change (HasPrefix ("@after " +:+ args) "@at ") with false. rewrite HasPrefix_app.
  change (from 7 ("@after " +:+ args)) with (d +:+ String " " ("<" +:+ p)).
  rewrite Fields_two by done. rewrite HasPrefix_app. by destruct (ParseRFC3339 d).
Qed.

(** ** Activations *)

Lemma activations_zero s s' delays t : Next s t = (zero_time, s') → activations delays s t = [].
Proof. intros Hn. destruct delays; cbn; by rewrite Hn. Qed.

Lemma activations_At date delays t : zero_time < t → Forall (λ d, 0 ≤ d) delays →
  activations delays (At date) t = if t <? date then [date] else [].
Proof.
  intros Ht Hd. destruct (Z.ltb_spec t date) as [Hlt|Hge].
  - destruct delays as [|delay delays]; cbn; unfold SimpleSchedule_Next;
      destruct (Z.ltb_spec t date); try lia; destruct (Z.eqb_spec date zero_time); try lia; [done|].
    f_equal. apply (activations_zero _ (At date)). cbn. unfold SimpleSchedule_Next.
    apply Forall_cons in Hd as [Hd _]. destruct (Z.ltb_spec (date + delay) date); [lia|done].
  - apply (activations_zero _ (At date)). cbn. unfold SimpleSchedule_Next.
    destruct (Z.ltb_spec t date); [lia|done].
Qed.

(** After the run in the grace period there is no other. *)
Lemma activations_consumed date grace delays t :
  activations delays (After (mkAfter date grace true)) t = [].
Proof. by apply (activations_zero _ (After (mkAfter date grace true))). Qed.

Lemma activations_late date grace delays t : zero_time < t → date ≤ t →
  activations delays (After (mkAfter date grace false)) t =
    if t <=? date + grace then [t + 1] else [].
Proof.
  intros Ht Hd. destruct (Z.leb_spec t (date + grace)) as [Hin|Hout].
  - assert (Next (After (mkAfter date grace false)) t = (t + 1, After (mkAfter date grace true))) as E.
    { cbn. unfold AfterSchedule_Next. cbn. destruct (Z.ltb_spec t date); [lia|].
      by destruct (Z.ltb_spec (date + grace) t); [lia|]. }
    destruct delays as [|delay delays]; cbn [activations]; rewrite E;
      destruct (Z.eqb_spec (t + 1) zero_time); try lia; [done|].
    by rewrite activations_consumed.
  - apply (activations_zero _ (After (mkAfter date grace false))). cbn.
    unfold AfterSchedule_Next. cbn. destruct (Z.ltb_spec t date); [lia|].
    by destruct (Z.ltb_spec (date + grace) t); [|lia].
Qed.

Lemma activations_After date grace delays t : zero_time < t → Forall (λ d, 0 ≤ d) delays →
  activations delays (After (mkAfter date grace false)) t =
    if t <? date then
      date :: match delays with
              | [] => []
              | delay :: _ => if delay <=? grace then [date + delay + 1] else []
              end
    else if t <=? date + grace then [t + 1] else [].
Proof.
  intros Ht Hd. destruct (Z.ltb_spec t date) as [Hlt|Hge]; [|by apply activations_late].
  assert (Next (After (mkAfter date grace false)) t = (date, After (mkAfter date grace false))) as E.
  { cbn. unfold AfterSchedule_Next. cbn. by destruct (Z.ltb_spec t date); [|lia]. }
  destruct delays as [|delay delays]; cbn [activations]; rewrite E;
    destruct (Z.eqb_spec date zero_time); try lia; [done|].
  apply Forall_cons in Hd as [Hd _]. f_equal. rewrite activations_late by lia.
  by destruct (Z.leb_spec (date + delay) (date + grace)), (Z.leb_spec delay grace); try lia.
Qed.

(** The schedules that run once, from their text to their activations:
    [@manually] has none; [@at] has one, its date, if that is ahead; [@after] has
    one right away in its grace period and none later, and when added ahead of its
    date it has two if the engine wakes up in the grace period: at the date, and
    again a nanosecond after the engine woke up for it. *)
Lemma one_shot_activations (d p : string) (date grace : Z) (delays : list Z) (t : time) :
  ParseRFC3339 d = Some date → ParseISO8601Duration p = Some grace →
  word d = true → word p = true → d ≠ "" →
  zero_time < t → Forall (λ delay, 0 ≤ delay) delays →
  let run spec := (λ s, activations delays s t) <$> Parse spec in
  run "@manually" = Some [] ∧
  run ("@at " +:+ d) = Some (if t <? date then [date] else []) ∧
  run ("@after " +:+ d +:+ " <" +:+ p) = Some
    (if t <? date then
       date :: match delays with
               | [] => []
               | delay :: _ => if delay <=? grace then [date + delay + 1] else []
               end
     else if t <=? date + grace then [t + 1] else []).
Proof.
  intros Hdate Hgrace Hd Hp Hn Ht Hdelays run. subst run. cbv beta. split; [|split].
  - rewrite Parse_manually. cbn [fmap option_fmap option_map].
    rewrite activations_At by done. destruct (Z.ltb_spec t zero_time); [lia|done].
  - rewrite Parse_at, Hdate. cbn [fmap option_fmap option_map]. by rewrite activations_At.
  - rewrite Parse_after, Hdate, Hgrace by done. cbn [fmap option_fmap option_map].
    by rewrite activations_After.
Qed.

(** The next activation is later than the time it is asked for, or there is none. *)
Lemma Next_later `{!CronLaws} s t : (Next s t).1 = zero_time ∨ t < (Next s t).1.
Proof.
  destruct s as [date|a|c]; cbn.
  - unfold SimpleSchedule_Next. destruct (Z.ltb_spec t date); [by right|by left].
  - unfold AfterSchedule_Next. destruct (consumed a); [by left|].
    destruct (Z.ltb_spec t (Date a)); [by right|].
    destruct (Z.ltb_spec (Date a + GracePeriod a) t); [by left|]. cbn. right. lia.
  - apply cron_Next_later.
Qed.
End descriptors.

(** ** The environment of jobs *)

(** What jobs are checked with, for these schedules. *)
Definition extcron_env `{Cron} (unicode_Ll : Z → bool)
    (LoadLocation ParseDuration : string → bool) : Env := {|
  Jobs.unicode_Ll := unicode_Ll;
  Jobs.Schedule := schedule;
  Jobs.Parse := Parse;
  Jobs.ScheduleNext := Next;
  Jobs.LoadLocation := LoadLocation;
  Jobs.ParseDuration := ParseDuration;
  Jobs.int64_overflow := float_out_of_range;
|}.

(** One schedule for the cron library, that is due every minute, and one date. *)
Definition demo_cron : Cron := {|
  CronSchedule := unit;
  cron_Parse s := if String.eqb s "0 * * * * *" then Some tt else None;
  cron_Next _ t := t + 60000000000;
  ParseRFC3339 s := if String.eqb s "2024-01-01T09:00:00Z" then Some 1704099600000000000 else None;
  float_out_of_range := - 2 ^ 63;
|}.



(** Added in time, the job is due at nine and again right after; added an hour
    late it is due once. *)
Lemma one_shot_activations_witness :
  let nine := 1704099600000000000 in
  let run spec t := (λ s, @activations demo_cron [5; 5] s t) <$> @Parse demo_cron spec in
  run "@at 2024-01-01T09:00:00Z" 0 = Some [nine] ∧
  run "@after 2024-01-01T09:00:00Z <PT2H" 0 = Some [nine; nine + 6] ∧
  run "@after 2024-01-01T09:00:00Z <PT2H" (nine + hour_ns) = Some [nine + hour_ns + 1].
Proof.
  intros nine run.
  pose proof (λ t, @one_shot_activations demo_cron "2024-01-01T09:00:00Z" "PT2H" nine (2 * hour_ns)
    [5; 5] t eq_refl eq_refl eq_refl eq_refl ltac:(discriminate)) as Hrun.
  assert (Forall (λ delay, 0 ≤ delay) [5; 5]) as Hd by (repeat constructor; lia).
  split; [|split].
  - apply (Hrun 0); [reflexivity|exact Hd].
  - apply (Hrun 0); [reflexivity|exact Hd].
  - apply (Hrun (nine + hour_ns)); [reflexivity|exact Hd].
Defined.
