(* ===== verification/Nodes.v ===== *)
(** * Nodes: where a job runs

    [getTargetNodes] of src/dkron/agent.go and the tags of src/dkron/tags.go: the
    members of the cluster that are alive, in the region of the agent and have the
    tags of the job, cut to the lowest cardinality a tag asks for. *)

From S2P Require Import Prelude GoCore Jobs.

(** ** Data *)

Inductive MemberStatus : Type :=
  StatusNone | StatusAlive | StatusLeaving | StatusLeft | StatusFailed.

#[global] Instance MemberStatus_eq_dec : EqDecision MemberStatus.
Proof. solve_decision. Defined.

Module Node.
(** The fields of [serf.Member] that are used. *)
Record t := mk {
  Name : string;
  Tags : gmap string string;
  Status : MemberStatus;
}.
End Node.

Definition MaxInt : Z := 2 ^ 63 - 1.

(** ** Tags *)

(** One turn of the loop over the tags. *)
Definition clean_tag (acc : gmap string string * Z) (kv : string * string) : gmap string string * Z :=
  let (cleaned, cardinality) := acc in
  let vparts := Split ":" kv.2 in
  (<[kv.1 := default "" (head vparts)]> cleaned,
   match vparts with
   | [_; card] =>
       let (v, ok) := Atoi card in
       let tagCard := if ok then v else 0 in
       if tagCard <? cardinality then tagCard else cardinality
   | _ => cardinality
   end).

(** Go visits the entries of a map in any order: [visit]. *)
Definition cleanTags (visit : list (string * string)) : gmap string string * Z :=
  fold_left clean_tag visit (∅, MaxInt).

Definition nodeMatchesTags (node : Node.t) (tags : gmap string string) : bool :=
  forallb (λ kv, match Node.Tags node !! kv.1 with
                 | Some nodeVal => String.eqb nodeVal kv.2
                 | None => false
                 end) (map_to_list tags).

(** ** Lists of nodes *)

(** The loop with the indices below [i] left. *)
Fixpoint filterArray_loop (filterFunc : Node.t → bool) (i : nat) (arr : list Node.t) : list Node.t :=
  match i with
  | O => arr
  | S i =>
      filterArray_loop filterFunc i
        match arr !! i with
        | Some node =>
            if filterFunc node then arr else
            match last arr with
            | Some end_ => take (pred (length arr)) (<[i := end_]> arr)
            | None => arr
            end
        | None => arr
        end
  end.

Definition filterArray (arr : list Node.t) (filterFunc : Node.t → bool) : list Node.t :=
  filterArray_loop filterFunc (length arr) arr.

Definition swap (nodes : list Node.t) (i j : nat) : list Node.t :=
  match nodes !! i, nodes !! j with
  | Some a, Some b => <[j := a]> (<[i := b]> nodes)
  | _, _ => nodes
  end.

Section select.
(** The choice among some nodes when so many are still to be chosen. *)
Variable selectFunc : nat → list Node.t → nat.

Fixpoint selectNodes_loop (cardinality numNodes : nat) (nodes : list Node.t) : list Node.t :=
  match cardinality with
  | O => drop numNodes nodes
  | S cardinality =>
      let chosenIndex := selectFunc cardinality (take numNodes nodes) in
      selectNodes_loop cardinality (pred numNodes) (swap nodes (pred numNodes) chosenIndex)
  end.

Definition selectNodes (nodes : list Node.t) (cardinality : Z) : list Node.t :=
  if Z.of_nat (length nodes) <=? cardinality then nodes
  else selectNodes_loop (Z.to_nat cardinality) (length nodes) nodes.

(** ** Target nodes *)

Section agent.
Variable region : string.

Definition qualifies (bareTags : gmap string string) (node : Node.t) : bool :=
  bool_decide (Node.Status node = StatusAlive)
  && String.eqb (default "" (Node.Tags node !! "region")) region
  && nodeMatchesTags node bareTags.

Definition getQualifyingNodes (nodes : list Node.t) (bareTags : gmap string string) : list Node.t :=
  filterArray nodes (qualifies bareTags).

Definition getTargetNodes (members : list Node.t) (visit : list (string * string)) : list Node.t :=
  let (bareTags, cardinality) := cleanTags visit in
  selectNodes (getQualifyingNodes members bareTags) cardinality.
End agent.
End select.

(** ** Lemmas *)

Lemma take_pred_insert_last (arr : list Node.t) i z : last arr = Some z → (i < length arr)%nat →
  take i (take (pred (length arr)) (<[i := z]> arr)) = take i arr ∧
  drop i (take (pred (length arr)) (<[i := z]> arr)) ≡ₚ drop (S i) arr.
Proof.
  intros Hz Hi. apply last_Some in Hz as [l ->]. rewrite length_app in *. cbn [length] in *.
  replace (pred (length l + 1)) with (length l) by lia.
  destruct (decide (i = length l)) as [->|Hn].
  - rewrite take_take, Nat.min_id. rewrite take_insert_ge by lia. split; [done|].
    rewrite drop_ge by (rewrite length_take; lia). by rewrite drop_ge by (rewrite length_app; cbn; lia).
  - rewrite insert_app_l by lia. rewrite take_app_length' by (by rewrite length_insert).
    rewrite take_insert_ge by lia. rewrite take_app_le by lia. split; [done|].
    rewrite (drop_S _ z) by (by rewrite list_lookup_insert_eq by lia).
    rewrite drop_insert_lt by lia. rewrite drop_app_le by lia. by rewrite Permutation_app_comm.
Qed.

Lemma filterArray_loop_spec f i arr : (i ≤ length arr)%nat →
  filterArray_loop f i arr ≡ₚ List.filter f (take i arr) ++ drop i arr.
Proof.
  revert arr. induction i as [|i IH]; intros arr Hi; cbn [filterArray_loop]; [done|].
  destruct (lookup_lt_is_Some_2 arr i) as [x Hx]; [lia|]. rewrite Hx.
  rewrite (take_S_r _ _ _ Hx), List.filter_app. cbn. destruct (f x).
  - rewrite IH by lia. rewrite <- app_assoc. by rewrite (drop_S _ _ _ Hx).
  - destruct (last arr) as [z|] eqn:Hz.
    2: { apply last_None in Hz as ->. done. }
    destruct (take_pred_insert_last arr i z Hz) as [H1 H2]; [lia|].
    rewrite IH, H1, H2 by (rewrite length_take, length_insert; lia). by rewrite app_nil_r.
Qed.

Lemma filterArray_spec arr f : filterArray arr f ≡ₚ List.filter f arr.
Proof.
  unfold filterArray. rewrite filterArray_loop_spec by lia.
  by rewrite take_ge, drop_ge, app_nil_r by lia.
Qed.

Lemma swap_Permutation nodes i j : swap nodes i j ≡ₚ nodes.
Proof.
  unfold swap. destruct (nodes !! i) as [a|] eqn:Ha; [|done].
  destruct (nodes !! j) as [b|] eqn:Hb; [|done]. by apply Permutation_insert_swap.
Qed.

Section select.
Variable selectFunc : nat → list Node.t → nat.

Lemma selectNodes_loop_spec c n nodes : (c ≤ n)%nat →
  ∃ nodes', nodes' ≡ₚ nodes ∧ selectNodes_loop selectFunc c n nodes = drop (n - c) nodes'.
Proof.
  revert n nodes. induction c as [|c IH]; intros n nodes Hc; cbn [selectNodes_loop].
  - exists nodes. by rewrite Nat.sub_0_r.
  - edestruct (IH (pred n)) as (nodes' & Hp & ->); [lia|]. exists nodes'.
    split; [by rewrite Hp, swap_Permutation|]. f_equal. lia.
Qed.

(** The chosen nodes are some of the given ones, as many as asked for. *)
Lemma selectNodes_spec nodes card :
  selectNodes selectFunc nodes card ⊆+ nodes ∧
  Z.of_nat (length (selectNodes selectFunc nodes card)) =
    Z.min (Z.of_nat (length nodes)) (Z.max 0 card).
Proof.
  unfold selectNodes. destruct (Z.leb_spec (Z.of_nat (length nodes)) card); [split; [done|lia]|].
  destruct (selectNodes_loop_spec (Z.to_nat card) (length nodes) nodes) as (nodes' & Hp & ->); [lia|].
  split.
  - etransitivity; [apply sublist_submseteq, sublist_drop|]. by rewrite Hp.
  - rewrite length_drop, (Permutation_length Hp). lia.
Qed.
End select.

(** ** Tags in any order *)

Definition cardinality_of (value : string) : Z :=
  match Split ":" value with
  | [_; card] => let (v, ok) := Atoi card in if ok then v else 0
  | _ => MaxInt
  end.
Definition bare (value : string) : string := default "" (head (Split ":" value)).

Lemma clean_tag_eq acc kv :
  acc.2 ≤ MaxInt → clean_tag acc kv = (<[kv.1 := bare kv.2]> acc.1, Z.min acc.2 (cardinality_of kv.2)).
Proof.
  intros Hm. destruct acc as [cleaned card]. cbn in *. unfold cardinality_of, bare. f_equal.
  destruct (Split ":" kv.2) as [|? [|c [|]]]; try lia.
  destruct (Atoi c) as [v ok]. destruct (Z.ltb_spec (if ok then v else 0) card); lia.
Qed.

Lemma cleanTags_loop visit acc : acc.2 ≤ MaxInt → NoDup visit.*1 →
  let r := fold_left clean_tag visit acc in
  (∀ k v, (k, v) ∈ visit → r.1 !! k = Some (bare v)) ∧
  (∀ k, k ∉ visit.*1 → r.1 !! k = acc.1 !! k) ∧
  r.2 = foldr (λ kv c, Z.min (cardinality_of kv.2) c) acc.2 visit.
Proof.
  revert acc. induction visit as [|[k0 v0] visit IH]; intros acc Hm Hnd; cbn [fold_left].
  { cbn. split_and!; [by intros k v ?%elem_of_nil|done..]. }
  rewrite clean_tag_eq by done. cbn [fst snd fmap list_fmap] in Hnd |- *.
  apply NoDup_cons in Hnd as [Hk0 Hnd].
  destruct (IH (<[k0:=bare v0]> acc.1, Z.min acc.2 (cardinality_of v0))) as (H1 & H2 & H3);
    [cbn; lia|done|]. cbn [fst snd] in *. split_and!.
  - intros k v [[= -> ->]|Hin]%elem_of_cons; [|by apply H1].
    rewrite H2 by done. apply lookup_insert_eq.
  - intros k [Hne Hin]%not_elem_of_cons. rewrite H2 by done. by apply lookup_insert_ne.
  - rewrite H3. cbn. clear. induction visit as [|kv visit IH]; cbn; [lia|]. rewrite IH. lia.
Qed.

(** The lowest cardinality of the tags. *)
Definition lowest (tags : gmap string string) : Z :=
  map_fold (λ _ v c, Z.min (cardinality_of v) c) MaxInt tags.

Lemma cleanTags_spec tags visit : visit ≡ₚ map_to_list tags →
  cleanTags visit = (bare <$> tags, lowest tags).
Proof.
  intros Hv. unfold cleanTags.
  destruct (cleanTags_loop visit (∅, MaxInt)) as (H1 & H2 & H3); [done| |].
  { rewrite Hv. apply NoDup_fst_map_to_list. }
  rewrite (surjective_pairing (fold_left _ _ _)). f_equal.
  - apply map_eq. intros k. rewrite lookup_fmap. destruct (tags !! k) as [v|] eqn:Hk; cbn.
    + apply H1. rewrite Hv. by apply elem_of_map_to_list.
    + rewrite H2; [done|]. rewrite Hv. intros ((k' & v') & -> & Hin%elem_of_map_to_list)%list_elem_of_fmap.
      cbn in Hk. congruence.
  - rewrite H3. cbn [snd]. unfold lowest. rewrite map_fold_foldr.
    transitivity (foldr (uncurry (λ _ v c, Z.min (cardinality_of v) c)) MaxInt visit).
    { clear. induction visit as [|[k v] visit IH]; cbn; [done|by rewrite IH]. }
    apply (foldr_permutation_proper (=)); [solve_proper| |done]. intros [] [] b. cbn. lia.
Qed.

Lemma nodeMatchesTags_spec node tags :
  nodeMatchesTags node tags = true ↔ tags ⊆ Node.Tags node.
Proof.
  unfold nodeMatchesTags. rewrite forallb_forall, map_subseteq_spec. split.
  - intros Hall k v Hk. specialize (Hall (k, v)). cbn in Hall.
    rewrite <- list_elem_of_In, elem_of_map_to_list in Hall. specialize (Hall Hk).
    destruct (Node.Tags node !! k); [|done]. by apply String.eqb_eq in Hall as ->.
  - intros Hs [k v] Hin%list_elem_of_In%elem_of_map_to_list. cbn.
    rewrite (Hs k v Hin). apply String.eqb_refl.
Qed.

(** C32. The nodes a job is sent to: they are different members that are alive, in
    the region, and have the tags of the job without their cardinalities; there
    are as many of them as such members exist, or as the lowest cardinality
    allows, none when it is malformed or negative.  Neither the order in which the
    tags are visited nor the choices made at random matter for that. *)
Theorem getTargetNodes_spec selectFunc region members tags visit :
  visit ≡ₚ map_to_list tags →
  let qualifying := List.filter (qualifies region (bare <$> tags)) members in
  let targets := getTargetNodes selectFunc region members visit in
  targets ⊆+ qualifying ∧
  (∀ node, node ∈ targets → node ∈ members ∧ Node.Status node = StatusAlive ∧
     default "" (Node.Tags node !! "region") = region ∧ bare <$> tags ⊆ Node.Tags node) ∧
  Z.of_nat (length targets) = Z.min (Z.of_nat (length qualifying)) (Z.max 0 (lowest tags)).
Proof.
  intros Hv qualifying targets. subst targets. unfold getTargetNodes.
  rewrite (cleanTags_spec _ _ Hv). unfold getQualifyingNodes.
  pose proof (filterArray_spec members (qualifies region (bare <$> tags))) as Hf.
  fold qualifying in Hf.
  destruct (selectNodes_spec selectFunc (filterArray members (qualifies region (bare <$> tags))) (lowest tags))
    as [H1 H2].
  set (targets := selectNodes _ _ _) in *. rewrite Hf in H1, H2. split; [done|]. split; [|done].
  intros node Hn. apply (elem_of_submseteq _ _ _ Hn) in H1. subst qualifying.
  apply list_elem_of_In, List.filter_In in H1 as [Hin Hq]. apply list_elem_of_In in Hin.
  unfold qualifies in Hq. apply andb_prop in Hq as [[H3 H4]%andb_prop H5].
  apply bool_decide_eq_true in H3. apply String.eqb_eq in H4.
  by apply nodeMatchesTags_spec in H5.
Qed.

(** Two of three nodes with the tag, and none for a malformed cardinality. *)
Definition demo_node (name dc : string) (status : MemberStatus) : Node.t :=
  Node.mk name {["dc" := dc; "region" := "global"]} status.
Definition demo_members : list Node.t :=
  [demo_node "a" "x" StatusAlive; demo_node "b" "x" StatusFailed; demo_node "c" "x" StatusAlive;
   demo_node "d" "y" StatusAlive; demo_node "e" "x" StatusAlive].
Definition demo_tags (value : string) : gmap string string := {["dc" := value]}.

Lemma getTargetNodes_spec_witness :
  Node.Name <$> getTargetNodes (λ _ _, 0%nat) "global" demo_members [("dc", "x:2")] = ["c"; "a"] ∧
  getTargetNodes (λ _ _, 0%nat) "global" demo_members [("dc", "x:two")] = [] ∧
  getTargetNodes (λ _ _, 0%nat) "global" demo_members [("dc", "x:2")]
    ⊆+ List.filter (qualifies "global" (bare <$> demo_tags "x:2")) demo_members.
Proof.
  split; [vm_compute; reflexivity|]. split; [vm_compute; reflexivity|].
  apply (getTargetNodes_spec (λ _ _, 0%nat) "global" demo_members (demo_tags "x:2") [("dc", "x:2")]).
  vm_compute. reflexivity.
Defined.
