(* ===== verification/Store.v ===== *)
(** * Store: the database of the server

    src/dkron/store.go: the jobs, executions and statistics the server keeps in
    its embedded key-value database, and the operations on them.  The keys
    [jobs:<name>], [executions:<job>:<key>] and [stats:<day>] have different
    prefixes, so the database is three maps, each keyed by what follows the
    prefix and its colon; a value is kept decoded.  A transaction that fails
    leaves the database as it was. *)

From S2P Require Import Prelude GoCore Jobs.

(** ** Executions and statistics *)

Module PbExecution.
(** [proto.Execution] as stored; the times are always set. *)
Record t := mk {
  JobName : string;
  Success : bool;
  Output : string;
  NodeName : string;
  Group : Z;
  Attempt : Z;
  StartedAt : time;
  FinishedAt : time;
}.
End PbExecution.

Module Exec.
(** The struct [Execution]; its [Id] is [Key]. *)
Record t := mk {
  JobName : string;
  StartedAt : time;
  FinishedAt : time;
  Success : bool;
  Output : string;
  NodeName : string;
  Group : Z;
  Attempt : Z;
}.
End Exec.

Definition NewExecutionFromProto (e : PbExecution.t) : Exec.t :=
  Exec.mk (PbExecution.JobName e) (PbExecution.StartedAt e) (PbExecution.FinishedAt e)
    (PbExecution.Success e) (PbExecution.Output e) (PbExecution.NodeName e)
    (PbExecution.Group e) (PbExecution.Attempt e).

Definition execution_ToProto (e : Exec.t) : PbExecution.t :=
  PbExecution.mk (Exec.JobName e) (Exec.Success e) (Exec.Output e) (Exec.NodeName e)
    (Exec.Group e) (uint32 (Exec.Attempt e)) (Exec.StartedAt e) (Exec.FinishedAt e).

(** [fmt.Sprintf("%d-%s", e.StartedAt.UnixNano(), e.NodeName)] *)
Definition Key (e : Exec.t) : string :=
  pretty (int64 (Exec.StartedAt e)) +:+ "-" +:+ Exec.NodeName e.

Definition ex_key (e : Exec.t) : string := Exec.JobName e +:+ ":" +:+ Key e.

Module ExecutionStat.
Record t := mk { Date : time; SuccessCount : Z; FailedCount : Z }.
End ExecutionStat.

Definition day_ns : Z := 86400000000000.

(** [t.UTC().Truncate(24 * time.Hour)], and the number of that day, which
    stands for its text in the key. *)
Definition day_of (t : time) : Z := t / day_ns.
Definition truncate_day (t : time) : time := day_of t * day_ns.

Module DB.
Record t := mk {
  jobs : gmap string PbJob.t;
  executions : gmap string PbExecution.t;
  stats : gmap Z ExecutionStat.t;
}.
Definition empty : t := mk ∅ ∅ ∅.
End DB.

Definition MaxExecutions : Z := 100.

(** ** Transactions *)

Definition setJobTx (p : PbJob.t) (db : DB.t) : DB.t :=
  DB.mk (<[PbJob.Name p := p]> (DB.jobs db)) (DB.executions db) (DB.stats db).

Definition getJobTx (name : string) (db : DB.t) : option PbJob.t := DB.jobs db !! name.

Definition GetJob (name : string) (db : DB.t) : option Job.t :=
  NewJobFromProto <$> getJobTx name db.

(** The entries in the order of their keys. *)
Definition ascend {A} (m : gmap string A) : list (string * A) :=
  merge_sort (λ a b, strings.String.le a.1 b.1) (map_to_list m).

Definition isDirectoryKey (key : string) : bool :=
  match last (String.list_ascii_of_string key) with
  | Some c => Ascii.eqb c ":"
  | None => false
  end.

Definition trimDirectoryKey (key : string) : string :=
  if isDirectoryKey key
  then String.substring 0 (Nat.pred (String.length key)) key else key.

(** [listTxFunc] without an index: the executions whose key starts with the
    prefix [<job>:], but an entry that is the prefix itself. *)
Definition listTx (prefix : string) (db : DB.t) : list PbExecution.t :=
  snd <$> List.filter
    (λ kv, HasPrefix kv.1 prefix && negb (String.eqb (trimDirectoryKey kv.1) prefix))
    (ascend (DB.executions db)).

(** [GetExecutions] in the order of the keys. It fails when there is none, which
    its callers here treat as no executions. *)
Definition GetExecutions (jobName : string) (db : DB.t) : list Exec.t :=
  NewExecutionFromProto <$> listTx (jobName +:+ ":") db.

Definition GetExecutionGroup (e : Exec.t) (db : DB.t) : list Exec.t :=
  List.filter (λ ex, Exec.Group ex =? Exec.Group e) (GetExecutions (Exec.JobName e) db).

Definition GetRunningExecutions (jobName : string) (db : DB.t) : list Exec.t :=
  List.filter (λ ex, negb (Exec.StartedAt ex =? zero_time) && (Exec.FinishedAt ex =? zero_time))
    (GetExecutions jobName db).

(** The database and whether the execution was stored: one that finished later
    is kept. *)
Definition setExecutionTx (key : string) (pbe : PbExecution.t) (db : DB.t) : DB.t * bool :=
  let set := (DB.mk (DB.jobs db) (<[key := pbe]> (DB.executions db)) (DB.stats db), true) in
  match DB.executions db !! key with
  | Some p => if PbExecution.FinishedAt pbe <? PbExecution.FinishedAt p then (db, false) else set
  | None => set
  end.

(** The executions whose key starts with the name. *)
Definition deleteExecutionsTx (jobName : string) (db : DB.t) : DB.t :=
  DB.mk (DB.jobs db)
    (filter (λ kv, HasPrefix kv.1 jobName = false) (DB.executions db)) (DB.stats db).

Definition computeStatus (jobName : string) (exGroup : Z) (db : DB.t) : string :=
  let executions :=
    List.filter (λ ex, Exec.Group ex =? exGroup) (NewExecutionFromProto <$> listTx (jobName +:+ ":") db) in
  let success := length (List.filter Exec.Success executions) in
  let failed := length (List.filter (λ ex, negb (Exec.Success ex)) executions) in
  if (failed =? 0)%nat then "success"
  else if (success =? 0)%nat then "failed"
  else "partially_failed".

Definition incrementStatTx (date : time) (success : bool) (db : DB.t) : DB.t :=
  let stat := default (ExecutionStat.mk (truncate_day date) 0 0) (DB.stats db !! day_of date) in
  let stat :=
    if success
    then ExecutionStat.mk (ExecutionStat.Date stat) (int64 (ExecutionStat.SuccessCount stat + 1))
           (ExecutionStat.FailedCount stat)
    else ExecutionStat.mk (ExecutionStat.Date stat) (ExecutionStat.SuccessCount stat)
           (int64 (ExecutionStat.FailedCount stat + 1)) in
  DB.mk (DB.jobs db) (DB.executions db) (<[day_of date := stat]> (DB.stats db)).

(** The statistics of the last [days] days, oldest first; the days are cut to
    at most 365, and 30 are taken when there is none. *)
Definition GetExecutionStats (now : time) (days : Z) (db : DB.t) : list ExecutionStat.t :=
  let days := if days <=? 0 then 30 else days in
  let days := if 365 <? days then 365 else days in
  let today := day_of now in
  (λ i, let day := today - i in
     default (ExecutionStat.mk (day * day_ns) 0 0) (DB.stats db !! day))
    <$> reverse (seqZ 0 days).

(** ** Jobs *)

Section env.
Context `{Env}.

(** The fields of a stored job that survive an update. *)
Definition keep_results (ej job : Job.t) (copyDependentJobs : bool) : Job.t :=
  with_results
    (if Job.SuccessCount job <? Job.SuccessCount ej then Job.SuccessCount ej else Job.SuccessCount job)
    (if Job.ErrorCount job <? Job.ErrorCount ej then Job.ErrorCount ej else Job.ErrorCount job)
    (if nullable_After (Job.LastSuccess ej) (Job.LastSuccess job)
     then Job.LastSuccess ej else Job.LastSuccess job)
    (if nullable_After (Job.LastError ej) (Job.LastError job)
     then Job.LastError ej else Job.LastError job)
    (if negb (bool_decide (Job.DependentJobs ej = [])) && copyDependentJobs
     then Job.DependentJobs ej else Job.DependentJobs job)
    (if String.eqb (Job.Status ej) "" then Job.Status job else Job.Status ej)
    job.

Definition update_Next (now : time) (ej job : Job.t) : option Job.t :=
  if negb (String.eqb (Job.Schedule job) (Job.Schedule ej)) then
    let? next := GetNext now job in Some (with_Next next job)
  else Some (if Job.Next job <? Job.Next ej then with_Next (Job.Next ej) job else job).

(** The transaction of [SetJob]: the job that was stored before, which is an
    empty one for a new job, the job as it is stored, and the new database. *)
Definition setJob_update (now : time) (job : Job.t) (copyDependentJobs : bool) (db : DB.t)
    : option (Job.t * Job.t * DB.t) :=
  let ej := NewJobFromProto (default PbJob.empty (getJobTx (Job.Name job) db)) in
  let job :=
    if negb (String.eqb (Job.Name ej) "") then keep_results ej job copyDependentJobs else job in
  let? job := update_Next now ej job in
  Some (ej, job, setJobTx (ToProto job) db).

Definition GetParent (j : Job.t) (db : DB.t) : error + Job.t :=
  if String.eqb (Job.Name j) (Job.ParentJob j) then inl ErrSameParent
  else if String.eqb (Job.ParentJob j) "" then inl ErrNoParent
  else match GetJob (Job.ParentJob j) db with
       | None => inl ErrParentJobNotFound
       | Some parent => inr parent
       end.

(** What an operation that changes the database returns: the database, and the
    error it ended with. *)
Definition outcome : Type := DB.t * option error.

(** [removeFromParent] and [addToParent] end by storing the parent with
    [SetJob], which is their argument. *)
Definition removeFromParent (SetJob : Job.t → DB.t → option outcome) (child : Job.t) (db : DB.t)
    : option outcome :=
  if String.eqb (Job.ParentJob child) "" then Some (db, None) else
  match GetParent child db with
  | inl err => Some (db, Some err)
  | inr parent =>
      SetJob (with_DependentJobs
        (List.filter (λ djn, negb (String.eqb djn (Job.Name child))) (Job.DependentJobs parent))
        parent) db
  end.

Definition addToParent (SetJob : Job.t → DB.t → option outcome) (child : Job.t) (db : DB.t)
    : option outcome :=
  if String.eqb (Job.ParentJob child) "" then Some (db, None) else
  match GetParent child db with
  | inl err => Some (db, Some err)
  | inr parent =>
      SetJob (with_DependentJobs (Job.DependentJobs parent ++ [Job.Name child]) parent) db
  end.

(** [None]: the recursion is deeper than [fuel]. *)
Fixpoint SetJob (fuel : nat) (now : time) (copyDependentJobs : bool) (job : Job.t) (db : DB.t)
    : option outcome :=
  match fuel with
  | O => None
  | S fuel =>
      match Validate job with
      | Some err => Some (db, Some err)
      | None =>
          if negb (String.eqb (Job.ParentJob job) "")
             && bool_decide (GetJob (Job.ParentJob job) db = None)
          then Some (db, Some ErrParentJobNotFound) else
          match setJob_update now job copyDependentJobs db with
          | None => Some (db, Some ErrScheduleParse)
          | Some (ej, job, db) =>
              if String.eqb (Job.ParentJob job) (Job.ParentJob ej) then Some (db, None) else
              let? (db, err) := removeFromParent (SetJob fuel now false) ej db in
              match err with
              | Some err => Some (db, Some err)
              | None => addToParent (SetJob fuel now false) job db
              end
          end
      end
  end.

(** The job is gone also when [removeFromParent] fails. *)
Definition DeleteJob (fuel : nat) (now : time) (name : string) (db : DB.t)
    : option (DB.t * (error + Job.t)) :=
  match getJobTx name db with
  | None => Some (db, inl ErrNotFound)
  | Some pbj =>
      if negb (bool_decide (PbJob.DependentJobs pbj = [])) then Some (db, inl ErrDependentJobs) else
      let job := NewJobFromProto pbj in
      let db := deleteExecutionsTx name db in
      let db := DB.mk (delete name (DB.jobs db)) (DB.executions db) (DB.stats db) in
      if negb (String.eqb (Job.ParentJob job) "") then
        let? (db, err) := removeFromParent (SetJob fuel now false) job db in
        Some (db, match err with Some err => inl err | None => inr job end)
      else Some (db, inr job)
  end.

(** ** Executions *)

(** The results of a run in the stored job. *)
Definition with_run (success : bool) (finished : time) (status : string) (p : PbJob.t) : PbJob.t :=
  PbJob.mk (PbJob.Name p) (PbJob.Displayname p) (PbJob.Timezone p) (PbJob.Schedule p)
    (PbJob.Owner p) (PbJob.OwnerEmail p)
    (if success then int32 (PbJob.SuccessCount p + 1) else PbJob.SuccessCount p)
    (if success then PbJob.ErrorCount p else int32 (PbJob.ErrorCount p + 1))
    (PbJob.Disabled p) (PbJob.Tags p) (PbJob.Retries p) (PbJob.DependentJobs p)
    (PbJob.ParentJob p) (PbJob.Concurrency p) (PbJob.Processors p) (PbJob.Executor p)
    (PbJob.ExecutorConfig p) status (PbJob.Metadata p)
    (if success then Some finished else PbJob.LastSuccess p)
    (if success then PbJob.LastError p else Some finished)
    (PbJob.Next p) (PbJob.Ephemeral p) (PbJob.ExpiresAt p) (PbJob.StartsAt p).

(** Whether an execution that is done again with the time and result it is
    stored with still has to be counted: the job does not have it as its last. *)
Definition shouldCount (pbj : PbJob.t) (previous : option PbExecution.t) (pbe : PbExecution.t) : bool :=
  match previous with
  | Some previous =>
      if (PbExecution.FinishedAt previous =? PbExecution.FinishedAt pbe)
         && Bool.eqb (PbExecution.Success previous) (PbExecution.Success pbe)
      then
        let last := if PbExecution.Success pbe then PbJob.LastSuccess pbj else PbJob.LastError pbj in
        negb (bool_decide (last = Some (PbExecution.FinishedAt pbe)))
      else true
  | None => true
  end.

(** The database, and whether the execution was counted. *)
Definition SetExecutionDone (execution : Exec.t) (db : DB.t) : DB.t * (error + bool) :=
  match getJobTx (Exec.JobName execution) db with
  | None => (db, inl ErrExecutionDoneForDeletedJob)
  | Some pbj =>
      let key := ex_key execution in
      let pbe := execution_ToProto execution in
      let previous := DB.executions db !! key in
      let older :=
        match previous with
        | Some previous => PbExecution.FinishedAt pbe <? PbExecution.FinishedAt previous
        | None => false
        end in
      if older then (db, inr false) else
      let db := (setExecutionTx key pbe db).1 in
      if negb (shouldCount pbj previous pbe) then (db, inr false) else
      let status := computeStatus (PbJob.Name pbj) (PbExecution.Group pbe) db in
      let pbj := with_run (PbExecution.Success pbe) (PbExecution.FinishedAt pbe) status pbj in
      (incrementStatTx (Exec.FinishedAt execution) (PbExecution.Success pbe) (setJobTx pbj db),
       inr true)
  end.

(** [sort.Slice] by start, which does not keep the order of equal elements. *)
Variable sortByStart : list Exec.t → list Exec.t.

Definition deleteExecution (execution : Exec.t) (db : DB.t) : DB.t :=
  DB.mk (DB.jobs db) (delete (ex_key execution) (DB.executions db)) (DB.stats db).

Definition SetExecution (execution : Exec.t) (db : DB.t) : DB.t * string :=
  let key := ex_key execution in
  let db := (setExecutionTx key (execution_ToProto execution) db).1 in
  let execs := GetExecutions (Exec.JobName execution) db in
  let over := (length execs - Z.to_nat MaxExecutions)%nat in
  (if (0 <? over)%nat
   then fold_left (λ db ex, deleteExecution ex db) (take over (sortByStart execs)) db
   else db, key).

Definition reset_results (p : PbJob.t) : PbJob.t :=
  PbJob.mk (PbJob.Name p) (PbJob.Displayname p) (PbJob.Timezone p) (PbJob.Schedule p)
    (PbJob.Owner p) (PbJob.OwnerEmail p) 0 0
    (PbJob.Disabled p) (PbJob.Tags p) (PbJob.Retries p) (PbJob.DependentJobs p)
    (PbJob.ParentJob p) (PbJob.Concurrency p) (PbJob.Processors p) (PbJob.Executor p)
    (PbJob.ExecutorConfig p) (PbJob.Status p) (PbJob.Metadata p) None None
    (PbJob.Next p) (PbJob.Ephemeral p) (PbJob.ExpiresAt p) (PbJob.StartsAt p).

Definition DeleteExecutions (jobName : string) (db : DB.t) : outcome :=
  match getJobTx jobName db with
  | None => (db, Some ErrNotFound)
  | Some pbj => (setJobTx (reset_results pbj) (deleteExecutionsTx jobName db), None)
  end.

End env.

(** ** Storing a parent *)

(** The jobs are stored under their names. *)
Definition keyed (db : DB.t) : Prop :=
  ∀ n p, DB.jobs db !! n = Some p → PbJob.Name p = n.

Lemma keyed_setJobTx p db : keyed db → keyed (setJobTx p db).
Proof.
  intros Hk n q. cbn. rewrite lookup_insert_Some. intros [[<- ->]|[_ Hq]]; eauto.
Qed.

Section flat.
Context `{Env}.

(** What [SetJob] does to a stored job whose dependent jobs are replaced, and
    what [removeFromParent] and [addToParent] amount to. *)
Definition store_parent (deps : list string) (p : PbJob.t) (db : DB.t) : outcome :=
  match Validate (NewJobFromProto p) with
  | Some err => (db, Some err)
  | None =>
      if negb (String.eqb (PbJob.ParentJob p) "")
         && bool_decide (DB.jobs db !! PbJob.ParentJob p = None)
      then (db, Some ErrParentJobNotFound)
      else (setJobTx (ToProto (with_DependentJobs deps (NewJobFromProto p))) db, None)
  end.

Definition on_parent (f : list string → list string) (child : Job.t) (db : DB.t) : outcome :=
  if String.eqb (Job.ParentJob child) "" then (db, None)
  else if String.eqb (Job.Name child) (Job.ParentJob child) then (db, Some ErrSameParent)
  else match DB.jobs db !! Job.ParentJob child with
       | None => (db, Some ErrParentJobNotFound)
       | Some p => store_parent (f (PbJob.DependentJobs p)) p db
       end.

Definition without (name : string) (deps : list string) : list string :=
  List.filter (λ djn, negb (String.eqb djn name)) deps.

Lemma with_results_same (j : Job.t) deps :
  with_results (Job.SuccessCount j) (Job.ErrorCount j) (Job.LastSuccess j) (Job.LastError j) deps
    (Job.Status j) (with_DependentJobs deps j) = with_DependentJobs deps j.
Proof. done. Qed.

Lemma nullable_After_irrefl t : nullable_After t t = false.
Proof. destruct t; [apply Z.ltb_irrefl|done]. Qed.

Lemma keep_results_self p deps :
  keep_results (NewJobFromProto p) (with_DependentJobs deps (NewJobFromProto p)) false =
    with_DependentJobs deps (NewJobFromProto p).
Proof.
  unfold keep_results. cbn. rewrite !Z.ltb_irrefl, !nullable_After_irrefl, andb_false_r.
  by destruct (String.eqb (PbJob.Status p) "") eqn:E.
Qed.

Lemma SetJob_stored f now deps n p db :
  keyed db → DB.jobs db !! n = Some p →
  SetJob (S f) now false (with_DependentJobs deps (NewJobFromProto p)) db =
    Some (store_parent deps p db).
Proof.
  intros Hk Hp. pose proof (Hk _ _ Hp) as Hn. unfold store_parent.
  cbn [SetJob]. change (Validate (with_DependentJobs deps (NewJobFromProto p)))
    with (Validate (NewJobFromProto p)).
  destruct (Validate (NewJobFromProto p)) eqn:Hv; [done|].
  apply Validate_slug in Hv as (Hne & _ & _). cbn in Hne.
  replace (bool_decide (GetJob _ db = None)) with (bool_decide (DB.jobs db !! PbJob.ParentJob p = None))
    by (apply bool_decide_ext; unfold GetJob, getJobTx; cbn; by rewrite fmap_None).
  cbn [Job.ParentJob with_DependentJobs with_results NewJobFromProto].
  destruct (negb _ && _); [done|].
  unfold setJob_update, getJobTx. cbn [Job.Name with_DependentJobs with_results NewJobFromProto].
  rewrite Hn, Hp. cbn [from_option id]. rewrite Hn.
  destruct (String.eqb_spec n ""); [congruence|]. cbn [negb]. rewrite keep_results_self.
  unfold update_Next. cbn [Job.Schedule with_DependentJobs with_results NewJobFromProto].
  rewrite String.eqb_refl. cbn [negb Job.Next].
  rewrite Z.ltb_irrefl. cbn. by rewrite String.eqb_refl.
Qed.

Lemma removeFromParent_flat f now child db : keyed db →
  removeFromParent (SetJob (S f) now false) child db =
    Some (on_parent (without (Job.Name child)) child db).
Proof.
  intros Hk. unfold removeFromParent, on_parent, GetParent, GetJob, getJobTx.
  destruct (String.eqb (Job.ParentJob child) ""); [done|].
  destruct (String.eqb (Job.Name child) _); [done|].
  destruct (DB.jobs db !! Job.ParentJob child) eqn:Hp; [|done].
  cbn -[SetJob]. by erewrite SetJob_stored.
Qed.

Lemma addToParent_flat f now child db : keyed db →
  addToParent (SetJob (S f) now false) child db =
    Some (on_parent (λ deps, deps ++ [Job.Name child]) child db).
Proof.
  intros Hk. unfold addToParent, on_parent, GetParent, GetJob, getJobTx.
  destruct (String.eqb (Job.ParentJob child) ""); [done|].
  destruct (String.eqb (Job.Name child) _); [done|].
  destruct (DB.jobs db !! Job.ParentJob child) eqn:Hp; [|done].
  cbn -[SetJob]. by erewrite SetJob_stored.
Qed.

Lemma keyed_on_parent f child db : keyed db → keyed (on_parent f child db).1.
Proof.
  intros Hk. unfold on_parent, store_parent.
  repeat case_match; try exact Hk; by apply keyed_setJobTx.
Qed.

(** [SetJob] without recursion and fuel. *)
Definition SetJob_flat (now : time) (copyDependentJobs : bool) (job : Job.t) (db : DB.t) : outcome :=
  match Validate job with
  | Some err => (db, Some err)
  | None =>
      if negb (String.eqb (Job.ParentJob job) "")
         && bool_decide (DB.jobs db !! Job.ParentJob job = None)
      then (db, Some ErrParentJobNotFound) else
      match setJob_update now job copyDependentJobs db with
      | None => (db, Some ErrScheduleParse)
      | Some (ej, job, db) =>
          if String.eqb (Job.ParentJob job) (Job.ParentJob ej) then (db, None) else
          let (db, err) := on_parent (without (Job.Name ej)) ej db in
          match err with
          | Some err => (db, Some err)
          | None => on_parent (λ deps, deps ++ [Job.Name job]) job db
          end
      end
  end.

Lemma setJob_update_keyed now job copy db ej job' db' :
  keyed db → setJob_update now job copy db = Some (ej, job', db') → keyed db'.
Proof.
  intros Hk. unfold setJob_update. destruct (update_Next _ _ _); [|done].
  intros. simplify_eq. by apply keyed_setJobTx.
Qed.

Lemma SetJob_is_flat f now copy job db : keyed db →
  SetJob (S (S f)) now copy job db = Some (SetJob_flat now copy job db).
Proof.
  intros Hk. unfold SetJob_flat.
  remember (S f) as f' eqn:Hf. cbn [SetJob].
  destruct (Validate job); [done|].
  replace (bool_decide (GetJob _ db = None)) with (bool_decide (DB.jobs db !! Job.ParentJob job = None))
    by (apply bool_decide_ext; unfold GetJob, getJobTx; by rewrite fmap_None).
  destruct (negb _ && _); [done|].
  destruct (setJob_update now job copy db) as [[[ej job'] db']|] eqn:Hu; [|done].
  eapply setJob_update_keyed in Hu; [|done].
  destruct (String.eqb (Job.ParentJob job') _); [done|]. subst f'.
  rewrite removeFromParent_flat by done.
  pose proof (keyed_on_parent (without (Job.Name ej)) ej db' Hu) as Hk'.
  destruct (on_parent _ ej db') as [db'' [err|]]; [done|]. by apply addToParent_flat.
Qed.

Lemma keyed_SetJob_flat now copy job db : keyed db → keyed (SetJob_flat now copy job db).1.
Proof.
  intros Hk. unfold SetJob_flat. destruct (Validate job); [done|].
  destruct (negb _ && _); [done|].
  destruct (setJob_update now job copy db) as [[[ej job'] db']|] eqn:Hu; [|done].
  eapply setJob_update_keyed in Hu; [|done].
  destruct (String.eqb (Job.ParentJob job') _); [done|].
  pose proof (keyed_on_parent (without (Job.Name ej)) ej db' Hu) as Hk'.
  destruct (on_parent _ ej db') as [db'' [err|]]; [done|]. by apply keyed_on_parent.
Qed.
End flat.
