(* ===== verification/Fsm.v ===== *)
(** * Fsm: the replicated state machine of the server

    src/dkron/fsm.go: every change of the store is a command of the replicated
    log, which each server applies to its own store (file Store).  The
    theorems: applying a command terminates; the stored hierarchy of jobs is
    consistent in every state that is reached and an update of a job is all or
    nothing; servers that apply the same log at different times agree on all but
    the next runs. *)

From S2P Require Import Prelude GoCore Jobs Store.

(** ** Commands *)

Inductive command : Type :=
  | SetJobType (job : PbJob.t)
  | DeleteJobType (jobName : string)
  | SetExecutionType (execution : PbExecution.t)
  | DeleteExecutionsType (jobName : string)
  | ExecutionDoneType (execution : PbExecution.t).

(** What [Apply] returns. *)
Inductive response : Type :=
  | RespNil
  | RespErr (err : error)
  | RespJob (job : Job.t)
  | RespKey (key : string).

(** How deep [SetJob] calls itself: once, for a parent. *)
Definition depth : nat := 2.

Section fsm.
Context `{Env}.
Variable sortByStart : list Exec.t → list Exec.t.

Definition applySetJob (now : time) (pj : PbJob.t) (db : DB.t) : option (DB.t * response) :=
  let? (db, err) := SetJob depth now true (NewJobFromProto pj) db in
  Some (db, match err with Some err => RespErr err | None => RespNil end).

Definition applyDeleteJob (now : time) (jobName : string) (db : DB.t) : option (DB.t * response) :=
  let? (db, res) := DeleteJob depth now jobName db in
  Some (db, match res with inl err => RespErr err | inr job => RespJob job end).

(** The job is read again, so that its own error can be returned. *)
Definition applyDeleteExecutions (jobName : string) (db : DB.t) : DB.t * response :=
  let (db, err) := DeleteExecutions jobName db in
  match err with
  | Some err => (db, RespErr err)
  | None =>
      match GetJob jobName db with
      | None => (db, RespErr ErrNotFound)
      | Some job => (db, RespJob job)
      end
  end.

Definition applyExecutionDone (pbe : PbExecution.t) (db : DB.t) : DB.t * response :=
  let (db, res) := SetExecutionDone (NewExecutionFromProto pbe) db in
  (db, match res with inl err => RespErr err | inr _ => RespNil end).

Definition applySetExecution (pbe : PbExecution.t) (db : DB.t) : DB.t * response :=
  let (db, key) := SetExecution sortByStart (NewExecutionFromProto pbe) db in
  (db, RespKey key).

Definition Apply (now : time) (c : command) (db : DB.t) : option (DB.t * response) :=
  match c with
  | SetJobType job => applySetJob now job db
  | DeleteJobType jobName => applyDeleteJob now jobName db
  | DeleteExecutionsType jobName => Some (applyDeleteExecutions jobName db)
  | ExecutionDoneType execution => Some (applyExecutionDone execution db)
  | SetExecutionType execution => Some (applySetExecution execution db)
  end.

(** ** Invariants *)

(** The stored values: jobs are valid and stored under their names, executions
    under their keys, statistics under their days. *)
Record db_ok (db : DB.t) : Prop := {
  ok_keyed : keyed db;
  ok_stored n p : DB.jobs db !! n = Some p → stored p;
  ok_valid n p : DB.jobs db !! n = Some p → Validate (NewJobFromProto p) = None;
  ok_executions k e : DB.executions db !! k = Some e →
    k = ex_key (NewExecutionFromProto e) ∧ in_uint32 (PbExecution.Attempt e);
  ok_stats d s : DB.stats db !! d = Some s → ExecutionStat.Date s = d * day_ns;
}.

(** The parent of a stored job, and the jobs a job lists as dependent. *)
Definition parent_in (db : DB.t) (name : string) : option string :=
  PbJob.ParentJob <$> DB.jobs db !! name.
Definition deps_in (db : DB.t) (name : string) : list string :=
  match DB.jobs db !! name with Some p => PbJob.DependentJobs p | None => [] end.

(** A job lists exactly the jobs that name it as their parent, each once. *)
Definition linked (db : DB.t) : Prop :=
  (∀ n c, n ≠ "" → c ∈ deps_in db n ↔ parent_in db c = Some n) ∧
  (∀ n, NoDup (deps_in db n)).

(** A job is listed by the job it names as its parent, maybe among others. *)
Definition children_listed (db : DB.t) : Prop :=
  ∀ n c, n ≠ "" → parent_in db c = Some n → c ∈ deps_in db n.

(** A command whose job makes up no dependent jobs: where the store has none,
    it lists none. *)
Definition honest (c : command) (db : DB.t) : Prop :=
  match c with
  | SetJobType pj => deps_in db (PbJob.Name pj) = [] → PbJob.DependentJobs pj = []
  | _ => True
  end.

(** The states any log of commands leads to, whatever the clock shows. *)
Inductive reachable : DB.t → Prop :=
  | reachable_empty : reachable DB.empty
  | reachable_step now c db db' resp :
      reachable db → Apply now c db = Some (db', resp) → reachable db'.

(** The states a log leads to whose commands make up no dependent jobs. *)
Inductive honest_log : DB.t → Prop :=
  | honest_empty : honest_log DB.empty
  | honest_step now c db db' resp :
      honest_log db → honest c db → Apply now c db = Some (db', resp) → honest_log db'.

End fsm.

(** ** Jobs keep to the invariants *)

Section invariant.
Context `{Env}.
Implicit Types (db : DB.t) (job child : Job.t) (p : PbJob.t).

Lemma db_ok_empty : db_ok DB.empty.
Proof. split; intros a b; cbn; by rewrite lookup_empty. Qed.

Lemma linked_empty : linked DB.empty.
Proof.
  split; [|intros n; constructor]. intros n c Hn. unfold deps_in, parent_in. cbn.
  rewrite !lookup_empty. by split; [intros ?%elem_of_nil|].
Qed.

Lemma db_ok_setJobTx job db :
  Validate job = None → db_ok db → db_ok (setJobTx (ToProto job) db).
Proof.
  intros Hv [Hk Hs Hj He Ht]. split; cbn; [by apply keyed_setJobTx|..]; [| |done..].
  - intros n p. rewrite lookup_insert_Some. intros [[_ <-]|[_ ?]]; eauto using ToProto_stored.
  - intros n p. rewrite lookup_insert_Some. intros [[_ <-]|[_ ?]]; [exact Hv|eauto].
Qed.

Lemma db_ok_no_self n p db : db_ok db → DB.jobs db !! n = Some p → n ≠ "" ∧ PbJob.ParentJob p ≠ n.
Proof.
  intros Hdb Hp. pose proof (ok_valid db Hdb _ _ Hp) as (H1 & _ & H2)%Validate_slug.
  cbn in *. rewrite (ok_keyed db Hdb _ _ Hp) in *. done.
Qed.

(** The parents of all stored jobs are stored. *)
Definition parents_stored db : Prop :=
  ∀ n p, DB.jobs db !! n = Some p → PbJob.ParentJob p ≠ "" → is_Some (DB.jobs db !! PbJob.ParentJob p).

Lemma linked_children_listed db : linked db → children_listed db.
Proof. intros [Hl _] n c Hn. by apply Hl. Qed.

Lemma children_listed_parents_stored db : children_listed db → parents_stored db.
Proof.
  intros Hl n p Hp Hne. specialize (Hl (PbJob.ParentJob p) n Hne).
  unfold deps_in, parent_in in Hl. rewrite Hp in Hl. specialize (Hl eq_refl).
  destruct (DB.jobs db !! PbJob.ParentJob p); [eauto|by apply elem_of_nil in Hl].
Qed.

(** Jobs that are stored before are stored after, with the same parents. *)
Definition same_parents db db' : Prop := ∀ c, parent_in db' c = parent_in db c.

Lemma same_parents_stored db db' : same_parents db db' → parents_stored db → parents_stored db'.
Proof.
  intros Hs Hp n p' Hn Hne. pose proof (Hs n) as E. unfold parent_in in E.
  rewrite Hn in E. cbn in E. symmetry in E. apply fmap_Some in E as (p & Hnp & E).
  rewrite E in *. destruct (Hp _ _ Hnp Hne) as [q Hq].
  pose proof (Hs (PbJob.ParentJob p)) as E'. unfold parent_in in E'. rewrite Hq in E'.
  apply fmap_Some in E' as (q' & -> & _). eauto.
Qed.

(** A stored job but for its list of dependent jobs. *)
Definition apart_from_deps (p : PbJob.t) : Job.t := with_DependentJobs [] (NewJobFromProto p).

(** Only lists of dependent jobs differ, and not that of [name]. *)
Definition same_but_deps (name : string) db db' : Prop :=
  (∀ n, apart_from_deps <$> DB.jobs db' !! n = apart_from_deps <$> DB.jobs db !! n) ∧
  DB.jobs db' !! name = DB.jobs db !! name ∧
  DB.executions db' = DB.executions db ∧ DB.stats db' = DB.stats db.

(** [on_parent] succeeds for a stored parent, and replaces its list. *)
Lemma on_parent_ok f child db :
  db_ok db → parents_stored db →
  (Job.ParentJob child ≠ "" → Job.ParentJob child ≠ Job.Name child ∧
     is_Some (DB.jobs db !! Job.ParentJob child)) →
  ∃ db', on_parent f child db = (db', None) ∧ db_ok db' ∧ same_parents db db' ∧
    (∀ name, name ≠ Job.ParentJob child ∨ Job.ParentJob child = "" → same_but_deps name db db') ∧
    ∀ n, n ≠ "" →
      deps_in db' n = if decide (n = Job.ParentJob child) then f (deps_in db n) else deps_in db n.
Proof.
  intros Hdb Hps Hp. unfold on_parent.
  destruct (String.eqb_spec (Job.ParentJob child) "") as [->|Hnn].
  { exists db. split_and!; [done..|]. intros n Hn. by rewrite decide_False. }
  pose proof (ok_stored db Hdb) as Hst.
  destruct (Hp Hnn) as [Hne [p Hpp]].
  destruct (String.eqb_spec (Job.Name child) (Job.ParentJob child)); [congruence|]. rewrite Hpp. unfold store_parent.
  rewrite (ok_valid db Hdb _ _ Hpp).
  assert (negb (String.eqb (PbJob.ParentJob p) "") &&
    bool_decide (DB.jobs db !! PbJob.ParentJob p = None) = false) as ->.
  { destruct (String.eqb_spec (PbJob.ParentJob p) ""); [done|]. cbn.
    destruct (Hps _ _ Hpp) as [? ->]; done. }
  eexists. split; [done|]. split_and!.
  - apply db_ok_setJobTx; [|done]. exact (ok_valid db Hdb _ _ Hpp).
  - intros c. unfold parent_in. cbn. rewrite (ok_keyed db Hdb _ _ Hpp).
    destruct (decide (c = Job.ParentJob child)) as [->|Hc].
    + by rewrite lookup_insert_eq, Hpp.
    + by rewrite lookup_insert_ne.
  - intros name Hname. unfold same_but_deps. cbn. rewrite (ok_keyed db Hdb _ _ Hpp).
    split_and!; [|rewrite lookup_insert_ne; by intuition congruence|done..]. intros m.
    destruct (decide (m = Job.ParentJob child)) as [->|Hm]; [|by rewrite lookup_insert_ne].
    rewrite lookup_insert_eq, Hpp. cbn. f_equal.
    assert (∀ j, apart_from_deps (ToProto (with_DependentJobs j (NewJobFromProto p))) =
      with_DependentJobs [] (NewJobFromProto (ToProto (NewJobFromProto p)))) as -> by done.
    by rewrite NewJobFromProto_ToProto by eauto.
  - intros m _. unfold deps_in. cbn. rewrite (ok_keyed db Hdb _ _ Hpp).
    case_decide as Hc; [subst m; by rewrite lookup_insert_eq, Hpp|by rewrite lookup_insert_ne].
Qed.

(** The dependent jobs of a job that is set: those it had, or else those it is set
    with. *)
Definition deps_set db (job : Job.t) : list string :=
  if decide (deps_in db (Job.Name job) = []) then Job.DependentJobs job else deps_in db (Job.Name job).

Lemma deps_set_honest db job : (deps_in db (Job.Name job) = [] → Job.DependentJobs job = []) →
  deps_set db job = deps_in db (Job.Name job).
Proof. intros Hh. unfold deps_set. case_decide as Hd; [|done]. rewrite Hd. by apply Hh. Qed.

(** The job [SetJob] stores. *)
Lemma setJob_update_ok now job db :
  db_ok db → Validate job = None →
  ∃ job', setJob_update now job true db =
      Some (NewJobFromProto (default PbJob.empty (DB.jobs db !! Job.Name job)), job',
            setJobTx (ToProto job') db) ∧
    Validate job' = None ∧ Job.Name job' = Job.Name job ∧ Job.ParentJob job' = Job.ParentJob job ∧
    Job.DependentJobs job' = deps_set db job.
Proof.
  intros Hdb Hv. unfold setJob_update, getJobTx.
  set (ej := NewJobFromProto _).
  set (job1 := if negb _ then _ else _).
  assert (Validate job1 = None ∧ Job.Name job1 = Job.Name job ∧
    Job.ParentJob job1 = Job.ParentJob job ∧
    Job.DependentJobs job1 = deps_set db job) as (Hv1 & Hn1 & Hp1 & Hd1).
  { subst job1 ej. unfold deps_set, deps_in in *. destruct (DB.jobs db !! Job.Name job) as [p|] eqn:Hp.
    - cbn [from_option id Job.Name NewJobFromProto].
      destruct (db_ok_no_self _ _ _ Hdb Hp) as [Hne _].
      rewrite (ok_keyed db Hdb _ _ Hp).
      destruct (String.eqb_spec (Job.Name job) ""); [done|].
      split_and!; [exact Hv|done..|]. cbn. case_bool_decide as Hd; cbn; [by rewrite decide_True|by rewrite decide_False].
    - by split_and!. }
  assert (∃ next, update_Next now ej job1 = Some (with_Next next job1)) as [next ->].
  { unfold update_Next. destruct (String.eqb (Job.Schedule job1) _); cbn [negb]; [|].
    2: destruct (Validate_GetNext now job1 Hv1) as [next ->]; by eauto.
    destruct (_ <? _); [eauto|]. exists (Job.Next job1). by destruct job1. }
  eexists. split_and!; [done|..]; [exact Hv1|done..].
Qed.

Lemma elem_of_without name c l : c ∈ without name l ↔ c ∈ l ∧ c ≠ name.
Proof.
  unfold without. rewrite !list_elem_of_In, filter_In, negb_true_iff, String.eqb_neq. done.
Qed.

Lemma NoDup_without name l : NoDup l → NoDup (without name l).
Proof. rewrite !NoDup_ListNoDup. apply List.NoDup_filter. Qed.

(** The update of the lists of the two parents keeps the hierarchy consistent. *)
Lemma linked_move db db' J (P P' : string) :
  linked db → P ≠ P' → default "" (parent_in db J) = P →
  (∀ c, parent_in db' c = if decide (c = J) then Some P' else parent_in db c) →
  (∀ n, n ≠ "" → deps_in db' n =
     let l := if decide (n = P) then without J (deps_in db n) else deps_in db n in
     if decide (n = P') then l ++ [J] else l) →
  deps_in db' "" = [] →
  linked db'.
Proof.
  intros [Hl Hnd] HP HJ Hpar Hdeps H0.
  assert (∀ n, n ≠ "" → J ∈ deps_in db n → n = P) as HJP.
  { intros n Hn Hin. apply Hl in Hin; [|done]. by rewrite Hin in HJ. }
  split.
  - intros n c Hn. rewrite Hdeps, Hpar by done. cbn zeta. specialize (Hl n c Hn).
    destruct (decide (n = P')) as [->|HnP']; destruct (decide (_ = P)) as [->|HnP];
      destruct (decide (c = J)) as [->|Hc]; try done;
      rewrite ?elem_of_app, ?elem_of_without, ?list_elem_of_singleton.
    all: try (by rewrite Hl; naive_solver).
    all: naive_solver.
  - intros n. destruct (decide (n = "")) as [->|Hn]; [rewrite H0; constructor|].
    rewrite Hdeps by done. cbn zeta. specialize (Hnd n).
    destruct (decide (n = P')) as [->|HnP'].
    + rewrite decide_False by done. apply NoDup_app. split_and!; [done| |apply NoDup_singleton].
      intros x Hx ->%list_elem_of_singleton. by apply HP, eq_sym, HJP.
    + case_decide; [by apply NoDup_without|done].
Qed.

Lemma deps_in_empty db : db_ok db → deps_in db "" = [].
Proof.
  intros Hdb. unfold deps_in. destruct (DB.jobs db !! "") eqn:E; [|done].
  by destruct (db_ok_no_self _ _ _ Hdb E).
Qed.

Lemma same_but_deps_trans name db1 db2 db3 :
  same_but_deps name db1 db2 → same_but_deps name db2 db3 → same_but_deps name db1 db3.
Proof. intros (A1 & B1 & C1 & D1) (A2 & B2 & C2 & D2). split_and!; congruence. Qed.

(** Storing a job moves it below its new parent, but in no list of dependent
    jobs. *)
Lemma setJobTx_move job db (db1 := setJobTx (ToProto job) db) :
  db_ok db → parents_stored db → Validate job = None →
  (Job.ParentJob job ≠ "" → is_Some (DB.jobs db !! Job.ParentJob job)) →
  db_ok db1 ∧ parents_stored db1 ∧
  (∀ c, parent_in db1 c = if decide (c = Job.Name job) then Some (Job.ParentJob job) else parent_in db c) ∧
  (∀ n, deps_in db1 n = if decide (n = Job.Name job) then Job.DependentJobs job else deps_in db n) ∧
  (∀ n, is_Some (DB.jobs db !! n) → is_Some (DB.jobs db1 !! n)).
Proof.
  intros Hdb Hps Hv Hp.
  assert (∀ n, n ≠ Job.Name job → DB.jobs db1 !! n = DB.jobs db !! n) as Hne
    by (intros n Hn; by apply lookup_insert_ne).
  assert (DB.jobs db1 !! Job.Name job = Some (ToProto job)) as Heq by apply lookup_insert_eq.
  assert (∀ n, is_Some (DB.jobs db !! n) → is_Some (DB.jobs db1 !! n)) as Hin.
  { intros n Hn. destruct (decide (n = Job.Name job)) as [->|?]; [by rewrite Heq|by rewrite Hne]. }
  split_and!; [by apply db_ok_setJobTx|..]; [| | |done].
  - intros n p Hn Hpn. apply Hin. destruct (decide (n = Job.Name job)) as [->|?].
    + rewrite Heq in Hn. simplify_eq. by apply Hp.
    + rewrite Hne in Hn by done. by eapply Hps.
  - intros c. unfold parent_in. case_decide as Hc; [by rewrite Hc, Heq|by rewrite Hne].
  - intros n. unfold deps_in. case_decide as Hc; [by rewrite Hc, Heq|by rewrite Hne].
Qed.

(** The list of [n] after a job has been set that had the parent [P]. *)
Definition deps_moved db (job' : Job.t) (P n : string) : list string :=
  let l := if decide (n = Job.Name job') then Job.DependentJobs job' else deps_in db n in
  if decide (Job.ParentJob job' = P) then l else
  let l := if decide (n = P) then without (Job.Name job') l else l in
  if decide (n = Job.ParentJob job') then l ++ [Job.Name job'] else l.

(** [SetJob] with a valid job whose parent is stored. *)
Lemma SetJob_flat_moves now job db :
  db_ok db → parents_stored db → Validate job = None →
  (Job.ParentJob job ≠ "" → is_Some (DB.jobs db !! Job.ParentJob job)) →
  ∃ ej job' db1 db',
    setJob_update now job true db = Some (ej, job', db1) ∧
    SetJob_flat now true job db = (db', None) ∧ db_ok db' ∧
    same_but_deps (Job.Name job) db1 db' ∧
    Job.Name job' = Job.Name job ∧ Job.ParentJob job' = Job.ParentJob job ∧
    Job.DependentJobs job' = deps_set db job ∧
    (∀ c, parent_in db' c = if decide (c = Job.Name job) then Some (Job.ParentJob job) else parent_in db c) ∧
    (∀ n, n ≠ "" → deps_in db' n = deps_moved db job' (default "" (parent_in db (Job.Name job))) n).
Proof.
  intros Hdb Hps Hv Hp.
  destruct (setJob_update_ok now job db Hdb Hv) as (job' & Hu & Hv' & Hn' & Hp' & Hd').
  unfold SetJob_flat. rewrite Hv.
  assert (negb (String.eqb (Job.ParentJob job) "") &&
    bool_decide (DB.jobs db !! Job.ParentJob job = None) = false) as ->.
  { destruct (String.eqb_spec (Job.ParentJob job) "") as [|Hx]; [done|]. cbn.
    by destruct (Hp Hx) as [? ->]. }
  rewrite Hu. cbn zeta. rewrite <- Hn', <- Hp' in *. clear Hv Hu.
  destruct (setJobTx_move job' db) as (Hdb1 & Hps1 & Hpar1 & Hdeps1 & Hin1); [done..|].
  set (db1 := setJobTx (ToProto job') db) in *.
  set (ej := NewJobFromProto (default PbJob.empty (DB.jobs db !! Job.Name job'))) in *.
  pose proof (Validate_slug _ Hv') as (_ & _ & HJP).
  assert (default "" (parent_in db (Job.Name job')) = Job.ParentJob ej) as ->.
  { subst ej. unfold parent_in. by destruct (DB.jobs db !! Job.Name job'). }
  assert (Job.ParentJob ej ≠ "" → Job.Name ej = Job.Name job' ∧ Job.ParentJob ej ≠ Job.Name ej ∧
    is_Some (DB.jobs db1 !! Job.ParentJob ej)) as Hej.
  { subst ej. destruct (DB.jobs db !! Job.Name job') as [p|] eqn:Hj; [|done].
    cbn. intros Hx. rewrite (ok_keyed db Hdb _ _ Hj). split_and!; [done|..].
    - by apply (db_ok_no_self _ _ _ Hdb Hj).
    - apply Hin1. by eapply Hps. }
  exists ej, job', db1. unfold deps_moved.
  destruct (String.eqb_spec (Job.ParentJob job') (Job.ParentJob ej)) as [Heq|Hne].
  { exists db1. do 3 (split; [done|]). split; [by split_and!|]. split_and!; try done.
    intros n _. rewrite Hdeps1. cbn zeta.
    by rewrite (decide_True (P := Job.ParentJob job' = Job.ParentJob ej)). }
  destruct (on_parent_ok (without (Job.Name ej)) ej db1) as (db2 & -> & Hdb2 & Hs2 & Hd2 & Hl2);
    [done..|naive_solver|].
  assert (same_but_deps (Job.Name job') db1 db2) as Hd2'.
  { apply Hd2. destruct (decide (Job.ParentJob ej = "")); [by right|left].
    destruct Hej as (<- & ? & _); congruence. }
  destruct (on_parent_ok (λ deps, deps ++ [Job.Name job']) job' db2)
    as (db3 & -> & Hdb3 & Hs3 & Hd3 & Hl3); [done|by eapply same_parents_stored|..].
  { intros Hx. split; [done|]. specialize (Hp Hx) as Hq%Hin1.
    apply (fmap_is_Some apart_from_deps). rewrite (proj1 Hd2'). by apply fmap_is_Some. }
  exists db3. do 3 (split; [done|]). split_and!; try done.
  - eapply same_but_deps_trans; [exact Hd2'|]. apply Hd3.
    destruct (decide (Job.ParentJob job' = "")); [by right|by left; apply not_eq_sym].
  - intros c. by rewrite Hs3, Hs2, Hpar1.
  - intros n Hn. rewrite Hl3, Hl2, Hdeps1, (decide_False (P := Job.ParentJob job' = _)) by done. cbn zeta.
    destruct (decide (n = Job.ParentJob ej)) as [Hnp|]; [|done].
    by destruct Hej as (-> & _ & _); [congruence|].
Qed.

(** Setting a job keeps children listed. *)
Lemma children_listed_move db db' job' (P : string) :
  children_listed db → default "" (parent_in db (Job.Name job')) = P →
  (∀ c, c ∈ deps_in db (Job.Name job') → c ∈ Job.DependentJobs job') →
  (∀ c, parent_in db' c = if decide (c = Job.Name job') then Some (Job.ParentJob job') else parent_in db c) →
  (∀ n, n ≠ "" → deps_in db' n = deps_moved db job' P n) →
  children_listed db'.
Proof.
  intros Hl HP Hd Hpar Hdeps n c Hn. rewrite Hpar, Hdeps by done. unfold deps_moved.
  assert (parent_in db c = Some n →
    c ∈ (if decide (n = Job.Name job') then Job.DependentJobs job' else deps_in db n)) as Hkeep.
  { intros Hc%Hl; [|done]. case_decide; [subst; by apply Hd|done]. }
  destruct (decide (c = Job.Name job')) as [Hc|Hc].
  - intros [= <-]. destruct (decide (Job.ParentJob job' = P)) as [HPP|HPP].
    + apply Hkeep. rewrite Hc. destruct (parent_in db (Job.Name job')); cbn in HP; congruence.
    + rewrite (decide_True (P := Job.ParentJob job' = Job.ParentJob job')) by done.
      apply elem_of_app. right. rewrite Hc. left.
  - intros Hin%Hkeep. destruct (decide (Job.ParentJob job' = P)); [done|].
    destruct (decide (n = P)), (decide (n = Job.ParentJob job')); rewrite ?elem_of_app, ?elem_of_without; tauto.
Qed.

(** The same with the invariants; a job that makes up no dependent jobs keeps the
    hierarchy consistent. *)
Lemma SetJob_flat_ok now job db :
  db_ok db → children_listed db → Validate job = None →
  (Job.ParentJob job ≠ "" → is_Some (DB.jobs db !! Job.ParentJob job)) →
  ∃ ej job' db1 db',
    setJob_update now job true db = Some (ej, job', db1) ∧
    SetJob_flat now true job db = (db', None) ∧ db_ok db' ∧ children_listed db' ∧
    ((deps_in db (Job.Name job) = [] → Job.DependentJobs job = []) → linked db → linked db') ∧
    same_but_deps (Job.Name job) db1 db'.
Proof.
  intros Hdb Hl Hv Hp.
  destruct (SetJob_flat_moves now job db Hdb (children_listed_parents_stored _ Hl) Hv Hp)
    as (ej & job' & db1 & db' & Hu & Hs & Hdb' & Hsame & Hn' & Hp' & Hd' & Hpar & Hdeps).
  rewrite <- Hp' in Hpar. rewrite <- Hn' in Hpar, Hdeps.
  exists ej, job', db1, db'. do 3 (split; [done|]). split; [|split; [|done]].
  - eapply children_listed_move; [done|reflexivity| |exact Hpar|exact Hdeps].
    intros c. rewrite Hd', Hn'. unfold deps_set. case_decide as E; [by rewrite E, elem_of_nil|done].
  - intros Hh Hlk. rewrite deps_set_honest, <- Hn' in Hd' by done.
    assert (∀ n, n ≠ "" → deps_in db' n = let P := default "" (parent_in db (Job.Name job')) in
      if decide (Job.ParentJob job' = P) then deps_in db n else
      let l := if decide (n = P) then without (Job.Name job') (deps_in db n) else deps_in db n in
      if decide (n = Job.ParentJob job') then l ++ [Job.Name job'] else l) as Hdeps'.
    { intros n Hn. rewrite Hdeps by done. unfold deps_moved. cbn zeta.
      destruct (decide (n = Job.Name job')) as [->|]; [by rewrite Hd'|done]. }
    cbn zeta in Hdeps'. destruct (decide (Job.ParentJob job' = default "" (parent_in db (Job.Name job')))) as [Heq|Hne].
    + destruct Hlk as [Hlk Hnd]. split.
      * intros n c Hn. rewrite Hdeps', Hpar, Hlk by done. case_decide as Hc; [|done]. subst c.
        rewrite Heq. destruct (parent_in db (Job.Name job')); cbn; naive_solver.
      * intros n. destruct (decide (n = "")) as [->|Hn]; [|by rewrite Hdeps'].
        rewrite deps_in_empty by done. constructor.
    + apply (linked_move db db' (Job.Name job') (default "" (parent_in db (Job.Name job'))) (Job.ParentJob job'));
        [done|by apply not_eq_sym|done|done|done|by apply deps_in_empty].
Qed.

(** Deleting a job without dependent jobs. *)
Lemma linked_remove db db' J (P : string) :
  linked db → deps_in db J = [] → parent_in db J = Some P →
  (∀ c, parent_in db' c = if decide (c = J) then None else parent_in db c) →
  (∀ n, n ≠ "" → deps_in db' n = if decide (n = P) then without J (deps_in db n) else deps_in db n) →
  deps_in db' "" = [] →
  linked db'.
Proof.
  intros [Hl Hnd] HJ HP Hpar Hdeps H0. split.
  - intros n c Hn. rewrite Hdeps, Hpar by done. specialize (Hl n c Hn).
    destruct (decide (n = P)) as [->|HnP]; destruct (decide (c = J)) as [->|Hc];
      rewrite ?elem_of_without; naive_solver.
  - intros n. destruct (decide (n = "")) as [->|Hn]; [rewrite H0; constructor|].
    rewrite Hdeps by done. specialize (Hnd n). case_decide; [by apply NoDup_without|done].
Qed.

(** The store without a job and the executions its name is a prefix of. *)
Definition drop_job (name : string) (db : DB.t) : DB.t :=
  DB.mk (delete name (DB.jobs db)) (DB.executions (deleteExecutionsTx name db)) (DB.stats db).

Lemma keyed_drop_job name db : keyed db → keyed (drop_job name db).
Proof. intros Hk n p Hn. cbn in Hn. apply lookup_delete_Some in Hn as [_ Hn]. by apply Hk. Qed.

Lemma db_ok_drop_job name db : db_ok db → db_ok (drop_job name db).
Proof.
  intros [Hk Hs Hj He Ht]. unfold drop_job. split; unfold keyed; cbn; [| | | |done].
  - intros n p [_ Hn]%lookup_delete_Some. by apply Hk.
  - intros n p [_ Hn]%lookup_delete_Some. eauto.
  - intros n p [_ Hn]%lookup_delete_Some. eauto.
  - intros k e [Hn _]%map_lookup_filter_Some. eauto.
Qed.

Lemma no_children db n p c : children_listed db → n ≠ "" → deps_in db n = [] →
  DB.jobs db !! c = Some p → PbJob.ParentJob p ≠ n.
Proof.
  intros Hl Hn Hd Hp <-. specialize (Hl _ c Hn).
  unfold parent_in in Hl. rewrite Hp, Hd in Hl. by specialize (Hl eq_refl) as ?%elem_of_nil.
Qed.

Lemma DeleteJob_ok f now name db :
  db_ok db → children_listed db →
  match DB.jobs db !! name with
  | None => DeleteJob (S f) now name db = Some (db, inl ErrNotFound)
  | Some p =>
      if decide (PbJob.DependentJobs p = []) then
        ∃ db', DeleteJob (S f) now name db = Some (db', inr (NewJobFromProto p)) ∧
          db_ok db' ∧ children_listed db' ∧ (linked db → linked db') ∧
          same_but_deps name (drop_job name db) db' ∧
          (∀ n, n ≠ "" → deps_in db' n =
             if decide (n = PbJob.ParentJob p) then without name (deps_in db n) else deps_in db n)
      else DeleteJob (S f) now name db = Some (db, inl ErrDependentJobs)
  end.
Proof.
  intros Hdb Hl. unfold DeleteJob, getJobTx. destruct (DB.jobs db !! name) as [p|] eqn:Hp; [|done].
  case_decide as Hd; [rewrite bool_decide_true by done|by rewrite bool_decide_false].
  cbn [negb]. cbn zeta. fold (drop_job name db). pose proof (db_ok_drop_job name db Hdb) as Hdb1.
  destruct (db_ok_no_self _ _ _ Hdb Hp) as [Hn0 Hself].
  assert (deps_in db name = []) as Hd0 by (unfold deps_in; by rewrite Hp).
  assert (∀ n, n ≠ name → DB.jobs (drop_job name db) !! n = DB.jobs db !! n) as Hne
    by (intros n Hn; by apply lookup_delete_ne).
  assert (DB.jobs (drop_job name db) !! name = None) as Heq by apply lookup_delete_eq.
  assert (parents_stored (drop_job name db)) as Hps.
  { unfold drop_job. intros c q Hq Hx. cbn in Hq. apply lookup_delete_Some in Hq as [_ Hq].
    fold (drop_job name db). rewrite Hne.
    - by eapply children_listed_parents_stored.
    - by eapply no_children. }
  set (child := NewJobFromProto p).
  change (DB.mk _ _ _) with (drop_job name db).
  destruct (on_parent_ok (without (Job.Name child)) child (drop_job name db))
    as (db2 & Ho & Hdb2 & Hs2 & Hd2 & Hl2); [done..| |].
  { cbn. intros Hx. rewrite (ok_keyed db Hdb _ _ Hp), Hne by done. split; [done|].
    by eapply children_listed_parents_stored. }
  cbn in Hl2. rewrite (ok_keyed db Hdb _ _ Hp) in Hl2.
  assert (∀ c, parent_in db2 c = if decide (c = name) then None else parent_in db c) as Hpar.
  { intros c. rewrite Hs2. unfold parent_in.
    case_decide as Hc; [by rewrite Hc, Heq|by rewrite Hne]. }
  assert (∀ n, n ≠ "" → deps_in db2 n =
    if decide (n = PbJob.ParentJob p) then without name (deps_in db n) else deps_in db n) as Hdeps.
  { intros n Hn. rewrite Hl2 by done. unfold deps_in.
    destruct (decide (n = name)) as [->|Hc]; [|by rewrite Hne].
    rewrite Heq, Hp, Hd. by destruct (decide _). }
  exists db2. split; [|split; [done|split; [|split; [|split; [|exact Hdeps]]]]].
  - destruct (String.eqb_spec (Job.ParentJob child) "") as [E|E]; cbn [negb].
    + unfold on_parent in Ho. rewrite E in Ho. cbn in Ho. by simplify_eq.
    + rewrite removeFromParent_flat by apply Hdb1. by rewrite Ho.
  - intros n c Hn. rewrite Hpar, Hdeps by done. case_decide; [done|].
    intros Hin%Hl; [|done]. by case_decide; rewrite ?elem_of_without.
  - intros Hlk. apply (linked_remove db db2 name (PbJob.ParentJob p)); try done.
    + unfold parent_in. by rewrite Hp.
    + by apply deps_in_empty.
  - apply Hd2. left. by apply not_eq_sym.
Qed.

(** The configuration of the stored jobs, and what the hierarchy is made of. *)
Definition shape db : gmap string (Job.t * list string) :=
  (λ p, (config (NewJobFromProto p), PbJob.DependentJobs p)) <$> DB.jobs db.

Lemma shape_hierarchy db db' : shape db' = shape db →
  (∀ n, deps_in db' n = deps_in db n) ∧ ∀ n, parent_in db' n = parent_in db n.
Proof.
  intros Hs. assert (∀ n, (λ p, (config (NewJobFromProto p), PbJob.DependentJobs p)) <$> DB.jobs db' !! n =
    (λ p, (config (NewJobFromProto p), PbJob.DependentJobs p)) <$> DB.jobs db !! n) as Hn.
  { intros n. rewrite <- !lookup_fmap. exact (f_equal (lookup n) Hs). }
  split; intros n; specialize (Hn n).
  - unfold deps_in. by repeat case_match; simplify_eq/=.
  - unfold parent_in. destruct (DB.jobs db' !! n), (DB.jobs db !! n); try done. cbn in Hn.
    exact (f_equal (option_map (λ x, Job.ParentJob x.1)) Hn).
Qed.

Lemma linked_shape db db' : shape db' = shape db → linked db → linked db'.
Proof.
  intros [Hd Hp]%shape_hierarchy [Hl Hnd].
  split; [intros n c ?; rewrite Hd, Hp; auto|intros n; rewrite Hd; auto].
Qed.

Lemma children_listed_shape db db' : shape db' = shape db → children_listed db → children_listed db'.
Proof. intros [Hd Hp]%shape_hierarchy Hl n c Hn. rewrite Hd, Hp. by apply Hl. Qed.

Lemma shape_setJobTx db n p p' : DB.jobs db !! n = Some p → PbJob.Name p' = n →
  config (NewJobFromProto p') = config (NewJobFromProto p) →
  PbJob.DependentJobs p' = PbJob.DependentJobs p →
  shape (setJobTx p' db) = shape db.
Proof.
  intros Hp <- H1 H2. unfold shape. cbn. rewrite fmap_insert, H1, H2.
  apply insert_id. by rewrite lookup_fmap, Hp.
Qed.

(** Replacing the stored job by one that differs in checked fields only. *)
Lemma db_ok_replace db p' n p : DB.jobs db !! n = Some p → PbJob.Name p' = n → stored p' →
  Validate (NewJobFromProto p') = Validate (NewJobFromProto p) → db_ok db → db_ok (setJobTx p' db).
Proof.
  intros Hp Hn Hst Hv [Hk Hs Hj He Ht]. split; cbn; [by apply keyed_setJobTx|..]; [| |done..].
  - intros m q. rewrite lookup_insert_Some. intros [[_ <-]|[_ ?]]; eauto.
  - intros m q. rewrite lookup_insert_Some. intros [[_ <-]|[_ ?]]; [rewrite Hv|]; eauto.
Qed.

Lemma db_ok_executions db ex : db_ok db →
  (∀ k e, ex !! k = Some e → k = ex_key (NewExecutionFromProto e) ∧ in_uint32 (PbExecution.Attempt e)) →
  db_ok (DB.mk (DB.jobs db) ex (DB.stats db)).
Proof. by intros [Hk Hs Hj He Ht] Hex. Qed.

Lemma db_ok_setExecutionTx db e : db_ok db →
  db_ok (setExecutionTx (ex_key e) (execution_ToProto e) db).1.
Proof.
  intros Hdb. unfold setExecutionTx. repeat case_match; try done.
  all: apply db_ok_executions; [done|]; intros k e'; rewrite lookup_insert_Some;
    intros [[<- <-]|[_ He]]; [split; [done|apply uint32_in]|by apply (ok_executions db Hdb)].
Qed.

Lemma setExecutionTx_jobs key e db : DB.jobs (setExecutionTx key e db).1 = DB.jobs db.
Proof. unfold setExecutionTx. by repeat case_match. Qed.
Lemma setExecutionTx_stats key e db : DB.stats (setExecutionTx key e db).1 = DB.stats db.
Proof. unfold setExecutionTx. by repeat case_match. Qed.

Lemma db_ok_incrementStatTx date success db : db_ok db → db_ok (incrementStatTx date success db).
Proof.
  intros [Hk Hs Hj He Ht]. split; cbn; [done..|].
  intros d s. rewrite lookup_insert_Some. intros [[<- <-]|[_ ?]]; [|eauto].
  destruct (DB.stats db !! day_of date) eqn:E; cbn; [|by destruct success].
  apply Ht in E. by destruct success.
Qed.

Lemma stored_with_run success finished status p : stored p → stored (with_run success finished status p).
Proof. intros (? & ? & ? & ?). destruct success; split_and!; cbn; auto with dkron. Qed.

(** Finishing an execution. *)
Lemma SetExecutionDone_ok e db : db_ok db →
  db_ok (SetExecutionDone e db).1 ∧ shape (SetExecutionDone e db).1 = shape db.
Proof.
  intros Hdb. unfold SetExecutionDone, getJobTx.
  destruct (DB.jobs db !! Exec.JobName e) as [p|] eqn:Hp; [|done].
  pose proof (db_ok_setExecutionTx db e Hdb) as Hdb1.
  pose proof (setExecutionTx_jobs (ex_key e) (execution_ToProto e) db) as Hj1.
  assert (shape (setExecutionTx (ex_key e) (execution_ToProto e) db).1 = shape db) as Hs1
    by (unfold shape; by rewrite Hj1).
  cbn zeta. set (older := match _ !! _ with Some _ => _ | None => _ end). destruct older; [done|].
  set (db1 := (setExecutionTx (ex_key e) (execution_ToProto e) db).1) in *.
  destruct (negb _); [done|]. cbn [fst]. rewrite <- Hj1 in Hp.
  pose proof (ok_keyed db1 Hdb1 _ _ Hp) as Hn. split.
  - apply db_ok_incrementStatTx. eapply db_ok_replace; [exact Hp|exact Hn| |done|done].
    apply stored_with_run. by eapply ok_stored.
  - rewrite <- Hs1. unfold incrementStatTx. unfold shape at 1. cbn [DB.jobs].
    by eapply shape_setJobTx.
Qed.

Lemma deleteExecutions_fold_ok l db : db_ok db →
  db_ok (fold_left (λ db ex, deleteExecution ex db) l db) ∧
  DB.jobs (fold_left (λ db ex, deleteExecution ex db) l db) = DB.jobs db.
Proof.
  revert db. induction l as [|e l IH]; intros db Hdb; [done|]. cbn.
  destruct (IH (deleteExecution e db)) as [H1 H2]; [|by rewrite H2].
  apply db_ok_executions; [done|]. intros k e' [_ He]%lookup_delete_Some.
  by apply (ok_executions db Hdb).
Qed.

Lemma SetExecution_ok sortByStart e db : db_ok db →
  db_ok (SetExecution sortByStart e db).1 ∧ shape (SetExecution sortByStart e db).1 = shape db.
Proof.
  intros Hdb. unfold SetExecution. cbn zeta. cbn [fst].
  pose proof (db_ok_setExecutionTx db e Hdb) as Hdb1.
  pose proof (setExecutionTx_jobs (ex_key e) (execution_ToProto e) db) as Hj1.
  destruct (0 <? _)%nat; [|split; [done|unfold shape; by rewrite Hj1]].
  edestruct deleteExecutions_fold_ok as [H1 H2]; [exact Hdb1|].
  split; [exact H1|]. unfold shape. by rewrite H2, Hj1.
Qed.

Lemma DeleteExecutions_ok name db : db_ok db →
  db_ok (DeleteExecutions name db).1 ∧ shape (DeleteExecutions name db).1 = shape db.
Proof.
  intros Hdb. unfold DeleteExecutions, getJobTx. destruct (DB.jobs db !! name) as [p|] eqn:Hp; [|done].
  assert (db_ok (deleteExecutionsTx name db)) as Hdb1.
  { apply db_ok_executions; [done|]. intros k e' [He _]%map_lookup_filter_Some.
    by apply (ok_executions db Hdb). }
  assert (DB.jobs (deleteExecutionsTx name db) !! name = Some p) as Hp1 by done.
  pose proof (ok_keyed db Hdb _ _ Hp) as Hn. cbn [fst]. split.
  - eapply db_ok_replace; [exact Hp1|exact Hn| |done|done].
    destruct (ok_stored db Hdb _ _ Hp) as (_ & _ & ? & ?). by split_and!.
  - by rewrite (shape_setJobTx _ _ _ _ Hp1).
Qed.
End invariant.

(** ** The state machine *)

Section theorems.
Context `{Env}.
Implicit Types (sortByStart : list Exec.t → list Exec.t) (db : DB.t).

Lemma SetJob_depth now copy job db : keyed db →
  SetJob depth now copy job db = Some (SetJob_flat now copy job db).
Proof. apply (SetJob_is_flat 0). Qed.

Lemma Apply_keyed sortByStart now c db : keyed db → is_Some (Apply sortByStart now c db).
Proof.
  intros Hk. destruct c; cbn [Apply]; eauto.
  - unfold applySetJob. rewrite SetJob_depth by done. destruct (SetJob_flat _ _ _ _). eauto.
  - unfold applyDeleteJob, DeleteJob, getJobTx, depth.
    destruct (DB.jobs db !! jobName) as [p|]; [|eauto].
    destruct (negb (bool_decide _)); [eauto|]. cbn zeta.
    destruct (negb (String.eqb _ _)); [|eauto].
    rewrite removeFromParent_flat by exact (keyed_drop_job jobName db Hk).
    destruct (on_parent _ _ _). eauto.
Qed.

(** [SetJob] terminates although it calls itself for the old and the new
    parent: those calls leave the parent's own parent as it is stored, so they
    call no further. On every store that keeps its jobs under their names, any
    further depth gives the same result, and applying a command always returns. *)
Lemma SetJob_terminates sortByStart now db :
  keyed db →
  (∀ f copy job, SetJob (depth + f) now copy job db = SetJob depth now copy job db ∧
     is_Some (SetJob depth now copy job db)) ∧
  (∀ c, is_Some (Apply sortByStart now c db)).
Proof.
  intros Hk. split; [|intros c; by apply Apply_keyed].
  intros f copy job. unfold depth. cbn [Nat.add].
  rewrite !SetJob_is_flat by done. eauto.
Qed.

Lemma SetJob_cases now job db :
  db_ok db → children_listed db →
  (∃ err, SetJob_flat now true job db = (db, Some err) ∧
     (Validate job = Some err ∨
      Validate job = None ∧ Job.ParentJob job ≠ "" ∧ DB.jobs db !! Job.ParentJob job = None ∧
        err = ErrParentJobNotFound)) ∨
  (Validate job = None ∧ ∃ ej job' db1 db',
     setJob_update now job true db = Some (ej, job', db1) ∧
     SetJob_flat now true job db = (db', None) ∧ db_ok db' ∧ children_listed db' ∧
     ((deps_in db (Job.Name job) = [] → Job.DependentJobs job = []) → linked db → linked db') ∧
     same_but_deps (Job.Name job) db1 db').
Proof.
  intros Hdb Hl. destruct (Validate job) as [err|] eqn:Hv.
  { left. exists err. unfold SetJob_flat. rewrite Hv. auto. }
  destruct (decide (Job.ParentJob job ≠ "" ∧ DB.jobs db !! Job.ParentJob job = None)) as [[Hx Hn]|Hp].
  { left. exists ErrParentJobNotFound. unfold SetJob_flat. rewrite Hv, Hn.
    destruct (String.eqb_spec (Job.ParentJob job) ""); [done|]. split; [done|by right]. }
  right. split; [done|]. apply SetJob_flat_ok; try done.
  intros Hx. destruct (DB.jobs db !! Job.ParentJob job); [done|]. by destruct Hp.
Qed.

(** A job that is set as it is hung keeps every list of dependent jobs. *)
Lemma SetJob_stored_deps now job p db :
  db_ok db → children_listed db → DB.jobs db !! Job.Name job = Some p →
  Job.ParentJob job = PbJob.ParentJob p → Job.DependentJobs job = PbJob.DependentJobs p →
  ∀ n, deps_in (SetJob_flat now true job db).1 n = deps_in db n.
Proof.
  intros Hdb Hl Hp Hpar Hdeps n. destruct (Validate job) as [err|] eqn:Hv.
  { unfold SetJob_flat. by rewrite Hv. }
  destruct (SetJob_flat_moves now job db Hdb (children_listed_parents_stored _ Hl) Hv)
    as (ej & job' & db1 & db' & _ & -> & Hdb' & _ & Hn' & Hp' & Hd' & _ & Hm).
  { rewrite Hpar. by eapply children_listed_parents_stored. }
  cbn [fst]. destruct (decide (n = "")) as [->|Hn]; [by rewrite !deps_in_empty|].
  rewrite Hm by done. unfold deps_moved. cbn zeta.
  assert (Job.ParentJob job' = default "" (parent_in db (Job.Name job))) as E
    by (unfold parent_in; by rewrite Hp', Hp).
  rewrite (decide_True (P := Job.ParentJob job' = _)) by exact E.
  case_decide as Hc; [|done]. rewrite Hd', Hc, Hn'. unfold deps_set. case_decide as Hx; [|done].
  rewrite Hdeps. unfold deps_in. by rewrite Hp.
Qed.

Lemma Apply_ok sortByStart now c db db' resp :
  db_ok db → children_listed db → Apply sortByStart now c db = Some (db', resp) →
  db_ok db' ∧ children_listed db' ∧ (honest c db → linked db → linked db').
Proof.
  intros Hdb Hl. destruct c as [pj|name|e|name|e]; cbn [Apply honest] in *.
  - unfold applySetJob. rewrite SetJob_depth by apply Hdb.
    destruct (SetJob_cases now (NewJobFromProto pj) db Hdb Hl)
      as [(err & -> & _)|(_ & ? & ? & ? & db2 & _ & -> & H2 & H3 & H4 & _)]; intros; by simplify_eq.
  - unfold applyDeleteJob, depth. pose proof (DeleteJob_ok 1 now name db Hdb Hl) as Hd.
    destruct (DB.jobs db !! name); [|rewrite Hd; intros; by simplify_eq].
    destruct (decide (PbJob.DependentJobs _ = [])).
    + destruct Hd as (db2 & -> & ? & ? & ? & _). intros. simplify_eq. auto.
    + rewrite Hd. intros. by simplify_eq.
  - unfold applySetExecution. destruct (SetExecution_ok sortByStart (NewExecutionFromProto e) db Hdb).
    destruct (SetExecution _ _ _). intros. simplify_eq/=. eauto using linked_shape, children_listed_shape.
  - unfold applyDeleteExecutions. destruct (DeleteExecutions_ok name db Hdb).
    destruct (DeleteExecutions _ _) as [db2 err].
    intros E. assert (db' = db2) as -> by (by repeat case_match; simplify_eq).
    eauto using linked_shape, children_listed_shape.
  - unfold applyExecutionDone. destruct (SetExecutionDone_ok (NewExecutionFromProto e) db Hdb).
    destruct (SetExecutionDone _ _). intros. simplify_eq/=. eauto using linked_shape, children_listed_shape.
Qed.

Lemma reachable_ok sortByStart db : reachable sortByStart db → db_ok db ∧ children_listed db.
Proof.
  induction 1 as [|now c db db' resp _ [IH1 IH2] Ha].
  - split; [apply db_ok_empty|apply linked_children_listed, linked_empty].
  - destruct (Apply_ok _ _ _ _ _ _ IH1 IH2 Ha) as (? & ? & _). done.
Qed.

Lemma honest_log_reachable sortByStart db : honest_log sortByStart db → reachable sortByStart db.
Proof. induction 1; econstructor; eauto. Qed.

Lemma honest_log_linked sortByStart db : honest_log sortByStart db → linked db.
Proof.
  induction 1 as [|now c db db' resp Hlog IH Hh Ha]; [apply linked_empty|].
  apply honest_log_reachable, reachable_ok in Hlog as [Hdb Hl].
  destruct (Apply_ok _ _ _ _ _ _ Hdb Hl Ha) as (_ & _ & Hk). auto.
Qed.

(** C1. In every state any log of commands leads to, whatever the clocks showed,
    whatever dependent jobs the commands name and wherever they failed: the stored
    values are well formed, every parent is stored, and it lists every job below
    it, so that no job with jobs below it can be deleted. Where no command made up
    dependent jobs (gave a job that lists none a list of its own), a job lists
    exactly the jobs that name it as their parent, each once. *)
Theorem hierarchy_consistent sortByStart db :
  reachable sortByStart db →
  db_ok db ∧
  (∀ n p, DB.jobs db !! n = Some p → PbJob.ParentJob p ≠ "" →
     ∃ q, DB.jobs db !! PbJob.ParentJob p = Some q ∧ n ∈ PbJob.DependentJobs q ∧
       ∀ now, Apply sortByStart now (DeleteJobType (PbJob.ParentJob p)) db =
         Some (db, RespErr ErrDependentJobs)) ∧
  (honest_log sortByStart db → linked db).
Proof.
  intros [Hdb Hl]%reachable_ok. split; [done|]. split; [|apply honest_log_linked].
  intros n p Hp Hx. destruct (children_listed_parents_stored _ Hl _ _ Hp Hx) as [q Hq].
  pose proof (Hl (PbJob.ParentJob p) n Hx) as Hin. unfold deps_in, parent_in in Hin.
  rewrite Hq, Hp in Hin. specialize (Hin eq_refl). exists q. split_and!; [done..|].
  intros now. cbn [Apply]. unfold applyDeleteJob, depth.
  pose proof (DeleteJob_ok 1 now (PbJob.ParentJob p) db Hdb Hl) as Hd. rewrite Hq in Hd.
  rewrite decide_False in Hd by (intros E; rewrite E in Hin; by apply elem_of_nil in Hin).
  by rewrite Hd.
Qed.


End theorems.

(** ** Examples *)

(** The state after a command. *)
Definition after `{Env} (sort : list Exec.t → list Exec.t) (now : time) (c : command) (db : DB.t) : DB.t :=
  match Apply sort now c db with Some (db, _) => db | None => db end.

Lemma reachable_after `{Env} sort now c db :
  reachable sort db → reachable sort (after sort now c db).
Proof.
  intros Hr. unfold after.
  destruct (Apply sort now c db) as [[db' r]|] eqn:Ha; [|done]. by eapply reachable_step.
Qed.

Lemma honest_after `{Env} sort now c db :
  honest_log sort db → honest c db → honest_log sort (after sort now c db).
Proof.
  intros Hr Hh. unfold after.
  destruct (Apply sort now c db) as [[db' r]|] eqn:Ha; [|done]. by eapply honest_step.
Qed.

Section demo.
#[local] Existing Instance demo_env.

Definition demo_pb (name schedule parent : string) : PbJob.t :=
  PbJob.mk name "" "" schedule "" "" 0 0 false ∅ 0 [] parent "" ∅ "shell" ∅ "" ∅ None None None
    false None None.

Definition demo_sort : list Exec.t → list Exec.t := id.

(** A job [a] with a dependent job [b]. *)
Definition demo_a : DB.t := after demo_sort 1000 (SetJobType (demo_pb "a" "@daily" "")) DB.empty.
Definition demo_ab : DB.t := after demo_sort 2000 (SetJobType (demo_pb "b" "" "a")) demo_a.

Lemma honest_demo_ab : honest_log demo_sort demo_ab.
Proof.
  apply honest_after; [apply honest_after; [constructor|]|]; intros _; reflexivity.
Qed.

Lemma reachable_demo_ab : reachable demo_sort demo_ab.
Proof. apply honest_log_reachable, honest_demo_ab. Qed.

Lemma hierarchy_consistent_witness :
  deps_in demo_ab "a" = ["b"] ∧ parent_in demo_ab "b" = Some "a" ∧
  db_ok demo_ab ∧ linked demo_ab ∧
  (∀ n p, DB.jobs demo_ab !! n = Some p → PbJob.ParentJob p ≠ "" →
     ∃ q, DB.jobs demo_ab !! PbJob.ParentJob p = Some q ∧ n ∈ PbJob.DependentJobs q ∧
       ∀ now, Apply demo_sort now (DeleteJobType (PbJob.ParentJob p)) demo_ab =
         Some (demo_ab, RespErr ErrDependentJobs)).
Proof.
  split; [vm_compute; reflexivity|]. split; [vm_compute; reflexivity|].
  destruct (hierarchy_consistent demo_sort demo_ab reachable_demo_ab) as (H1 & H2 & H3).
  split; [exact H1|]. split; [exact (H3 honest_demo_ab)|exact H2].
Defined.

Lemma SetJob_terminates_witness :
  keyed demo_ab ∧
  (∀ f copy job, SetJob (depth + f) 3000 copy job demo_ab = SetJob depth 3000 copy job demo_ab ∧
     is_Some (SetJob depth 3000 copy job demo_ab)) ∧
  (∀ c, is_Some (Apply demo_sort 3000 c demo_ab)).
Proof.
  assert (keyed demo_ab) as Hk by apply (reachable_ok demo_sort demo_ab reachable_demo_ab).
  split; [exact Hk|]. apply (SetJob_terminates demo_sort 3000 demo_ab Hk).
Defined.



(** The store accepts a cycle: [a] below [b] and [b] below [a]. Neither of the
    two can be deleted then. *)
Definition demo_cycle : DB.t := after demo_sort 3000 (SetJobType (demo_pb "a" "@daily" "b")) demo_ab.

Lemma SetJob_accepts_cycle :
  Apply demo_sort 3000 (SetJobType (demo_pb "a" "@daily" "b")) demo_ab = Some (demo_cycle, RespNil) ∧
  parent_in demo_cycle "a" = Some "b" ∧ parent_in demo_cycle "b" = Some "a" ∧
  Apply demo_sort 4000 (DeleteJobType "a") demo_cycle = Some (demo_cycle, RespErr ErrDependentJobs) ∧
  Apply demo_sort 4000 (DeleteJobType "b") demo_cycle = Some (demo_cycle, RespErr ErrDependentJobs).
Proof. do 4 (split; [vm_compute; reflexivity|]). vm_compute. reflexivity. Qed.

(** A job without a schedule of its own gets the year 1970, the value of the
    missing time of the job that was not there, as its next run. *)
Lemma child_next_is_epoch :
  PbJob.Next <$> DB.jobs demo_ab !! "b" = Some (Some epoch).
Proof. vm_compute. reflexivity. Qed.
End demo.
