(* ===== verification/Replicas.v ===== *)
(** * Replicas: servers that apply the same log

    The commands of src/dkron/fsm.go are applied by every server of the cluster
    to its own store, each at its own time, and [SetJob] of src/dkron/store.go
    reads the clock.  The theorems say what that costs: the stores agree on
    everything but the next runs of jobs, and on the answers, and they may
    disagree on the next runs. *)

From S2P Require Import Prelude GoCore Jobs Store Fsm.

(** ** Logs *)

Section log.
Context `{Env}.
Variable sortByStart : list Exec.t → list Exec.t.

(** A server applies the commands one after the other, each when its clock
    shows the given time; the answers are those of [Apply]. *)
Fixpoint replay (log : list (time * command)) (db : DB.t) : option (DB.t * list response) :=
  match log with
  | [] => Some (db, [])
  | (now, c) :: log =>
      let? (db, resp) := Apply sortByStart now c db in
      let? (db, resps) := replay log db in
      Some (db, resp :: resps)
  end.
End log.

(** ** Agreement up to the next runs *)

(** A stored job without its next run. *)
Definition but_next (p : PbJob.t) : PbJob.t :=
  PbJob.mk (PbJob.Name p) (PbJob.Displayname p) (PbJob.Timezone p) (PbJob.Schedule p)
    (PbJob.Owner p) (PbJob.OwnerEmail p) (PbJob.SuccessCount p) (PbJob.ErrorCount p)
    (PbJob.Disabled p) (PbJob.Tags p) (PbJob.Retries p) (PbJob.DependentJobs p)
    (PbJob.ParentJob p) (PbJob.Concurrency p) (PbJob.Processors p) (PbJob.Executor p)
    (PbJob.ExecutorConfig p) (PbJob.Status p) (PbJob.Metadata p) (PbJob.LastSuccess p)
    (PbJob.LastError p) None (PbJob.Ephemeral p) (PbJob.ExpiresAt p) (PbJob.StartsAt p).

#[global] Instance db_equiv : Equiv DB.t := λ db1 db2,
  but_next <$> DB.jobs db1 = but_next <$> DB.jobs db2 ∧
  DB.executions db1 = DB.executions db2 ∧ DB.stats db1 = DB.stats db2.

#[global] Instance job_equiv : Equiv Job.t := λ j1 j2, with_Next 0 j1 = with_Next 0 j2.

#[global] Instance response_equiv : Equiv response := λ r1 r2,
  match r1, r2 with
  | RespJob j1, RespJob j2 => j1 ≡ j2
  | RespJob _, _ | _, RespJob _ => False
  | _, _ => r1 = r2
  end.

#[global] Instance db_equivalence : Equivalence (≡@{DB.t}).
Proof.
  split.
  - by intros db.
  - intros db1 db2 (? & ? & ?). by split_and!.
  - intros db1 db2 db3 (? & ? & ?) (? & ? & ?). split_and!; by etrans.
Qed.

#[global] Instance job_equivalence : Equivalence (≡@{Job.t}).
Proof. unfold equiv, job_equiv. split; repeat intro; congruence. Qed.

#[global] Instance response_reflexive : Reflexive (≡@{response}).
Proof. by intros []. Qed.

Lemma db_equiv_mk jobs1 jobs2 ex st :
  but_next <$> jobs1 = but_next <$> jobs2 → DB.mk jobs1 ex st ≡ DB.mk jobs2 ex st.
Proof. done. Qed.

Lemma setJobTx_but_next p1 p2 db1 db2 :
  but_next p1 = but_next p2 → db1 ≡ db2 → setJobTx p1 db1 ≡ setJobTx p2 db2.
Proof.
  intros Hp (Hj & He & Ht). split_and!; [|done..]. cbn. rewrite !fmap_insert, Hj, Hp.
  by rewrite (f_equal PbJob.Name Hp : PbJob.Name p1 = PbJob.Name p2).
Qed.

(** What equivalent stores hold under a name. *)
Lemma db_equiv_lookup db1 db2 n : db1 ≡ db2 →
  match DB.jobs db1 !! n, DB.jobs db2 !! n with
  | Some p1, Some p2 => but_next p1 = but_next p2
  | None, None => True
  | _, _ => False
  end.
Proof.
  intros (Hj & _). pose proof (f_equal (lookup n) Hj) as E. rewrite !lookup_fmap in E.
  destruct (DB.jobs db1 !! n), (DB.jobs db2 !! n); cbn in E; try done; congruence.
Qed.

Lemma keyed_equiv db1 db2 : db1 ≡ db2 → keyed db1 → keyed db2.
Proof.
  intros He Hk n p Hp. pose proof (db_equiv_lookup db1 db2 n He) as E. rewrite Hp in E.
  destruct (DB.jobs db1 !! n) as [q|] eqn:Hq; [|done].
  rewrite <- (f_equal PbJob.Name E : PbJob.Name q = PbJob.Name p). by apply Hk.
Qed.

Lemma NewJobFromProto_equiv p1 p2 : but_next p1 = but_next p2 → NewJobFromProto p1 ≡ NewJobFromProto p2.
Proof.
  intros E. unfold equiv, job_equiv.
  change (with_Next 0 (NewJobFromProto (but_next p1)) = with_Next 0 (NewJobFromProto (but_next p2))).
  by rewrite E.
Qed.

Section replicas.
Context `{Env}.

Lemma Validate_equiv j1 j2 : j1 ≡ j2 → Validate j1 = Validate j2.
Proof. intros E. rewrite <- (Validate_with_Next 0 j1), <- (Validate_with_Next 0 j2). by f_equal. Qed.

(** The list of dependent jobs of a stored parent is replaced alike. *)
Lemma store_parent_equiv deps p1 p2 db1 db2 :
  but_next p1 = but_next p2 → db1 ≡ db2 →
  (store_parent deps p1 db1).1 ≡ (store_parent deps p2 db2).1 ∧
  (store_parent deps p1 db1).2 = (store_parent deps p2 db2).2.
Proof.
  intros Hp Hdb. unfold store_parent.
  rewrite (Validate_equiv _ _ (NewJobFromProto_equiv _ _ Hp)).
  destruct (Validate _); [done|].
  rewrite (f_equal PbJob.ParentJob Hp : PbJob.ParentJob p1 = PbJob.ParentJob p2).
  pose proof (db_equiv_lookup db1 db2 (PbJob.ParentJob p2) Hdb) as E.
  replace (bool_decide (DB.jobs db1 !! PbJob.ParentJob p2 = None))
    with (bool_decide (DB.jobs db2 !! PbJob.ParentJob p2 = None))
    by (apply bool_decide_ext; by repeat case_match).
  destruct (negb _ && _); [done|]. split; [|done]. apply setJobTx_but_next; [|done].
  set (g p := but_next (ToProto (with_DependentJobs deps (NewJobFromProto p)))).
  change (g (but_next p1) = g (but_next p2)). by rewrite Hp.
Qed.

Lemma on_parent_equiv f j1 j2 db1 db2 :
  Job.Name j1 = Job.Name j2 → Job.ParentJob j1 = Job.ParentJob j2 → db1 ≡ db2 →
  (on_parent f j1 db1).1 ≡ (on_parent f j2 db2).1 ∧
  (on_parent f j1 db1).2 = (on_parent f j2 db2).2.
Proof.
  intros Hn Hp Hdb. unfold on_parent. rewrite Hn, Hp.
  destruct (String.eqb _ ""); [done|]. destruct (String.eqb (Job.Name j2) _); [done|].
  pose proof (db_equiv_lookup db1 db2 (Job.ParentJob j2) Hdb) as E.
  destruct (DB.jobs db1 !! _) as [p1|], (DB.jobs db2 !! _) as [p2|]; try done.
  rewrite (f_equal PbJob.DependentJobs E : PbJob.DependentJobs p1 = PbJob.DependentJobs p2).
  by apply store_parent_equiv.
Qed.

(** Two servers store the same job but for its next run. *)
Lemma setJob_update_equiv now1 now2 copy job db1 db2 :
  Validate job = None → db1 ≡ db2 →
  ∃ ej1 ej2 job1 job2 db1' db2',
    setJob_update now1 job copy db1 = Some (ej1, job1, db1') ∧
    setJob_update now2 job copy db2 = Some (ej2, job2, db2') ∧
    ej1 ≡ ej2 ∧ job1 ≡ job2 ∧ db1' ≡ db2'.
Proof.
  intros Hv Hdb. unfold setJob_update, getJobTx.
  set (ej1 := NewJobFromProto (default _ (DB.jobs db1 !! _))).
  set (ej2 := NewJobFromProto (default _ (DB.jobs db2 !! _))).
  assert (ej1 ≡ ej2) as He.
  { apply NewJobFromProto_equiv. pose proof (db_equiv_lookup db1 db2 (Job.Name job) Hdb) as E.
    by destruct (DB.jobs db1 !! _), (DB.jobs db2 !! _). }
  clearbody ej1 ej2.
  assert ((if negb (String.eqb (Job.Name ej1) "") then keep_results ej1 job copy else job) =
    (if negb (String.eqb (Job.Name ej2) "") then keep_results ej2 job copy else job)) as ->.
  { set (g ej := if negb (String.eqb (Job.Name ej) "") then keep_results ej job copy else job).
    change (g (with_Next 0 ej1) = g (with_Next 0 ej2)). by rewrite He. }
  set (job' := if negb _ then _ else _).
  assert (Validate job' = None) as Hv' by (unfold job'; by destruct (negb _)).
  clearbody job'. unfold update_Next.
  rewrite (f_equal Job.Schedule He : Job.Schedule ej1 = Job.Schedule ej2).
  destruct (negb (String.eqb (Job.Schedule job') (Job.Schedule ej2))).
  - destruct (Validate_GetNext now1 job' Hv') as [next1 ->].
    destruct (Validate_GetNext now2 job' Hv') as [next2 ->].
    do 6 eexists. do 2 (split; [done|]). split_and!; [done..|]. by apply setJobTx_but_next.
  - do 6 eexists. do 2 (split; [done|]). split; [done|].
    split; [by repeat case_match|]. apply setJobTx_but_next; [by repeat case_match|done].
Qed.

Lemma SetJob_flat_equiv now1 now2 copy job db1 db2 : db1 ≡ db2 →
  (SetJob_flat now1 copy job db1).1 ≡ (SetJob_flat now2 copy job db2).1 ∧
  (SetJob_flat now1 copy job db1).2 = (SetJob_flat now2 copy job db2).2.
Proof.
  intros Hdb. unfold SetJob_flat. destruct (Validate job) eqn:Hv; [done|].
  pose proof (db_equiv_lookup db1 db2 (Job.ParentJob job) Hdb) as E.
  replace (bool_decide (DB.jobs db1 !! Job.ParentJob job = None))
    with (bool_decide (DB.jobs db2 !! Job.ParentJob job = None))
    by (apply bool_decide_ext; by repeat case_match).
  destruct (negb _ && _); [done|].
  destruct (setJob_update_equiv now1 now2 copy job db1 db2 Hv Hdb)
    as (ej1 & ej2 & job1 & job2 & db1' & db2' & -> & -> & He & Hj & Hdb').
  rewrite (f_equal Job.ParentJob He : Job.ParentJob ej1 = Job.ParentJob ej2),
    (f_equal Job.ParentJob Hj : Job.ParentJob job1 = Job.ParentJob job2).
  destruct (String.eqb _ _); [done|].
  rewrite (f_equal Job.Name He : Job.Name ej1 = Job.Name ej2).
  destruct (on_parent_equiv (without (Job.Name ej2)) ej1 ej2 db1' db2') as [Hd1 Hr1];
    [exact (f_equal Job.Name He)|exact (f_equal Job.ParentJob He)|done|].
  destruct (on_parent _ ej1 db1') as [d1 r1], (on_parent _ ej2 db2') as [d2 r2].
  cbn in Hd1, Hr1. subst r1. destruct r2; [done|].
  rewrite (f_equal Job.Name Hj : Job.Name job1 = Job.Name job2).
  apply on_parent_equiv; [exact (f_equal Job.Name Hj)|exact (f_equal Job.ParentJob Hj)|done].
Qed.

Lemma db_equiv_executions db1 db2 : db1 ≡ db2 → DB.executions db1 = DB.executions db2.
Proof. by intros (_ & ? & _). Qed.
Lemma db_equiv_stats db1 db2 : db1 ≡ db2 → DB.stats db1 = DB.stats db2.
Proof. by intros (_ & _ & ?). Qed.

(** A change of the executions and statistics only. *)
Lemma db_equiv_with db1 db2 ex st : db1 ≡ db2 → DB.mk (DB.jobs db1) ex st ≡ DB.mk (DB.jobs db2) ex st.
Proof. by intros (? & _). Qed.

Lemma setExecutionTx_equiv key e db1 db2 : db1 ≡ db2 →
  (setExecutionTx key e db1).1 ≡ (setExecutionTx key e db2).1.
Proof.
  intros Hdb. unfold setExecutionTx.
  rewrite (db_equiv_executions _ _ Hdb), (db_equiv_stats _ _ Hdb).
  repeat case_match; try done; by apply db_equiv_with.
Qed.

Lemma listTx_executions prefix db1 db2 :
  DB.executions db1 = DB.executions db2 → listTx prefix db1 = listTx prefix db2.
Proof. unfold listTx. by intros ->. Qed.

Lemma computeStatus_equiv name group db1 db2 : db1 ≡ db2 →
  computeStatus name group db1 = computeStatus name group db2.
Proof.
  intros Hdb. unfold computeStatus.
  by rewrite (listTx_executions _ db1 db2) by by apply db_equiv_executions.
Qed.

Lemma incrementStatTx_equiv date success db1 db2 : db1 ≡ db2 →
  incrementStatTx date success db1 ≡ incrementStatTx date success db2.
Proof.
  intros Hdb. unfold incrementStatTx.
  rewrite (db_equiv_executions _ _ Hdb), (db_equiv_stats _ _ Hdb). by apply db_equiv_with.
Qed.

Lemma with_run_but_next s t st p1 p2 : but_next p1 = but_next p2 →
  but_next (with_run s t st p1) = but_next (with_run s t st p2).
Proof.
  intros E. change (but_next (with_run s t st (but_next p1)) = but_next (with_run s t st (but_next p2))).
  by rewrite E.
Qed.

Lemma shouldCount_but_next p1 p2 o e : but_next p1 = but_next p2 →
  shouldCount p1 o e = shouldCount p2 o e.
Proof.
  intros E. change (shouldCount (but_next p1) o e = shouldCount (but_next p2) o e). by rewrite E.
Qed.

Lemma SetExecutionDone_equiv e db1 db2 : db1 ≡ db2 →
  (SetExecutionDone e db1).1 ≡ (SetExecutionDone e db2).1 ∧
  (SetExecutionDone e db1).2 = (SetExecutionDone e db2).2.
Proof.
  intros Hdb. unfold SetExecutionDone, getJobTx.
  pose proof (db_equiv_lookup db1 db2 (Exec.JobName e) Hdb) as E.
  destruct (DB.jobs db1 !! Exec.JobName e) as [p1|], (DB.jobs db2 !! Exec.JobName e) as [p2|]; try done.
  cbn zeta. rewrite (db_equiv_executions _ _ Hdb).
  destruct (match DB.executions db2 !! ex_key e with Some _ => _ | None => _ end); [done|].
  rewrite (shouldCount_but_next p1 p2) by done.
  pose proof (setExecutionTx_equiv (ex_key e) (execution_ToProto e) _ _ Hdb) as Hset.
  destruct (negb _); [done|]. split; [|done]. apply incrementStatTx_equiv.
  rewrite (computeStatus_equiv _ _ _ _ Hset),
    (f_equal PbJob.Name E : PbJob.Name p1 = PbJob.Name p2).
  by apply setJobTx_but_next; [apply with_run_but_next|].
Qed.

Lemma deleteExecution_fold_equiv l db1 db2 : db1 ≡ db2 →
  fold_left (λ db ex, deleteExecution ex db) l db1 ≡ fold_left (λ db ex, deleteExecution ex db) l db2.
Proof.
  revert db1 db2. induction l as [|e l IH]; intros db1 db2 Hdb; [done|]. cbn. apply IH.
  unfold deleteExecution. rewrite (db_equiv_executions _ _ Hdb), (db_equiv_stats _ _ Hdb).
  by apply db_equiv_with.
Qed.

Lemma SetExecution_equiv sort e db1 db2 : db1 ≡ db2 →
  (SetExecution sort e db1).1 ≡ (SetExecution sort e db2).1 ∧
  (SetExecution sort e db1).2 = (SetExecution sort e db2).2.
Proof.
  intros Hdb. unfold SetExecution. cbn zeta. cbn [fst snd]. split; [|done].
  pose proof (setExecutionTx_equiv (ex_key e) (execution_ToProto e) _ _ Hdb) as Hset.
  unfold GetExecutions. rewrite (listTx_executions _ _ _ (db_equiv_executions _ _ Hset)).
  destruct (0 <? _)%nat; [by apply deleteExecution_fold_equiv|done].
Qed.

Lemma deleteExecutionsTx_equiv name db1 db2 : db1 ≡ db2 →
  deleteExecutionsTx name db1 ≡ deleteExecutionsTx name db2.
Proof.
  intros Hdb. unfold deleteExecutionsTx.
  rewrite (db_equiv_executions _ _ Hdb), (db_equiv_stats _ _ Hdb). by apply db_equiv_with.
Qed.

Lemma reset_results_but_next p1 p2 : but_next p1 = but_next p2 →
  but_next (reset_results p1) = but_next (reset_results p2).
Proof.
  intros E. change (but_next (reset_results (but_next p1)) = but_next (reset_results (but_next p2))).
  by rewrite E.
Qed.

Lemma applyDeleteExecutions_equiv name db1 db2 : db1 ≡ db2 →
  (applyDeleteExecutions name db1).1 ≡ (applyDeleteExecutions name db2).1 ∧
  (applyDeleteExecutions name db1).2 ≡ (applyDeleteExecutions name db2).2.
Proof.
  intros Hdb. unfold applyDeleteExecutions, DeleteExecutions, GetJob, getJobTx.
  pose proof (db_equiv_lookup db1 db2 name Hdb) as E.
  destruct (DB.jobs db1 !! name) as [p1|], (DB.jobs db2 !! name) as [p2|]; try done.
  assert (setJobTx (reset_results p1) (deleteExecutionsTx name db1) ≡
    setJobTx (reset_results p2) (deleteExecutionsTx name db2)) as Hdb'.
  { apply setJobTx_but_next; [by apply reset_results_but_next|by apply deleteExecutionsTx_equiv]. }
  pose proof (db_equiv_lookup _ _ name Hdb') as E'.
  destruct (DB.jobs (setJobTx (reset_results p1) _) !! name) as [q1|],
    (DB.jobs (setJobTx (reset_results p2) _) !! name) as [q2|]; try done.
  split; [done|]. by apply NewJobFromProto_equiv.
Qed.

Lemma drop_job_equiv name db1 db2 : db1 ≡ db2 → drop_job name db1 ≡ drop_job name db2.
Proof.
  intros Hdb. unfold drop_job. cbn.
  rewrite (db_equiv_executions _ _ Hdb), (db_equiv_stats _ _ Hdb).
  apply db_equiv_mk. rewrite !fmap_delete. by destruct Hdb as [-> _].
Qed.

Lemma applyDeleteJob_equiv now1 now2 name db1 db2 : db1 ≡ db2 → keyed db1 →
  ∃ db1' r1 db2' r2, applyDeleteJob now1 name db1 = Some (db1', r1) ∧
    applyDeleteJob now2 name db2 = Some (db2', r2) ∧ db1' ≡ db2' ∧ r1 ≡ r2.
Proof.
  intros Hdb Hk. pose proof (keyed_equiv _ _ Hdb Hk) as Hk2.
  unfold applyDeleteJob, DeleteJob, getJobTx, depth.
  pose proof (db_equiv_lookup db1 db2 name Hdb) as E.
  destruct (DB.jobs db1 !! name) as [p1|], (DB.jobs db2 !! name) as [p2|]; try done.
  2: { do 4 eexists. by do 3 (split; [done|]). }
  rewrite (f_equal PbJob.DependentJobs E : PbJob.DependentJobs p1 = PbJob.DependentJobs p2).
  destruct (negb (bool_decide _)).
  { do 4 eexists. by do 3 (split; [done|]). }
  cbn zeta.
  change (DB.mk (delete name (DB.jobs (deleteExecutionsTx name db1))) _ _) with (drop_job name db1).
  change (DB.mk (delete name (DB.jobs (deleteExecutionsTx name db2))) _ _) with (drop_job name db2).
  pose proof (drop_job_equiv name _ _ Hdb) as Hdrop.
  pose proof (NewJobFromProto_equiv _ _ E) as Hj.
  rewrite (f_equal Job.ParentJob Hj : Job.ParentJob (NewJobFromProto p1) = Job.ParentJob (NewJobFromProto p2)).
  destruct (negb (String.eqb _ _)).
  2: { do 4 eexists. by do 3 (split; [done|]). }
  rewrite !removeFromParent_flat by (by apply keyed_drop_job).
  rewrite (f_equal Job.Name Hj : Job.Name (NewJobFromProto p1) = Job.Name (NewJobFromProto p2)).
  destruct (on_parent_equiv (without (Job.Name (NewJobFromProto p2))) (NewJobFromProto p1)
    (NewJobFromProto p2) _ _ (f_equal Job.Name Hj) (f_equal Job.ParentJob Hj) Hdrop) as [Hd Hr].
  destruct (on_parent _ (NewJobFromProto p1) _) as [d1 r1],
    (on_parent _ (NewJobFromProto p2) _) as [d2 r2]. cbn in Hd, Hr. subst r1.
  do 4 eexists. do 2 (split; [done|]). split; [done|]. by destruct r2.
Qed.

(** Applying a command keeps the jobs under their names. *)
Lemma keyed_Apply sort now c db db' r : keyed db → Apply sort now c db = Some (db', r) → keyed db'.
Proof.
  intros Hk. destruct c as [pj|name|e|name|e]; cbn [Apply].
  - unfold applySetJob. rewrite SetJob_depth by done.
    pose proof (keyed_SetJob_flat now true (NewJobFromProto pj) db Hk).
    destruct (SetJob_flat _ _ _ _). intros. by simplify_eq.
  - unfold applyDeleteJob, DeleteJob, getJobTx, depth.
    destruct (DB.jobs db !! name) as [p|]; [|intros; by simplify_eq].
    destruct (negb (bool_decide _)); [intros; by simplify_eq|]. cbn zeta.
    change (DB.mk (delete name (DB.jobs (deleteExecutionsTx name db))) _ _) with (drop_job name db).
    pose proof (keyed_drop_job name db Hk) as Hk1.
    destruct (negb (String.eqb _ _)); [|intros; by simplify_eq].
    rewrite removeFromParent_flat by done.
    pose proof (keyed_on_parent (without (Job.Name (NewJobFromProto p))) (NewJobFromProto p) _ Hk1).
    destruct (on_parent _ _ _) as [d [err|]]; intros; by simplify_eq.
  - unfold applySetExecution, SetExecution. cbn zeta. intros. simplify_eq.
    assert (∀ l d, keyed d → keyed (fold_left (λ db ex, deleteExecution ex db) l d)) as Hf.
    { induction l as [|x l IH]; intros d Hd; [done|]. cbn. apply IH. exact Hd. }
    assert (keyed (setExecutionTx (ex_key (NewExecutionFromProto e))
      (execution_ToProto (NewExecutionFromProto e)) db).1) as Hs.
    { unfold keyed. by rewrite setExecutionTx_jobs. }
    case_match; [by apply Hf|done].
  - unfold applyDeleteExecutions, DeleteExecutions, getJobTx.
    destruct (DB.jobs db !! name) as [p|]; [|intros; by simplify_eq].
    assert (keyed (setJobTx (reset_results p) (deleteExecutionsTx name db))) as Hs
      by by apply keyed_setJobTx.
    intros. by repeat case_match; simplify_eq.
  - unfold applyExecutionDone, SetExecutionDone, getJobTx. cbn zeta.
    destruct (DB.jobs db !! _) as [p|]; [|intros; by simplify_eq].
    assert (keyed (setExecutionTx (ex_key (NewExecutionFromProto e))
      (execution_ToProto (NewExecutionFromProto e)) db).1) as Hs.
    { unfold keyed. by rewrite setExecutionTx_jobs. }
    set (older := match _ !! _ with Some _ => _ | None => _ end).
    destruct older; [intros; by simplify_eq|]. destruct (negb _); [intros; by simplify_eq|].
    intros. simplify_eq. unfold incrementStatTx. unfold keyed. cbn [DB.jobs].
    apply (keyed_setJobTx _ _ Hs).
Qed.

Lemma Apply_equiv sort now1 now2 c db1 db2 : db1 ≡ db2 → keyed db1 →
  ∃ db1' r1 db2' r2, Apply sort now1 c db1 = Some (db1', r1) ∧
    Apply sort now2 c db2 = Some (db2', r2) ∧ db1' ≡ db2' ∧ r1 ≡ r2.
Proof.
  intros Hdb Hk. pose proof (keyed_equiv _ _ Hdb Hk) as Hk2.
  destruct c as [pj|name|e|name|e]; cbn [Apply].
  - unfold applySetJob. rewrite !SetJob_depth by done.
    destruct (SetJob_flat_equiv now1 now2 true (NewJobFromProto pj) _ _ Hdb) as [Hd Hr].
    destruct (SetJob_flat now1 _ _ _) as [d1 r1], (SetJob_flat now2 _ _ _) as [d2 r2].
    cbn in Hd, Hr. subst r1. do 4 eexists. by do 3 (split; [done|]).
  - by apply applyDeleteJob_equiv.
  - unfold applySetExecution. destruct (SetExecution_equiv sort (NewExecutionFromProto e) _ _ Hdb) as [Hd Hr].
    destruct (SetExecution _ _ db1) as [d1 r1], (SetExecution _ _ db2) as [d2 r2].
    cbn in Hd, Hr. subst r1. do 4 eexists. by do 3 (split; [done|]).
  - destruct (applyDeleteExecutions_equiv name _ _ Hdb) as [Hd Hr].
    destruct (applyDeleteExecutions name db1), (applyDeleteExecutions name db2).
    do 4 eexists. by do 3 (split; [done|]).
  - unfold applyExecutionDone. destruct (SetExecutionDone_equiv (NewExecutionFromProto e) _ _ Hdb) as [Hd Hr].
    destruct (SetExecutionDone _ db1) as [d1 r1], (SetExecutionDone _ db2) as [d2 r2].
    cbn in Hd, Hr. subst r1. do 4 eexists. by do 3 (split; [done|]).
Qed.

(** C6. Servers agree: two servers that apply the same commands in the same
    order, each at its own times, from stores that agree up to the next runs of
    jobs, end with such stores and give the same answers up to the next run of a
    returned job; neither gets stuck. *)
Theorem replicas_agree sort log1 log2 db1 db2 :
  log1.*2 = log2.*2 → db1 ≡ db2 → keyed db1 →
  ∃ db1' rs1 db2' rs2,
    replay sort log1 db1 = Some (db1', rs1) ∧ replay sort log2 db2 = Some (db2', rs2) ∧
    db1' ≡ db2' ∧ Forall2 (≡) rs1 rs2.
Proof.
  revert log2 db1 db2. induction log1 as [|[now1 c] log1 IH];
    intros [|[now2 c2] log2] db1 db2 Hc Hdb Hk; simplify_eq/=.
  { by do 4 eexists. }
  destruct (Apply_equiv sort now1 now2 c2 db1 db2 Hdb Hk)
    as (d1 & r1 & d2 & r2 & Ha1 & Ha2 & Hd & Hr).
  rewrite Ha1, Ha2. apply keyed_Apply in Ha1; [|done].
  destruct (IH log2 d1 d2) as (e1 & rs1 & e2 & rs2 & -> & -> & He & Hrs); [done..|].
  do 4 eexists. do 2 (split; [done|]). split; [done|]. by constructor.
Qed.
End replicas.

(** ** Examples *)

Section demo.
#[local] Existing Instance demo_env.

Definition demo_log (delay : time) : list (time * command) :=
  [(1000 + delay, SetJobType (demo_pb "a" "@daily" ""));
   (2000 + delay, SetJobType (demo_pb "b" "" "a")); (3000 + delay, DeleteJobType "b")].

Lemma replicas_agree_witness :
  (demo_log 0).*2 = (demo_log 500).*2 ∧
  ∃ db1 rs1 db2 rs2,
    replay demo_sort (demo_log 0) DB.empty = Some (db1, rs1) ∧
    replay demo_sort (demo_log 500) DB.empty = Some (db2, rs2) ∧
    db1 ≡ db2 ∧ Forall2 (≡) rs1 rs2.
Proof.
  split; [reflexivity|].
  apply (replicas_agree demo_sort (demo_log 0) (demo_log 500) DB.empty DB.empty); [reflexivity..|].
  apply (ok_keyed DB.empty db_ok_empty).
Defined.

(** They do differ on the next run: it follows the clock of each server. *)
Lemma replicas_differ_on_next :
  (λ r, PbJob.Next <$> DB.jobs r.1 !! "a") <$> replay demo_sort (demo_log 0) DB.empty ≠
  (λ r, PbJob.Next <$> DB.jobs r.1 !! "a") <$> replay demo_sort (demo_log 500) DB.empty.
Proof. vm_compute. discriminate. Qed.
End demo.
