(* ===== verification/Restore.v ===== *)
(** * Restore: jobs from a backup file

    [restoreHandler] of src/dkron/api.go reads a list of jobs, [generateJobTree]
    of src/dkron/job.go hangs every job below its parent, and
    [recursiveSetJob] of src/dkron/agent.go stores them, parents first.  A
    pointer to a job is held in exactly one place, the list of top-level jobs or
    the [ChildJobs] of another job, so the jobs are trees. *)

From S2P Require Import Prelude GoCore Jobs.

(** ** Trees of jobs *)

(** A job with its [ChildJobs]. *)
Inductive tree : Type :=
  | Node (job : Job.t) (ChildJobs : list tree).

Definition root (t : tree) : Job.t := match t with Node job _ => job end.
Definition children (t : tree) : list tree := match t with Node _ cs => cs end.

Section induction.
Variable P : tree → Prop.
Hypothesis HNode : ∀ job cs, Forall P cs → P (Node job cs).

Fixpoint tree_ind' (t : tree) : P t :=
  match t with
  | Node job cs =>
      HNode job cs ((fix go cs : Forall P cs :=
        match cs with
        | [] => Forall_nil_2 P
        | t :: cs => Forall_cons_2 P t cs (tree_ind' t) (go cs)
        end) cs)
  end.
End induction.

(** The loop of [findParentJobInChildJobs], and of the top level: the first tree
    [f] changes. *)
Fixpoint first_of (f : tree → option tree) (ts : list tree) : option (list tree) :=
  match ts with
  | [] => None
  | t :: ts =>
      match f t with
      | Some t => Some (t :: ts)
      | None => let? ts := first_of f ts in Some (t :: ts)
      end
  end.

(** One parent of the loop: the child is appended to the [ChildJobs] of the
    first job with the name of its parent. *)
Fixpoint attach (child : tree) (t : tree) : option tree :=
  match t with
  | Node job cs =>
      if String.eqb (Job.ParentJob (root child)) (Job.Name job)
      then Some (Node job (cs ++ [child]))
      else
        let? cs := (fix findParentJobInChildJobs (ts : list tree) : option (list tree) :=
          match ts with
          | [] => None
          | t :: ts =>
              match attach child t with
              | Some t => Some (t :: ts)
              | None => let? ts := findParentJobInChildJobs ts in Some (t :: ts)
              end
          end) cs in
        Some (Node job cs)
  end.

Section env.
Context `{Env}.

(** [None] is a panic. The result: the new list and whether the job at the index
    has no parent, or the error. *)
Definition findParentJobAndValidateJob (jobs : list tree) (index : nat)
    : option (error + (list tree * bool)) :=
  match jobs !! index with
  | None => None
  | Some childJob =>
      Some match Validate (root childJob) with
      | Some err => inl err
      | None =>
          if String.eqb (Job.ParentJob (root childJob)) "" then inr (jobs, true) else
          match first_of (λ parentJob,
              if String.eqb (Job.Name (root parentJob)) (Job.Name (root childJob)) then None
              else attach childJob parentJob) jobs with
          | Some jobs => inr (delete index jobs, false)
          | None => inl ErrNoParent
          end
      end
  end.

Fixpoint treeLoop (n : nat) (j : nat) (jobs : list tree) : option (error + list tree) :=
  match n with
  | O => Some (inr jobs)
  | S n =>
      match findParentJobAndValidateJob jobs j with
      | None => None
      | Some (inl err) => Some (inl err)
      | Some (inr (rejobs, isTopParentNodeFlag)) =>
          treeLoop n (if isTopParentNodeFlag then S j else j) rejobs
      end
  end.

Definition generateJobTree (jobs : list Job.t) : option (error + list tree) :=
  treeLoop (length jobs) 0 ((λ job, Node job []) <$> jobs).

End env.

(** ** Storing them *)

Section set.
Context {S : Type}.
(** [GRPCClient.SetJob], and whether it succeeds. *)
Variable SetJob : Job.t → S → S * bool.

(** The state and the lines of the answer. *)
Fixpoint setTree (t : tree) (s : S) : S * list string :=
  match t with
  | Node job cs =>
      let (s, ok) := SetJob job s in
      if ok then
        let (s, result) := (fix recursiveSetJob (ts : list tree) (s : S) :=
          match ts with
          | [] => (s, [])
          | t :: ts =>
              let (s, r1) := setTree t s in
              let (s, r2) := recursiveSetJob ts s in (s, r1 ++ r2)
          end) cs s in
        (s, ("success create " +:+ Job.Name job) :: result)
      else (s, ["fail create " +:+ Job.Name job])
  end.

Fixpoint recursiveSetJob (ts : list tree) (s : S) : S * list string :=
  match ts with
  | [] => (s, [])
  | t :: ts =>
      let (s, r1) := setTree t s in
      let (s, r2) := recursiveSetJob ts s in (s, r1 ++ r2)
  end.

Lemma setTree_Node job cs s :
  setTree (Node job cs) s =
    let (s, ok) := SetJob job s in
    if ok then
      let (s, result) := recursiveSetJob cs s in
      (s, ("success create " +:+ Job.Name job) :: result)
    else (s, ["fail create " +:+ Job.Name job]).
Proof.
  cbn. destruct (SetJob job s) as [s1 [|]]; [|done].
  assert (∀ s, (fix recursiveSetJob (ts : list tree) (s : S) :=
          match ts with
          | [] => (s, [])
          | t :: ts =>
              let (s, r1) := setTree t s in
              let (s, r2) := recursiveSetJob ts s in (s, r1 ++ r2)
          end) cs s = recursiveSetJob cs s) as ->; [|done].
  induction cs as [|t cs IH]; intros s2; [done|]. cbn. destruct (setTree t s2) as [s3 r1].
  by rewrite IH.
Qed.

(** What every call keeps, storing the trees keeps: a relation of the states. *)
Lemma recursiveSetJob_keeps (R : S → S → Prop) `{!PreOrder R} :
  (∀ job s, R s (SetJob job s).1) → ∀ ts s, R s (recursiveSetJob ts s).1.
Proof.
  intros Hset. assert (∀ ts, Forall (λ t, ∀ s, R s (setTree t s).1) ts →
    ∀ s, R s (recursiveSetJob ts s).1) as Hlist.
  { intros ts Hts. induction Hts as [|t ts Ht _ IH]; intros s; [by cbn|]. cbn [recursiveSetJob].
    specialize (Ht s). destruct (setTree t s) as [s1 r1]. specialize (IH s1).
    destruct (recursiveSetJob ts s1) as [s2 r2]. by transitivity s1. }
  intros ts. apply Hlist, Forall_forall. intros t _.
  induction t as [job cs IH] using tree_ind'. intros s. rewrite setTree_Node. specialize (Hset job s).
  destruct (SetJob job s) as [s1 [|]]; [|done]. specialize (Hlist cs IH s1).
  destruct (recursiveSetJob cs s1) as [s2 r2]. by transitivity s1.
Qed.
End set.

(** ** Specification *)

(** The jobs of a tree, parents before their children. *)
Fixpoint jobs_of (t : tree) : list Job.t :=
  match t with Node job cs => job :: concat (jobs_of <$> cs) end.
Definition jobs_of_all (ts : list tree) : list Job.t := concat (jobs_of <$> ts).

(** Every job below the root hangs below the job it names as its parent. *)
Fixpoint hangs (t : tree) : bool :=
  match t with
  | Node job cs =>
      forallb (λ c, String.eqb (Job.ParentJob (root c)) (Job.Name job) && hangs c) cs
  end.

(** A list of jobs that can be restored: valid jobs with names of their own,
    whose parents are in the list, and no job is its own ancestor. *)
Definition restorable `{Env} (jobs : list Job.t) : Prop :=
  Forall (λ j, Validate j = None) jobs ∧ NoDup (Job.Name <$> jobs) ∧
  ∃ rank : string → nat, Forall (λ j, Job.ParentJob j ≠ "" →
    Job.ParentJob j ∈ Job.Name <$> jobs ∧ (rank (Job.ParentJob j) < rank (Job.Name j))%nat) jobs.

(** No job comes before the one it names as its parent. *)
Fixpoint parents_first (seen : list string) (jobs : list Job.t) : Prop :=
  match jobs with
  | [] => True
  | job :: jobs =>
      (Job.ParentJob job = "" ∨ Job.ParentJob job ∈ seen) ∧
      parents_first (seen ++ [Job.Name job]) jobs
  end.

(** ** Lemmas *)

Lemma hangs_Node job cs :
  hangs (Node job cs) = true ↔
  Forall (λ c, Job.ParentJob (root c) = Job.Name job ∧ hangs c = true) cs.
Proof.
  cbn. rewrite forallb_forall, Forall_forall. setoid_rewrite list_elem_of_In.
  setoid_rewrite andb_true_iff. by setoid_rewrite String.eqb_eq.
Qed.

Lemma attach_Node child job cs :
  attach child (Node job cs) =
    if String.eqb (Job.ParentJob (root child)) (Job.Name job)
    then Some (Node job (cs ++ [child]))
    else let? cs := first_of (attach child) cs in Some (Node job cs).
Proof.
  cbn. destruct (String.eqb _ _); [done|].
  assert (∀ ts, (fix findParentJobInChildJobs (ts : list tree) : option (list tree) :=
          match ts with
          | [] => None
          | t :: ts =>
              match attach child t with
              | Some t => Some (t :: ts)
              | None => let? ts := findParentJobInChildJobs ts in Some (t :: ts)
              end
          end) ts = first_of (attach child) ts) as E; [|by rewrite E].
  induction ts as [|t ts IH]; [done|]. cbn. by rewrite IH.
Qed.

Lemma first_of_Some f ts ts' : first_of f ts = Some ts' →
  ∃ l t t' r, ts = l ++ t :: r ∧ ts' = l ++ t' :: r ∧ f t = Some t' ∧ Forall (λ t, f t = None) l.
Proof.
  revert ts'. induction ts as [|t ts IH]; intros ts'; cbn; [done|].
  destruct (f t) as [t'|] eqn:Ht.
  - intros [= <-]. exists [], t, t', ts. by split_and!.
  - destruct (first_of f ts) as [ts1|]; [|done]. intros [= <-].
    destruct (IH ts1 eq_refl) as (l & u & u' & r & -> & -> & Hu & Hl).
    exists (t :: l), u, u', r. split_and!; [done..|]. by constructor.
Qed.

Lemma first_of_None f ts : first_of f ts = None ↔ Forall (λ t, f t = None) ts.
Proof.
  induction ts as [|t ts IH]; cbn; [done|]. rewrite Forall_cons, <- IH.
  destruct (f t), (first_of f ts); intuition congruence.
Qed.

Lemma jobs_of_all_app ts1 ts2 : jobs_of_all (ts1 ++ ts2) = jobs_of_all ts1 ++ jobs_of_all ts2.
Proof. unfold jobs_of_all. by rewrite fmap_app, concat_app. Qed.
Lemma jobs_of_all_cons t ts : jobs_of_all (t :: ts) = jobs_of t ++ jobs_of_all ts.
Proof. done. Qed.
Lemma jobs_of_Node job cs : jobs_of (Node job cs) = job :: jobs_of_all cs.
Proof. done. Qed.

Lemma parents_first_app seen l1 l2 :
  parents_first seen (l1 ++ l2) ↔
  parents_first seen l1 ∧ parents_first (seen ++ (Job.Name <$> l1)) l2.
Proof.
  revert seen. induction l1 as [|job l1 IH]; intros seen; cbn.
  - rewrite app_nil_r. tauto.
  - rewrite IH, <- app_assoc. cbn. tauto.
Qed.

Lemma parents_first_all seen ts :
  Forall (λ t, ∀ seen, Job.ParentJob (root t) = "" ∨ Job.ParentJob (root t) ∈ seen →
    parents_first seen (jobs_of t)) ts →
  Forall (λ t, Job.ParentJob (root t) = "" ∨ Job.ParentJob (root t) ∈ seen) ts →
  parents_first seen (jobs_of_all ts).
Proof.
  intros Ht. revert seen. induction Ht as [|t ts Ht _ IH]; intros seen Hr; [done|].
  apply Forall_cons in Hr as [Hrt Hr]. rewrite jobs_of_all_cons, parents_first_app.
  split; [by apply Ht|]. apply IH. eapply Forall_impl; [exact Hr|].
  intros t' [H|H]; [by left|right]. apply elem_of_app. by left.
Qed.

Lemma hangs_parents_first t seen : hangs t = true →
  Job.ParentJob (root t) = "" ∨ Job.ParentJob (root t) ∈ seen → parents_first seen (jobs_of t).
Proof.
  revert seen. induction t as [job cs IH] using tree_ind'. intros seen Hh Hr.
  rewrite hangs_Node in Hh. rewrite jobs_of_Node. split; [done|].
  apply parents_first_all; rewrite Forall_forall in *; intros c Hc; destruct (Hh c Hc) as [Hp Hch].
  - intros seen' Hs. by apply IH.
  - right. rewrite Hp. apply elem_of_app. right. by left.
Qed.

(** Hanging a tree below its parent keeps the rest and the order of things. *)
Lemma attach_Some child t t' :
  hangs child = true → attach child t = Some t' → hangs t = true →
  hangs t' = true ∧ root t' = root t ∧ jobs_of t' ≡ₚ jobs_of t ++ jobs_of child.
Proof.
  intros Hc. revert t'. induction t as [job cs IH] using tree_ind'; intros t'.
  rewrite attach_Node. destruct (String.eqb_spec (Job.ParentJob (root child)) (Job.Name job)) as [E|E].
  - intros [= <-] Ht. rewrite hangs_Node in Ht |- *. split; [|split; [done|]].
    + apply Forall_app. split; [done|]. by repeat constructor.
    + rewrite !jobs_of_Node, jobs_of_all_app, jobs_of_all_cons. cbn [jobs_of_all concat fmap list_fmap].
      unfold jobs_of_all at 2. cbn. by rewrite app_nil_r.
  - destruct (first_of (attach child) cs) as [cs'|] eqn:Hf; [|done]. intros [= <-] Ht.
    apply first_of_Some in Hf as (l & u & u' & r & -> & -> & Hu & _).
    apply Forall_app in IH as [_ [IHu _]%Forall_cons]. rewrite hangs_Node in Ht.
    apply Forall_app in Ht as [Hl [[Hup Huh] Hr]%Forall_cons].
    destruct (IHu u' Hu Huh) as (Hh & Hroot & Hperm). split; [|split; [done|]].
    + apply hangs_Node, Forall_app. split; [done|]. constructor; [|done]. by rewrite Hroot.
    + rewrite !jobs_of_Node, !jobs_of_all_app, !jobs_of_all_cons, Hperm. solve_Permutation.
Qed.

(** A job is hung exactly where a job of the tree has the name of its parent. *)
Lemma attach_None child t :
  attach child t = None ↔ Forall (λ j, Job.Name j ≠ Job.ParentJob (root child)) (jobs_of t).
Proof.
  induction t as [job cs IH] using tree_ind'. rewrite attach_Node, jobs_of_Node, Forall_cons.
  destruct (String.eqb_spec (Job.ParentJob (root child)) (Job.Name job)) as [E|E].
  { split; [done|]. intros [Hn _]. by destruct Hn. }
  transitivity (first_of (attach child) cs = None).
  { destruct (first_of _ cs); [|done]. split; done. }
  rewrite first_of_None. unfold jobs_of_all. rewrite Forall_concat, Forall_fmap.
  transitivity (Forall (Forall (λ j, Job.Name j ≠ Job.ParentJob (root child)) ∘ jobs_of) cs).
  - rewrite !Forall_forall in *. split; intros Hx t Ht; by apply IH, Hx.
  - split; [intros; by split|by intros [_ ?]].
Qed.

(** ** The loop *)

(** The trees hold the jobs of the file, and the first [j] of them are done. *)
Record tree_inv (jobs : list Job.t) (j : nat) (ts : list tree) : Prop := {
  inv_jobs : jobs_of_all ts ≡ₚ jobs;
  inv_hangs : Forall (λ t, hangs t = true) ts;
  inv_done : Forall (λ t, Job.ParentJob (root t) = "") (take j ts);
}.

Lemma tree_inv_start jobs : tree_inv jobs 0 ((λ job, Node job []) <$> jobs).
Proof.
  split; [|by apply Forall_fmap, Forall_true|constructor].
  induction jobs as [|job jobs IH]; [done|]. rewrite fmap_cons, jobs_of_all_cons. cbn.
  by constructor.
Qed.

(** Replacing one tree by one with the same root and more jobs. *)
Lemma first_of_attach child name ts ts' :
  hangs child = true → Forall (λ t, hangs t = true) ts →
  first_of (λ t, if String.eqb (Job.Name (root t)) name then None else attach child t) ts = Some ts' →
  Forall (λ t, hangs t = true) ts' ∧ root <$> ts' = root <$> ts ∧
  jobs_of_all ts' ≡ₚ jobs_of_all ts ++ jobs_of child ∧
  (∀ i t, ts !! i = Some t → Job.Name (root t) = name → ts' !! i = Some t).
Proof.
  intros Hc Hts (l & t & t' & r & -> & -> & Ht & _)%first_of_Some.
  destruct (String.eqb_spec (Job.Name (root t)) name) as [|Hn]; [done|].
  apply Forall_app in Hts as [Hl [Hh Hr]%Forall_cons].
  destruct (attach_Some child t t' Hc Ht Hh) as (Hh' & Hroot & Hperm). split_and!.
  - apply Forall_app. by repeat constructor.
  - by rewrite !fmap_app, !fmap_cons, Hroot.
  - rewrite !jobs_of_all_app, !jobs_of_all_cons, Hperm. solve_Permutation.
  - intros i u. rewrite !lookup_app, !lookup_cons. intros Hi Hu.
    destruct (l !! i); [done|]. destruct (i - length l)%nat; [|done]. by simplify_eq.
Qed.

Lemma tree_inv_delete jobs j ts ts' child :
  ts !! j = Some child → ts' !! j = Some child →
  Forall (λ t, hangs t = true) ts' → root <$> ts' = root <$> ts →
  jobs_of_all ts' ≡ₚ jobs_of_all ts ++ jobs_of child →
  tree_inv jobs j ts → tree_inv jobs j (delete j ts').
Proof.
  intros Hj Hj' Hh Hroot Hperm [Hjobs _ Hdone]. split.
  - pose proof (delete_Permutation _ _ _ Hj') as Hd.
    assert (jobs_of_all ts' ≡ₚ jobs_of child ++ jobs_of_all (delete j ts')) as Hp.
    { unfold jobs_of_all. by rewrite Hd at 1. }
    rewrite Hp, Hjobs, Permutation_app_comm in Hperm. by apply Permutation_app_inv_r in Hperm.
  - by apply Forall_delete.
  - rewrite delete_take_drop, take_app_le, take_take, Nat.min_id
      by (apply lookup_lt_Some in Hj'; rewrite length_take; lia).
    assert (∀ l, Forall (λ t, Job.ParentJob (root t) = "") l ↔
      Forall (λ x, Job.ParentJob x = "") (root <$> l)) as Hr by (intros; by rewrite Forall_fmap).
    rewrite Hr, fmap_take, Hroot, <- fmap_take, <- Hr. done.
Qed.

Section loop.
Context `{Env}.

(** One step: the index is in range, and either the job is refused, or it is
    done, or it is hung below its parent. *)
Lemma step_spec jobs j ts :
  tree_inv jobs j ts → (j < length ts)%nat →
  ∃ child, ts !! j = Some child ∧
  match findParentJobAndValidateJob ts j with
  | None => False
  | Some (inl err) => Validate (root child) = Some err ∨
      err = ErrNoParent ∧ Validate (root child) = None ∧ Job.ParentJob (root child) ≠ "" ∧
      Forall (λ t, Job.Name (root t) = Job.Name (root child) ∨
        Forall (λ x, Job.Name x ≠ Job.ParentJob (root child)) (jobs_of t)) ts
  | Some (inr (ts', top)) =>
      Validate (root child) = None ∧
      tree_inv jobs (if top then S j else j) ts' ∧
      length ts' = (if top then length ts else pred (length ts)) ∧
      root <$> drop (if top then S j else j) ts' = root <$> drop (S j) ts
  end.
Proof.
  intros Hinv Hlt. destruct (lookup_lt_is_Some_2 ts j Hlt) as [child Hj]. exists child. split; [done|].
  unfold findParentJobAndValidateJob. rewrite Hj.
  destruct (Validate (root child)) as [err|] eqn:Hv; [by left|].
  destruct (String.eqb_spec (Job.ParentJob (root child)) "") as [E|E].
  { split; [done|]. split; [|by split]. destruct Hinv as [H1 H2 H3]. split; [exact H1|exact H2|].
    rewrite (take_S_r _ _ _ Hj). apply Forall_app. split; [exact H3|].
    constructor; [exact E|constructor]. }
  pose proof (proj1 (Forall_lookup _ ts) (inv_hangs _ _ _ Hinv) j child Hj) as Hc. cbn in Hc.
  destruct (first_of _ ts) as [ts'|] eqn:Hf.
  - destruct (first_of_attach _ _ _ _ Hc (inv_hangs _ _ _ Hinv) Hf) as (Hh & Hroot & Hperm & Hkeep).
    specialize (Hkeep j child Hj eq_refl). split; [done|]. split; [exact (tree_inv_delete jobs j ts _ child Hj Hkeep Hh Hroot Hperm Hinv)|].
    split.
    + rewrite length_delete by eauto. apply (f_equal length) in Hroot. rewrite !length_fmap in Hroot. lia.
    + rewrite delete_take_drop, drop_app_length'
        by (apply lookup_lt_Some in Hkeep; rewrite length_take; lia).
      by rewrite !fmap_drop, Hroot.
  - right. split_and!; [done..|]. apply first_of_None in Hf. eapply Forall_impl; [exact Hf|].
    intros t. cbn. destruct (String.eqb_spec (Job.Name (root t)) (Job.Name (root child))); [by left|].
    right. by apply attach_None.
Qed.

(** Where the jobs of the trees are jobs of the file. *)
Lemma root_in_jobs jobs j ts i t : tree_inv jobs j ts → ts !! i = Some t → root t ∈ jobs.
Proof.
  intros Hinv Ht. rewrite <- (inv_jobs _ _ _ Hinv). unfold jobs_of_all.
  apply list_elem_of_In, in_concat. exists (jobs_of t). split; apply list_elem_of_In.
  - apply list_elem_of_fmap_2. by eapply list_elem_of_lookup_2.
  - destruct t as [job cs]. rewrite jobs_of_Node. by left.
Qed.

(** Below a root, ranks grow. *)
Lemma hangs_rank (rank : string → nat) t :
  hangs t = true →
  Forall (λ j, Job.Name j ≠ "" ∧
    (Job.ParentJob j ≠ "" → (rank (Job.ParentJob j) < rank (Job.Name j))%nat)) (jobs_of t) →
  Forall (λ j, (rank (Job.Name (root t)) ≤ rank (Job.Name j))%nat) (jobs_of t).
Proof.
  induction t as [job cs IH] using tree_ind'. rewrite hangs_Node, !jobs_of_Node. intros Hh Hr.
  apply Forall_cons in Hr as [[Hne _] Hr]. constructor; [done|]. unfold jobs_of_all in *.
  rewrite Forall_concat, Forall_fmap in Hr |- *. rewrite !Forall_forall in *.
  intros c Hc. specialize (IH c Hc). specialize (Hh c Hc) as [Hp Hhc]. specialize (Hr c Hc).
  cbn in *. specialize (IH Hhc Hr).
  assert (rank (Job.Name job) < rank (Job.Name (root c)))%nat as Hlt.
  { rewrite Forall_forall in Hr. destruct (Hr (root c)) as [_ Hx]; [destruct c; by left|].
    rewrite Hp in Hx. by apply Hx. }
  eapply Forall_impl; [exact IH|]. cbn. intros x. lia.
Qed.

(** In a list that can be restored, the parent of a job is never missing. *)
Lemma parent_found jobs j ts child :
  tree_inv jobs j ts → ts !! j = Some child → restorable jobs → Job.ParentJob (root child) ≠ "" →
  ¬ Forall (λ t, Job.Name (root t) = Job.Name (root child) ∨
     Forall (λ x, Job.Name x ≠ Job.ParentJob (root child)) (jobs_of t)) ts.
Proof.
  intros Hinv Hj (Hvalid & Hnd & rank & Hrank) Hp Hall.
  pose proof (root_in_jobs _ _ _ _ _ Hinv Hj) as Hc.
  destruct (proj1 (Forall_forall _ _) Hrank _ Hc Hp) as [Hin Hlt].
  rewrite <- (inv_jobs _ _ _ Hinv) in Hin.
  apply list_elem_of_fmap in Hin as (x & Hx & Hxin).
  apply list_elem_of_In, in_concat in Hxin as (l & Hl & Hxl).
  apply list_elem_of_In, list_elem_of_fmap in Hl as (t & -> & Ht). apply list_elem_of_In in Hxl.
  destruct (proj1 (Forall_forall _ _) Hall t Ht) as [Hn|Hn].
  2: { rewrite Forall_forall in Hn. by apply (Hn x). }
  assert (Forall (λ j, (rank (Job.Name (root t)) ≤ rank (Job.Name j))%nat) (jobs_of t)) as Hr.
  { apply hangs_rank; [by apply (proj1 (Forall_forall _ _) (inv_hangs _ _ _ Hinv))|].
    apply Forall_forall. intros y Hy. assert (y ∈ jobs) as Hyj.
    { rewrite <- (inv_jobs _ _ _ Hinv). apply list_elem_of_In, in_concat.
      exists (jobs_of t). split; apply list_elem_of_In; [by apply list_elem_of_fmap_2|done]. }
    split.
    - rewrite Forall_forall in Hvalid. by destruct (Validate_slug y (Hvalid y Hyj)).
    - intros Hy'. by destruct (proj1 (Forall_forall _ _) Hrank y Hyj Hy'). }
  rewrite Forall_forall in Hr. specialize (Hr x Hxl). rewrite <- Hx, Hn in Hr. lia.
Qed.

Lemma treeLoop_spec jobs n j ts validated :
  tree_inv jobs j ts → length ts = (j + n)%nat →
  Forall (λ x, Validate x = None) validated → validated ++ (root <$> drop j ts) ≡ₚ jobs →
  match treeLoop n j ts with
  | None => False
  | Some (inr forest) => tree_inv jobs (length forest) forest ∧ Forall (λ x, Validate x = None) jobs
  | Some (inl err) => ¬ restorable jobs ∧
      (err = ErrNoParent ∨ ∃ job, job ∈ jobs ∧ Validate job = Some err)
  end.
Proof.
  revert j ts validated. induction n as [|n IH]; intros j ts validated Hinv Hlen Hval Hperm; cbn [treeLoop].
  - assert (j = length ts) as -> by lia. split; [done|].
    rewrite drop_all in Hperm. cbn in Hperm. rewrite app_nil_r in Hperm. by rewrite <- Hperm.
  - destruct (step_spec jobs j ts Hinv) as (child & Hj & Hs); [lia|].
    pose proof (root_in_jobs _ _ _ _ _ Hinv Hj) as Hin.
    destruct (findParentJobAndValidateJob ts j) as [[err|[ts' top]]|]; [| |done].
    + destruct Hs as [Hv|(-> & Hv & Hp & Hall)].
      * split; [|right; eauto]. intros [Hvalid _]. rewrite Forall_forall in Hvalid.
        specialize (Hvalid _ Hin). congruence.
      * split; [|by left]. intros Hr. by eapply parent_found.
    + destruct Hs as (Hv & Hinv' & Hlen' & Hroot).
      apply (IH _ _ (validated ++ [root child])); [done| | |].
      * rewrite Hlen'. destruct top; lia.
      * apply Forall_app. by repeat constructor.
      * rewrite Hroot, <- Hperm, <- app_assoc. apply Permutation_app_head.
        by rewrite (drop_S _ _ _ Hj).
Qed.

(** The outcome of the loop over all jobs. *)
Lemma generateJobTree_loop jobs :
  match generateJobTree jobs with
  | None => False
  | Some (inr forest) => tree_inv jobs (length forest) forest ∧ Forall (λ x, Validate x = None) jobs
  | Some (inl err) => ¬ restorable jobs ∧
      (err = ErrNoParent ∨ ∃ job, job ∈ jobs ∧ Validate job = Some err)
  end.
Proof.
  pose proof (treeLoop_spec jobs (length jobs) 0 ((λ job, Node job []) <$> jobs) []
    (tree_inv_start jobs)) as Hl.
  rewrite length_fmap, drop_0, <- list_fmap_compose, list_fmap_id in Hl.
  exact (Hl eq_refl (Forall_nil_2 _) (reflexivity _)).
Qed.

Lemma tree_inv_forest jobs forest : tree_inv jobs (length forest) forest →
  jobs_of_all forest ≡ₚ jobs ∧ Forall (λ t, Job.ParentJob (root t) = "" ∧ hangs t = true) forest.
Proof.
  intros [H1 H2 H3]. rewrite take_ge in H3 by done. split; [done|]. by apply Forall_and.
Qed.

Lemma generateJobTree_restorable jobs : restorable jobs →
  ∃ forest, generateJobTree jobs = Some (inr forest) ∧ jobs_of_all forest ≡ₚ jobs ∧
    Forall (λ t, Job.ParentJob (root t) = "" ∧ hangs t = true) forest.
Proof.
  intros Hr. pose proof (generateJobTree_loop jobs) as Hl.
  destruct (generateJobTree jobs) as [[err|forest]|]; [by destruct Hl| |done].
  exists forest. split; [done|]. by apply tree_inv_forest, Hl.
Qed.

(** C24. A backup is restored as a whole or not at all: the loop never reads past
    the list; it fails with the first invalid job or with [ErrNoParent], and
    never on jobs with names of their own whose parents are in the file and
    form no cycle; when it succeeds all jobs are valid, each job of the file is
    in the forest once, the roots are the jobs without parent, and every other
    job hangs below the one it names as its parent. *)
Theorem generateJobTree_spec jobs :
  match generateJobTree jobs with
  | None => False
  | Some (inr forest) =>
      Forall (λ job, Validate job = None) jobs ∧ jobs_of_all forest ≡ₚ jobs ∧
      Forall (λ t, Job.ParentJob (root t) = "" ∧ hangs t = true) forest
  | Some (inl err) => ¬ restorable jobs ∧
      (err = ErrNoParent ∨ ∃ job, job ∈ jobs ∧ Validate job = Some err)
  end.
Proof.
  pose proof (generateJobTree_loop jobs) as Hl.
  destruct (generateJobTree jobs) as [[err|forest]|]; [done| |done].
  destruct Hl as [Hi Hv]. split; [done|]. by apply tree_inv_forest.
Qed.
End loop.
