(* ===== verification/JsCore.v ===== *)
(** * JsCore: the part of JavaScript the sources rely on

    Values, truthiness and the [||] operator; strings and [parseInt]; the
    insertion-ordered [Map] and [Set]; [Array.prototype.sort].  A JavaScript
    string is a [string] whose characters are the code units 0 to 255, so
    [length], [substring] and comparison are those of code units.  A number is
    an integer ([JNum]), a decimal literal [m * 10^-e] ([JDec]) or [NaN]. *)

From S2P Require Import Prelude.

(** ** Values *)

(** [JEl tag props children] is a React element: the tag is the name the
    source writes ("" for a fragment), a text child is a [JStr], and a child
    that renders nothing is [JNull], [JUndef] or a [JBool]. *)
Inductive jsval : Type :=
  | JUndef
  | JNull
  | JBool (b : bool)
  | JNum (z : Z)
  | JDec (m : Z) (e : nat)
  | JNaN
  | JStr (s : string)
  | JArr (l : list jsval)
  | JObj (fs : list (string * jsval))
  | JFun (name : string)
  | JEl (tag : string) (props : list (string * jsval)) (children : list jsval).

Definition truthy (v : jsval) : bool :=
  match v with
  | JUndef | JNull | JNaN => false
  | JBool b => b
  | JNum z => negb (z =? 0)
  | JDec m _ => negb (m =? 0)
  | JStr s => negb (String.eqb s "")
  | JArr _ | JObj _ | JFun _ | JEl _ _ _ => true
  end.

(** [a || b] and [a && b] return one of their operands. *)
Definition js_or (a b : jsval) : jsval := if truthy a then a else b.
Definition js_and (a b : jsval) : jsval := if truthy a then b else a.

(** [c ? a : b], lazily in the sources; both branches are values here. *)
Definition js_if (c a b : jsval) : jsval := if truthy c then a else b.

(** [v === "literal"], [v === n] and [v === true]. *)
Definition is_str (s : string) (v : jsval) : bool :=
  match v with JStr t => String.eqb t s | _ => false end.
Definition is_num (n : Z) (v : jsval) : bool :=
  match v with JNum z => z =? n | _ => false end.
Definition is_true (v : jsval) : bool :=
  match v with JBool b => b | _ => false end.
Definition is_string (v : jsval) : bool :=
  match v with JStr _ => true | _ => false end.

(** Lookup of a property in a list of own properties: the last write wins. *)
Definition own (k : string) (fs : list (string * jsval)) : option jsval :=
  fold_left (λ acc kv, if String.eqb kv.1 k then Some kv.2 else acc) fs None.

(** [v.k] for a property name no prototype defines. *)
Definition jget (k : string) (v : jsval) : jsval :=
  match v with
  | JObj fs => default JUndef (own k fs)
  | _ => JUndef
  end.

(** [v?.k] *)
Definition jget_opt (k : string) (v : jsval) : jsval :=
  match v with JUndef | JNull => JUndef | _ => jget k v end.

(** The names an object literal inherits from [Object.prototype]. *)
Definition object_prototype : list string :=
  ["constructor"; "__defineGetter__"; "__defineSetter__"; "hasOwnProperty";
   "__lookupGetter__"; "__lookupSetter__"; "isPrototypeOf";
   "propertyIsEnumerable"; "toString"; "valueOf"; "__proto__";
   "toLocaleString"].

(** [o[k]] for a computed string key [k] of an object literal. *)
Definition jindex (k : string) (v : jsval) : jsval :=
  match v with
  | JObj fs =>
      match own k fs with
      | Some w => w
      | None => if bool_decide (k ∈ object_prototype) then JFun k else JUndef
      end
  | _ => JUndef
  end.

(** [Object.keys] of an object whose keys are not array indices. *)
Definition object_keys (v : jsval) : list string :=
  match v with
  | JObj fs => remove_dups (fst <$> fs)
  | _ => []
  end.

(** ** Strings and numbers *)

Definition js_length (s : string) : Z := Z.of_nat (String.length s).

(** [s.substring(0, n)] *)
Definition js_prefix (n : nat) (s : string) : string := String.substring 0 n s.

(** A decimal literal [m * 10^-e] whose last digit is not 0. *)
Definition dec_String (m : Z) (e : nat) : string :=
  let a := Z.abs m in
  let p := 10 ^ Z.of_nat e in
  let frac := pretty (a mod p) in
  let pad := String.string_of_list_ascii (replicate (e - String.length frac) "0"%char) in
  (if m <? 0 then "-" else "") +:+ pretty (a / p) +:+ "." +:+ pad +:+ frac.

(** [`${v}`].  The source text a function converts to is not modelled. *)
Fixpoint js_String (v : jsval) : string :=
  match v with
  | JUndef => "undefined"
  | JNull => "null"
  | JBool b => if b then "true" else "false"
  | JNum z => pretty z
  | JDec m e => dec_String m e
  | JNaN => "NaN"
  | JStr s => s
  | JArr l =>
      String.concat ","
        (map (λ w, match w with JUndef | JNull => "" | _ => js_String w end) l)
  | JFun _ => "function"
  | JObj _ | JEl _ _ _ => "[object Object]"
  end.

Definition digit (c : ascii) : option Z := Z.of_nat <$> stdpp.strings.Ascii.is_nat c.

(** The digits [parseInt] consumes; [None] when there is none ([NaN]). *)
Fixpoint parse_digits (acc : option Z) (s : string) : option Z :=
  match s with
  | EmptyString => acc
  | String c s' =>
      match digit c with
      | Some d => parse_digits (Some (default 0 acc * 10 + d)) s'
      | None => acc
      end
  end.

Fixpoint trim_start (s : string) : string :=
  match s with
  | String c s' => if stdpp.strings.Ascii.is_space c then trim_start s' else s
  | EmptyString => s
  end.

(** [parseInt(s, 10)] *)
Definition parseInt (s : string) : option Z :=
  match trim_start s with
  | String "-"%char s' => Z.opp <$> parse_digits None s'
  | String "+"%char s' => parse_digits None s'
  | s' => parse_digits None s'
  end.

(** [s.split(c).pop()]: what follows the last [c], all of [s] when there is
    none. *)
Fixpoint split_pop (c : ascii) (s : string) : string :=
  match s with
  | EmptyString => EmptyString
  | String a s' =>
      if existsb (Ascii.eqb c) (String.list_ascii_of_string s') then split_pop c s'
      else if Ascii.eqb c a then s' else s
  end.

(** ** Insertion-ordered maps *)

Section js_map.
Context {K V : Type} `{EqDecision K}.
Implicit Types (m : list (K * V)) (k : K) (v : V).

Fixpoint jm_get k m : option V :=
  match m with
  | [] => None
  | (k', v) :: m' => if decide (k' = k) then Some v else jm_get k m'
  end.

(** [set] keeps the position of a key that is already there. *)
Fixpoint jm_set k v m : list (K * V) :=
  match m with
  | [] => [(k, v)]
  | (k', v') :: m' =>
      if decide (k' = k) then (k, v) :: m' else (k', v') :: jm_set k v m'
  end.

Definition jm_has k m : bool := bool_decide (is_Some (jm_get k m)).

Lemma jm_get_set_eq k v m : jm_get k (jm_set k v m) = Some v.
Proof. induction m as [|[k' v'] m IH]; simpl; split_cases. Qed.

Lemma jm_get_set_ne k k' v m : k ≠ k' → jm_get k (jm_set k' v m) = jm_get k m.
Proof. intros. induction m as [|[k1 v1] m IH]; simpl; split_cases. Qed.

Lemma jm_get_None k m : jm_get k m = None ↔ k ∉ m.*1.
Proof.
  induction m as [|[k' v'] m IH]; csimpl; [set_solver|].
  case_decide; set_solver.
Qed.

Lemma jm_get_Some_key k v m : jm_get k m = Some v → k ∈ m.*1.
Proof.
  intros Hk. destruct (decide (k ∈ m.*1)) as [|Hn]; [done|].
  apply jm_get_None in Hn. congruence.
Qed.

Lemma jm_get_Some_elem k v m : jm_get k m = Some v → (k, v) ∈ m.
Proof.
  induction m as [|[k' v'] m IH]; csimpl; [done|].
  case_decide; intros; simplify_eq; set_solver.
Qed.

Lemma jm_keys_set k v m :
  (jm_set k v m).*1 = if decide (k ∈ m.*1) then m.*1 else m.*1 ++ [k].
Proof.
  induction m as [|[k' v'] m IH]; csimpl; [done|].
  destruct (decide (k' = k)) as [->|]; csimpl.
  - rewrite decide_True; set_solver.
  - rewrite IH. repeat case_decide; set_solver.
Qed.

Lemma jm_keys_set_NoDup k v m : NoDup m.*1 → NoDup (jm_set k v m).*1.
Proof.
  intros Hm. rewrite jm_keys_set. case_decide as Hk; [done|].
  apply NoDup_app; split_and!; [done|set_solver|by apply NoDup_singleton].
Qed.

Lemma jm_elem_get k v m : NoDup m.*1 → (k, v) ∈ m → jm_get k m = Some v.
Proof.
  induction m as [|[k' v'] m IH]; csimpl; [set_solver|].
  rewrite NoDup_cons, elem_of_cons. intros [Hk Hm] [[=-> ->]|Hin].
  - by rewrite decide_True.
  - rewrite decide_False; [by apply IH|].
    intros ->. apply Hk, list_elem_of_fmap. by exists (k, v).
Qed.
End js_map.

(** ** Insertion-ordered sets *)

Section js_set.
Context {A : Type} `{EqDecision A}.
Implicit Types (s l : list A) (x : A).

Definition set_add (s : list A) (x : A) : list A :=
  if decide (x ∈ s) then s else s ++ [x].

(** [new Set(l)] *)
Definition set_of (l : list A) : list A := fold_left set_add l [].

Lemma elem_of_set_add s x y : y ∈ set_add s x ↔ y ∈ s ∨ y = x.
Proof. unfold set_add. case_decide; set_solver. Qed.

Lemma elem_of_fold_set_add l s y : y ∈ fold_left set_add l s ↔ y ∈ s ∨ y ∈ l.
Proof.
  revert s. induction l as [|x l IH]; intros s; simpl; [set_solver|].
  rewrite IH, elem_of_set_add. set_solver.
Qed.

Lemma elem_of_set_of l y : y ∈ set_of l ↔ y ∈ l.
Proof. unfold set_of. rewrite elem_of_fold_set_add. set_solver. Qed.

Lemma NoDup_set_add s x : NoDup s → NoDup (set_add s x).
Proof.
  intros Hs. unfold set_add. case_decide; [done|].
  apply NoDup_app; split_and!; [done|set_solver|by apply NoDup_singleton].
Qed.

Lemma NoDup_set_of l : NoDup (set_of l).
Proof.
  unfold set_of. cut (∀ s, NoDup s → NoDup (fold_left set_add l s)).
  { intros H. apply H, NoDup_nil_2. }
  induction l as [|x l IH]; intros s Hs; simpl; [done|].
  by apply IH, NoDup_set_add.
Qed.
End js_set.

(** ** [Array.prototype.sort] *)

(** With a consistent comparator the standard fixes the result: the stable
    sort, computed here by insertion. *)
Section js_sort.
Context {A : Type} (cmp : A → A → Z).

Fixpoint js_insert (x : A) (l : list A) : list A :=
  match l with
  | [] => [x]
  | y :: l' => if cmp x y <=? 0 then x :: l else y :: js_insert x l'
  end.

Definition js_sort (l : list A) : list A := foldr js_insert [] l.

Lemma js_insert_Permutation x l : js_insert x l ≡ₚ x :: l.
Proof.
  induction l as [|y l IH]; simpl; [done|].
  case_match; [done|]. rewrite IH. by rewrite Permutation_swap.
Qed.

Lemma js_sort_Permutation l : js_sort l ≡ₚ l.
Proof.
  induction l as [|x l IH]; simpl; [done|]. by rewrite js_insert_Permutation, IH.
Qed.

(** What ECMAScript calls a consistent comparator. *)
Class Comparator := {
  cmp_opp : ∀ x y, Z.sgn (cmp y x) = - Z.sgn (cmp x y);
  cmp_trans : ∀ x y z, cmp x y ≤ 0 → cmp y z ≤ 0 → cmp x z ≤ 0;
}.

Definition cmp_le (x y : A) : Prop := cmp x y ≤ 0.

Context `{!Comparator}.

Lemma cmp_total x y : cmp x y ≤ 0 ∨ cmp y x ≤ 0.
Proof. pose proof (cmp_opp x y). destruct (cmp x y), (cmp y x); cbn in *; lia. Qed.

Lemma js_insert_sorted x l :
  StronglySorted cmp_le l → StronglySorted cmp_le (js_insert x l).
Proof.
  induction 1 as [|y l Hl IH Hy]; simpl; [by repeat constructor|].
  destruct (Z.leb_spec (cmp x y) 0) as [Hle|Hgt].
  - constructor; [by constructor|]. constructor; [done|].
    eapply Forall_impl; [exact Hy|]. intros z; unfold cmp_le.
    by apply cmp_trans.
  - constructor; [done|]. rewrite js_insert_Permutation. constructor; [|done].
    unfold cmp_le. destruct (cmp_total x y); lia.
Qed.

Lemma js_sort_sorted l : StronglySorted cmp_le (js_sort l).
Proof. induction l; simpl; [constructor|]. by apply js_insert_sorted. Qed.

(** Stability: elements the comparator ties keep their order. *)
Lemma js_insert_stable (P : A → bool) x l :
  (∀ y z, P y → P z → cmp y z ≤ 0) →
  List.filter P (js_insert x l) = List.filter P (x :: l).
Proof.
  intros HP. induction l as [|y l IH]; [done|]. cbn [js_insert].
  destruct (Z.leb_spec (cmp x y) 0) as [|Hgt]; [done|].
  cbn [List.filter] in *. rewrite IH.
  destruct (P x) eqn:Hx, (P y) eqn:Hy; try done.
  exfalso. assert (cmp x y ≤ 0); [apply HP; by rewrite ?Hx, ?Hy|lia].
Qed.

Lemma js_sort_stable (P : A → bool) l :
  (∀ y z, P y → P z → cmp y z ≤ 0) →
  List.filter P (js_sort l) = List.filter P l.
Proof.
  intros HP. induction l as [|x l IH]; simpl; [done|].
  rewrite js_insert_stable by done. simpl. by rewrite IH.
Qed.
End js_sort.

(** [(a, b) => a - b] *)
Definition num_cmp (a b : Z) : Z := a - b.

#[export] Instance num_cmp_Comparator : Comparator num_cmp.
Proof. split; unfold num_cmp; intros; [|lia]. rewrite <-Z.sgn_opp. f_equal. lia. Qed.

(** The default order of [sort()]: by code units. *)
Definition str_cmp (a b : string) : Z :=
  match String.compare a b with Lt => -1 | Eq => 0 | Gt => 1 end.

Lemma str_cmp_le a b : str_cmp a b ≤ 0 ↔ strings.String.le a b.
Proof. unfold str_cmp, strings.String.le, String.leb. destruct (String.compare a b); cbn; lia || naive_solver lia. Qed.

#[export] Instance str_cmp_Comparator : Comparator str_cmp.
Proof.
  split.
  - intros a b. unfold str_cmp. rewrite (String.compare_antisym b a).
    by destruct (String.compare a b).
  - intros a b c. rewrite !str_cmp_le. apply transitivity.
Qed.

Lemma str_cmp_0 a b : str_cmp a b = 0 → a = b.
Proof.
  unfold str_cmp. destruct (String.compare a b) eqn:Hc; try lia.
  intros _. by apply String.compare_eq_iff.
Qed.

(** Comparing by a first key, then by a second: [c1 !== 0 ? c1 : c2]. *)
Definition then_cmp {A} (f g : A → A → Z) (x y : A) : Z :=
  let c := f x y in if c =? 0 then g x y else c.

#[export] Instance then_cmp_Comparator {A} (f g : A → A → Z) :
  Comparator f → Comparator g → Comparator (then_cmp f g).
Proof.
  intros Hf Hg. split.
  - intros x y. unfold then_cmp. pose proof (@cmp_opp _ f Hf x y).
    destruct (Z.eqb_spec (f x y) 0) as [He|], (Z.eqb_spec (f y x) 0) as [He'|]; try done.
    + by apply cmp_opp.
    + rewrite He in *. destruct (f y x); cbn in *; lia.
    + rewrite He' in *. destruct (f x y); cbn in *; lia.
  - intros x y z. unfold then_cmp.
    pose proof (@cmp_opp _ f Hf x y). pose proof (@cmp_opp _ f Hf y z).
    pose proof (@cmp_opp _ f Hf x z). pose proof (@cmp_trans _ f Hf x y z).
    pose proof (@cmp_trans _ f Hf z x y). pose proof (@cmp_trans _ f Hf y z x).
    pose proof (@cmp_trans _ g Hg x y z).
    destruct (Z.eqb_spec (f x y) 0), (Z.eqb_spec (f y z) 0), (Z.eqb_spec (f x z) 0); lia.
Qed.

#[export] Instance on_cmp_Comparator {A B} (f : B → B → Z) (h : A → B) :
  Comparator f → Comparator (λ x y, f (h x) (h y)).
Proof. intros Hf. split; intros; [apply (@cmp_opp _ f Hf)|by eapply (@cmp_trans _ f Hf)]. Qed.

(** [parseInt] reads back what a number prints as. *)
Lemma digit_spec c : digit c = if is_digit c then Some (byte_of c - 48) else None.
Proof. by destruct c as [[] [] [] [] [] [] [] []]. Qed.

Lemma parse_digits_all acc s : all_digits s = true →
  parse_digits (Some acc) s = Some (digits_value acc s).
Proof.
  revert acc. induction s as [|c s IH]; intros acc; cbn; [done|].
  intros [Hc Hs]%andb_prop. rewrite digit_spec, Hc. cbn [default from_option]. rewrite IH by done.
  do 2 f_equal. lia.
Qed.

(** A string of digits is read from its first character on. *)
Lemma parseInt_digits s : all_digits s = true → s ≠ "" → parseInt s = Some (digits_value 0 s).
Proof.
  intros Hs Hne. transitivity (parse_digits (Some 0) s); [|by apply parse_digits_all].
  destruct s as [|c s]; [done|]. cbn in Hs. apply andb_prop in Hs as [Hc Hs].
  transitivity (parse_digits None (String c s)); [|cbn; by rewrite digit_spec, Hc].
  clear -Hc. by destruct c as [[] [] [] [] [] [] [] []].
Qed.

Lemma parseInt_pretty n : 0 ≤ n → parseInt (pretty n) = Some n.
Proof.
  intros Hn. rewrite parseInt_digits by (by apply pretty_digits || by apply pretty_not_empty).
  by rewrite digits_value_pretty.
Qed.

(** [split(c).pop()] of a string without [c] is the string. *)
Lemma split_pop_absent c s :
  is_digit c = false → all_digits s = true → split_pop c s = s.
Proof.
  intros Hc. rewrite all_digits_forallb. induction s as [|a s IH]; [done|].
  cbn [String.list_ascii_of_string forallb split_pop].
  rewrite andb_true_iff. intros [Ha Hs].
  assert (∀ b, is_digit b = true → Ascii.eqb c b = false) as Hne.
  { intros b Hb. apply Ascii.eqb_neq. congruence. }
  rewrite (Hne a Ha).
  replace (existsb (Ascii.eqb c) (String.list_ascii_of_string s)) with false; [done|].
  symmetry. apply not_true_is_false. rewrite existsb_exists. intros (b & Hb & Hcb).
  apply forallb_forall with (x := b) in Hs; [|done]. by rewrite Hne in Hcb.
Qed.

(** What follows the last [c] of [a ++ c ++ s] when [s] has no [c]. *)
Lemma split_pop_last c a s :
  is_digit c = false → all_digits s = true → split_pop c (a +:+ String c s) = s.
Proof.
  intros Hc Hs. induction a as [|b a IH].
  - change (EmptyString +:+ String c s) with (String c s).
    cbn [split_pop]. rewrite Ascii.eqb_refl.
    pose proof (split_pop_absent c s Hc Hs) as Habs. case_match; [done|done].
  - change (String b a +:+ String c s) with (String b (a +:+ String c s)).
    cbn [split_pop].
    replace (existsb (Ascii.eqb c) (String.list_ascii_of_string (a +:+ String c s)))
      with true; [done|].
    symmetry. apply existsb_exists. exists c. split; [|by apply Ascii.eqb_refl].
    clear. induction a as [|b a IH]; [by left|]. right. exact IH.
Qed.

#[export] Hint Resolve js_sort_Permutation js_sort_sorted NoDup_set_of
  jm_keys_set_NoDup : dkron.
