(* ===== verification/Runs.v ===== *)
(** * Runs: what the store keeps of the executions

    Theorems on [SetExecution], [SetExecutionDone] and [computeStatus] of
    src/dkron/store.go (file Store): the status of a job is that of its last
    group of executions, answers that arrive twice or out of order do no harm as
    long as they are not interleaved with others, at most [MaxExecutions] are
    kept, the latest ones, and the daily statistics count what was counted. *)

From S2P Require Import Prelude GoCore JsCore Jobs Store Fsm Replicas.

(** ** Listed executions *)

(** The entries [listTx] lists. *)
Definition listed (prefix : string) (db : DB.t) : gmap string PbExecution.t :=
  filter (λ kv, HasPrefix kv.1 prefix && negb (String.eqb (trimDirectoryKey kv.1) prefix) = true)
    (DB.executions db).

Lemma ascend_Permutation {A} (m : gmap string A) : ascend m ≡ₚ map_to_list m.
Proof. apply merge_sort_Permutation. Qed.

Lemma listTx_listed prefix db : listTx prefix db ≡ₚ (map_to_list (listed prefix db)).*2.
Proof.
  unfold listTx, listed. apply fmap_Permutation.
  apply NoDup_Permutation.
  - apply NoDup_ListNoDup, List.NoDup_filter, NoDup_ListNoDup.
    rewrite ascend_Permutation. apply NoDup_map_to_list.
  - apply NoDup_map_to_list.
  - intros [k e]. rewrite list_elem_of_In, filter_In, <- list_elem_of_In.
    rewrite ascend_Permutation, !elem_of_map_to_list, map_lookup_filter_Some. done.
Qed.

Lemma elem_of_GetExecutions x name db :
  x ∈ GetExecutions name db ↔
  ∃ k e, listed (name +:+ ":") db !! k = Some e ∧ x = NewExecutionFromProto e.
Proof.
  unfold GetExecutions. rewrite listTx_listed, <- list_fmap_compose, list_elem_of_fmap.
  split.
  - intros ([k e] & -> & Hin%elem_of_map_to_list). eauto.
  - intros (k & e & Hl & ->). exists (k, e). split; [done|by apply elem_of_map_to_list].
Qed.

(** The entries are stored under their keys. *)
Definition keyed_executions (db : DB.t) : Prop :=
  ∀ k e, DB.executions db !! k = Some e → k = ex_key (NewExecutionFromProto e).

Lemma db_ok_keyed_executions `{Env} db : db_ok db → keyed_executions db.
Proof. intros Hdb k e He. by apply (ok_executions db Hdb). Qed.

Lemma keyed_executions_delete x db : keyed_executions db → keyed_executions (deleteExecution x db).
Proof.
  intros Hk k e He. cbn in He. apply lookup_delete_Some in He as [_ He]. by apply Hk.
Qed.

(** Removing a listed execution removes it from the list and nothing else. *)
Lemma GetExecutions_delete x l name db : keyed_executions db →
  GetExecutions name db ≡ₚ x :: l → GetExecutions name (deleteExecution x db) ≡ₚ l.
Proof.
  intros Hk Hp.
  assert (x ∈ GetExecutions name db) as (k & e & Hl & Hx)%elem_of_GetExecutions
    by (rewrite Hp; by left).
  pose proof Hl as [He _]%map_lookup_filter_Some. pose proof (Hk _ _ He) as ->. rewrite <- Hx in *.
  assert (listed (name +:+ ":") (deleteExecution x db) =
    delete (ex_key x) (listed (name +:+ ":") db)) as Hd.
  { unfold listed, deleteExecution. cbn. apply map_filter_delete. }
  assert (GetExecutions name db ≡ₚ x :: GetExecutions name (deleteExecution x db)) as Hg.
  { unfold GetExecutions. rewrite !listTx_listed, Hd.
    rewrite <- (insert_id _ _ _ Hl) at 1. rewrite <- insert_delete_eq.
    rewrite map_to_list_insert by apply lookup_delete_eq. by rewrite Hx. }
  rewrite Hg in Hp. by apply (Permutation_cons_inv (a := x)).
Qed.

Lemma GetExecutions_delete_all l1 l2 name db : keyed_executions db →
  GetExecutions name db ≡ₚ l1 ++ l2 →
  GetExecutions name (fold_left (λ db ex, deleteExecution ex db) l1 db) ≡ₚ l2.
Proof.
  revert db. induction l1 as [|x l1 IH]; intros db Hk Hp; [done|]. cbn.
  apply IH; [by apply keyed_executions_delete|]. by apply GetExecutions_delete.
Qed.

Lemma keyed_setExecutionTx e db : keyed_executions db →
  keyed_executions (setExecutionTx (ex_key e) (execution_ToProto e) db).1.
Proof.
  intros Hk. unfold setExecutionTx.
  destruct (DB.executions db !! ex_key e); [case_match; [done|]|];
    intros k e'; cbn; rewrite lookup_insert_Some; intros [[<- <-]|[_ He]]; auto.
Qed.

Lemma StronglySorted_app_le {A} (R : A → A → Prop) l1 l2 a b :
  StronglySorted R (l1 ++ l2) → a ∈ l1 → b ∈ l2 → R a b.
Proof.
  induction l1 as [|x l1 IH]; [by intros _ ?%elem_of_nil|]. cbn.
  intros [Hs Hf]%StronglySorted_inv [->|Ha]%elem_of_cons Hb; [|by apply IH].
  rewrite Forall_forall in Hf. apply Hf, elem_of_app. by right.
Qed.

(** Removing executions from a store. *)
Lemma delete_all_jobs l db :
  DB.jobs (fold_left (λ db ex, deleteExecution ex db) l db) = DB.jobs db ∧
  DB.stats (fold_left (λ db ex, deleteExecution ex db) l db) = DB.stats db.
Proof. revert db. induction l as [|x l IH]; intros db; [done|]. apply (IH (deleteExecution x db)). Qed.

Lemma delete_all_lookup l db k :
  DB.executions (fold_left (λ db ex, deleteExecution ex db) l db) !! k =
    if decide (k ∈ ex_key <$> l) then None else DB.executions db !! k.
Proof.
  revert db. induction l as [|x l IH]; intros db; cbn [fold_left].
  - rewrite decide_False; [done|]. by apply not_elem_of_nil.
  - rewrite IH. cbn. destruct (decide (ex_key x = k)) as [->|Hne].
    + rewrite lookup_delete_eq, (decide_True (P := k ∈ k :: _)) by by left. by destruct (decide _).
    + rewrite lookup_delete_ne by done. destruct (decide (k ∈ ex_key <$> l)) as [Hin|Hin].
      * by rewrite decide_True by by right.
      * by rewrite decide_False by (intros [?|?]%elem_of_cons; congruence).
Qed.

(** What is stored of an execution: of two that have its key the one that finished later. *)
Definition latest (old : option PbExecution.t) (e : PbExecution.t) : PbExecution.t :=
  match old with
  | Some p => if PbExecution.FinishedAt e <? PbExecution.FinishedAt p then p else e
  | None => e
  end.

Lemma setExecutionTx_latest key e db :
  DB.executions (setExecutionTx key e db).1 = <[key := latest (DB.executions db !! key) e]> (DB.executions db) ∧
  DB.jobs (setExecutionTx key e db).1 = DB.jobs db ∧ DB.stats (setExecutionTx key e db).1 = DB.stats db.
Proof.
  unfold setExecutionTx, latest. destruct (DB.executions db !! key) eqn:E; [|done].
  destruct (_ <? _); [|done]. cbn. by rewrite insert_id.
Qed.

Section limit.
Variable sortByStart : list Exec.t → list Exec.t.
Hypothesis sort_Permutation : ∀ l, sortByStart l ≡ₚ l.
Hypothesis sort_sorted : ∀ l,
  StronglySorted (λ a b, Exec.StartedAt a ≤ Exec.StartedAt b) (sortByStart l).

(** C40. Storing an execution keeps the store small.  The executions of the job that are
    listed once it is stored are split into those that are dropped and those that are
    kept, at most [MaxExecutions]: what was dropped, the new one possibly among it,
    started no later than anything that was kept, and something was dropped only when
    [MaxExecutions] are left.  The new execution is stored under its key, unless one
    that finished later is stored there; exactly the dropped ones are removed; no
    other execution, job or statistic changes.  For every store whose executions are
    stored under their keys, as every log of commands leaves it
    ([db_ok_keyed_executions]), and every sort by start. *)
Theorem SetExecution_keeps_latest e db :
  keyed_executions db →
  let name := Exec.JobName e in
  let all := GetExecutions name (setExecutionTx (ex_key e) (execution_ToProto e) db).1 in
  let db' := (SetExecution sortByStart e db).1 in
  let kept := GetExecutions name db' in
  Z.of_nat (length kept) ≤ MaxExecutions ∧
  (∃ dropped, all ≡ₚ dropped ++ kept ∧
    (∀ a b, a ∈ dropped → b ∈ kept → Exec.StartedAt a ≤ Exec.StartedAt b) ∧
    (dropped ≠ [] → Z.of_nat (length kept) = MaxExecutions) ∧
    ∀ k, DB.executions db' !! k =
      if decide (k ∈ ex_key <$> dropped) then None
      else if decide (k = ex_key e) then Some (latest (DB.executions db !! k) (execution_ToProto e))
      else DB.executions db !! k) ∧
  DB.jobs db' = DB.jobs db ∧ DB.stats db' = DB.stats db.
Proof.
  intros Hk name all db' kept. pose proof (keyed_setExecutionTx e db Hk) as Hk1.
  unfold kept, db', SetExecution. cbn [fst]. cbn zeta. fold name. fold all.
  destruct (setExecutionTx_latest (ex_key e) (execution_ToProto e) db) as (Hex & Hj & Hst).
  assert (∀ k, DB.executions (setExecutionTx (ex_key e) (execution_ToProto e) db).1 !! k =
    if decide (k = ex_key e) then Some (latest (DB.executions db !! k) (execution_ToProto e))
    else DB.executions db !! k) as Hnew.
  { intros k. rewrite Hex, lookup_insert. destruct (decide (k = ex_key e)) as [->|]; by case_decide. }
  clear Hex. set (db1 := (setExecutionTx (ex_key e) (execution_ToProto e) db).1) in *.
  assert (0 ≤ MaxExecutions) as Hmax by done.
  set (over := (length all - Z.to_nat MaxExecutions)%nat).
  destruct (0 <? over)%nat eqn:Ho.
  - apply Nat.ltb_lt in Ho.
    pose proof (sort_Permutation all) as Hsp. pose proof (sort_sorted all) as Hss.
    set (sorted := sortByStart all) in *. clearbody sorted.
    rewrite <- (take_drop over sorted) in Hss.
    assert (all ≡ₚ take over sorted ++ drop over sorted) as Hall by by rewrite take_drop.
    pose proof (GetExecutions_delete_all _ _ name db1 Hk1 Hall) as Hd.
    destruct (delete_all_jobs (take over sorted) db1) as [-> ->].
    pose proof (delete_all_lookup (take over sorted) db1) as Hdel.
    set (kept' := GetExecutions name (fold_left _ _ _)) in *. clearbody kept'.
    assert (length kept' = Z.to_nat MaxExecutions) as Hlen.
    { rewrite (Permutation_length Hd), length_drop, (Permutation_length Hsp). lia. }
    split; [lia|]. split; [|done]. exists (take over sorted). split_and!; [by rewrite Hd| |lia|].
    + intros a b Ha Hb. rewrite Hd in Hb. by eapply (StronglySorted_app_le _ _ _ a b Hss).
    + intros k. by rewrite Hdel, Hnew.
  - apply Nat.ltb_ge in Ho. unfold over in Ho. fold all. split; [lia|]. split; [|done].
    exists []. split_and!; [done|by intros ?? ?%elem_of_nil|done|].
    intros k. rewrite Hnew. by rewrite (decide_False (P := k ∈ _)) by apply not_elem_of_nil.
Qed.
End limit.

(** A sort by start, for the examples. *)
Definition by_start (a b : Exec.t) : Z := Exec.StartedAt a - Exec.StartedAt b.

Lemma js_sort_by_start l :
  StronglySorted (λ a b, Exec.StartedAt a ≤ Exec.StartedAt b) (js_sort by_start l).
Proof.
  eapply StronglySorted_weaken; [|apply js_sort_sorted].
  - unfold cmp_le, by_start. intros. lia.
  - split; unfold by_start; intros; [|lia].
    rewrite <- Z.sgn_opp. f_equal. lia.
Qed.

Definition demo_exec (start finish : time) (ok : bool) (node : string) : Exec.t :=
  Exec.mk "a" start finish ok "" node 7 1.

(** As many as are kept, and one that started as early as the first of them. *)
Definition full_store : DB.t :=
  fold_left (λ db start, (SetExecution (js_sort by_start) (demo_exec start zero_time false "n1") db).1)
    (seqZ 1 100) DB.empty.
Definition old_run : Exec.t := demo_exec 1 2 true "n2".

Lemma SetExecution_keeps_latest_witness :
  keyed_executions full_store ∧ length (GetExecutions "a" full_store) = 100%nat ∧
  Z.of_nat (length (GetExecutions "a" (SetExecution (js_sort by_start) old_run full_store).1)) ≤ MaxExecutions.
Proof.
  assert (keyed_executions full_store) as Hk.
  { assert (map_Forall (λ k e, k = ex_key (NewExecutionFromProto e)) (DB.executions full_store)) as H
      by (apply (bool_decide_unpack _); vm_compute; exact I). exact H. }
  split; [exact Hk|]. split; [vm_compute; reflexivity|].
  refine (proj1 (SetExecution_keeps_latest (js_sort by_start) _ _ old_run full_store Hk)).
  - apply js_sort_Permutation.
  - apply js_sort_by_start.
Defined.

(** ** Finishing executions *)

Lemma length_string_app a b : String.length (a +:+ b) = (String.length a + String.length b)%nat.
Proof. induction a as [|c a IH]; [done|].
  change (S (String.length (a +:+ b)) = S (String.length a + String.length b)). by rewrite IH.
Qed.

Lemma length_substring0 n s : (n ≤ String.length s)%nat → String.length (String.substring 0 n s) = n.
Proof.
  revert s. induction n as [|n IH]; intros [|c s] Hn; cbn in *; try lia. by rewrite IH by lia.
Qed.

Lemma length_pretty (z : Z) : (0 < String.length (pretty z))%nat.
Proof.
  destruct z as [|p|p]; [vm_compute; lia| |].
  2: { change (pretty (Z.neg p)) with ("-" +:+ pretty (Npos p)). rewrite length_string_app. cbn. lia. }
  pose proof (pretty_not_empty (Z.pos p) ltac:(done)) as Hp.
  destruct (pretty (Z.pos p)); [done|cbn; lia].
Qed.

(** A stored execution is listed under its job. *)
Lemma ex_key_listed e :
  HasPrefix (ex_key e) (Exec.JobName e +:+ ":") &&
    negb (String.eqb (trimDirectoryKey (ex_key e)) (Exec.JobName e +:+ ":")) = true.
Proof.
  unfold ex_key. rewrite <- string_app_assoc, HasPrefix_app. cbn [andb].
  apply negb_true_iff, String.eqb_neq. intros E. apply (f_equal String.length) in E.
  revert E. unfold trimDirectoryKey, Key. pose proof (length_pretty (int64 (Exec.StartedAt e))).
  destruct (isDirectoryKey _);
    [rewrite length_substring0 by lia|]; rewrite !length_string_app; cbn; lia.
Qed.

Lemma lookup_setExecutionTx key e db :
  match DB.executions db !! key with
  | Some p => PbExecution.FinishedAt p ≤ PbExecution.FinishedAt e
  | None => True
  end →
  (setExecutionTx key e db).1 = DB.mk (DB.jobs db) (<[key := e]> (DB.executions db)) (DB.stats db).
Proof.
  unfold setExecutionTx. destruct (DB.executions db !! key); [|done].
  intros Hle. by rewrite (proj2 (Z.ltb_ge _ _)).
Qed.

(** [db'] is the store after [e] was finished and counted. *)
Definition counts (e : Exec.t) (db db' : DB.t) : Prop := SetExecutionDone e db = (db', inr true).

(** The status of a job whose last group of executions is [group]. *)
Definition status_of_group (status : string) (group : list Exec.t) : Prop :=
  (status = "success" ↔ ∀ x, x ∈ group → Exec.Success x = true) ∧
  (status = "failed" ↔ ∀ x, x ∈ group → Exec.Success x = false) ∧
  (status = "partially_failed" ↔
     (∃ x, x ∈ group ∧ Exec.Success x = true) ∧ ∃ x, x ∈ group ∧ Exec.Success x = false).

(** What a counted execution did. *)
Lemma SetExecutionDone_counted e db db' :
  SetExecutionDone e db = (db', inr true) →
  ∃ p, DB.jobs db !! Exec.JobName e = Some p ∧
    let db1 := DB.mk (DB.jobs db) (<[ex_key e := execution_ToProto e]> (DB.executions db)) (DB.stats db) in
    db' = incrementStatTx (Exec.FinishedAt e) (Exec.Success e)
      (setJobTx (with_run (Exec.Success e) (Exec.FinishedAt e)
        (computeStatus (PbJob.Name p) (Exec.Group e) db1) p) db1).
Proof.
  unfold SetExecutionDone, getJobTx. destruct (DB.jobs db !! Exec.JobName e) as [p|]; [|done].
  cbn zeta. set (older := match _ !! _ with Some _ => _ | None => _ end).
  destruct older eqn:Ho; [done|]. destruct (negb _); [done|].
  rewrite lookup_setExecutionTx.
  - intros. simplify_eq. by exists p.
  - unfold older in Ho. destruct (DB.executions db !! ex_key e); [|done].
    by apply Z.ltb_ge in Ho.
Qed.

Lemma filter_length_0 {A} (f : A → bool) l : length (List.filter f l) = 0%nat ↔ ∀ x, x ∈ l → f x = false.
Proof.
  induction l as [|x l IH]; cbn; [split; [by intros _ ? ?%elem_of_nil|done]|].
  destruct (f x) eqn:E; cbn.
  - split; [done|]. intros Hx. rewrite Hx in E by (by left). done.
  - rewrite IH. split; [intros Hl y [->|Hy]%elem_of_cons; auto|intros Hl y Hy; apply Hl; by right].
Qed.

Lemma filter_length_pos {A} (f : A → bool) l : length (List.filter f l) ≠ 0%nat → ∃ x, x ∈ l ∧ f x = true.
Proof.
  destruct (List.filter f l) as [|x l'] eqn:E; [done|]. intros _. exists x.
  rewrite list_elem_of_In, <- filter_In, E. by left.
Qed.

(** The status of a group: a name for each of the three cases. *)
Lemma computeStatus_group name group db :
  let execs := List.filter (λ ex, Exec.Group ex =? group) (GetExecutions name db) in
  (∃ x, x ∈ execs) →
  status_of_group (computeStatus name group db) execs.
Proof.
  intros execs [x0 Hx0]. unfold status_of_group, computeStatus. fold (GetExecutions name db). fold execs.
  pose proof (filter_length_0 Exec.Success execs) as Hs.
  pose proof (filter_length_0 (λ ex, negb (Exec.Success ex)) execs) as Hf.
  destruct (Nat.eqb_spec (length (List.filter (λ ex, negb (Exec.Success ex)) execs)) 0) as [E|E].
  - assert (∀ x, x ∈ execs → Exec.Success x = true) as Hall.
    { intros x Hx. apply negb_false_iff. by apply (proj1 Hf E). }
    split_and!; split; try done.
    + intros Hn. pose proof (Hall _ Hx0). pose proof (Hn _ Hx0). congruence.
    + intros [_ (x & Hx & Hn)]. pose proof (Hall _ Hx). congruence.
  - apply filter_length_pos in E as (y & Hy & Hyf%negb_true_iff).
    destruct (Nat.eqb_spec (length (List.filter Exec.Success execs)) 0) as [E'|E'].
    + pose proof (proj1 Hs E') as Hall. split_and!; split; try done.
      * intros Hn. pose proof (Hn _ Hy). congruence.
      * intros [(x & Hx & Hn) _]. pose proof (Hall _ Hx). congruence.
    + apply filter_length_pos in E' as (z & Hz & Hzt). split_and!; split; try done.
      * intros Hn. pose proof (Hn _ Hy). congruence.
      * intros Hn. pose proof (Hn _ Hz). congruence.
      * intros _. split; [by exists z|by exists y].
Qed.

(** The statistics after one more execution. *)
Lemma lookup_incrementStatTx date success db day :
  DB.stats (incrementStatTx date success db) !! day =
    let was := DB.stats db !! day in
    if decide (day = date / day_ns) then Some (ExecutionStat.mk
      (from_option ExecutionStat.Date (day * day_ns) was)
      (let n := from_option ExecutionStat.SuccessCount 0 was in if success then int64 (n + 1) else n)
      (let n := from_option ExecutionStat.FailedCount 0 was in if success then n else int64 (n + 1)))
    else was.
Proof.
  unfold incrementStatTx, truncate_day, day_of. cbn. case_decide as Hd.
  - subst. rewrite lookup_insert_eq. by destruct (DB.stats db !! _), success.
  - by rewrite lookup_insert_ne.
Qed.

(** C25. Finishing an execution that counts: it is stored; a success adds one to
    the successes of the job and becomes its last success, a failure adds one to
    its errors and becomes its last error, and the other counter and the other
    time stay; its status is "success", "failed" or "partially_failed" as all, none
    or some of the stored executions of its group succeeded, this one among them;
    the day it finished on counts one more success, or one more failure, and no
    other day; the configuration, next run and dependent jobs of the job stay,
    and so does every other job.  The counters of a job wrap at 32 bits, those of a
    day at 64; the store keeps jobs under their names. *)
Theorem SetExecutionDone_counts e db db' :
  keyed db → counts e db db' →
  ∃ p p', DB.jobs db !! Exec.JobName e = Some p ∧
    DB.jobs db' = <[Exec.JobName e := p']> (DB.jobs db) ∧
    DB.executions db' = <[ex_key e := execution_ToProto e]> (DB.executions db) ∧
    (if Exec.Success e then
       PbJob.SuccessCount p' = int32 (PbJob.SuccessCount p + 1) ∧
       PbJob.ErrorCount p' = PbJob.ErrorCount p ∧
       PbJob.LastSuccess p' = Some (Exec.FinishedAt e) ∧ PbJob.LastError p' = PbJob.LastError p
     else
       PbJob.ErrorCount p' = int32 (PbJob.ErrorCount p + 1) ∧
       PbJob.SuccessCount p' = PbJob.SuccessCount p ∧
       PbJob.LastError p' = Some (Exec.FinishedAt e) ∧ PbJob.LastSuccess p' = PbJob.LastSuccess p) ∧
    (let group := GetExecutionGroup e db' in
     NewExecutionFromProto (execution_ToProto e) ∈ group ∧ status_of_group (PbJob.Status p') group) ∧
    (config (NewJobFromProto p') = config (NewJobFromProto p) ∧ PbJob.Next p' = PbJob.Next p ∧
     PbJob.DependentJobs p' = PbJob.DependentJobs p) ∧
    (∀ day, let was := DB.stats db !! day in
     DB.stats db' !! day =
       if decide (day = Exec.FinishedAt e / day_ns) then Some (ExecutionStat.mk
         (from_option ExecutionStat.Date (day * day_ns) was)
         (let n := from_option ExecutionStat.SuccessCount 0 was in if Exec.Success e then int64 (n + 1) else n)
         (let n := from_option ExecutionStat.FailedCount 0 was in if Exec.Success e then n else int64 (n + 1)))
       else was).
Proof.
  intros Hk (p & Hp & Hdb')%SetExecutionDone_counted. cbn zeta in Hdb'.
  set (db1 := DB.mk (DB.jobs db) (<[ex_key e := execution_ToProto e]> (DB.executions db)) (DB.stats db)) in *.
  set (p' := with_run _ _ _ p) in Hdb'. exists p, p'. pose proof (Hk _ _ Hp) as Hn.
  assert (DB.executions db' = DB.executions db1) as He by by rewrite Hdb'.
  split; [done|]. split; [by rewrite Hdb'; cbn; rewrite Hn|]. split; [by rewrite ?Hdb'|].
  split; [subst p'; by destruct (Exec.Success e)|].
  split; [|split; [split_and!; by destruct (Exec.Success e)|intros day was; by rewrite Hdb', lookup_incrementStatTx]].
  assert (GetExecutionGroup e db' = List.filter (λ ex, Exec.Group ex =? Exec.Group e)
    (GetExecutions (PbJob.Name p) db1)) as Hg.
  { unfold GetExecutionGroup, GetExecutions. by rewrite (listTx_executions _ db' db1 He), Hn. }
  intros group. unfold group. clear group. rewrite Hg.
  assert (NewExecutionFromProto (execution_ToProto e) ∈
    List.filter (λ ex, Exec.Group ex =? Exec.Group e) (GetExecutions (PbJob.Name p) db1)) as Hin.
  { rewrite list_elem_of_In, filter_In, <- list_elem_of_In. split; [|apply Z.eqb_refl].
    apply elem_of_GetExecutions. exists (ex_key e), (execution_ToProto e). split; [|done].
    apply map_lookup_filter_Some. cbn. rewrite lookup_insert_eq, Hn. split; [done|apply ex_key_listed]. }
  split; [done|]. apply (computeStatus_group (PbJob.Name p) (Exec.Group e) db1). eauto.
Qed.

(** An answer that arrives twice is counted once: finishing an execution
    again right after it was counted changes nothing. *)
Lemma SetExecutionDone_twice e db db' :
  keyed db → counts e db db' →
  SetExecutionDone e db' = (db', inr false).
Proof.
  intros Hk (p & Hp & Hdb')%SetExecutionDone_counted. cbn zeta in Hdb'. pose proof (Hk _ _ Hp) as Hn.
  set (st := computeStatus _ _ _) in Hdb'.
  assert (DB.jobs db' !! Exec.JobName e = Some (with_run (Exec.Success e) (Exec.FinishedAt e) st p)) as Hp'.
  { rewrite Hdb', <- Hn. apply lookup_insert_eq. }
  assert (DB.executions db' !! ex_key e = Some (execution_ToProto e)) as He'.
  { rewrite Hdb'. apply lookup_insert_eq. }
  unfold SetExecutionDone, getJobTx. rewrite Hp', He'. cbn zeta. rewrite Z.ltb_irrefl.
  assert (shouldCount (with_run (Exec.Success e) (Exec.FinishedAt e) st p)
    (Some (execution_ToProto e)) (execution_ToProto e) = false) as ->.
  { unfold shouldCount. cbn. rewrite Z.eqb_refl, eqb_reflx. cbn.
    destruct (Exec.Success e); cbn; by rewrite bool_decide_true. }
  cbn [negb]. rewrite lookup_setExecutionTx by by rewrite He'. f_equal.
  rewrite insert_id by done. by destruct db'.
Qed.

(** ** Over a log of commands *)

(** The executions of a store that [db] and [db'] have both, and that did not
    become unfinished. *)
Definition not_reopened (db db' : DB.t) : Prop :=
  ∀ k e, DB.executions db !! k = Some e →
    match DB.executions db' !! k with
    | Some e' => PbExecution.FinishedAt e ≤ PbExecution.FinishedAt e'
    | None => True
    end.

#[global] Instance not_reopened_refl : Reflexive not_reopened.
Proof. intros db k e He. rewrite He. lia. Qed.

Lemma not_reopened_eq db db' : DB.executions db' = DB.executions db → not_reopened db db'.
Proof. intros E k e He. rewrite E, He. lia. Qed.

Lemma not_reopened_sub db db1 db' : not_reopened db db1 →
  DB.executions db' ⊆ DB.executions db1 → not_reopened db db'.
Proof.
  intros Hr Hsub k e He. specialize (Hr k e He).
  destruct (DB.executions db' !! k) as [e'|] eqn:E; [|done].
  apply (lookup_weaken _ _ _ _ E) in Hsub. by rewrite Hsub in Hr.
Qed.

Lemma not_reopened_setExecutionTx key e db : not_reopened db (setExecutionTx key e db).1.
Proof.
  intros k x Hx. unfold setExecutionTx. destruct (DB.executions db !! key) as [p|] eqn:Hp.
  - destruct (Z.ltb_spec (PbExecution.FinishedAt e) (PbExecution.FinishedAt p)); cbn; [rewrite Hx; lia|].
    destruct (decide (k = key)) as [->|Hk]; [rewrite lookup_insert_eq; simplify_eq; lia|].
    rewrite lookup_insert_ne, Hx by done. lia.
  - cbn. rewrite lookup_insert_ne by congruence. rewrite Hx. lia.
Qed.

Lemma delete_all_executions l db :
  DB.executions (fold_left (λ db ex, deleteExecution ex db) l db) ⊆ DB.executions db.
Proof.
  revert db. induction l as [|x l IH]; intros db; [done|]. cbn.
  etrans; [apply IH|]. apply delete_subseteq.
Qed.

Section log.
Context `{Env}.
Variable sortByStart : list Exec.t → list Exec.t.

Lemma on_parent_executions f child db :
  DB.executions (on_parent f child db).1 = DB.executions db ∧
  DB.stats (on_parent f child db).1 = DB.stats db.
Proof. unfold on_parent, store_parent. by repeat case_match. Qed.

Lemma SetJob_flat_executions now copy job db :
  DB.executions (SetJob_flat now copy job db).1 = DB.executions db ∧
  DB.stats (SetJob_flat now copy job db).1 = DB.stats db.
Proof.
  unfold SetJob_flat. destruct (Validate job); [done|]. destruct (negb _ && _); [done|].
  destruct (setJob_update now job copy db) as [[[ej job'] db1]|] eqn:Hu; [|done].
  assert (DB.executions db1 = DB.executions db ∧ DB.stats db1 = DB.stats db) as [<- <-].
  { unfold setJob_update in Hu. destruct (update_Next _ _ _); [|done]. by simplify_eq. }
  destruct (String.eqb _ _); [done|].
  destruct (on_parent_executions (without (Job.Name ej)) ej db1) as [E1 E2].
  destruct (on_parent _ ej db1) as [db2 [err|]]; cbn in *; [done|].
  rewrite <- E1, <- E2. apply on_parent_executions.
Qed.

Lemma DeleteJob_executions now name db db' r : keyed db →
  applyDeleteJob now name db = Some (db', r) →
  DB.executions db' ⊆ DB.executions db ∧ DB.stats db' = DB.stats db.
Proof.
  intros Hk. unfold applyDeleteJob, DeleteJob, getJobTx, depth.
  destruct (DB.jobs db !! name) as [p|]; [|intros; by simplify_eq].
  destruct (negb (bool_decide _)); [intros; by simplify_eq|]. cbn zeta.
  change (DB.mk (delete name (DB.jobs (deleteExecutionsTx name db))) _ _) with (drop_job name db).
  assert (DB.executions (drop_job name db) ⊆ DB.executions db) as Hsub by apply map_filter_subseteq.
  destruct (negb (String.eqb _ _)); [|intros; by simplify_eq].
  rewrite removeFromParent_flat by by apply keyed_drop_job.
  destruct (on_parent_executions (without (Job.Name (NewJobFromProto p))) (NewJobFromProto p) (drop_job name db))
    as [E1 E2].
  destruct (on_parent _ _ _) as [d err]. intros. simplify_eq/=. by rewrite E1, E2.
Qed.

Lemma SetExecutionDone_not_reopened e db : not_reopened db (SetExecutionDone e db).1.
Proof.
  unfold SetExecutionDone, getJobTx. destruct (DB.jobs db !! _) as [p|]; [|done]. cbn zeta.
  set (older := match _ !! _ with Some _ => _ | None => _ end). destruct older; [done|].
  destruct (negb _); [apply not_reopened_setExecutionTx|]. cbn [fst].
  apply (not_reopened_sub _ (setExecutionTx (ex_key e) (execution_ToProto e) db).1);
    [apply not_reopened_setExecutionTx|done].
Qed.

Lemma Apply_not_reopened now c db db' r :
  keyed db → Apply sortByStart now c db = Some (db', r) → not_reopened db db'.
Proof.
  intros Hk. destruct c as [pj|name|e|name|e]; cbn [Apply].
  - unfold applySetJob. rewrite SetJob_depth by done.
    pose proof (SetJob_flat_executions now true (NewJobFromProto pj) db) as [E _].
    destruct (SetJob_flat _ _ _ _). intros. simplify_eq/=. by apply not_reopened_eq.
  - intros [E _]%DeleteJob_executions; [|done]. by apply (not_reopened_sub _ db).
  - unfold applySetExecution, SetExecution. cbn zeta. intros. simplify_eq.
    eapply not_reopened_sub; [apply (not_reopened_setExecutionTx (ex_key (NewExecutionFromProto e)))|].
    case_match; [apply delete_all_executions|done].
  - unfold applyDeleteExecutions, DeleteExecutions, getJobTx.
    destruct (DB.jobs db !! name); [|intros; by simplify_eq].
    intros E. apply (not_reopened_sub _ db); [done|].
    assert (db' = setJobTx (reset_results t) (deleteExecutionsTx name db)) as ->
      by by repeat case_match; simplify_eq.
    apply map_filter_subseteq.
  - unfold applyExecutionDone. pose proof (SetExecutionDone_not_reopened (NewExecutionFromProto e) db).
    destruct (SetExecutionDone _ _). intros. by simplify_eq.
Qed.

(** C30. A finished execution is never reopened: whatever command is applied,
    an execution of the store is either gone or its finish is the same or
    later, so neither a late message that it still runs nor an older answer
    overwrites its result. *)
Theorem finished_stays_finished now c db db' r k e :
  keyed db → Apply sortByStart now c db = Some (db', r) →
  DB.executions db !! k = Some e → zero_time < PbExecution.FinishedAt e →
  not_reopened db db' ∧
  (DB.executions db' !! k = None ∨
   ∃ e', DB.executions db' !! k = Some e' ∧
     PbExecution.FinishedAt e ≤ PbExecution.FinishedAt e' ∧ PbExecution.FinishedAt e' ≠ zero_time).
Proof.
  intros Hk Ha He Hz. pose proof (Apply_not_reopened now c db db' r Hk Ha) as Hn.
  split; [exact Hn|]. pose proof (Hn k e He) as Hr.
  destruct (DB.executions db' !! k) as [e'|]; [right|by left]. exists e'. split_and!; [done..|lia].
Qed.

(** ** The daily statistics *)

(** What [db] has counted for a day. *)
Definition stat_of (d : Z) (success : bool) (db : DB.t) : Z :=
  match DB.stats db !! d with
  | Some s => if success then ExecutionStat.SuccessCount s else ExecutionStat.FailedCount s
  | None => 0
  end.

(** The finished execution a command counts, if any. *)
Definition counted (c : command) (db : DB.t) : option (Z * bool) :=
  match c with
  | ExecutionDoneType e =>
      match SetExecutionDone (NewExecutionFromProto e) db with
      | (_, inr true) => Some (day_of (PbExecution.FinishedAt e), PbExecution.Success e)
      | _ => None
      end
  | _ => None
  end.

Fixpoint counted_log (log : list (time * command)) (db : DB.t) : list (Z * bool) :=
  match log with
  | [] => []
  | (now, c) :: log =>
      option_list (counted c db) ++
      match Apply sortByStart now c db with Some (db, _) => counted_log log db | None => [] end
  end.

Definition occurrences (x : Z * bool) (l : list (Z * bool)) : Z :=
  Z.of_nat (length (List.filter (λ y, bool_decide (y = x)) l)).

Lemma occurrences_app x l1 l2 : occurrences x (l1 ++ l2) = occurrences x l1 + occurrences x l2.
Proof. unfold occurrences. rewrite List.filter_app, length_app. lia. Qed.

Lemma stat_incrementStatTx d success date ok db :
  stat_of d success (incrementStatTx date ok db) =
    if bool_decide (day_of date = d) && Bool.eqb ok success
    then int64 (stat_of d success db + 1) else stat_of d success db.
Proof.
  unfold stat_of, incrementStatTx. cbn. case_bool_decide as Hd; cbn.
  - subst d. rewrite lookup_insert_eq.
    destruct (DB.stats db !! day_of date), ok, success; done.
  - by rewrite lookup_insert_ne.
Qed.

Lemma SetExecutionDone_uncounted_stats e db :
  match SetExecutionDone e db with
  | (db', inr true) => True
  | (db', _) => DB.stats db' = DB.stats db
  end.
Proof.
  unfold SetExecutionDone, getJobTx. destruct (DB.jobs db !! _); [|done]. cbn zeta.
  destruct (match _ !! _ with Some _ => _ | None => _ end); [done|].
  destruct (negb _); [apply setExecutionTx_stats|done].
Qed.

Lemma Apply_stats now c db db' r d success :
  keyed db → Apply sortByStart now c db = Some (db', r) →
  stat_of d success db' =
    if bool_decide (counted c db = Some (d, success))
    then int64 (stat_of d success db + 1) else stat_of d success db.
Proof.
  intros Hk. destruct c as [pj|name|e|name|e]; cbn [Apply counted].
  1-4: rewrite bool_decide_false by done; intros Ha;
    assert (DB.stats db' = DB.stats db) as E; [|unfold stat_of; by rewrite E]; revert Ha.
  - unfold applySetJob. rewrite SetJob_depth by done.
    pose proof (SetJob_flat_executions now true (NewJobFromProto pj) db) as [_ E].
    destruct (SetJob_flat _ _ _ _). intros. by simplify_eq/=.
  - by intros [_ E]%DeleteJob_executions.
  - unfold applySetExecution, SetExecution. cbn zeta. intros. simplify_eq.
    assert (∀ l db, DB.stats (fold_left (λ db ex, deleteExecution ex db) l db) = DB.stats db) as Hf.
    { induction l as [|x l IH]; intros d0; [done|]. cbn. by rewrite IH. }
    case_match; rewrite ?Hf; apply setExecutionTx_stats.
  - unfold applyDeleteExecutions, DeleteExecutions, getJobTx.
    destruct (DB.jobs db !! name); [|intros; by simplify_eq].
    intros. by repeat case_match; simplify_eq.
  - unfold applyExecutionDone.
    pose proof (SetExecutionDone_uncounted_stats (NewExecutionFromProto e) db) as Hu.
    destruct (SetExecutionDone _ _) as [db1 [err|[]]] eqn:Hd; intros Ha; simplify_eq.
    2: { apply SetExecutionDone_counted in Hd as (p & _ & ->). cbn zeta.
         rewrite stat_incrementStatTx. cbn.
         rewrite (bool_decide_ext (Some _ = Some _)
           (day_of (PbExecution.FinishedAt e) = d ∧ PbExecution.Success e = success))
           by naive_solver.
         rewrite bool_decide_and. by destruct (PbExecution.Success e), success. }
    all: rewrite bool_decide_false by done; unfold stat_of; by rewrite Hu.
Qed.

Lemma replay_stats log db db' rs d success :
  keyed db → replay sortByStart log db = Some (db', rs) →
  0 ≤ stat_of d success db →
  stat_of d success db + occurrences (d, success) (counted_log log db) < 2 ^ 63 →
  stat_of d success db' = stat_of d success db + occurrences (d, success) (counted_log log db).
Proof.
  revert db rs. induction log as [|[now c] log IH]; intros db rs Hk Hr H0 Hb; cbn in Hr.
  { simplify_eq. cbn. unfold occurrences. cbn. lia. }
  destruct (Apply sortByStart now c db) as [[db1 r]|] eqn:Ha; [|done].
  destruct (replay sortByStart log db1) as [[db2 rs2]|] eqn:Hl; [|done]. simplify_eq.
  cbn [counted_log] in *. rewrite Ha in Hb |- *. rewrite occurrences_app in Hb |- *.
  pose proof (Apply_stats now c db db1 r d success Hk Ha) as Hs.
  assert (occurrences (d, success) (option_list (counted c db)) =
    if bool_decide (counted c db = Some (d, success)) then 1 else 0) as Ho.
  { destruct (counted c db) as [x|]; [|done]. unfold occurrences. cbn.
    destruct (decide (x = (d, success))) as [->|Hx]; [by rewrite !bool_decide_true|].
    by rewrite !bool_decide_false by (intros [=]; by apply Hx; f_equal || done). }
  assert (0 ≤ occurrences (d, success) (counted_log log db1)) as Hnn by (unfold occurrences; lia).
  rewrite Ho in Hb |- *.
  assert (stat_of d success db1 = stat_of d success db +
    if bool_decide (counted c db = Some (d, success)) then 1 else 0) as Hs'.
  { rewrite Hs. case_bool_decide; [rewrite int64_id by lia|]; lia. }
  rewrite (IH db1 rs2); [lia|by eapply keyed_Apply|done|case_bool_decide; lia|lia].
Qed.

(** The daily statistics are a faithful count: after any log of commands the
    successes and failures of a day are as many as the log counted executions
    that finished on that day with that result, whatever jobs and executions
    were deleted since. *)
Lemma statistics_count log db rs d success :
  replay sortByStart log DB.empty = Some (db, rs) →
  occurrences (d, success) (counted_log log DB.empty) < 2 ^ 63 →
  stat_of d success db = occurrences (d, success) (counted_log log DB.empty).
Proof.
  intros Hr Hb. apply (replay_stats log DB.empty db rs); [|done..].
  apply (ok_keyed DB.empty db_ok_empty).
Qed.
End log.

(** ** Examples *)

Section demo.
#[local] Existing Instance demo_env.

(** Job [a] runs on two nodes; one run succeeds, the other fails. *)
Definition run1 : Exec.t := demo_exec 5000 6000 true "n1".
Definition run2 : Exec.t := demo_exec 5000 7000 false "n2".
Definition done1 : DB.t := (SetExecutionDone run1 demo_a).1.
Definition done2 : DB.t := (SetExecutionDone run2 done1).1.

Lemma keyed_demo_a : keyed demo_a.
Proof. apply (reachable_ok demo_sort), reachable_after. constructor. Qed.

Lemma SetExecutionDone_counts_witness :
  counts run1 demo_a done1 ∧
  ∃ p p', DB.jobs demo_a !! "a" = Some p ∧ DB.jobs done1 = <["a" := p']> (DB.jobs demo_a) ∧
    PbJob.SuccessCount p' = int32 (PbJob.SuccessCount p + 1) ∧ PbJob.LastSuccess p' = Some 6000 ∧
    PbJob.LastError p' = PbJob.LastError p.
Proof.
  assert (counts run1 demo_a done1) as Hd by (vm_compute; reflexivity).
  split; [exact Hd|].
  destruct (SetExecutionDone_counts run1 demo_a done1 keyed_demo_a Hd) as (p & p' & H1 & H2 & _ & (H3 & _ & H5 & H6) & _).
  exists p, p'. split; [exact H1|]. split; [exact H2|]. split; [exact H3|]. split; [exact H5|exact H6].
Defined.

Lemma SetExecutionDone_twice_witness :
  counts run1 demo_a done1 ∧ SetExecutionDone run1 done1 = (done1, inr false).
Proof.
  assert (counts run1 demo_a done1) as Hd by (vm_compute; reflexivity).
  split; [exact Hd|]. apply (SetExecutionDone_twice run1 demo_a done1 keyed_demo_a Hd).
Defined.

(** The group of both runs failed partially. *)
Lemma done2_status : PbJob.Status <$> DB.jobs done2 !! "a" = Some "partially_failed".
Proof. vm_compute. reflexivity. Qed.

(** A repeated answer is recognised only while it is the last of its kind: once
    a later run of the job succeeded, the earlier one arriving again counts
    once more and becomes the last success. *)
Definition run3 : Exec.t := demo_exec 8000 9000 true "n1".
Definition done3 : DB.t := (SetExecutionDone run3 done1).1.

Lemma late_duplicate_counts_again :
  (SetExecutionDone run1 done3).2 = inr true ∧
  (λ p, (PbJob.SuccessCount p, PbJob.LastSuccess p)) <$> DB.jobs done3 !! "a" = Some (2, Some 9000) ∧
  (λ p, (PbJob.SuccessCount p, PbJob.LastSuccess p)) <$>
    DB.jobs (SetExecutionDone run1 done3).1 !! "a" = Some (3, Some 6000).
Proof. do 2 (split; [vm_compute; reflexivity|]). vm_compute. reflexivity. Qed.

(** Deleting the executions of job [a] deletes those of job [ab] too. *)
Definition demo_prefix : DB.t :=
  (SetExecutionDone (Exec.mk "ab" 5000 6000 true "" "n1" 7 1)
    (after demo_sort 1000 (SetJobType (demo_pb "ab" "@daily" "")) demo_a)).1.

Lemma DeleteExecutions_hits_prefix :
  length (GetExecutions "ab" demo_prefix) = 1%nat ∧
  GetExecutions "ab" (DeleteExecutions "a" demo_prefix).1 = [] ∧
  PbJob.SuccessCount <$> DB.jobs (DeleteExecutions "a" demo_prefix).1 !! "ab" = Some 1.
Proof. do 2 (split; [vm_compute; reflexivity|]). vm_compute. reflexivity. Qed.

Definition demo_ran : list (time * command) :=
  [(1000, SetJobType (demo_pb "a" "@daily" "")); (7000, ExecutionDoneType (execution_ToProto run1));
   (7500, ExecutionDoneType (execution_ToProto run1)); (8000, ExecutionDoneType (execution_ToProto run2));
   (9000, DeleteJobType "a")].

Lemma statistics_count_witness :
  ∃ db rs, replay demo_sort demo_ran DB.empty = Some (db, rs) ∧
    occurrences (0, true) (counted_log demo_sort demo_ran DB.empty) = 1 ∧
    stat_of 0 true db = occurrences (0, true) (counted_log demo_sort demo_ran DB.empty).
Proof.
  destruct (replay demo_sort demo_ran DB.empty) as [[db rs]|] eqn:Hr; [|vm_compute in Hr; discriminate].
  exists db, rs. split; [reflexivity|]. split; [vm_compute; reflexivity|].
  apply (statistics_count demo_sort demo_ran db rs 0 true Hr). vm_compute. reflexivity.
Defined.

Lemma finished_stays_finished_witness :
  ∃ db' r, Apply demo_sort 9000
      (SetExecutionType (execution_ToProto (demo_exec 5000 zero_time false "n1"))) done1 = Some (db', r) ∧
    not_reopened done1 db' ∧
    (DB.executions db' !! ex_key run1 = None ∨
     ∃ e', DB.executions db' !! ex_key run1 = Some e' ∧
       PbExecution.FinishedAt (execution_ToProto run1) ≤ PbExecution.FinishedAt e' ∧
       PbExecution.FinishedAt e' ≠ zero_time).
Proof.
  destruct (Apply demo_sort 9000 (SetExecutionType _) done1) as [[db' r]|] eqn:Ha;
    [|vm_compute in Ha; discriminate].
  exists db', r. split; [reflexivity|].
  apply (finished_stays_finished demo_sort 9000 _ done1 db' r (ex_key run1) (execution_ToProto run1)
    (keyed_setJobTx _ _ keyed_demo_a) Ha).
  - vm_compute. reflexivity.
  - vm_compute. reflexivity.
Defined.
End demo.
