(* ===== verification/Running.v ===== *)
(** * Running: may a job run now?

    [isRunnable] of src/dkron/job.go, with [cleanupStaleRunningExecutions] of
    src/dkron/agent.go and [reconcileRunningExecutionOrphans] of
    src/dkron/leader.go: executions that are stored as running while no node is
    running them are finished as failed once they are old.  The theorems: a job
    that forbids concurrency is let through only when nothing of it is running,
    and cleaning finishes exactly the stale executions. *)

From S2P Require Import Prelude GoCore Jobs Store Fsm Runs.

(** 4 hours. *)
Definition DefaultStaleExecutionThreshold : Z := 4 * 3600 * 1000000000.

Definition stale_note : string :=
  String (ascii_of_nat 10) "Execution marked as failed: detected as stale (not active on any node)".

(** The keys of the executions the nodes are running. *)
Definition activeExecutionKeys (executions : list PbExecution.t) : list string :=
  (λ e, Key (NewExecutionFromProto e)) <$> executions.

(** The execution as it is finished. *)
Definition mark_stale (now : time) (e : Exec.t) : Exec.t :=
  Exec.mk (Exec.JobName e) (Exec.StartedAt e) now false (Exec.Output e +:+ stale_note)
    (Exec.NodeName e) (Exec.Group e) (Exec.Attempt e).

(** The log answers no error here, whatever the store says. *)
Definition markExecutionDone (e : Exec.t) (db : DB.t) : DB.t :=
  (applyExecutionDone (execution_ToProto e) db).1.

Fixpoint cleanup_loop (now : time) (active : list string) (runningExecs : list Exec.t) (db : DB.t)
    : DB.t * list Exec.t :=
  match runningExecs with
  | [] => (db, [])
  | exec :: execs =>
      if bool_decide (Key exec ∈ active) then cleanup_loop now active execs db
      else if now - Exec.StartedAt exec <=? DefaultStaleExecutionThreshold then
        let (db, remaining) := cleanup_loop now active execs db in (db, exec :: remaining)
      else cleanup_loop now active execs (markExecutionDone (mark_stale now exec) db)
  end.

(** The store, and the executions that may still be running. *)
Definition cleanupStaleRunningExecutions (now : time) (jobName : string) (active : list string)
    (db : DB.t) : DB.t * list Exec.t :=
  cleanup_loop now active (GetRunningExecutions jobName db) db.

Definition reconcileRunningExecutionOrphans (now : time) (jobs : list Job.t) (active : list string)
    (db : DB.t) : DB.t :=
  fold_left (λ db job, (cleanupStaleRunningExecutions now (Job.Name job) active db).1) jobs db.

(** [active] is [None] when the nodes cannot be asked. *)
Definition isRunnable (now : time) (globalLock : bool) (active : option (list PbExecution.t))
    (j : Job.t) (db : DB.t) : DB.t * bool :=
  if Job.Disabled j then (db, false)
  else if match Job.StartsAt j with Some t => now <? t | None => false end then (db, false)
  else if match Job.ExpiresAt j with Some t => t <? now | None => false end then (db, false)
  else if globalLock then (db, false)
  else if String.eqb (Job.Concurrency j) "forbid" then
    match active with
    | None => (db, false)
    | Some exs =>
        if existsb (λ e, String.eqb (PbExecution.JobName e) (Job.Name j)) exs then (db, false) else
        let (db, runningExecs) :=
          cleanupStaleRunningExecutions now (Job.Name j) (activeExecutionKeys exs) db in
        (db, match runningExecs with [] => true | _ => false end)
    end
  else (db, true).

(** ** Lemmas *)

(** The execution is stored as running under this key. *)
Definition running_at (db : DB.t) (k : string) (p : PbExecution.t) : Prop :=
  DB.executions db !! k = Some p ∧
  PbExecution.StartedAt p ≠ zero_time ∧ PbExecution.FinishedAt p = zero_time.

Lemma elem_of_GetRunningExecutions e name db :
  e ∈ GetRunningExecutions name db ↔
  ∃ k p, e = NewExecutionFromProto p ∧ running_at db k p ∧ listed (name +:+ ":") db !! k = Some p.
Proof.
  unfold GetRunningExecutions. rewrite list_elem_of_In, List.filter_In, <- list_elem_of_In,
    elem_of_GetExecutions, andb_true_iff, negb_true_iff, Z.eqb_neq, Z.eqb_eq. split.
  - intros [(k & p & Hl & ->) [Hs Hf]]. exists k, p. split; [done|]. split; [|done].
    apply map_lookup_filter_Some in Hl as [Hl _]. by split.
  - intros (k & p & -> & (Hk & Hs & Hf) & Hl). split; [eauto|by split].
Qed.

Section cleanup.
Context `{Env}.

(** Finishing an execution that is running stores it, for a stored job. *)
Lemma markExecutionDone_executions now e p db :
  is_Some (DB.jobs db !! Exec.JobName e) → zero_time ≤ now → running_at db (ex_key e) p →
  DB.executions (markExecutionDone (mark_stale now e) db) =
    <[ex_key e := execution_ToProto (mark_stale now e)]> (DB.executions db).
Proof.
  intros [q Hq] Hnow (Hp & _ & Hf). unfold markExecutionDone, applyExecutionDone.
  set (x := NewExecutionFromProto (execution_ToProto (mark_stale now e))).
  assert (execution_ToProto x = execution_ToProto (mark_stale now e)) as Hx.
  { unfold x, execution_ToProto. cbn -[uint32]. by rewrite (uint32_id (uint32 _)) by apply uint32_in. }
  assert (ex_key x = ex_key e ∧ Exec.JobName x = Exec.JobName e) as [Hk Hn] by done.
  unfold SetExecutionDone, getJobTx. rewrite Hx, Hk, Hn, Hq, Hp. cbn zeta.
  assert ((PbExecution.FinishedAt (execution_ToProto (mark_stale now e)) <? PbExecution.FinishedAt p) = false) as ->.
  { rewrite Hf. cbn. by apply Z.ltb_ge. }
  rewrite lookup_setExecutionTx by (rewrite Hp, Hf; exact Hnow).
  by destruct (negb _).
Qed.

Lemma shape_stored db db' n : shape db' = shape db →
  is_Some (DB.jobs db !! n) → is_Some (DB.jobs db' !! n).
Proof.
  intros Hs Hn. apply (f_equal (lookup n)) in Hs. unfold shape in Hs. rewrite !lookup_fmap in Hs.
  destruct (DB.jobs db' !! n); [eauto|]. cbn in Hs. symmetry in Hs. apply fmap_None in Hs.
  rewrite Hs in Hn. by destruct Hn.
Qed.

Lemma markExecutionDone_ok e db : db_ok db →
  db_ok (markExecutionDone e db) ∧ shape (markExecutionDone e db) = shape db.
Proof.
  intros Hdb. unfold markExecutionDone, applyExecutionDone.
  destruct (SetExecutionDone_ok (NewExecutionFromProto (execution_ToProto e)) db Hdb).
  by destruct (SetExecutionDone _ db).
Qed.

Lemma cleanup_loop_ok now active l db : db_ok db →
  db_ok (cleanup_loop now active l db).1 ∧ shape (cleanup_loop now active l db).1 = shape db.
Proof.
  revert db. induction l as [|e l IH]; intros db Hdb; cbn [cleanup_loop]; [done|].
  case_bool_decide; [by apply IH|]. destruct (_ <=? _).
  - specialize (IH db Hdb). by destruct (cleanup_loop now active l db).
  - destruct (markExecutionDone_ok (mark_stale now e) db Hdb) as [H1 H2].
    destruct (IH _ H1) as [H3 H4]. split; [done|]. by rewrite H4.
Qed.

(** The commands of the cleaning are part of the log. *)
Lemma cleanup_loop_reachable sortByStart now active l db :
  reachable sortByStart db → reachable sortByStart (cleanup_loop now active l db).1.
Proof.
  revert db. induction l as [|e l IH]; intros db Hr; cbn [cleanup_loop]; [done|].
  case_bool_decide; [by apply IH|]. destruct (_ <=? _).
  - specialize (IH db Hr). by destruct (cleanup_loop now active l db).
  - apply IH. refine (reachable_step _ now (ExecutionDoneType (execution_ToProto (mark_stale now e)))
      _ _ _ Hr (f_equal Some (surjective_pairing _))).
Qed.

Lemma reconcile_ok sortByStart now jobs active db : reachable sortByStart db →
  reachable sortByStart (reconcileRunningExecutionOrphans now jobs active db) ∧
  shape (reconcileRunningExecutionOrphans now jobs active db) = shape db.
Proof.
  unfold reconcileRunningExecutionOrphans. revert db. induction jobs as [|j jobs IH]; intros db Hr; [done|].
  cbn [fold_left]. unfold cleanupStaleRunningExecutions at 2 4.
  destruct (cleanup_loop_ok now active (GetRunningExecutions (Job.Name j) db) db) as [_ Hs];
    [apply (reachable_ok _ _ Hr)|].
  destruct (IH (cleanup_loop now active (GetRunningExecutions (Job.Name j) db) db).1) as [H1 H2];
    [by apply cleanup_loop_reachable|]. split; [done|]. by rewrite H2.
Qed.

(** The executions that keep a job from running: neither active nor stale. *)
Definition young (now : time) (active : list string) (e : Exec.t) : bool :=
  negb (bool_decide (Key e ∈ active)) && (now - Exec.StartedAt e <=? DefaultStaleExecutionThreshold).

Lemma cleanup_loop_remaining now active l db :
  (cleanup_loop now active l db).2 = List.filter (young now active) l.
Proof.
  revert db. induction l as [|e l IH]; intros db; cbn [cleanup_loop List.filter]; [done|].
  unfold young at 1. case_bool_decide; cbn [negb andb]; [apply IH|]. destruct (_ <=? _); [|apply IH].
  specialize (IH db). destruct (cleanup_loop now active l db). cbn in *. by rewrite IH.
Qed.

(** The executions cleaning leaves as they are. *)
Definition spared (now : time) (active : list string) (e : Exec.t) : bool :=
  bool_decide (Key e ∈ active) || (now - Exec.StartedAt e <=? DefaultStaleExecutionThreshold).

Lemma cleanup_loop_executions now active name l db :
  is_Some (DB.jobs db !! name) → db_ok db → zero_time ≤ now → NoDup (ex_key <$> l) →
  Forall (λ e, Exec.JobName e = name ∧ ∃ p, running_at db (ex_key e) p) l →
  ∀ k, DB.executions (cleanup_loop now active l db).1 !! k =
    match List.find (λ e, String.eqb (ex_key e) k) l with
    | Some e =>
        if spared now active e then DB.executions db !! k
        else Some (execution_ToProto (mark_stale now e))
    | None => DB.executions db !! k
    end.
Proof.
  revert db. induction l as [|e l IH]; intros db Hn Hdb Hnow Hnd Hl k; cbn [cleanup_loop List.find]; [done|].
  cbn in Hnd. apply NoDup_cons in Hnd as [Hne Hnd]. apply Forall_cons in Hl as [[He [p Hp]] Hl].
  assert (ex_key e = k → List.find (λ e, String.eqb (ex_key e) k) l = None) as Hfind.
  { intros <-. destruct (List.find _ l) as [x|] eqn:Hf; [|done].
    apply List.find_some in Hf as [Hin Hx%String.eqb_eq]. destruct Hne. rewrite <- Hx.
    apply list_elem_of_fmap_2. by apply list_elem_of_In. }
  pose proof (eq_refl (spared now active e)) as Hsp. unfold spared in Hsp at 2.
  case_bool_decide as Ha; cbn [orb] in Hsp.
  { rewrite IH by done. destruct (String.eqb_spec (ex_key e) k) as [E|]; [|done].
    by rewrite (Hfind E), Hsp. }
  destruct (now - Exec.StartedAt e <=? DefaultStaleExecutionThreshold).
  { specialize (IH db Hn Hdb Hnow Hnd Hl k). destruct (cleanup_loop now active l db). cbn [fst] in *.
    rewrite IH. destruct (String.eqb_spec (ex_key e) k) as [E|]; [|done]. by rewrite (Hfind E), Hsp. }
  destruct (markExecutionDone_ok (mark_stale now e) db Hdb) as [Hdb1 Hs1].
  assert (is_Some (DB.jobs db !! Exec.JobName e)) as Hn' by by rewrite He.
  pose proof (markExecutionDone_executions now e p db Hn' Hnow Hp) as Hx.
  rewrite IH; [| |done|done|done|].
  - rewrite Hx. destruct (String.eqb_spec (ex_key e) k) as [E|E].
    + rewrite (Hfind E), E, Hsp. by rewrite lookup_insert_eq.
    + by rewrite lookup_insert_ne.
  - by eapply shape_stored.
  - rewrite Forall_forall in *. intros x Hx'. destruct (Hl x Hx') as [Hxn [q (Hq & Hrest)]].
    split; [done|]. exists q. split; [|done]. rewrite Hx, lookup_insert_ne; [done|].
    intros E. apply Hne. rewrite E. by apply list_elem_of_fmap_2.
Qed.

(** ** Running executions of a job *)

Lemma GetExecutions_keys name db : db_ok db → NoDup (ex_key <$> GetExecutions name db).
Proof.
  intros Hdb. unfold GetExecutions.
  assert (ex_key <$> (NewExecutionFromProto <$> listTx (name +:+ ":") db) ≡ₚ
    (map_to_list (listed (name +:+ ":") db)).*1) as ->; [|apply NoDup_fst_map_to_list].
  rewrite listTx_listed, <- !list_fmap_compose. apply reflexive_eq, list_fmap_ext. intros i [k p] Hi.
  apply list_elem_of_lookup_2, elem_of_map_to_list, map_lookup_filter_Some in Hi as [Hi _].
  symmetry. by apply (ok_executions db Hdb).
Qed.

Lemma GetRunningExecutions_keys name db : db_ok db → NoDup (ex_key <$> GetRunningExecutions name db).
Proof.
  intros Hdb. unfold GetRunningExecutions. pose proof (GetExecutions_keys name db Hdb) as Hn.
  induction (GetExecutions name db) as [|e l IH]; cbn in *; [done|].
  apply NoDup_cons in Hn as [Hne Hn]. destruct (_ && _); [|by apply IH]. cbn. apply NoDup_cons.
  split; [|by apply IH]. intros (x & Hx & Hin)%list_elem_of_fmap. apply Hne. rewrite Hx.
  apply list_elem_of_fmap_2. apply list_elem_of_In, List.filter_In in Hin as [? _]. by apply list_elem_of_In.
Qed.

Lemma GetRunningExecutions_at e name db : db_ok db → e ∈ GetRunningExecutions name db →
  ∃ p, e = NewExecutionFromProto p ∧ running_at db (ex_key e) p.
Proof.
  intros Hdb (k & p & -> & Hr & _)%elem_of_GetRunningExecutions. exists p. split; [done|].
  destruct (ok_executions db Hdb _ _ (proj1 Hr)) as [<- _]. done.
Qed.

(** Every listed execution is one of the job. *)
Definition own_executions (name : string) (db : DB.t) : Prop :=
  Forall (λ e, Exec.JobName e = name) (GetRunningExecutions name db).

Lemma stale_finished now e p : zero_time < now →
  Some (execution_ToProto (mark_stale now e)) = Some p → PbExecution.FinishedAt p = zero_time → False.
Proof. intros Hnow Hp Hf. rewrite <- (inj Some _ _ Hp) in Hf. cbn in Hf. lia. Qed.

Lemma cleanup_executions now name active db :
  db_ok db → is_Some (DB.jobs db !! name) → own_executions name db → zero_time < now →
  (∀ k, DB.executions (cleanupStaleRunningExecutions now name active db).1 !! k = DB.executions db !! k ∨
     ∃ e, e ∈ GetRunningExecutions name db ∧ ex_key e = k ∧ spared now active e = false ∧
       DB.executions (cleanupStaleRunningExecutions now name active db).1 !! k =
         Some (execution_ToProto (mark_stale now e))) ∧
  (∀ e, e ∈ GetRunningExecutions name (cleanupStaleRunningExecutions now name active db).1 →
     e ∈ GetRunningExecutions name db ∧ spared now active e = true).
Proof.
  intros Hdb Hn Hown Hnow. unfold cleanupStaleRunningExecutions.
  pose proof (GetRunningExecutions_keys name db Hdb) as Hkeys.
  pose proof (cleanup_loop_executions now active name (GetRunningExecutions name db) db Hn Hdb
    ltac:(lia) Hkeys) as Hx.
  assert (Forall (λ e, Exec.JobName e = name ∧ ∃ p, running_at db (ex_key e) p)
    (GetRunningExecutions name db)) as Hall.
  { apply Forall_forall. intros e He. split; [by apply (proj1 (Forall_forall _ _) Hown)|].
    destruct (GetRunningExecutions_at e name db Hdb He) as (p & _ & Hp). eauto. }
  specialize (Hx Hall). set (db' := (cleanup_loop _ _ _ _).1) in *. split.
  - intros k. rewrite Hx. destruct (List.find _ _) as [e|] eqn:Hf; [|by left].
    apply List.find_some in Hf as [He Hk%String.eqb_eq]. apply list_elem_of_In in He.
    destruct (spared now active e) eqn:Hs; [by left|right]. exists e. by split_and!.
  - intros e (k & p & -> & (Hp & Hst & Hfin) & Hl)%elem_of_GetRunningExecutions.
    rewrite Hx in Hp. assert (DB.executions db !! k = Some p) as Hp0.
    { destruct (List.find _ _) as [e|]; [|done]. destruct (spared now active e); [done|].
      destruct (stale_finished now e p Hnow Hp Hfin). }
    assert (NewExecutionFromProto p ∈ GetRunningExecutions name db) as Hin.
    { apply elem_of_GetRunningExecutions. exists k, p. split; [done|]. split; [by split|].
      apply map_lookup_filter_Some in Hl as [_ Hl]. by apply map_lookup_filter_Some. }
    split; [done|]. destruct (ok_executions db Hdb _ _ Hp0) as [-> _].
    destruct (List.find _ _) as [e|] eqn:Hf.
    + apply List.find_some in Hf as [He Hk%String.eqb_eq]. apply list_elem_of_In in He.
      assert (e = NewExecutionFromProto p) as ->.
      { destruct (GetRunningExecutions_at e name db Hdb He) as (q & -> & Hq & _). rewrite Hk, Hp0 in Hq.
        by rewrite (inj Some _ _ Hq). }
      destruct (spared now active (NewExecutionFromProto p)); [done|].
      destruct (stale_finished now _ p Hnow Hp Hfin).
    + apply List.find_none with (x := NewExecutionFromProto p) in Hf; [|by apply list_elem_of_In].
      by rewrite String.eqb_refl in Hf.
Qed.

(** ** May it run? *)

(** The job is enabled, has started and not expired, the cluster is not locked,
    and, when it forbids concurrency, no node is running it and every execution
    that is stored as running and is not active is stale. *)
Definition may_run (now : time) (globalLock : bool) (active : option (list PbExecution.t))
    (j : Job.t) (db : DB.t) : Prop :=
  Job.Disabled j = false ∧ (∀ t, Job.StartsAt j = Some t → t ≤ now) ∧
  (∀ t, Job.ExpiresAt j = Some t → now ≤ t) ∧ globalLock = false ∧
  (Job.Concurrency j = "forbid" → ∃ exs, active = Some exs ∧
     (∀ e, e ∈ exs → PbExecution.JobName e ≠ Job.Name j) ∧
     ∀ e, e ∈ GetRunningExecutions (Job.Name j) db → Key e ∉ activeExecutionKeys exs →
       DefaultStaleExecutionThreshold < now - Exec.StartedAt e).

Lemma existsb_job_false name exs :
  existsb (λ e, String.eqb (PbExecution.JobName e) name) exs = false ↔
  ∀ e, e ∈ exs → PbExecution.JobName e ≠ name.
Proof.
  rewrite <- not_true_iff_false, existsb_exists. setoid_rewrite String.eqb_eq.
  setoid_rewrite list_elem_of_In. naive_solver.
Qed.

Lemma filter_young_nil now active l :
  List.filter (young now active) l = [] ↔
  ∀ e, e ∈ l → Key e ∉ active → DefaultStaleExecutionThreshold < now - Exec.StartedAt e.
Proof.
  assert (∀ e, young now active e = false ↔
    (Key e ∉ active → DefaultStaleExecutionThreshold < now - Exec.StartedAt e)) as Hy.
  { intros e. unfold young. case_bool_decide; cbn [negb andb].
    - split; [intros _ ?; done|done].
    - rewrite Z.leb_gt. tauto. }
  setoid_rewrite <- Hy. induction l as [|e l IH]; cbn.
  - split; [intros _ e ?%elem_of_nil|]; done.
  - setoid_rewrite elem_of_cons. destruct (young now active e) eqn:E.
    { split; [discriminate|]. intros Hno. rewrite (Hno e) in E by (by left). discriminate. }
    rewrite IH. split; [|by auto]. intros Hno x [->|Hx]; [done|by apply Hno].
Qed.

(** The guards before the concurrency check. *)
Definition due (now : time) (globalLock : bool) (j : Job.t) : bool :=
  negb (Job.Disabled j) && match Job.StartsAt j with Some t => negb (now <? t) | None => true end &&
  match Job.ExpiresAt j with Some t => negb (t <? now) | None => true end && negb globalLock.

Lemma due_spec now globalLock j : due now globalLock j = true ↔
  Job.Disabled j = false ∧ (∀ t, Job.StartsAt j = Some t → t ≤ now) ∧
  (∀ t, Job.ExpiresAt j = Some t → now ≤ t) ∧ globalLock = false.
Proof.
  unfold due. rewrite !andb_true_iff, !negb_true_iff.
  assert (∀ (o : option time) (f : time → bool) (P : time → Prop), (∀ t, f t = false ↔ P t) →
    match o with Some t => negb (f t) | None => true end = true ↔ ∀ t, o = Some t → P t) as Ho.
  { intros [t|] f P Hf; [|naive_solver]. rewrite negb_true_iff, Hf. naive_solver. }
  rewrite (Ho _ (λ t, now <? t) (λ t, t ≤ now)) by (intros; apply Z.ltb_ge).
  rewrite (Ho _ (λ t, t <? now) (λ t, now ≤ t)) by (intros; apply Z.ltb_ge). tauto.
Qed.

(** The concurrency check, for the nodes' answer [exs]. *)
Definition alone (now : time) (exs : list PbExecution.t) (name : string) (db : DB.t) : DB.t * bool :=
  if existsb (λ e, String.eqb (PbExecution.JobName e) name) exs then (db, false) else
  let (db, runningExecs) := cleanupStaleRunningExecutions now name (activeExecutionKeys exs) db in
  (db, match runningExecs with [] => true | _ => false end).

Lemma isRunnable_eq now globalLock active j db :
  isRunnable now globalLock active j db =
  if due now globalLock j then
    if String.eqb (Job.Concurrency j) "forbid" then
      match active with Some exs => alone now exs (Job.Name j) db | None => (db, false) end
    else (db, true)
  else (db, false).
Proof.
  unfold isRunnable, due. destruct (Job.Disabled j); [done|].
  destruct (Job.StartsAt j) as [s|]; [destruct (now <? s); [done|]|];
    (destruct (Job.ExpiresAt j) as [x|]; [destruct (x <? now); [done|]|]); by destruct globalLock.
Qed.

Lemma isRunnable_ok sortByStart now globalLock active j db : reachable sortByStart db →
  reachable sortByStart (isRunnable now globalLock active j db).1 ∧
  shape (isRunnable now globalLock active j db).1 = shape db.
Proof.
  intros Hr. rewrite isRunnable_eq. destruct (due _ _ _); [|done]. destruct (String.eqb _ _); [|done].
  destruct active as [exs|]; [|done]. unfold alone. destruct (existsb _ _); [done|].
  unfold cleanupStaleRunningExecutions.
  pose proof (cleanup_loop_reachable sortByStart now (activeExecutionKeys exs) (GetRunningExecutions (Job.Name j) db)
    db Hr) as Hr'.
  destruct (cleanup_loop_ok now (activeExecutionKeys exs) (GetRunningExecutions (Job.Name j) db) db
    (proj1 (reachable_ok _ _ Hr))) as [_ Hs]. by destruct (cleanup_loop _ _ _ _).
Qed.

Lemma alone_spec now exs name db :
  db_ok db → is_Some (DB.jobs db !! name) → own_executions name db → zero_time < now →
  let (db', ok) := alone now exs name db in
  (ok = true ↔ (∀ e, e ∈ exs → PbExecution.JobName e ≠ name) ∧
     ∀ e, e ∈ GetRunningExecutions name db → Key e ∉ activeExecutionKeys exs →
       DefaultStaleExecutionThreshold < now - Exec.StartedAt e) ∧
  (∀ k, DB.executions db' !! k = DB.executions db !! k ∨
     ∃ e, e ∈ GetRunningExecutions name db ∧ ex_key e = k ∧
       DefaultStaleExecutionThreshold < now - Exec.StartedAt e ∧
       DB.executions db' !! k = Some (execution_ToProto (mark_stale now e))) ∧
  (ok = true → ∀ e, e ∈ GetRunningExecutions name db' → Key e ∈ activeExecutionKeys exs) ∧
  shape db' = shape db.
Proof.
  intros Hdb Hn Hown Hnow. unfold alone. destruct (existsb _ exs) eqn:Hex.
  { split_and!; [|by left|done|done]. split; [done|]. intros [Hno%existsb_job_false _]. congruence. }
  destruct (cleanup_executions now name (activeExecutionKeys exs) db Hdb Hn Hown Hnow) as [Hkeep Hleft].
  destruct (cleanup_loop_ok now (activeExecutionKeys exs) (GetRunningExecutions name db) db Hdb) as [_ Hs].
  pose proof (cleanup_loop_remaining now (activeExecutionKeys exs) (GetRunningExecutions name db) db) as Hr.
  fold (cleanupStaleRunningExecutions now name (activeExecutionKeys exs) db) in Hs, Hr.
  destruct (cleanupStaleRunningExecutions _ _ _ _) as [db' running]. cbn [fst snd] in *. subst running.
  assert (match List.filter (young now (activeExecutionKeys exs)) (GetRunningExecutions name db) with
          | [] => true | _ => false end = true ↔
    List.filter (young now (activeExecutionKeys exs)) (GetRunningExecutions name db) = []) as Hnil
    by by destruct (List.filter _ _).
  split_and!; [| | |done].
  - rewrite Hnil, filter_young_nil, <- existsb_job_false. tauto.
  - intros k. destruct (Hkeep k) as [?|(e & He & Hk & Hsp & Hx)]; [by left|right]. exists e.
    split_and!; [done|done| |done]. by apply orb_false_iff in Hsp as [_ ?%Z.leb_gt].
  - intros Hok e (He & Hsp)%Hleft. apply Hnil in Hok. rewrite filter_young_nil in Hok.
    unfold spared in Hsp. case_bool_decide as Ha; [done|]. apply Z.leb_le in Hsp.
    specialize (Hok e He Ha). lia.
Qed.

(** C11. A job runs when it may, and alone when it asks for that: [isRunnable]
    answers yes exactly for a job that is enabled, due and not expired while the
    cluster is not locked and, if the job forbids concurrency, the nodes answer,
    none of them is running it, and what is stored as running is active
    elsewhere or stale.  On the way it finishes stale executions of that job as
    failed and changes no other; after a yes, nothing of such a job is left
    running in the store that no node has in its hands. *)
Theorem isRunnable_spec now globalLock active j db :
  db_ok db → is_Some (DB.jobs db !! Job.Name j) → own_executions (Job.Name j) db → zero_time < now →
  let (db', ok) := isRunnable now globalLock active j db in
  (ok = true ↔ may_run now globalLock active j db) ∧
  (∀ k, DB.executions db' !! k = DB.executions db !! k ∨
     ∃ e, e ∈ GetRunningExecutions (Job.Name j) db ∧ ex_key e = k ∧
       DefaultStaleExecutionThreshold < now - Exec.StartedAt e ∧
       DB.executions db' !! k = Some (execution_ToProto (mark_stale now e))) ∧
  (ok = true → Job.Concurrency j = "forbid" → ∀ e, e ∈ GetRunningExecutions (Job.Name j) db' →
     ∃ exs, active = Some exs ∧ Key e ∈ activeExecutionKeys exs) ∧
  shape db' = shape db.
Proof.
  intros Hdb Hn Hown Hnow. rewrite isRunnable_eq.
  pose proof (due_spec now globalLock j) as Hd. unfold may_run.
  destruct (due now globalLock j).
  2: { split_and!; [|by left|done|done]. split; [done|]. intros (? & ? & ? & ? & _). by apply Hd. }
  destruct (proj1 Hd eq_refl) as (H1 & H2 & H3 & H4).
  destruct (String.eqb_spec (Job.Concurrency j) "forbid") as [Hc|Hc].
  2: { split_and!; [|by left|done|done]. split; [intros _; by split_and!|done]. }
  destruct active as [exs|].
  2: { split_and!; [|by left|done|done]. split; [done|]. intros (_ & _ & _ & _ & Hf).
       by destruct (Hf Hc) as (exs & ? & _). }
  pose proof (alone_spec now exs (Job.Name j) db Hdb Hn Hown Hnow) as Ha.
  destruct (alone _ _ _ _) as [db' ok]. destruct Ha as (Hok & Hkeep & Hleft & Hs).
  split_and!; [|done| |done].
  - rewrite Hok. split; [intros [Hno Hst]; split_and!; [done..|]; intros _; by exists exs|].
    intros (_ & _ & _ & _ & Hf). destruct (Hf Hc) as (exs' & E & ? & ?).
    pose proof (inj Some _ _ E) as ->. by split.
  - intros Ho _ e He. exists exs. split; [done|]. by apply Hleft.
Qed.
End cleanup.

(** ** Example *)

Section demo.
#[local] Existing Instance demo_env.

(** An execution of [a] that no node has in its hands, five hours later. *)
Definition hour : Z := 3600 * 1000000000.
Definition lost_run : Exec.t := demo_exec 5000 zero_time false "n1".
Definition demo_lost : DB.t :=
  after demo_sort 1000 (SetExecutionType (execution_ToProto lost_run)) demo_a.
Definition exclusive_a : Job.t :=
  NewJobFromProto (PbJob.mk "a" "" "" "@daily" "" "" 0 0 false ∅ 0 [] "" "forbid" ∅ "shell" ∅ "" ∅
    None None None false None None).

Lemma db_ok_lost : db_ok demo_lost.
Proof.
  apply (reachable_ok demo_sort), reachable_after, reachable_after. constructor.
Qed.

(** It blocks the job for four hours; then it is finished as failed, and the job
    runs. *)
Lemma isRunnable_spec_witness :
  (isRunnable (5000 + 3 * hour) false (Some []) exclusive_a demo_lost).2 = false ∧
  (isRunnable (5000 + 5 * hour) false (Some []) exclusive_a demo_lost).2 = true ∧
  may_run (5000 + 5 * hour) false (Some []) exclusive_a demo_lost ∧
  ¬ may_run (5000 + 3 * hour) false (Some []) exclusive_a demo_lost.
Proof.
  assert (is_Some (DB.jobs demo_lost !! Job.Name exclusive_a)) as Hn by (vm_compute; eexists; reflexivity).
  assert (own_executions (Job.Name exclusive_a) demo_lost) as Ho by (vm_compute; repeat constructor).
  assert ((isRunnable (5000 + 3 * hour) false (Some []) exclusive_a demo_lost).2 = false) as E3
    by (vm_compute; reflexivity).
  assert ((isRunnable (5000 + 5 * hour) false (Some []) exclusive_a demo_lost).2 = true) as E5
    by (vm_compute; reflexivity).
  split; [exact E3|]. split; [exact E5|]. split.
  - pose proof (isRunnable_spec (5000 + 5 * hour) false (Some []) exclusive_a demo_lost db_ok_lost Hn Ho
      ltac:(reflexivity)) as Hs. revert E5 Hs.
    destruct (isRunnable (5000 + 5 * hour) _ _ _ _) as [db' ok]. intros E5 Hs. by apply Hs.
  - pose proof (isRunnable_spec (5000 + 3 * hour) false (Some []) exclusive_a demo_lost db_ok_lost Hn Ho
      ltac:(reflexivity)) as Hs. revert E3 Hs.
    destruct (isRunnable (5000 + 3 * hour) _ _ _ _) as [db' ok]. cbn. intros -> Hs Hm. by apply Hs in Hm.
Defined.
End demo.
