(* ===== verification/Scheduler.v ===== *)
(** * Scheduler: which jobs the cron engine holds

    src/dkron/scheduler.go.  The engine of the cron library is an interface: the
    class [Engine] has its operations, [EngineLaws] what its documentation says of
    them, and the engine at the end of the file implements it.  The theorem: a
    started scheduler that was given some jobs holds exactly the enabled ones
    without a parent, one entry each, and adding or removing a job keeps it so. *)

From S2P Require Import Prelude GoCore Jobs.

(** ** The engine *)

Module Entry.
(** [cron.Entry]; [Next] is zero while the engine has not been started. *)
Record t := mk { ID : Z; Job : Job.t; Next : time }.
End Entry.

Class Engine := {
  engine : Type;
  cron_New : engine;
  cron_Entries : engine → list Entry.t;
  (** the clock, the schedule and the job; [None] when the schedule does not parse *)
  cron_AddJob : time → string → Job.t → engine → option engine;
  cron_Remove : Z → engine → engine;
  cron_Start : time → engine → engine;
  cron_Stop : engine → engine;
}.

(** An entry but for its next activation. *)
Definition held (e : Entry.t) : Z * Job.t := (Entry.ID e, Entry.Job e).

Class EngineLaws `{Env, Engine} : Prop := {
  Entries_New : cron_Entries cron_New = [];
  AddJob_parses now spec job e : is_Some (cron_AddJob now spec job e) ↔ is_Some (Parse spec);
  Entries_AddJob now spec job e e' : cron_AddJob now spec job e = Some e' →
    ∃ id, ¬ (id ∈ Entry.ID <$> cron_Entries e) ∧
      (held <$> cron_Entries e') ≡ₚ (id, job) :: (held <$> cron_Entries e);
  Entries_Remove id e : (held <$> cron_Entries (cron_Remove id e)) ≡ₚ
    List.filter (λ x, negb (x.1 =? id)) (held <$> cron_Entries e);
  Entries_Start now e : (held <$> cron_Entries (cron_Start now e)) ≡ₚ (held <$> cron_Entries e);
  Entries_Stop e : (held <$> cron_Entries (cron_Stop e)) ≡ₚ (held <$> cron_Entries e);
}.

(** A schedule that parses also does after a time zone that is known. *)
Class TimezoneLaw `{Env} : Prop :=
  Parse_timezone tz spec : is_Some (Parse spec) → LoadLocation tz = true → tz ≠ "" →
    HasPrefix spec "@" = false → HasPrefix spec "TZ=" = false → HasPrefix spec "CRON_TZ=" = false →
    is_Some (Parse ("CRON_TZ=" +:+ tz +:+ " " +:+ spec)).

(** ** The scheduler *)

Module Scheduler.
Record t `{Engine} := mk { Cron : engine; started : bool }.
#[global] Arguments t {_}.
#[global] Arguments mk {_}.
End Scheduler.

Section scheduler.
Context `{Env, Engine}.

Definition NewScheduler : Scheduler.t := Scheduler.mk cron_New false.

Definition with_Cron (e : engine) (s : Scheduler.t) : Scheduler.t :=
  Scheduler.mk e (Scheduler.started s).

Definition GetEntryJob (jobName : string) (s : Scheduler.t) : option Entry.t :=
  List.find (λ e, String.eqb (Job.Name (Entry.Job e)) jobName) (cron_Entries (Scheduler.Cron s)).

Definition RemoveJob (jobName : string) (s : Scheduler.t) : Scheduler.t :=
  match GetEntryJob jobName s with
  | Some ej => with_Cron (cron_Remove (Entry.ID ej) (Scheduler.Cron s)) s
  | None => s
  end.

(** The schedule a job is added with. *)
Definition cron_spec (job : Job.t) : string :=
  let schedule := scheduleHash job in
  if negb (String.eqb (Job.Timezone job) "") && negb (HasPrefix schedule "@")
     && negb (HasPrefix schedule "TZ=") && negb (HasPrefix schedule "CRON_TZ=")
  then "CRON_TZ=" +:+ Job.Timezone job +:+ " " +:+ schedule
  else schedule.

Definition AddJob (now : time) (job : Job.t) (s : Scheduler.t) : Scheduler.t * option error :=
  let s :=
    match GetEntryJob (Job.Name job) s with
    | Some _ => RemoveJob (Job.Name job) s
    | None => s
    end in
  if Job.Disabled job || negb (String.eqb (Job.ParentJob job) "") then (s, None) else
  match cron_AddJob now (cron_spec job) job (Scheduler.Cron s) with
  | None => (s, Some ErrScheduleParse)
  | Some e => (with_Cron e s, None)
  end.

(** The entries are those at the start of the loop. *)
Definition ClearCron (s : Scheduler.t) : Scheduler.t :=
  fold_left (λ s e, RemoveJob (Job.Name (Entry.Job e)) s) (cron_Entries (Scheduler.Cron s)) s.

Fixpoint addJobs (now : time) (jobs : list Job.t) (s : Scheduler.t) : Scheduler.t * option error :=
  match jobs with
  | [] => (s, None)
  | job :: jobs =>
      match AddJob now job s with
      | (s, Some err) => (s, Some err)
      | (s, None) => addJobs now jobs s
      end
  end.

Inductive start_error : Type :=
  | ErrAlreadyStarted
  | ErrAddJob (err : error).

Definition Start (now : time) (jobs : list Job.t) (s : Scheduler.t)
    : Scheduler.t * option start_error :=
  if Scheduler.started s then (s, Some ErrAlreadyStarted) else
  match addJobs now jobs (ClearCron s) with
  | (s, Some err) => (s, Some (ErrAddJob err))
  | (s, None) => (Scheduler.mk (cron_Start now (Scheduler.Cron s)) true, None)
  end.

Definition Stop (s : Scheduler.t) : Scheduler.t :=
  Scheduler.mk (cron_Stop (Scheduler.Cron s)) false.

(** [Restart] ends the program when the start fails. *)
Definition Restart (now : time) (jobs : list Job.t) (s : Scheduler.t)
    : Scheduler.t * option start_error := Start now jobs (Stop s).

(** ** Specification *)

(** The jobs that run on their own schedule. *)
Definition on_schedule (job : Job.t) : bool :=
  negb (Job.Disabled job) && String.eqb (Job.ParentJob job) "".

(** The jobs of the entries. *)
Definition jobs_held (s : Scheduler.t) : list Job.t := Entry.Job <$> cron_Entries (Scheduler.Cron s).

(** At most one entry per job, and identifiers of their own. *)
Definition entries_ok (s : Scheduler.t) : Prop :=
  NoDup (Entry.ID <$> cron_Entries (Scheduler.Cron s)) ∧ NoDup (Job.Name <$> jobs_held s).

(** The jobs but the one with that name. *)
Definition without (name : string) (jobs : list Job.t) : list Job.t :=
  List.filter (λ job, negb (String.eqb (Job.Name job) name)) jobs.

(** The entries are those of these jobs. *)
Definition scheduled (jobs : list Job.t) (s : Scheduler.t) : Prop :=
  entries_ok s ∧ jobs_held s ≡ₚ List.filter on_schedule jobs.

(** ** Lemmas *)

Context `{!EngineLaws}.

Lemma jobs_held_held s : jobs_held s = snd <$> (held <$> cron_Entries (Scheduler.Cron s)).
Proof. unfold jobs_held. by rewrite <- list_fmap_compose. Qed.
Lemma ids_held s : Entry.ID <$> cron_Entries (Scheduler.Cron s)
  = fst <$> (held <$> cron_Entries (Scheduler.Cron s)).
Proof. by rewrite <- list_fmap_compose. Qed.

Lemma entries_ok_held s s' :
  held <$> cron_Entries (Scheduler.Cron s') ≡ₚ held <$> cron_Entries (Scheduler.Cron s) →
  (entries_ok s → entries_ok s') ∧ jobs_held s' ≡ₚ jobs_held s.
Proof.
  intros Hp. unfold entries_ok. rewrite !ids_held, !jobs_held_held.
  assert (NoDup (fst <$> (held <$> cron_Entries (Scheduler.Cron s'))) ↔
    NoDup (fst <$> (held <$> cron_Entries (Scheduler.Cron s)))) as -> by (by rewrite Hp).
  assert (NoDup (Job.Name <$> (snd <$> (held <$> cron_Entries (Scheduler.Cron s')))) ↔
    NoDup (Job.Name <$> (snd <$> (held <$> cron_Entries (Scheduler.Cron s))))) as -> by (by rewrite Hp).
  by rewrite Hp.
Qed.

(** With names of their own, removing the entry with the id of a job removes
    that job. *)
Lemma remove_by_id (l : list (Z * Job.t)) id job :
  NoDup (fst <$> l) → NoDup (Job.Name <$> (snd <$> l)) → (id, job) ∈ l →
  snd <$> List.filter (λ x, negb (x.1 =? id)) l = without (Job.Name job) (snd <$> l).
Proof.
  intros Hi Hn Hin. unfold without.
  assert (∀ x, x ∈ l → (x.1 =? id) = String.eqb (Job.Name x.2) (Job.Name job)) as Heq.
  { intros x Hx. apply list_elem_of_lookup in Hx as [i Hx], Hin as [k Hk].
    destruct (Z.eqb_spec x.1 id) as [E|E], (String.eqb_spec (Job.Name x.2) (Job.Name job)) as [F|F];
      try done; exfalso.
    - apply F. assert (i = k) as ->.
      { apply (NoDup_lookup _ _ _ id Hi); rewrite list_lookup_fmap; [by rewrite Hx; cbn; f_equal|by rewrite Hk]. }
      rewrite Hk in Hx. by injection Hx as <-.
    - apply E. assert (i = k) as ->.
      { apply (NoDup_lookup _ _ _ (Job.Name job) Hn); rewrite !list_lookup_fmap;
          [by rewrite Hx; cbn; f_equal|by rewrite Hk]. }
      by simplify_eq. }
  clear Hi Hn Hin. induction l as [|x l IH]; [done|]. cbn.
  rewrite (Heq x) by by left. destruct (String.eqb _ _); cbn; rewrite IH; set_solver.
Qed.

Lemma NoDup_filter_fmap {A B} (f : A → B) (P : A → bool) l :
  NoDup (f <$> l) → NoDup (f <$> List.filter P l).
Proof.
  induction l as [|x l IH]; cbn; [done|]. intros [Hx Hl]%NoDup_cons.
  destruct (P x); cbn; [|by apply IH]. apply NoDup_cons. split; [|by apply IH].
  intros (y & Hy & Hin)%list_elem_of_fmap. apply Hx. rewrite Hy.
  apply list_elem_of_fmap_2. apply list_elem_of_In, List.filter_In in Hin as [? _].
  by apply list_elem_of_In.
Qed.

Lemma without_absent name jobs : name ∉ Job.Name <$> jobs → without name jobs = jobs.
Proof.
  unfold without. induction jobs as [|job jobs IH]; cbn; [done|].
  intros [Hne Hn]%not_elem_of_cons. destruct (String.eqb_spec (Job.Name job) name); [done|].
  cbn. by rewrite IH.
Qed.

Lemma RemoveJob_spec name s : entries_ok s →
  entries_ok (RemoveJob name s) ∧ jobs_held (RemoveJob name s) ≡ₚ without name (jobs_held s) ∧
  Scheduler.started (RemoveJob name s) = Scheduler.started s.
Proof.
  intros [Hi Hn]. unfold RemoveJob. destruct (GetEntryJob name s) as [ej|] eqn:Hg.
  - apply List.find_some in Hg as [Hin Hname]. apply String.eqb_eq in Hname as <-.
    pose proof (Entries_Remove (Entry.ID ej) (Scheduler.Cron s)) as Hp.
    assert (held ej ∈ held <$> cron_Entries (Scheduler.Cron s)) as Hheld.
    { apply list_elem_of_fmap_2. by apply list_elem_of_In. }
    rewrite ids_held in Hi. rewrite jobs_held_held in Hn.
    pose proof (remove_by_id _ _ _ Hi Hn Hheld) as Hrem. cbn [held] in Hrem.
    assert (jobs_held (with_Cron (cron_Remove (Entry.ID ej) (Scheduler.Cron s)) s)
      ≡ₚ without (Job.Name (Entry.Job ej)) (jobs_held s)) as Hj.
    { rewrite !jobs_held_held. cbn [Scheduler.Cron with_Cron]. by rewrite Hp, Hrem. }
    split; [|by split]. split.
    + rewrite ids_held. cbn [Scheduler.Cron with_Cron]. rewrite Hp. by apply NoDup_filter_fmap.
    + rewrite Hj. apply NoDup_filter_fmap. by rewrite jobs_held_held.
  - split; [done|]. split; [|done]. rewrite without_absent; [done|].
    intros (job & -> & Hin)%list_elem_of_fmap. apply list_elem_of_fmap in Hin as (e & -> & He).
    apply list_elem_of_In in He. pose proof (List.find_none _ _ Hg e He) as Hne.
    cbn in Hne. by rewrite String.eqb_refl in Hne.
Qed.

Lemma AddJob_spec now job s : entries_ok s →
  let (s', err) := AddJob now job s in
  entries_ok s' ∧ Scheduler.started s' = Scheduler.started s ∧
  match err with
  | None => jobs_held s' ≡ₚ
      (if on_schedule job then [job] else []) ++ without (Job.Name job) (jobs_held s)
  | Some _ => on_schedule job = true ∧ ¬ is_Some (Parse (cron_spec job)) ∧
      jobs_held s' ≡ₚ without (Job.Name job) (jobs_held s)
  end.
Proof.
  intros Hok. unfold AddJob. set (s1 := match GetEntryJob _ _ with Some _ => _ | None => _ end).
  assert (entries_ok s1 ∧ jobs_held s1 ≡ₚ without (Job.Name job) (jobs_held s) ∧
    Scheduler.started s1 = Scheduler.started s) as (Hok1 & Hj1 & Hs1).
  { pose proof (RemoveJob_spec (Job.Name job) s Hok) as Hr. subst s1.
    unfold RemoveJob in *. by destruct (GetEntryJob (Job.Name job) s). }
  clearbody s1. unfold on_schedule.
  destruct (Job.Disabled job); cbn [orb negb andb]; [by split_and!|].
  destruct (String.eqb_spec (Job.ParentJob job) ""); cbn [negb]; [|by split_and!].
  destruct (cron_AddJob now (cron_spec job) job (Scheduler.Cron s1)) as [e'|] eqn:Hadd.
  - apply Entries_AddJob in Hadd as (id & Hid & Hp).
    assert (jobs_held (with_Cron e' s1) ≡ₚ job :: without (Job.Name job) (jobs_held s)) as Hj.
    { rewrite jobs_held_held. cbn [Scheduler.Cron with_Cron]. rewrite Hp. cbn.
      by rewrite <- jobs_held_held, Hj1. }
    split; [split|by split].
    + rewrite ids_held. cbn [Scheduler.Cron with_Cron]. rewrite Hp. cbn.
      apply NoDup_cons. rewrite <- ids_held. split; [done|apply Hok1].
    + rewrite Hj. cbn. apply NoDup_cons. split; [|apply NoDup_filter_fmap, Hok].
      intros (j & Hj' & Hin)%list_elem_of_fmap.
      apply list_elem_of_In, List.filter_In in Hin as [_ Hne].
      by rewrite <- Hj', String.eqb_refl in Hne.
  - split; [done|]. split; [done|]. split; [done|]. split; [|done].
    rewrite <- (AddJob_parses now (cron_spec job) job (Scheduler.Cron s1)), Hadd. by intros [? ?].
Qed.

Lemma without_without names jobs :
  fold_left (λ jobs name, without name jobs) names jobs =
  List.filter (λ job, bool_decide (Job.Name job ∉ names)) jobs.
Proof.
  revert jobs. induction names as [|name names IH]; intros jobs; cbn.
  - induction jobs as [|j jobs IHj]; [done|]. cbn.
    rewrite bool_decide_eq_true_2 by (by apply not_elem_of_nil). by f_equal.
  - rewrite IH. unfold without. induction jobs as [|j jobs IHj]; [done|]. cbn.
    destruct (String.eqb_spec (Job.Name j) name) as [E|E]; cbn [negb].
    + rewrite bool_decide_eq_false_2 by (intros Hn; apply Hn; rewrite E; by left). exact IHj.
    + cbn. rewrite IHj. f_equal.
      assert (bool_decide (Job.Name j ∉ names) = bool_decide (Job.Name j ∉ name :: names)) as ->; [|done].
      apply bool_decide_ext. rewrite not_elem_of_cons. tauto.
Qed.

Lemma ClearCron_spec s : entries_ok s →
  entries_ok (ClearCron s) ∧ jobs_held (ClearCron s) = [] ∧
  Scheduler.started (ClearCron s) = Scheduler.started s.
Proof.
  intros Hok. unfold ClearCron.
  assert (∀ es s0, entries_ok s0 →
    let s1 := fold_left (λ s e, RemoveJob (Job.Name (Entry.Job e)) s) es s0 in
    entries_ok s1 ∧ Scheduler.started s1 = Scheduler.started s0 ∧
    (∀ j, j ∈ jobs_held s1 → j ∈ jobs_held s0 ∧ Job.Name j ∉ Job.Name <$> (Entry.Job <$> es))) as Hf.
  { intros es. induction es as [|x es IH]; intros s0 H0'; cbn zeta.
    - split_and!; [done..|]. intros j Hj. split; [done|]. by apply not_elem_of_nil.
    - cbn [fold_left]. destruct (RemoveJob_spec (Job.Name (Entry.Job x)) s0 H0') as (H1' & H2' & H3').
      destruct (IH _ H1') as (H4 & H5 & H6). split; [done|]. split; [by rewrite H5|].
      intros j [Hj Hn]%H6. rewrite H2' in Hj. apply list_elem_of_In, List.filter_In in Hj as [Hj Hne].
      split; [by apply list_elem_of_In|]. cbn. apply not_elem_of_cons. split; [|done].
      by apply String.eqb_neq, negb_true_iff. }
  destruct (Hf (cron_Entries (Scheduler.Cron s)) s Hok) as (H1' & H2' & H3').
  split; [done|]. split; [|done].
  destruct (jobs_held (fold_left _ _ _)) as [|j l]; [done|].
  destruct (H3' j) as [Hin Hn]; [by left|]. destruct Hn. by apply list_elem_of_fmap_2.
Qed.

Context `{!TimezoneLaw}.

(** A valid job that is scheduled has a schedule the engine takes. *)
Lemma cron_spec_parses job : Validate job = None → on_schedule job = true →
  is_Some (Parse (cron_spec job)).
Proof.
  intros Hv Ho. apply andb_prop in Ho as [_ Hp%String.eqb_eq].
  unfold cron_spec. destruct (Validate_schedule job Hv) as [Hs Htz]; [by right|].
  destruct (String.eqb_spec (Job.Timezone job) ""); [done|]. cbn [negb andb].
  destruct (HasPrefix (scheduleHash job) "@") eqn:E1; [done|].
  destruct (HasPrefix (scheduleHash job) "TZ=") eqn:E2; [done|].
  destruct (HasPrefix (scheduleHash job) "CRON_TZ=") eqn:E3; [done|].
  by apply Parse_timezone.
Qed.

Lemma without_filter name P jobs : without name (List.filter P jobs) = List.filter P (without name jobs).
Proof.
  unfold without. induction jobs as [|j jobs IH]; [done|]. cbn.
  destruct (P j) eqn:HP, (String.eqb (Job.Name j) name) eqn:Hn; cbn; rewrite ?HP, ?Hn; cbn; by rewrite IH.
Qed.

Lemma without_Permutation name jobs1 jobs2 : jobs1 ≡ₚ jobs2 → without name jobs1 ≡ₚ without name jobs2.
Proof.
  unfold without. induction 1; cbn; [done|by destruct (negb _); [constructor|]| |by etransitivity].
  destruct (negb _), (negb _); done || constructor.
Qed.

Lemma AddJob_scheduled now job jobs s : Validate job = None → scheduled jobs s →
  ∃ s', AddJob now job s = (s', None) ∧ Scheduler.started s' = Scheduler.started s ∧
    scheduled (job :: without (Job.Name job) jobs) s'.
Proof.
  intros Hv [Hok Hj]. pose proof (AddJob_spec now job s Hok) as Ha.
  destruct (AddJob now job s) as [s' [err|]]; destruct Ha as (Hok' & Hs' & Ha).
  { destruct Ha as (Ho & Hn & _). by destruct Hn; apply cron_spec_parses. }
  exists s'. split; [done|]. split; [done|]. split; [done|].
  rewrite Ha, (without_Permutation _ _ _ Hj), without_filter. cbn. by destruct (on_schedule job).
Qed.

Lemma RemoveJob_scheduled name jobs s : scheduled jobs s → scheduled (without name jobs) (RemoveJob name s).
Proof.
  intros [Hok Hj]. destruct (RemoveJob_spec name s Hok) as (Hok' & Hj' & _). split; [done|].
  by rewrite Hj', (without_Permutation _ _ _ Hj), without_filter.
Qed.

Lemma addJobs_spec now jobs s :
  entries_ok s → Forall (λ job, Validate job = None) jobs → NoDup (Job.Name <$> jobs) →
  (∀ job, job ∈ jobs → Job.Name job ∉ Job.Name <$> jobs_held s) →
  ∃ s', addJobs now jobs s = (s', None) ∧ Scheduler.started s' = Scheduler.started s ∧
    entries_ok s' ∧ jobs_held s' ≡ₚ List.filter on_schedule jobs ++ jobs_held s.
Proof.
  revert s. induction jobs as [|job jobs IH]; intros s Hok Hv Hn Hd; cbn [addJobs].
  { by exists s. }
  apply Forall_cons in Hv as [Hvj Hv]. cbn in Hn. apply NoDup_cons in Hn as [Hnj Hn].
  pose proof (AddJob_spec now job s Hok) as Ha.
  destruct (AddJob now job s) as [s1 [err|]]; destruct Ha as (Hok1 & Hs1 & Ha).
  { destruct Ha as (Ho & Hp & _). by destruct Hp; apply cron_spec_parses. }
  rewrite without_absent in Ha by (apply Hd; by left).
  destruct (IH s1 Hok1 Hv Hn) as (s' & -> & Hs' & Hok' & Hj').
  { intros j Hj. rewrite Ha, fmap_app, elem_of_app. intros [Hin|Hin].
    - destruct (on_schedule job); cbn in Hin; [|by apply elem_of_nil in Hin].
      apply list_elem_of_singleton in Hin. apply Hnj. rewrite <- Hin. by apply list_elem_of_fmap_2.
    - eapply Hd; [by right|done]. }
  exists s'. split; [done|]. split; [by rewrite Hs'|]. split; [done|].
  rewrite Hj', Ha. cbn. destruct (on_schedule job); cbn; [|done]. by rewrite Permutation_middle.
Qed.

Lemma Start_scheduled now jobs s :
  entries_ok s → Scheduler.started s = false →
  Forall (λ job, Validate job = None) jobs → NoDup (Job.Name <$> jobs) →
  ∃ s', Start now jobs s = (s', None) ∧ Scheduler.started s' = true ∧ scheduled jobs s'.
Proof.
  intros Hok Hs Hv Hn. unfold Start. rewrite Hs.
  destruct (ClearCron_spec s Hok) as (Hok1 & Hj1 & _).
  destruct (addJobs_spec now jobs (ClearCron s) Hok1 Hv Hn) as (s2 & -> & _ & Hok2 & Hj2).
  { intros job _. rewrite Hj1. apply not_elem_of_nil. }
  eexists. split; [done|]. split; [done|].
  destruct (entries_ok_held s2 (Scheduler.mk (cron_Start now (Scheduler.Cron s2)) true)) as [H1' H2'].
  { cbn. apply Entries_Start. }
  split; [by apply H1'|]. by rewrite H2', Hj2, Hj1, app_nil_r.
Qed.

Lemma Stop_entries s : entries_ok s → entries_ok (Stop s).
Proof. apply (entries_ok_held s (Stop s)), Entries_Stop. Qed.

(** C12. The scheduler runs the jobs it was told: started with valid jobs of
    different names it holds one entry for each job that is enabled and has no
    parent, and no other, whatever it held before it was stopped; setting a valid
    job replaces the entry of that name, adds one, or removes it, and removing a
    job removes it; none of these fails. *)
Theorem scheduler_holds now jobs s :
  Forall (λ job, Validate job = None) jobs → NoDup (Job.Name <$> jobs) →
  (entries_ok s →
     ∃ s', Restart now jobs s = (s', None) ∧ Scheduler.started s' = true ∧ scheduled jobs s') ∧
  (scheduled jobs s → ∀ job, Validate job = None →
     ∃ s', AddJob now job s = (s', None) ∧ Scheduler.started s' = Scheduler.started s ∧
       scheduled (job :: without (Job.Name job) jobs) s') ∧
  (scheduled jobs s → ∀ name, scheduled (without name jobs) (RemoveJob name s)).
Proof.
  intros Hv Hn. split; [|split].
  - intros Hok. apply Start_scheduled; [by apply Stop_entries|done..].
  - intros Hs job Hj. by apply AddJob_scheduled.
  - intros Hs name. by apply RemoveJob_scheduled.
Qed.
End scheduler.

(** ** An engine *)

Section list_engine.
Context `{Env}.

(** Whether it runs, and the entries with their schedules. *)
Definition list_engine_state : Type := bool * list (Entry.t * Schedule).

Definition list_entries (e : list_engine_state) : list Entry.t := fst <$> e.2.
Definition fresh_id (e : list_engine_state) : Z := 1 + max_by Entry.ID 0 (list_entries e).

Definition list_add (now : time) (spec : string) (job : Job.t) (e : list_engine_state)
    : option list_engine_state :=
  let? schedule := Parse spec in
  let (next, schedule) := if e.1 then ScheduleNext schedule now else (zero_time, schedule) in
  Some (e.1, e.2 ++ [(Entry.mk (fresh_id e) job next, schedule)]).

Definition list_start (now : time) (e : list_engine_state) : list_engine_state :=
  (true, (λ es, let (next, schedule) := ScheduleNext es.2 now in
                (Entry.mk (Entry.ID es.1) (Entry.Job es.1) next, schedule)) <$> e.2).

#[global] Instance list_engine : Engine := {|
  engine := list_engine_state;
  cron_New := (false, []);
  cron_Entries := list_entries;
  cron_AddJob := list_add;
  cron_Remove id e := (e.1, List.filter (λ es, negb (Entry.ID es.1 =? id)) e.2);
  cron_Start := list_start;
  cron_Stop e := (false, e.2);
|}.

#[global] Instance list_engine_laws : EngineLaws.
Proof.
  split; cbn; [done|..].
  - intros now spec job e. unfold list_add. destruct (Parse spec) as [sc|].
    + destruct (if e.1 then _ else _). split; eauto.
    + split; intros [? ?]; done.
  - intros now spec job e e'. unfold list_add. destruct (Parse spec) as [sc|]; [|done].
    destruct (if e.1 then _ else _) as [next sc']. intros [= <-]. exists (fresh_id e). split.
    + intros (x & Hx & Hin)%list_elem_of_fmap. unfold fresh_id in Hx.
      pose proof (max_by_ub Entry.ID 0 _ _ Hin). lia.
    + unfold list_entries. cbn [snd]. rewrite !fmap_app. by rewrite Permutation_app_comm.
  - intros id e. unfold list_entries. cbn [snd]. induction e.2 as [|[x sc] l IH]; [done|]. cbn.
    destruct (Entry.ID x =? id); cbn; by rewrite IH.
  - intros now e. unfold list_entries, list_start. cbn [snd]. rewrite <- !list_fmap_compose.
    apply reflexive_eq, list_fmap_ext. intros i [x sc] _. cbn. by destruct (ScheduleNext sc now).
  - done.
Qed.
End list_engine.

Section demo.
#[local] Existing Instance demo_env.

(** Every schedule of the demonstration parses. *)
#[export] Instance demo_timezone : TimezoneLaw.
Proof. intros tz spec _ _ _ _ _ _. by exists ("CRON_TZ=" +:+ tz +:+ " " +:+ spec). Qed.

Definition demo_job (name schedule parent : string) (disabled : bool) : Job.t :=
  Job.mk name name "" "Europe/Madrid" schedule "" "" 0 0 None None disabled ∅ ∅ 0 [] parent ∅
    "allow" "shell" ∅ "" 0 false None None.
Definition demo_jobs : list Job.t :=
  [demo_job "a" "0 * * * * *" "" false; demo_job "b" "" "a" false; demo_job "c" "@daily" "" true].

(** Of the three jobs, one runs on a schedule; enabled, so does the third. *)
Lemma scheduler_holds_witness :
  ∃ s1 s2 : Scheduler.t,
    Restart 0 demo_jobs NewScheduler = (s1, None) ∧
    jobs_held s1 ≡ₚ [demo_job "a" "0 * * * * *" "" false] ∧
    AddJob 0 (demo_job "c" "@daily" "" false) s1 = (s2, None) ∧
    jobs_held s2 ≡ₚ [demo_job "c" "@daily" "" false; demo_job "a" "0 * * * * *" "" false] ∧
    jobs_held (RemoveJob "c" s2) ≡ₚ [demo_job "a" "0 * * * * *" "" false].
Proof.
  assert (Forall (λ job, Validate job = None) demo_jobs) as Hv by (repeat constructor).
  assert (NoDup (Job.Name <$> demo_jobs)) as Hn by (apply (bool_decide_unpack _); vm_compute; exact I).
  destruct (proj1 (scheduler_holds 0 demo_jobs NewScheduler Hv Hn)) as (s1 & E1 & _ & H1).
  { split; apply NoDup_nil_2. }
  destruct (proj1 (proj2 (scheduler_holds 0 demo_jobs s1 Hv Hn)) H1 (demo_job "c" "@daily" "" false) eq_refl)
    as (s2 & E2 & _ & H2).
  exists s1, s2. split; [exact E1|]. split; [exact (proj2 H1)|]. split; [exact E2|].
  split; [exact (proj2 H2)|].
  pose proof (proj2 (proj2 (scheduler_holds 0 (demo_job "c" "@daily" "" false
    :: without "c" demo_jobs) s2 ltac:(repeat constructor) ltac:(apply (bool_decide_unpack _); vm_compute; exact I)))
    H2 "c") as H3. exact (proj2 H3).
Defined.
End demo.
