(* ===== verification/Server.v ===== *)
(** * Server: the leader of the cluster

    The handlers that change the state of the leader: [applySetJob] and [Run] of
    src/dkron/agent.go and run.go, the gRPC calls of src/dkron/grpc.go, the
    handlers of src/dkron/api.go, and the start and stop of src/dkron/leader.go.
    A handler runs from its start to its end; calls to the replicated log and to
    other servers are delivered.  The theorems: the scheduler follows the store,
    and a backup that can be restored is restored. *)

From S2P Require Import Prelude GoCore Jobs Store Fsm Running Nodes Scheduler Restore.

Module Server.
(** The store and the scheduler of the leader, and whether new jobs are refused. *)
Record t `{Engine} := mk { db : DB.t; sched : Scheduler.t; pauseNewJobs : bool }.
#[global] Arguments t {_}.
#[global] Arguments mk {_}.
End Server.

Section server.
Context `{Env, Engine}.
Variable sortByStart : list Exec.t → list Exec.t.

Definition with_db (db : DB.t) (s : Server.t) : Server.t :=
  Server.mk db (Server.sched s) (Server.pauseNewJobs s).
Definition with_sched (sched : Scheduler.t) (s : Server.t) : Server.t :=
  Server.mk (Server.db s) sched (Server.pauseNewJobs s).

(** ** The agent *)

(** [None] is a recursion of the store that is too deep. *)
Definition applySetJob (now : time) (job : PbJob.t) (s : Server.t)
    : option (Server.t * option error) :=
  let? (db, res) := Apply sortByStart now (SetJobType job) (Server.db s) in
  Some (with_db db s,
    match res with
    | RespErr ErrParentJobNotFound => Some ErrParentJobNotFound
    | RespErr ErrSameParent => Some ErrParentJobNotFound
    | _ => None
    end).

(** The jobs of the store in the order of their names. *)
Definition GetJobs (db : DB.t) : list Job.t :=
  (λ kv, NewJobFromProto kv.2) <$> ascend (DB.jobs db).

(** [active] is [None] when the nodes cannot be asked. *)
Definition establishLeadership (now : time) (active : option (list PbExecution.t)) (s : Server.t)
    : Server.t * option start_error :=
  let jobs := GetJobs (Server.db s) in
  let s :=
    match active with
    | Some exs =>
        with_db (reconcileRunningExecutionOrphans now jobs (activeExecutionKeys exs) (Server.db s)) s
    | None => s
    end in
  let (sched, err) := Start now jobs (Server.sched s) in
  (with_sched sched s, err).

Definition revokeLeadership (s : Server.t) : Server.t := with_sched (Stop (Server.sched s)) s.

(** ** gRPC *)

Definition grpc_SetJob (now : time) (job : PbJob.t) (s : Server.t)
    : option (Server.t * option error) :=
  let? (s, err) := applySetJob now job s in
  match err with
  | Some err => Some (s, Some err)
  | None =>
      let (sched, err) := AddJob now (NewJobFromProto job) (Server.sched s) in
      Some (with_sched sched s, err)
  end.

(** [None] in the result is a response of the log that is no job. *)
Definition grpc_DeleteJob (now : time) (jobName : string) (s : Server.t)
    : option (Server.t * option Job.t) :=
  let? (db, res) := Apply sortByStart now (DeleteJobType jobName) (Server.db s) in
  let s := with_db db s in
  match res with
  | RespJob job => Some (with_sched (RemoveJob (Job.Name job) (Server.sched s)) s, Some job)
  | _ => Some (s, None)
  end.

Definition grpc_DeleteExecutions (now : time) (jobName : string) (s : Server.t)
    : option (Server.t * option Job.t) :=
  let? (db, res) := Apply sortByStart now (DeleteExecutionsType jobName) (Server.db s) in
  Some (with_db db s, match res with RespJob job => Some job | _ => None end).

(** ** The API; the result is the status of the answer *)

Definition jobCreateOrUpdateHandler (now : time) (job : Job.t) (s : Server.t)
    : option (Server.t * Z) :=
  if Server.pauseNewJobs s then Some (s, 503) else
  match Validate job with
  | Some _ => Some (s, 400)
  | None =>
      let? (s, err) := grpc_SetJob now (ToProto job) s in
      Some (s, match err with
               | None => 201
               | Some ErrParentJobNotFound => 404
               | Some _ => 500
               end)
  end.

Definition jobDeleteHandler (now : time) (jobName : string) (s : Server.t) : option (Server.t * Z) :=
  let? (s, job) := grpc_DeleteJob now jobName s in
  Some (s, match job with Some _ => 200 | None => 404 end).

Definition with_Disabled (disabled : bool) (j : Job.t) : Job.t :=
  Job.mk (Job.ID j) (Job.Name j) (Job.DisplayName j) (Job.Timezone j) (Job.Schedule j)
    (Job.Owner j) (Job.OwnerEmail j) (Job.SuccessCount j) (Job.ErrorCount j)
    (Job.LastSuccess j) (Job.LastError j) disabled (Job.Tags j)
    (Job.Metadata j) (Job.Retries j) (Job.DependentJobs j) (Job.ParentJob j) (Job.Processors j)
    (Job.Concurrency j) (Job.Executor j) (Job.ExecutorConfig j) (Job.Status j) (Job.Next j)
    (Job.Ephemeral j) (Job.StartsAt j) (Job.ExpiresAt j).

Definition jobToggleHandler (now : time) (jobName : string) (s : Server.t) : option (Server.t * Z) :=
  match GetJob jobName (Server.db s) with
  | None => Some (s, 404)
  | Some job =>
      let? (s, err) := grpc_SetJob now (ToProto (with_Disabled (negb (Job.Disabled job)) job)) s in
      Some (s, match err with Some _ => 422 | None => 200 end)
  end.

Definition jobAutoDisableCheckHandler (now : time) (jobName threshold : string) (s : Server.t)
    : option (Server.t * Z) :=
  let (threshold, ok) := Atoi threshold in
  if negb ok || (threshold <? 1) then Some (s, 400) else
  match GetJob jobName (Server.db s) with
  | None => Some (s, 404)
  | Some job =>
      if (threshold <=? Job.ErrorCount job) && negb (Job.Disabled job) then
        let? (s, err) := grpc_SetJob now (ToProto (with_Disabled true job)) s in
        Some (s, match err with Some _ => 500 | None => 200 end)
      else Some (s, 200)
  end.

(** [GRPCClient.SetJob], as [recursiveSetJob] calls it; each call reads the clock. *)
Definition client_SetJob (clock : Job.t → time) (job : Job.t) (s : Server.t) : Server.t * bool :=
  match grpc_SetJob (clock job) (ToProto job) s with
  | Some (s, None) => (s, true)
  | Some (s, Some _) => (s, false)
  | None => (s, false)
  end.

(** The status, and the lines of the body. *)
Definition restoreHandler (clock : Job.t → time) (jobs : list Job.t) (s : Server.t)
    : option (Server.t * (Z * list string)) :=
  match generateJobTree jobs with
  | None => None
  | Some (inl _) => Some (s, (400, []))
  | Some (inr forest) =>
      let (s, result) := recursiveSetJob (client_SetJob clock) forest s in
      Some (s, (200, result))
  end.

Definition pauseHandler (s : Server.t) : Server.t := Server.mk (Server.db s) (Server.sched s) true.
Definition unpauseHandler (s : Server.t) : Server.t := Server.mk (Server.db s) (Server.sched s) false.

(** ** Running a job *)

Section run.
(** The members of the cluster, the region of the agent and the choice of nodes. *)
Variable members : list Node.t.
Variable region : string.
Variable selectFunc : nat → list Node.t → nat.

Inductive run_error : Type :=
  | RunJobNotFound
  | RunNotScheduled
  | RunStoring (err : error)
  | RunNodeGone
  | RunNoNodes.

(** The nodes an execution is sent to: chosen for the first attempt, and the
    node of the execution again for a retry. *)
Definition run_targets (job : Job.t) (ex : Exec.t) : run_error + list Node.t :=
  let targetNodes :=
    if Exec.Attempt ex <=? 1
    then inr (getTargetNodes selectFunc region members (map_to_list (Job.Tags job)))
    else
      match List.find (λ m, String.eqb (Exec.NodeName ex) (Node.Name m)) members with
      | Some m => if bool_decide (Node.Status m = StatusAlive) then inr [m] else inl RunNodeGone
      | None => inr []
      end in
  match targetNodes with
  | inl err => inl err
  | inr [] => inl RunNoNodes
  | inr nodes => inr nodes
  end.

(** [Agent.Run] up to the calls of [AgentRun]: the job and the nodes that are
    called with the execution. *)
Definition Run (now : time) (jobName : string) (ex : Exec.t) (s : Server.t)
    : option (Server.t * (run_error + Job.t * list Node.t)) :=
  match GetJob jobName (Server.db s) with
  | None => Some (s, inl RunJobNotFound)
  | Some job =>
      if String.eqb (Job.ParentJob job) "" then
        match GetEntryJob jobName (Server.sched s) with
        | None => Some (s, inl RunNotScheduled)
        | Some ej =>
            let job := with_Next (Entry.Next ej) job in
            let? (s, err) := applySetJob now (ToProto job) s in
            match err with
            | Some err => Some (s, inl (RunStoring err))
            | None => Some (s, match run_targets job ex with
                               | inl err => inl err
                               | inr nodes => inr (job, nodes)
                               end)
            end
        end
      else Some (s, match run_targets job ex with
                    | inl err => inl err
                    | inr nodes => inr (job, nodes)
                    end)
  end.
End run.

(** ** Steps of the leader *)

(** What happens to a server: requests of the API, jobs set by gRPC (valid ones:
    [refused_job_is_scheduled]), runs of jobs, executions that nodes report, time
    that passes in the cron engine, leadership gained and lost, and, while its
    scheduler is stopped, commands of another leader. A step is a whole handler
    ([overlapping_sets_diverge]). *)
Inductive step : Server.t → Server.t → Prop :=
  | step_create now job s s' code :
      jobCreateOrUpdateHandler now job s = Some (s', code) → step s s'
  | step_set now pj s s' err :
      Validate (NewJobFromProto pj) = None → in_uint32 (PbJob.Retries pj) →
      grpc_SetJob now pj s = Some (s', err) → step s s'
  | step_delete now jobName s s' code :
      jobDeleteHandler now jobName s = Some (s', code) → step s s'
  | step_toggle now jobName s s' code :
      jobToggleHandler now jobName s = Some (s', code) → step s s'
  | step_auto_disable now jobName threshold s s' code :
      jobAutoDisableCheckHandler now jobName threshold s = Some (s', code) → step s s'
  | step_delete_executions now jobName s s' res :
      grpc_DeleteExecutions now jobName s = Some (s', res) → step s s'
  | step_restore clock jobs s s' res :
      restoreHandler clock jobs s = Some (s', res) → step s s'
  | step_pause s : step s (pauseHandler s)
  | step_unpause s : step s (unpauseHandler s)
  | step_run members region selectFunc now jobName ex s s' res :
      Run members region selectFunc now jobName ex s = Some (s', res) → step s s'
  | step_execution now execution done s db res :
      Apply sortByStart now
        (if done : bool then ExecutionDoneType execution else SetExecutionType execution)
        (Server.db s) = Some (db, res) →
      step s (with_db db s)
  | step_engine e s :
      (held <$> cron_Entries e) ≡ₚ (held <$> cron_Entries (Scheduler.Cron (Server.sched s))) →
      step s (with_sched (with_Cron e (Server.sched s)) s)
  | step_leader now active s s' err : establishLeadership now active s = (s', err) → step s s'
  | step_follower s : step s (revokeLeadership s)
  | step_replicated now c s db res :
      Scheduler.started (Server.sched s) = false →
      Apply sortByStart now c (Server.db s) = Some (db, res) → step s (with_db db s).

(** A server starts with a scheduler of its own and the store of the cluster. *)
Inductive served : Server.t → Prop :=
  | served_start db : reachable sortByStart db → served (Server.mk db NewScheduler false)
  | served_step s s' : served s → step s s' → served s'.

End server.

(** ** Specification *)

(** The configurations of the stored jobs. *)
Definition configs (db : DB.t) : gmap string Job.t := (config ∘ NewJobFromProto) <$> DB.jobs db.

Definition find_job (name : string) (jobs : list Job.t) : option Job.t :=
  List.find (λ j, String.eqb (Job.Name j) name) jobs.

(** The list has the stored jobs, apart from the same. *)
Definition tracks `{Env} (jobs : list Job.t) (db : DB.t) : Prop :=
  NoDup (Job.Name <$> jobs) ∧ Forall (λ j, Validate j = None) jobs ∧
  ∀ name, configs db !! name = config <$> find_job name jobs.

(** The scheduler holds the jobs of the store. *)
Definition follows `{Env, Engine} (s : Server.t) : Prop :=
  ∃ jobs, scheduled jobs (Server.sched s) ∧ tracks jobs (Server.db s).

(** ** Lemmas on configurations *)

Lemma config_apart p q : apart_from_deps p = apart_from_deps q →
  config (NewJobFromProto p) = config (NewJobFromProto q).
Proof. intros E. exact (f_equal config E). Qed.

Lemma config_with_Next next j : config (with_Next next j) = config j.
Proof. done. Qed.
Lemma config_keep_results ej j copy : config (keep_results ej j copy) = config j.
Proof. done. Qed.
Lemma config_on_schedule j : on_schedule (config j) = on_schedule j.
Proof. done. Qed.

Section lemmas.
Context `{Env, Engine, !EngineLaws, !TimezoneLaw}.
Variable sortByStart : list Exec.t → list Exec.t.

(** ** The log and the configurations *)

Lemma lookup_configs db name p : DB.jobs db !! name = Some p →
  configs db !! name = Some (config (NewJobFromProto p)).
Proof. intros Hp. unfold configs. by rewrite lookup_fmap, Hp. Qed.

Lemma configs_apart db db' name :
  apart_from_deps <$> DB.jobs db' !! name = apart_from_deps <$> DB.jobs db !! name →
  configs db' !! name = configs db !! name.
Proof.
  unfold configs. rewrite !lookup_fmap. intros E.
  destruct (DB.jobs db' !! name) as [p|], (DB.jobs db !! name) as [q|]; cbn in E; try done.
  cbn. f_equal. apply config_apart. exact (inj Some _ _ E).
Qed.

(** Every store that is reached answers, and is then reached. *)
Lemma Apply_reachable now c db :
  reachable sortByStart db →
  ∃ db' res, Apply sortByStart now c db = Some (db', res) ∧ reachable sortByStart db'.
Proof.
  intros Hr. pose proof (reachable_ok _ _ Hr) as [Hdb _].
  destruct (Apply_keyed sortByStart now c db) as [[db' res] E]; [apply Hdb|].
  exists db', res. split; [done|]. by eapply reachable_step.
Qed.

(** Setting a job that is stored like that. *)
Lemma Apply_SetJob_configs now pj db :
  reachable sortByStart db → in_uint32 (PbJob.Retries pj) →
  ∃ db' err, Apply sortByStart now (SetJobType pj) db =
      Some (db', match err with Some err => RespErr err | None => RespNil end) ∧
    reachable sortByStart db' ∧
    configs db' = (match err with
                   | Some _ => configs db
                   | None => <[PbJob.Name pj := config (NewJobFromProto pj)]> (configs db)
                   end) ∧
    match err with
    | Some err => db' = db ∧ (Validate (NewJobFromProto pj) = Some err ∨
        Validate (NewJobFromProto pj) = None ∧ PbJob.ParentJob pj ≠ "" ∧
          DB.jobs db !! PbJob.ParentJob pj = None ∧ err = ErrParentJobNotFound)
    | None => Validate (NewJobFromProto pj) = None
    end.
Proof.
  intros Hr Hu. destruct (Apply_reachable now (SetJobType pj) _ Hr) as (db' & res & E & Hr').
  pose proof (reachable_ok _ _ Hr) as [Hdb Hl]. cbn [Apply] in E |- *. unfold Fsm.applySetJob in E |- *.
  rewrite SetJob_depth in * by apply Hdb.
  destruct (SetJob_cases now (NewJobFromProto pj) db Hdb Hl)
    as [(err & Hs & Hv)|(Hv & ej & job' & db1 & db2 & Hup & Hs & _ & _ & _ & Hd)];
    rewrite Hs in *; injection E as <- <-.
  - exists db, (Some err). split; [done|]. split; [done|]. by split.
  - exists db2, None. split; [done|]. split; [done|]. split; [|done].
    unfold setJob_update in Hup. destruct (update_Next _ _ _) as [j|] eqn:Hn; [|done].
    injection Hup as <- <- <-. destruct Hd as (Ha & Hself & _).
    assert (config j = config (NewJobFromProto pj) ∧ Job.ID j = Job.Name j ∧ Job.Retries j = PbJob.Retries pj
      ∧ Job.Name j = PbJob.Name pj) as (Hc & Hi & Hret & Hname).
    { clear - Hn. unfold update_Next in Hn.
      assert (∀ next x, config (with_Next next x) = config x) as Hw by done.
      destruct (negb (String.eqb (Job.Name _) "")), (negb (String.eqb (Job.Schedule _) _));
        try destruct (GetNext _ _); try destruct (_ <? _); simplify_eq; done. }
    apply map_eq. intros n. destruct (decide (n = PbJob.Name pj)) as [->|Hne].
    + assert (DB.jobs db2 !! PbJob.Name pj = Some (ToProto j)) as Hstored.
      { etransitivity; [exact Hself|]. cbn. rewrite Hname. apply lookup_insert_eq. }
      rewrite lookup_insert_eq, (lookup_configs _ _ _ Hstored). f_equal.
      rewrite config_stored; [done|done|by rewrite Hret].
    + rewrite lookup_insert_ne by done. apply configs_apart. rewrite Ha. cbn.
      by rewrite Hname, lookup_insert_ne.
Qed.

Lemma configs_shape db db' : shape db' = shape db → configs db' = configs db.
Proof.
  intros Hs. assert (∀ db, configs db = fst <$> shape db) as E.
  { intros x. unfold configs, shape. by rewrite <- map_fmap_compose. }
  by rewrite !E, Hs.
Qed.

Lemma submseteq_without name l : Store.without name l ⊆+ l.
Proof.
  induction l as [|x l IH]; [done|]. cbn. destruct (negb _); [by apply submseteq_skip|by apply submseteq_cons].
Qed.

Lemma Apply_DeleteJob_configs now name db :
  reachable sortByStart db →
  ∃ db' res, Apply sortByStart now (DeleteJobType name) db = Some (db', res) ∧
    reachable sortByStart db' ∧
    match res with
    | RespJob job => Job.Name job = name ∧ (∀ n, deps_in db' n ⊆+ deps_in db n) ∧
        configs db' = delete name (configs db)
    | RespErr _ => db' = db
    | _ => False
    end.
Proof.
  intros Hr. destruct (Apply_reachable now (DeleteJobType name) db Hr) as (db' & res & E & Hr').
  exists db', res. split; [done|]. split; [done|].
  pose proof (reachable_ok _ _ Hr) as [Hdb Hl]. cbn [Apply] in E. unfold applyDeleteJob, depth in E.
  pose proof (DeleteJob_ok 1 now name db Hdb Hl) as Hd.
  destruct (DB.jobs db !! name) as [p|] eqn:Hp; [|rewrite Hd in E; by injection E as <- <-].
  case_decide; [|rewrite Hd in E; by injection E as <- <-].
  destruct Hd as (db2 & Hd & _ & _ & _ & (H1' & H2' & _) & Hdeps). rewrite Hd in E. injection E as <- <-.
  split; [exact (ok_keyed db Hdb _ _ Hp)|]. split.
  { intros n. destruct (decide (n = "")) as [->|Hn].
    - apply reachable_ok in Hr' as [Hdb' _]. by rewrite !deps_in_empty.
    - rewrite Hdeps by done. case_decide; [apply submseteq_without|done]. }
  apply map_eq. intros n.
  destruct (decide (n = name)) as [->|Hne].
  - rewrite lookup_delete_eq. unfold configs. rewrite lookup_fmap, H2'. cbn. by rewrite lookup_delete_eq.
  - rewrite lookup_delete_ne by done. apply configs_apart. rewrite H1'. cbn. by rewrite lookup_delete_ne.
Qed.

Lemma Apply_other_shape now c db db' res :
  reachable sortByStart db → Apply sortByStart now c db = Some (db', res) →
  match c with
  | SetJobType _ | DeleteJobType _ => True
  | _ => reachable sortByStart db' ∧ shape db' = shape db
  end.
Proof.
  intros Hr E. pose proof (reachable_step _ now c db db' res Hr E) as Hr'.
  pose proof (reachable_ok _ _ Hr) as [Hdb _]. destruct c as [|name|e|name|e]; cbn [Apply] in E; [done..| | |].
  all: split; [done|].
  - unfold applySetExecution in E. destruct (SetExecution_ok sortByStart (NewExecutionFromProto e) db Hdb).
    destruct (SetExecution _ _ _). by injection E as <- <-.
  - unfold applyDeleteExecutions in E. destruct (DeleteExecutions_ok name db Hdb) as [_ Hs].
    destruct (DeleteExecutions _ _) as [db2 err].
    assert (db' = db2) as -> by (by repeat case_match; simplify_eq). done.
  - unfold applyExecutionDone in E. destruct (SetExecutionDone_ok (NewExecutionFromProto e) db Hdb).
    destruct (SetExecutionDone _ _). by injection E as <- <-.
Qed.

Lemma Apply_other_configs now c db db' res :
  reachable sortByStart db → Apply sortByStart now c db = Some (db', res) →
  match c with
  | SetJobType _ | DeleteJobType _ => True
  | _ => reachable sortByStart db' ∧ configs db' = configs db
  end.
Proof.
  intros Hr E. pose proof (Apply_other_shape _ _ _ _ _ Hr E) as Ho.
  destruct c; try done; by destruct Ho as [? ?%configs_shape].
Qed.

(** ** The list of stored jobs *)

Lemma find_job_without n name jobs :
  find_job n (without name jobs) = if decide (n = name) then None else find_job n jobs.
Proof.
  unfold find_job, without. induction jobs as [|j jobs IH]; cbn; [by case_decide|].
  destruct (String.eqb_spec (Job.Name j) name) as [E|E]; cbn; rewrite IH.
  - case_decide as Hd; [done|]. destruct (String.eqb_spec (Job.Name j) n); [congruence|done].
  - destruct (String.eqb_spec (Job.Name j) n) as [F|F]; [|done]. by rewrite decide_False by congruence.
Qed.

Lemma tracks_same jobs db db' : configs db' = configs db → tracks jobs db → tracks jobs db'.
Proof. intros E (H1' & H2' & H3'). split; [done|]. split; [done|]. intros n. by rewrite E. Qed.

Lemma tracks_without name jobs db db' :
  configs db' = delete name (configs db) → tracks jobs db → tracks (without name jobs) db'.
Proof.
  intros E (H1' & H2' & H3'). split; [by apply NoDup_filter_fmap|]. split.
  - apply Forall_forall. intros j Hj. apply list_elem_of_In, List.filter_In in Hj as [Hj _].
    apply list_elem_of_In in Hj. by eapply (proj1 (Forall_forall _ _) H2').
  - intros n. rewrite E, find_job_without. case_decide as Hd; [subst; by rewrite lookup_delete_eq|].
    by rewrite lookup_delete_ne.
Qed.

Lemma tracks_set job jobs db db' :
  Validate job = None → configs db' = <[Job.Name job := config job]> (configs db) →
  tracks jobs db → tracks (job :: without (Job.Name job) jobs) db'.
Proof.
  intros Hv E Ht. pose proof (λ db', tracks_without (Job.Name job) jobs db db') as Hw.
  destruct Ht as (H1' & H2' & H3'). split; [|split].
  - cbn. apply NoDup_cons. split; [|by apply NoDup_filter_fmap].
    intros (j & Hj & Hin)%list_elem_of_fmap. apply list_elem_of_In, List.filter_In in Hin as [_ Hne].
    by rewrite <- Hj, String.eqb_refl in Hne.
  - constructor; [done|]. apply Forall_forall. intros j Hj.
    apply list_elem_of_In, List.filter_In in Hj as [Hj _].
    apply list_elem_of_In in Hj. by eapply (proj1 (Forall_forall _ _) H2').
  - intros n. rewrite E. cbn. destruct (String.eqb_spec (Job.Name job) n) as [->|Hne].
    + by rewrite lookup_insert_eq.
    + rewrite lookup_insert_ne by done. fold (find_job n (without (Job.Name job) jobs)).
      rewrite find_job_without, decide_False by done. apply H3'.
Qed.

Lemma find_job_NoDup name job jobs :
  NoDup (Job.Name <$> jobs) → job ∈ jobs → Job.Name job = name → find_job name jobs = Some job.
Proof.
  intros Hn Hin Hname. induction jobs as [|j jobs IH]; [by apply elem_of_nil in Hin|].
  cbn in *. apply NoDup_cons in Hn as [Hj Hn]. destruct (String.eqb_spec (Job.Name j) name) as [E|E].
  - apply elem_of_cons in Hin as [->|Hin]; [done|]. destruct Hj. rewrite E, <- Hname.
    by apply list_elem_of_fmap_2.
  - apply elem_of_cons in Hin as [->|Hin]; [done|]. by apply IH.
Qed.

Lemma elem_of_GetJobs db job : job ∈ GetJobs db ↔
  ∃ n p, DB.jobs db !! n = Some p ∧ job = NewJobFromProto p.
Proof.
  unfold GetJobs. rewrite list_elem_of_fmap. unfold ascend. split.
  - intros ([n p] & -> & Hin). rewrite merge_sort_Permutation, elem_of_map_to_list in Hin. eauto.
  - intros (n & p & Hp & ->). exists (n, p). split; [done|].
    by rewrite merge_sort_Permutation, elem_of_map_to_list.
Qed.

Lemma GetJobs_names db : db_ok db → NoDup (Job.Name <$> GetJobs db).
Proof.
  intros Hdb. unfold GetJobs, ascend. rewrite <- list_fmap_compose.
  assert (Job.Name ∘ (λ kv, NewJobFromProto kv.2) <$>
    merge_sort (λ a b, strings.String.le a.1 b.1) (map_to_list (DB.jobs db)) ≡ₚ
    (map_to_list (DB.jobs db)).*1) as ->; [|apply NoDup_fst_map_to_list].
  rewrite merge_sort_Permutation. apply reflexive_eq, list_fmap_ext. intros i [n p] Hi.
  apply list_elem_of_lookup_2, elem_of_map_to_list in Hi. exact (ok_keyed db Hdb _ _ Hi).
Qed.

Lemma tracks_GetJobs db : reachable sortByStart db → tracks (GetJobs db) db.
Proof.
  intros Hr. pose proof (reachable_ok _ _ Hr) as [Hdb _]. split; [by apply GetJobs_names|]. split.
  - apply Forall_forall. intros j (n & p & Hp & ->)%elem_of_GetJobs. by eapply ok_valid.
  - intros n. destruct (DB.jobs db !! n) as [p|] eqn:Hp.
    + rewrite (lookup_configs _ _ _ Hp). rewrite (find_job_NoDup n (NewJobFromProto p)); [done|..].
      * by apply GetJobs_names.
      * apply elem_of_GetJobs. eauto.
      * exact (ok_keyed db Hdb _ _ Hp).
    + unfold configs. rewrite lookup_fmap, Hp. cbn.
      destruct (find_job n (GetJobs db)) as [j|] eqn:Hf; [|done].
      apply List.find_some in Hf as [Hin Hname%String.eqb_eq]. apply list_elem_of_In in Hin.
      apply elem_of_GetJobs in Hin as (m & p & Hm & ->).
      pose proof (ok_keyed db Hdb _ _ Hm). cbn in Hname. congruence.
Qed.

(** ** The handlers *)

(** A reached store, sound entries, and, on a leader, the jobs of the store. *)
Definition server_ok (s : Server.t) : Prop :=
  reachable sortByStart (Server.db s) ∧ entries_ok (Server.sched s) ∧
  (Scheduler.started (Server.sched s) = true → follows s).

(** Only the store has changed, with the same configurations. *)
Lemma server_ok_with_db s db : server_ok s → reachable sortByStart db →
  configs db = configs (Server.db s) → server_ok (with_db db s).
Proof.
  intros (Hr & He & Hf) Hr' E. split; [done|]. split; [done|]. intros Hs.
  destruct (Hf Hs) as (jobs & Hj & Ht). exists jobs. split; [done|]. by eapply tracks_same.
Qed.

Lemma with_db_same s : with_db (Server.db s) s = s.
Proof. by destruct s. Qed.

(** A valid job is set in store and scheduler, unless its parent is not stored. *)
Lemma grpc_SetJob_spec now pj s :
  server_ok s → in_uint32 (PbJob.Retries pj) →
  Validate (NewJobFromProto pj) = None →
  ∃ s' err, grpc_SetJob sortByStart now pj s = Some (s', err) ∧ server_ok s' ∧
    Scheduler.started (Server.sched s') = Scheduler.started (Server.sched s) ∧
    match err with
    | None => configs (Server.db s') =
        <[PbJob.Name pj := config (NewJobFromProto pj)]> (configs (Server.db s))
    | Some err => err = ErrParentJobNotFound ∧ s' = s ∧ PbJob.ParentJob pj ≠ "" ∧
        DB.jobs (Server.db s) !! PbJob.ParentJob pj = None
    end.
Proof.
  intros (Hr & He & Hf) Hu Hv.
  destruct (Apply_SetJob_configs now pj (Server.db s) Hr Hu) as (db' & err & E & Hr' & Hc & Herr).
  unfold grpc_SetJob, applySetJob. rewrite E. destruct err as [err|].
  - destruct Herr as (-> & [Hx|(_ & Hp & Hn & ->)]); [congruence|].
    exists s, (Some ErrParentJobNotFound). by rewrite with_db_same.
  - pose proof (AddJob_spec now (NewJobFromProto pj) (Server.sched s) He) as Ha.
    cbn [with_db Server.sched].
    destruct (AddJob now (NewJobFromProto pj) (Server.sched s)) as [sched err] eqn:EA.
    destruct Ha as (He' & Hs' & Ha). destruct err as [err|].
    { destruct Ha as (Ho & Hn & _). destruct Hn. by apply cron_spec_parses. }
    eexists _, None. split; [done|]. split; [|by split]. split; [done|]. split; [done|].
    cbn [Server.sched with_sched]. rewrite Hs'. intros Hs.
    destruct (Hf Hs) as (jobs & Hj & Ht).
    destruct (AddJob_scheduled now _ jobs (Server.sched s) Hv Hj) as (sched2 & EA2 & _ & Hj').
    rewrite EA in EA2. injection EA2 as <-. eexists. split; [exact Hj'|].
    by apply (tracks_set _ _ (Server.db s)).
Qed.

Lemma ToProto_uint32 job : in_uint32 (PbJob.Retries (ToProto job)).
Proof. apply uint32_in. Qed.

Lemma GetJob_Some name db job : GetJob name db = Some job →
  ∃ p, DB.jobs db !! name = Some p ∧ job = NewJobFromProto p.
Proof. unfold GetJob, getJobTx. destruct (DB.jobs db !! name); [|done]. intros [= <-]. eauto. Qed.

(** Setting a stored job again, changed in a field that is not checked. *)
Lemma grpc_SetJob_again now name s p job :
  server_ok s → DB.jobs (Server.db s) !! name = Some p →
  Validate (NewJobFromProto (ToProto job)) = Validate (NewJobFromProto p) →
  ∃ s' err, grpc_SetJob sortByStart now (ToProto job) s = Some (s', err) ∧ server_ok s'.
Proof.
  intros Hs Hp Hv. destruct (reachable_ok _ _ (proj1 Hs)) as [Hdb _].
  destruct (grpc_SetJob_spec now (ToProto job) s Hs) as (s' & err & E & Hs' & _); [..|eauto].
  - apply ToProto_uint32.
  - rewrite Hv. by eapply ok_valid.
Qed.

Lemma server_ok_sched sched s : server_ok s → entries_ok sched →
  (Scheduler.started sched = true → ∃ jobs, scheduled jobs sched ∧ tracks jobs (Server.db s)) →
  server_ok (with_sched sched s).
Proof. intros (Hr & _ & _) He Hf. by split. Qed.

Lemma grpc_DeleteJob_ok now name s : server_ok s →
  ∃ s' job, grpc_DeleteJob sortByStart now name s = Some (s', job) ∧ server_ok s' ∧
    (∀ n, deps_in (Server.db s') n ⊆+ deps_in (Server.db s) n) ∧
    configs (Server.db s') = (match job with Some _ => delete name | None => id end) (configs (Server.db s)).
Proof.
  intros (Hr & He & Hf). unfold grpc_DeleteJob.
  destruct (Apply_DeleteJob_configs now name (Server.db s) Hr) as (db' & res & -> & Hr' & Hres).
  destruct res as [|err|job|key]; [done| | |done].
  - subst db'. rewrite with_db_same. eexists _, None. by split_and!.
  - destruct Hres as (<- & Hd & Hc). eexists _, (Some job). split; [done|]. split; [|by split].
    destruct (RemoveJob_spec (Job.Name job) (Server.sched s) He) as (He' & _ & Hs').
    split; [done|]. split; [done|]. cbn [with_sched with_db Server.sched Server.db]. rewrite Hs'. intros Hs.
    destruct (Hf Hs) as (jobs & Hj & Ht). exists (without (Job.Name job) jobs).
    split; [by apply RemoveJob_scheduled|]. by eapply tracks_without.
Qed.

Lemma Run_ok members region selectFunc now name ex s : server_ok s →
  ∃ s' res, Run sortByStart members region selectFunc now name ex s = Some (s', res) ∧ server_ok s' ∧
    (∀ n, deps_in (Server.db s') n = deps_in (Server.db s) n) ∧
    configs (Server.db s') = configs (Server.db s).
Proof.
  intros Hs. destruct (reachable_ok _ _ (proj1 Hs)) as [Hdb _]. unfold Run.
  destruct (GetJob name (Server.db s)) as [job|] eqn:Hg; [|by eexists _, _].
  destruct (String.eqb (Job.ParentJob job) ""); [|by eexists _, _].
  destruct (GetEntryJob name (Server.sched s)) as [ej|]; [|by eexists _, _].
  apply GetJob_Some in Hg as (p & Hp & ->).
  destruct (Apply_SetJob_configs now (ToProto (with_Next (Entry.Next ej) (NewJobFromProto p))) (Server.db s) (proj1 Hs) (ToProto_uint32 _))
    as (db' & err & E & Hr' & Hc & Herr).
  unfold applySetJob. rewrite E. destruct err as [err|].
  - destruct Herr as (-> & _). rewrite with_db_same. destruct err; by eexists _, _.
  - assert (configs db' = configs (Server.db s)) as Hc'.
    { rewrite Hc. apply insert_id. cbn.
      rewrite (ok_keyed _ Hdb _ _ Hp), (lookup_configs _ _ _ Hp). f_equal. symmetry.
      rewrite config_stored; [done|done|]. by apply (ok_stored _ Hdb _ _ Hp). }
    eexists _, _. split; [done|]. split; [by apply server_ok_with_db|]. split; [|done].
    destruct (reachable_ok _ _ (proj1 Hs)) as [_ Hl]. cbn [Apply] in E. unfold Fsm.applySetJob in E.
    rewrite SetJob_depth in E by apply Hdb. intros n.
    set (job := NewJobFromProto _) in E.
    assert (DB.jobs (Server.db s) !! Job.Name job = Some p) as Hp'
      by (cbn; by rewrite (ok_keyed _ Hdb _ _ Hp)).
    rewrite <- (SetJob_stored_deps now job p (Server.db s) Hdb Hl Hp' eq_refl eq_refl n).
    destruct (SetJob_flat _ _ _ _) as [db2 err2]. by injection E as -> _.
Qed.

(** ** Restoring *)

(** The configurations after some jobs have been stored, one after the other. *)
Definition store_all (jobs : list Job.t) (m : gmap string Job.t) : gmap string Job.t :=
  fold_left (λ m job, <[Job.Name job := config (NewJobFromProto (ToProto job))]> m) jobs m.

Lemma store_all_app l1 l2 m : store_all (l1 ++ l2) m = store_all l2 (store_all l1 m).
Proof. unfold store_all. by rewrite fold_left_app. Qed.

Lemma store_all_is_Some jobs m n : is_Some (m !! n) → is_Some (store_all jobs m !! n).
Proof.
  revert m. induction jobs as [|job jobs IH]; intros m Hm; [done|]. cbn. apply IH.
  destruct (decide (Job.Name job = n)) as [<-|]; [by rewrite lookup_insert_eq|].
  by rewrite lookup_insert_ne.
Qed.

Lemma store_all_other jobs m n : n ∉ Job.Name <$> jobs → store_all jobs m !! n = m !! n.
Proof.
  revert m. induction jobs as [|job jobs IH]; intros m Hn; [done|].
  cbn in Hn. apply not_elem_of_cons in Hn as [Hne Hn]. cbn. rewrite IH by done.
  by rewrite lookup_insert_ne.
Qed.

Lemma store_all_elem jobs m job : NoDup (Job.Name <$> jobs) → job ∈ jobs →
  store_all jobs m !! Job.Name job = Some (config (NewJobFromProto (ToProto job))).
Proof.
  revert m. induction jobs as [|j jobs IH]; intros m Hn Hj; [by apply elem_of_nil in Hj|].
  cbn in Hn. apply NoDup_cons in Hn as [Hnj Hn]. cbn.
  apply elem_of_cons in Hj as [->|Hj]; [|by apply IH].
  rewrite store_all_other by done. apply lookup_insert_eq.
Qed.

Lemma configs_is_Some db n : is_Some (configs db !! n) ↔ is_Some (DB.jobs db !! n).
Proof. unfold configs. by rewrite lookup_fmap, fmap_is_Some. Qed.

Definition valid (job : Job.t) : Prop := Validate job = None.

Lemma client_SetJob_spec clock job s : server_ok s → valid job →
  let (s', ok) := client_SetJob sortByStart clock job s in
  server_ok s' ∧ Scheduler.started (Server.sched s') = Scheduler.started (Server.sched s) ∧
  if ok then configs (Server.db s') = store_all [job] (configs (Server.db s))
  else s' = s ∧ Job.ParentJob job ≠ "" ∧ ¬ is_Some (configs (Server.db s) !! Job.ParentJob job).
Proof.
  intros Hs Hv. unfold client_SetJob.
  destruct (grpc_SetJob_spec (clock job) (ToProto job) s Hs) as (s' & err & -> & Hs' & Hst & Herr);
    [apply ToProto_uint32|exact Hv|].
  destruct err as [err|]; [|by split_and!].
  destruct Herr as (-> & -> & Hp & Hn). split; [done|]. split; [done|]. split; [done|]. split; [done|].
  rewrite configs_is_Some. intros [p Hp']. cbn in Hn; congruence.
Qed.

Definition created (job : Job.t) : string := "success create " +:+ Job.Name job.

(** Storing trees whose roots have stored parents, or none. *)
Definition rooted (s : Server.t) (t : tree) : Prop :=
  hangs t = true ∧ Forall valid (jobs_of t) ∧
  (Job.ParentJob (root t) = "" ∨ is_Some (configs (Server.db s) !! Job.ParentJob (root t))).

Definition tree_stored clock (t : tree) : Prop := ∀ s, server_ok s → rooted s t →
  ∃ s', setTree (client_SetJob sortByStart clock) t s = (s', created <$> jobs_of t) ∧ server_ok s' ∧
    configs (Server.db s') = store_all (jobs_of t) (configs (Server.db s)).

Lemma recursiveSetJob_spec clock ts s : Forall (tree_stored clock) ts →
  server_ok s → Forall (rooted s) ts →
  ∃ s', recursiveSetJob (client_SetJob sortByStart clock) ts s = (s', created <$> jobs_of_all ts) ∧
    server_ok s' ∧ configs (Server.db s') = store_all (jobs_of_all ts) (configs (Server.db s)).
Proof.
  intros Ht. revert s. induction Ht as [|t ts Ht _ IH]; intros s Hs Hr; cbn [recursiveSetJob].
  { by exists s. }
  apply Forall_cons in Hr as [Hrt Hr]. destruct (Ht s Hs Hrt) as (s1 & -> & Hs1 & Hc1).
  destruct (IH s1 Hs1) as (s2 & -> & Hs2 & Hc2).
  { eapply Forall_impl; [exact Hr|]. intros t' (H1' & H2' & H3'). split; [done|]. split; [done|].
    destruct H3' as [|H3']; [by left|right]. rewrite Hc1. by apply store_all_is_Some. }
  exists s2. split; [by rewrite jobs_of_all_cons, fmap_app|]. split; [done|].
  by rewrite jobs_of_all_cons, store_all_app, Hc2, Hc1.
Qed.

Lemma setTree_spec clock t : tree_stored clock t.
Proof.
  induction t as [job cs IH] using tree_ind'. intros s Hs (Hh & Hp & Hr).
  rewrite jobs_of_Node in *. apply Forall_cons in Hp as [Hpj Hp]. rewrite setTree_Node.
  pose proof (client_SetJob_spec clock job s Hs Hpj) as Hc.
  destruct (client_SetJob sortByStart clock job s) as [s1 ok]. destruct Hc as (Hs1 & _ & Hok).
  destruct ok; [|by destruct Hok as (_ & Hn & Hx), Hr].
  destruct (recursiveSetJob_spec clock cs s1 IH Hs1) as (s2 & -> & Hs2 & Hc2).
  - rewrite hangs_Node in Hh. unfold jobs_of_all in Hp. rewrite Forall_concat, Forall_fmap in Hp.
    rewrite Forall_forall in *. intros c Hc. destruct (Hh c Hc) as [Hcp Hch].
    split; [done|]. split; [by apply Hp|]. right. rewrite Hcp, Hok. cbn. by rewrite lookup_insert_eq.
  - exists s2. split; [done|]. split; [done|]. rewrite Hc2, Hok. done.
Qed.

(** Whatever is restored, the server stays sound. *)
Lemma recursiveSetJob_ok clock ts s : server_ok s → Forall valid (jobs_of_all ts) →
  server_ok (recursiveSetJob (client_SetJob sortByStart clock) ts s).1.
Proof.
  assert (∀ ts, Forall (λ t, ∀ s, server_ok s → Forall valid (jobs_of t) →
      server_ok (setTree (client_SetJob sortByStart clock) t s).1) ts →
    ∀ s, server_ok s → Forall valid (jobs_of_all ts) →
      server_ok (recursiveSetJob (client_SetJob sortByStart clock) ts s).1) as Hlist.
  { clear ts s. intros ts Ht. induction Ht as [|t ts Ht _ IH]; intros s Hs Hp; [done|].
    rewrite jobs_of_all_cons in Hp. apply Forall_app in Hp as [Hp1 Hp2]. cbn [recursiveSetJob].
    specialize (Ht s Hs Hp1). destruct (setTree _ t s) as [s1 r1].
    specialize (IH s1 Ht Hp2). by destruct (recursiveSetJob _ ts s1). }
  apply Hlist. apply Forall_forall. intros t _. clear ts s.
  induction t as [job cs IH] using tree_ind'. intros s Hs Hp.
  rewrite jobs_of_Node in Hp. apply Forall_cons in Hp as [Hpj Hp]. rewrite setTree_Node.
  pose proof (client_SetJob_spec clock job s Hs Hpj) as Hc.
  destruct (client_SetJob sortByStart clock job s) as [s1 ok]. destruct Hc as (Hs1 & _ & Hok).
  destruct ok; [|done]. specialize (Hlist cs IH s1 Hs1 Hp).
  by destruct (recursiveSetJob _ cs s1).
Qed.

(** ** Steps *)

Lemma restoreHandler_ok clock jobs s s' res : server_ok s →
  restoreHandler sortByStart clock jobs s = Some (s', res) → server_ok s'.
Proof.
  intros Hs. unfold restoreHandler. pose proof (generateJobTree_loop jobs) as Hl.
  destruct (generateJobTree jobs) as [[err|forest]|]; [by intros [= <- _]| |done].
  destruct Hl as [[Hperm%symmetry _]%tree_inv_forest Hv].
  assert (Forall valid (jobs_of_all forest)) as Hp by (by rewrite <- Hperm).
  pose proof (recursiveSetJob_ok clock forest s Hs Hp) as Ho.
  destruct (recursiveSetJob _ forest s). by intros [= <- _].
Qed.

Lemma server_ok_engine s e : server_ok s →
  (held <$> cron_Entries e) ≡ₚ (held <$> cron_Entries (Scheduler.Cron (Server.sched s))) →
  server_ok (with_sched (with_Cron e (Server.sched s)) s).
Proof.
  intros Hs Hp. destruct (entries_ok_held (Server.sched s) (with_Cron e (Server.sched s)) Hp) as [He Hj].
  apply server_ok_sched; [done|by apply He, Hs|]. intros Hst.
  destruct (proj2 (proj2 Hs) Hst) as (jobs & [_ Hh] & Ht). exists jobs. split; [|done].
  split; [by apply He, Hs|]. by rewrite Hj.
Qed.

Lemma establishLeadership_ok now active s : server_ok s →
  let (s', err) := establishLeadership now active s in
  server_ok s' ∧ Scheduler.started (Server.sched s') = true ∧
  err = if Scheduler.started (Server.sched s) then Some ErrAlreadyStarted else None.
Proof.
  intros Hs. unfold establishLeadership. pose proof (tracks_GetJobs _ (proj1 Hs)) as Ht.
  set (s1 := match active with Some exs => _ | None => s end).
  assert (server_ok s1 ∧ Server.sched s1 = Server.sched s ∧ configs (Server.db s1) = configs (Server.db s))
    as (Hs1 & <- & Hc).
  { unfold s1. destruct active as [exs|]; [|done].
    destruct (reconcile_ok sortByStart now (GetJobs (Server.db s)) (activeExecutionKeys exs) (Server.db s)
      (proj1 Hs)) as [Hr Hsh]. apply configs_shape in Hsh. split; [by apply server_ok_with_db|by split]. }
  clearbody s1. destruct (Scheduler.started (Server.sched s1)) eqn:Hst.
  - unfold Start. rewrite Hst. split; [|by split]. destruct s1; exact Hs1.
  - destruct (Start_scheduled now (GetJobs (Server.db s)) (Server.sched s1)) as (sched & -> & Hs' & Hj);
      [by apply Hs1|done|by apply Ht|by apply Ht|].
    split; [|by split]. apply server_ok_sched; [done|by apply Hj|]. intros _. eexists. split; [done|].
    by eapply tracks_same.
Qed.

Lemma step_ok s s' : server_ok s → step sortByStart s s' → server_ok s'.
Proof.
  intros Hs Hstep. destruct (reachable_ok _ _ (proj1 Hs)) as [Hdb _].
  destruct Hstep as [now job s s' code E|now pj s s' err Hv Hu E|now name s s' code E|now name s s' code E
    |now name threshold s s' code E|now name s s' res E|clock jobs s s' res E|s|s
    |members region sel now name ex s s' res E|now e done s db res E|e s Hp|now active s s' err E|s
    |now c s db res Hst E].
  - unfold jobCreateOrUpdateHandler in E. destruct (Server.pauseNewJobs s); [by injection E as <- _|].
    destruct (Validate job) eqn:Hv; [by injection E as <- _|].
    destruct (grpc_SetJob_spec now (ToProto job) s Hs (ToProto_uint32 _) Hv) as (s2 & err & E' & Hs2 & _).
    rewrite E' in E. by injection E as <- _.
  - destruct (grpc_SetJob_spec now pj s Hs Hu Hv) as (s2 & err2 & E' & Hs2 & _).
    rewrite E' in E. by injection E as <- _.
  - unfold jobDeleteHandler in E. destruct (grpc_DeleteJob_ok now name s Hs) as (s2 & job & E' & Hs2 & _).
    rewrite E' in E. by injection E as <- _.
  - unfold jobToggleHandler in E. destruct (GetJob name (Server.db s)) as [job|] eqn:Hg; [|by injection E as <- _].
    apply GetJob_Some in Hg as (p & Hp & ->).
    destruct (grpc_SetJob_again now name s p (with_Disabled (negb (Job.Disabled (NewJobFromProto p))) (NewJobFromProto p)) Hs Hp)
      as (s2 & err & E' & Hs2); [done..|].
    rewrite E' in E. by injection E as <- _.
  - unfold jobAutoDisableCheckHandler in E. destruct (Atoi threshold) as [t ok].
    destruct (negb ok || (t <? 1)); [by injection E as <- _|].
    destruct (GetJob name (Server.db s)) as [job|] eqn:Hg; [|by injection E as <- _].
    destruct (_ && _); [|by injection E as <- _].
    apply GetJob_Some in Hg as (p & Hp & ->).
    destruct (grpc_SetJob_again now name s p (with_Disabled true (NewJobFromProto p)) Hs Hp)
      as (s2 & err & E' & Hs2); [done..|].
    rewrite E' in E. by injection E as <- _.
  - unfold grpc_DeleteExecutions in E.
    destruct (Apply _ _ _ _) as [[db res']|] eqn:Ha; [|done]. injection E as <- _.
    apply (Apply_other_configs _ _ _ _ _ (proj1 Hs)) in Ha as [Hr Hc]. by apply server_ok_with_db.
  - by eapply restoreHandler_ok.
  - destruct Hs as (H1' & H2' & H3'). by split.
  - destruct Hs as (H1' & H2' & H3'). by split.
  - destruct (Run_ok members region sel now name ex s Hs) as (s2 & res2 & E' & Hs2 & _).
    rewrite E' in E. by injection E as <- _.
  - apply (Apply_other_configs _ _ _ _ _ (proj1 Hs)) in E.
    apply server_ok_with_db; [done|destruct done; apply E|destruct done; apply E].
  - by apply server_ok_engine.
  - pose proof (establishLeadership_ok now active s Hs) as He. rewrite E in He. apply He.
  - apply server_ok_sched; [done|by apply Stop_entries, Hs|done].
  - destruct Hs as (Hr & He & _). split; [by eapply reachable_step|]. split; [done|].
    cbn [with_db Server.sched]. rewrite Hst. done.
Qed.

Lemma served_ok s : served sortByStart s → server_ok s.
Proof.
  induction 1 as [db Hr|s s' _ IH Hstep]; [|by eapply step_ok].
  split; [done|]. split; [|done]. unfold entries_ok, jobs_held, NewScheduler.
  cbn [Scheduler.Cron Server.sched]. rewrite Entries_New. split; constructor.
Qed.
End lemmas.

Section theorems.
Context `{Env, Engine, !EngineLaws, !TimezoneLaw}.
Variable sortByStart : list Exec.t → list Exec.t.

(** C2. The scheduler follows the store: whatever requests of the API, restored
    backups, valid jobs set by gRPC, runs, reports and changes of leadership a
    server has handled, one after the other, and whatever the log made of its store
    while its scheduler was stopped: gaining the leadership starts the scheduler,
    and while it is started it has one entry for each stored job that is enabled
    and has no parent, with the configuration that is stored, and no other entries.
    Handlers that overlap, and jobs set by gRPC that the store refuses, are left
    out: they do break it ([overlapping_sets_diverge], [refused_job_is_scheduled]). *)
Theorem scheduler_follows_store s :
  served sortByStart s →
  (∀ now active, let (s', err) := establishLeadership now active s in
     Scheduler.started (Server.sched s') = true ∧
     err = if Scheduler.started (Server.sched s) then Some ErrAlreadyStarted else None) ∧
  (Scheduler.started (Server.sched s) = true →
   NoDup (Job.Name <$> jobs_held (Server.sched s)) ∧
   (∀ job, job ∈ jobs_held (Server.sched s) → ∃ p,
      DB.jobs (Server.db s) !! Job.Name job = Some p ∧ config job = config (NewJobFromProto p)) ∧
   (∀ name, name ∈ Job.Name <$> jobs_held (Server.sched s) ↔ ∃ p,
      DB.jobs (Server.db s) !! name = Some p ∧ on_schedule (NewJobFromProto p) = true)).
Proof.
  intros Hs%served_ok. split.
  { intros now active. pose proof (establishLeadership_ok sortByStart now active s Hs) as He.
    destruct (establishLeadership now active s). by destruct He as (_ & ? & ?). }
  intros Hst. destruct Hs as (Hr & He & Hf). destruct (Hf Hst) as (jobs & [_ Hj] & Hn & _ & Ht).
  assert (∀ job, job ∈ jobs_held (Server.sched s) ↔ job ∈ jobs ∧ on_schedule job = true) as Hin.
  { intros job. by rewrite Hj, !list_elem_of_In, List.filter_In. }
  assert (∀ job, job ∈ jobs → ∃ p, DB.jobs (Server.db s) !! Job.Name job = Some p ∧
    config job = config (NewJobFromProto p)) as Hstored.
  { intros job Hjob. specialize (Ht (Job.Name job)).
    rewrite (find_job_NoDup _ job jobs Hn Hjob eq_refl) in Ht. unfold configs in Ht.
    rewrite lookup_fmap in Ht. destruct (DB.jobs (Server.db s) !! Job.Name job) as [p|]; [|done].
    exists p. split; [done|]. symmetry. exact (inj Some _ _ Ht). }
  split; [by apply He|]. split; [intros job [Hjob _]%Hin; by apply Hstored|]. intros name. split.
  - intros (job & -> & [Hjob Ho]%Hin)%list_elem_of_fmap. destruct (Hstored job Hjob) as (p & Hp & Hc).
    exists p. split; [done|]. by rewrite <- config_on_schedule, <- Hc.
  - intros (p & Hp & Ho). specialize (Ht name). rewrite (lookup_configs _ _ _ Hp) in Ht.
    destruct (find_job name jobs) as [job|] eqn:Hfind; [|done].
    apply List.find_some in Hfind as [Hjob Hname%String.eqb_eq]. rewrite <- Hname.
    apply list_elem_of_fmap_2, Hin. split; [by apply list_elem_of_In|].
    rewrite <- config_on_schedule, <- (inj Some _ _ Ht). exact Ho.
Qed.

(** C8. A backup that can be restored is restored: on any server whose state
    can be reached, if the jobs of the file are valid, have names of their own
    and parents in the file without cycles, then the answer is 200 with one line of
    success per job, parents before their children; every job of the file is stored
    with its configuration (all but results, next run and dependent jobs), whatever
    dependent jobs the file lists, and the other jobs keep theirs. *)
Theorem restore_restores clock jobs s :
  served sortByStart s → restorable jobs →
  ∃ s' order, order ≡ₚ jobs ∧
    restoreHandler sortByStart clock jobs s =
      Some (s', (200, (λ job, "success create " +:+ Job.Name job) <$> order)) ∧
    parents_first [] order ∧
    (∀ job, job ∈ jobs →
       configs (Server.db s') !! Job.Name job = Some (config (NewJobFromProto (ToProto job)))) ∧
    (∀ name, name ∉ Job.Name <$> jobs → configs (Server.db s') !! name = configs (Server.db s) !! name).
Proof.
  intros Hs%served_ok Hr.
  destruct (generateJobTree_restorable jobs Hr) as (forest & E & Hperm & Hf).
  destruct Hr as (Hv & Hn & _). unfold restoreHandler. rewrite E.
  destruct (recursiveSetJob_spec sortByStart clock forest s) as (s' & -> & Hs' & Hc); [|done|..].
  { apply Forall_forall. intros t _. apply setTree_spec. }
  { assert (Forall valid (jobs_of_all forest)) as Hp by (by rewrite Hperm).
    unfold jobs_of_all in Hp. rewrite Forall_concat, Forall_fmap in Hp.
    rewrite Forall_forall in *. intros t Ht. destruct (Hf t Ht) as [Hp1 Hh].
    split; [done|]. split; [by apply Hp|by left]. }
  exists s', (jobs_of_all forest). split; [done|]. split; [done|]. split; [|split].
  - apply parents_first_all; eapply Forall_impl; [exact Hf| |exact Hf|]; intros t [Hp Hh]; [|by left].
    intros seen. by apply hangs_parents_first.
  - intros job Hj. rewrite Hc. apply store_all_elem; by rewrite Hperm.
  - intros name Hname. rewrite Hc. apply store_all_other. by rewrite Hperm.
Qed.
End theorems.

(** ** Examples *)

Section demo.
#[local] Existing Instance demo_env.
#[local] Existing Instance demo_timezone.

Definition no_sort (l : list Exec.t) : list Exec.t := l.
Definition demo_start : Server.t := Server.mk DB.empty NewScheduler false.
Definition after {A} (r : option (Server.t * A)) : Server.t :=
  match r with Some (s, _) => s | None => demo_start end.

(** A leader with a job, which is then disabled, and a child of it. *)
Definition demo_a : Job.t := demo_job "a" "0 * * * * *" "" false.
Definition demo_b : Job.t := demo_job "b" "" "a" false.
Definition demo_leader : Server.t := (establishLeadership 0 (Some []) demo_start).1.
Definition demo_one : Server.t := after (jobCreateOrUpdateHandler no_sort 1 demo_a demo_leader).
Definition demo_two : Server.t := after (jobCreateOrUpdateHandler no_sort 2 demo_b demo_one).
Definition demo_off : Server.t := after (jobToggleHandler no_sort 3 "a" demo_two).

Lemma served_demo : served no_sort demo_one ∧ served no_sort demo_two ∧ served no_sort demo_off.
Proof.
  assert (served no_sort demo_leader) as H0.
  { eapply served_step; [apply served_start, reachable_empty|].
    apply (step_leader _ 0 (Some []) demo_start _ (establishLeadership 0 (Some []) demo_start).2). apply surjective_pairing. }
  assert (served no_sort demo_one) as H1.
  { eapply served_step; [exact H0|]. apply (step_create _ 1 demo_a _ _ 201); vm_compute; reflexivity. }
  assert (served no_sort demo_two) as H2.
  { eapply served_step; [exact H1|]. apply (step_create _ 2 demo_b _ _ 201); vm_compute; reflexivity. }
  split; [exact H1|]. split; [exact H2|].
  eapply served_step; [exact H2|]. apply (step_toggle _ 3 "a" _ _ 200). vm_compute. reflexivity.
Qed.

Lemma scheduler_follows_store_witness :
  (Job.Name <$> jobs_held (Server.sched demo_two)) = ["a"] ∧ jobs_held (Server.sched demo_off) = [] ∧
  (∃ p, DB.jobs (Server.db demo_two) !! "a" = Some p ∧ on_schedule (NewJobFromProto p) = true) ∧
  ¬ ∃ p, DB.jobs (Server.db demo_off) !! "a" = Some p ∧ on_schedule (NewJobFromProto p) = true.
Proof.
  split; [vm_compute; reflexivity|]. split; [vm_compute; reflexivity|]. split.
  - apply (scheduler_follows_store no_sort demo_two (proj1 (proj2 served_demo)));
      [vm_compute; reflexivity|]. vm_compute. left.
  - intros Hp. apply (scheduler_follows_store no_sort demo_off (proj2 (proj2 served_demo))) in Hp;
      [|vm_compute; reflexivity]. revert Hp. apply not_elem_of_nil.
Defined.

(** An exported backup lists the dependent jobs. *)
Definition demo_backup : list Job.t := [demo_b; with_DependentJobs ["b"] demo_a].

Lemma restorable_demo : restorable demo_backup.
Proof.
  split; [by repeat constructor|]. split; [apply (bool_decide_unpack _); vm_compute; exact I|].
  exists (λ n, if String.eqb n "b" then 1%nat else 0%nat). by repeat constructor.
Qed.

Lemma restore_restores_witness :
  ∃ s' order, order ≡ₚ demo_backup ∧
    restoreHandler no_sort (λ _, 4) demo_backup demo_leader =
      Some (s', (200, (λ job, "success create " +:+ Job.Name job) <$> order)) ∧
    configs (Server.db s') !! "b" = Some (config demo_b).
Proof.
  assert (served no_sort demo_leader) as Hs.
  { eapply served_step; [apply served_start, reachable_empty|].
    apply (step_leader _ 0 (Some []) demo_start _ (establishLeadership 0 (Some []) demo_start).2). apply surjective_pairing. }
  destruct (restore_restores no_sort (λ _, 4) demo_backup demo_leader Hs restorable_demo) as (s' & order & Hp & E & _ & Hc & _).
  exists s', order. split; [exact Hp|]. split; [exact E|]. apply (Hc demo_b). left.
Defined.

(** [applySetJob] of the agent reports only a missing parent: a job the store
    refuses is scheduled, and the call succeeds. *)
Lemma refused_job_is_scheduled :
  let bad := demo_job "A" "0 * * * * *" "" false in
  let r := grpc_SetJob no_sort 1 (ToProto bad) demo_leader in
  (snd <$> r) = Some None ∧ (λ r, DB.jobs (Server.db r.1) !! "A") <$> r = Some None ∧
  (λ r, Job.Name <$> jobs_held (Server.sched r.1)) <$> r = Some ["A"].
Proof. vm_compute. split; [reflexivity|]. split; reflexivity. Qed.

(** A backup lists the dependent jobs of a job; they are stored as they are and
    each child is added again when it is restored. *)
Lemma restore_doubles_children :
  let a := with_DependentJobs ["b"] demo_a in
  let r := restoreHandler no_sort (λ _, 4) [a; demo_b] demo_leader in
  (λ r, deps_in (Server.db r.1) "a") <$> r = Some ["b"; "b"].
Proof. vm_compute. reflexivity. Qed.

(** Two calls of [SetJob] that overlap: nothing keeps the order of the log when
    the jobs are added to the scheduler, which then runs the older schedule. *)
Lemma overlapping_sets_diverge :
  let v1 := demo_job "a" "0 * * * * *" "" false in
  let v2 := demo_job "a" "@daily" "" false in
  let s1 := after (applySetJob no_sort 1 (ToProto v1) demo_leader) in
  let s2 := after (applySetJob no_sort 2 (ToProto v2) s1) in
  let sched := (AddJob 4 v1 (AddJob 3 v2 (Server.sched s2)).1).1 in
  PbJob.Schedule <$> DB.jobs (Server.db s2) !! "a" = Some "@daily" ∧
  (Job.Schedule <$> jobs_held sched) = ["0 * * * * *"].
Proof. vm_compute. split; reflexivity. Qed.
End demo.
