(* ===== verification/Leadership.v ===== *)
(** * Leadership: who runs the scheduler

    [monitorLeadership], [leaderLoop] and [leadershipTransfer] of
    src/dkron/leader.go: a server that is told it leads starts a loop, which
    establishes its leadership (file Server), reconciles the members (file
    Membership) and ends when the server is told it leads no longer, or shuts
    down.  Monitor, loop, requests and [Agent.Stop] of src/dkron/agent.go go on at
    the same time.  The theorem: the scheduler of a server is started only while
    its loop has established leadership, exactly then until the agent is told to
    stop, and only one loop runs. *)

From S2P Require Import Prelude GoCore Jobs Store Fsm Scheduler Restore Server.

(** The labels of [leaderLoop]: at [RECONCILE], waiting, or returned. *)
Inductive position : Type := AtReconcile | AtWait | AtEnd.

Module Loop.
Record t := mk { pc : position; establishedLeader : bool }.
End Loop.

(** [monitorLeadership]: it waits for news, for the end of the loop, or is over.
    [weAreLeaderCh] is not nil while it [watches] or waits for the loop. *)
Inductive monitor : Type := Idle | Watching | Stopping | Over.

Module Agent.
Record t `{Engine} := mk {
  server : Server.t;
  monitoring : monitor;
  (** the loop that was started last *)
  loop : option Loop.t;
  (** the channel the loop polls, and that of the agent, are closed *)
  stopCh : bool;
  shutdownCh : bool;
  (** [Agent.Stop] was called *)
  told : bool;
}.
#[global] Arguments t {_}.
#[global] Arguments mk {_}.
End Agent.

(** What [leadershipTransfer] meets at its next try. *)
Inductive transfer : Type := Transferred | Unsupported | TransferFailed.

Section leadership.
Context `{Env, Engine}.
Variable sortByStart : list Exec.t → list Exec.t.

(** [leadershipTransfer] with so many tries left: no error, or an error. *)
Fixpoint leadershipTransfer (tries : list transfer) (s : Server.t) : Server.t * bool :=
  match tries with
  | [] => (s, false)
  | Transferred :: _ => (with_sched (Stop (Server.sched s)) s, true)
  | Unsupported :: _ => (s, false)
  | TransferFailed :: tries => leadershipTransfer tries s
  end.

(** The deferred call when the loop returns. *)
Definition leave (l : Loop.t) (s : Server.t) : Server.t :=
  if Loop.establishedLeader l then revokeLeadership s else s.

(** The loop is over, or has never been started. *)
Definition no_loop (l : option Loop.t) : bool :=
  match l with Some l => match Loop.pc l with AtEnd => true | _ => false end | None => true end.

(** How [leaderLoop] goes on from [RECONCILE]: whether the barrier is met, the
    executions that are active, the outcomes of the transfer, and whether the
    members are reconciled. *)
Definition at_reconcile (now : time) (barrier : bool) (active : option (list PbExecution.t))
    (tries : list transfer) (reconciled stopped : bool) (l : Loop.t) (s : Server.t) : Loop.t * Server.t :=
  if negb barrier then (Loop.mk AtWait (Loop.establishedLeader l), s) else
  let reconcile_members (s : Server.t) :=
    let l := Loop.mk AtWait true in
    if negb reconciled then (l, s)
    else if stopped then (Loop.mk AtEnd true, leave l s)
    else (l, s) in
  if Loop.establishedLeader l then reconcile_members s else
  match establishLeadership now active s with
  | (s, None) => reconcile_members s
  | (s, Some _) =>
      let (s, transferred) := leadershipTransfer tries (revokeLeadership s) in
      (Loop.mk (if transferred then AtEnd else AtWait) false, s)
  end.

(** [Agent.Stop] on a server; then its share in the log, its store and its
    membership end. *)
Definition agent_Stop (s : Server.t) : Server.t :=
  if Scheduler.started (Server.sched s) then with_sched (Stop (Server.sched s)) s else s.

(** What a server does or meets. News of leadership are handled by the monitor
    in the order they arrive. *)
Inductive agent_step : Agent.t → Agent.t → Prop :=
  (** The server is told that it leads: a loop is started, unless one is. *)
  | monitor_gained s l stop down told : agent_step
      (Agent.mk s Idle l stop down told) (Agent.mk s Watching (Some (Loop.mk AtReconcile false)) false down told)
  | monitor_gained_again s l stop down told : agent_step
      (Agent.mk s Watching l stop down told) (Agent.mk s Watching l stop down told)
  (** It is told that it does not: the loop is stopped and waited for. *)
  | monitor_lost s l stop down told : agent_step
      (Agent.mk s Watching l stop down told) (Agent.mk s Stopping l true down told)
  | monitor_lost_again s l stop down told : agent_step
      (Agent.mk s Idle l stop down told) (Agent.mk s Idle l stop down told)
  | monitor_stopped s l stop down told : no_loop l = true → agent_step
      (Agent.mk s Stopping l stop down told) (Agent.mk s Idle l stop down told)
  | monitor_over s m l stop told : m ≠ Stopping → agent_step
      (Agent.mk s m l stop true told) (Agent.mk s Over l stop true told)
  (** The loop. *)
  | loop_reconcile now barrier active tries reconciled s m l stop down l' s' told :
      Loop.pc l = AtReconcile → length tries = 3%nat →
      at_reconcile now barrier active tries reconciled stop l s = (l', s') →
      agent_step (Agent.mk s m (Some l) stop down told) (Agent.mk s' m (Some l') stop down told)
  | loop_interval s m l stop down told : Loop.pc l = AtWait → agent_step
      (Agent.mk s m (Some l) stop down told)
      (Agent.mk s m (Some (Loop.mk AtReconcile (Loop.establishedLeader l))) stop down told)
  | loop_member s m l stop down told : Loop.pc l = AtWait → agent_step
      (Agent.mk s m (Some l) stop down told) (Agent.mk s m (Some l) stop down told)
  | loop_leaves s m l stop down told : Loop.pc l = AtWait → stop || down = true → agent_step
      (Agent.mk s m (Some l) stop down told)
      (Agent.mk (leave l s) m (Some (Loop.mk AtEnd (Loop.establishedLeader l))) stop down told)
  (** The rest of the server, and the end of the agent. *)
  | agent_request s s' m l stop down told :
      step sortByStart s s' → Scheduler.started (Server.sched s') = Scheduler.started (Server.sched s) →
      agent_step (Agent.mk s m l stop down told) (Agent.mk s' m l stop down told)
  (** The process is told to end or the server to leave; monitor and loop go on. *)
  | agent_stop s m l stop down told : agent_step
      (Agent.mk s m l stop down told) (Agent.mk (agent_Stop s) m l stop down true)
  | agent_shutdown s m l stop down told : agent_step
      (Agent.mk s m l stop down told) (Agent.mk s m l stop true told).

Inductive agent_reachable : Agent.t → Prop :=
  | agent_start db : reachable sortByStart db →
      agent_reachable (Agent.mk (Server.mk db NewScheduler false) Idle None false false false)
  | agent_next a a' : agent_reachable a → agent_step a a' → agent_reachable a'.

(** ** Invariant *)

(** The loop runs and has established leadership. *)
Definition leading (l : option Loop.t) : bool :=
  match l with Some l => Loop.establishedLeader l && negb (no_loop (Some l)) | None => false end.

(** The scheduler runs only while the loop leads; [strict] when nothing else has
    stopped it. *)
Definition run_by (strict : bool) (l : option Loop.t) (s : Server.t) : Prop :=
  (Scheduler.started (Server.sched s) = true → leading l = true) ∧
  (strict = true → leading l = true → Scheduler.started (Server.sched s) = true).

Record agent_ok (a : Agent.t) : Prop := {
  ok_served : served sortByStart (Agent.server a);
  ok_started : run_by (negb (Agent.told a)) (Agent.loop a) (Agent.server a);
  ok_idle : Agent.monitoring a = Idle → no_loop (Agent.loop a) = true;
}.
End leadership.

(** ** Lemmas *)

Section lemmas.
Context `{Env, Engine, !EngineLaws, !TimezoneLaw}.
Variable sortByStart : list Exec.t → list Exec.t.

(** Requests start and stop nothing: only leadership does. *)
Lemma started_RemoveJob name sched : Scheduler.started (RemoveJob name sched) = Scheduler.started sched.
Proof. unfold RemoveJob. by destruct (GetEntryJob name sched). Qed.

Lemma started_AddJob now job sched : Scheduler.started (AddJob now job sched).1 = Scheduler.started sched.
Proof.
  unfold AddJob. set (s1 := match GetEntryJob _ _ with Some _ => _ | None => _ end).
  assert (Scheduler.started s1 = Scheduler.started sched) as <-.
  { unfold s1. destruct (GetEntryJob _ _); [apply started_RemoveJob|done]. }
  clearbody s1. destruct (_ || _); [done|]. by destruct (cron_AddJob _ _ _ _).
Qed.

Lemma started_applySetJob now job s s' err : applySetJob sortByStart now job s = Some (s', err) →
  Server.sched s' = Server.sched s.
Proof. unfold applySetJob. destruct (Apply _ _ _ _) as [[db res]|]; [|done]. by intros [= <- _]. Qed.

Lemma started_SetJob now job s s' err : grpc_SetJob sortByStart now job s = Some (s', err) →
  Scheduler.started (Server.sched s') = Scheduler.started (Server.sched s).
Proof.
  unfold grpc_SetJob. destruct (applySetJob _ _ _ _) as [[s1 e]|] eqn:E; [|done].
  apply started_applySetJob in E as <-. destruct e; [by intros [= <- _]|].
  pose proof (started_AddJob now (NewJobFromProto job) (Server.sched s1)) as Ha.
  destruct (AddJob _ _ _). by intros [= <- _].
Qed.

Lemma started_Run members region selectFunc now name ex s s' res :
  Run sortByStart members region selectFunc now name ex s = Some (s', res) →
  Server.sched s' = Server.sched s.
Proof.
  unfold Run. destruct (GetJob _ _); [|by intros [= <- _]].
  destruct (String.eqb _ _); [|by intros [= <- _]]. destruct (GetEntryJob _ _); [|by intros [= <- _]].
  destruct (applySetJob _ _ _ _) as [[s1 e]|] eqn:E; [|done]. apply started_applySetJob in E as <-.
  destruct e; by intros [= <- _].
Qed.

(** The two servers agree on whether the scheduler is started. *)
Definition same_started (s s' : Server.t) : Prop :=
  Scheduler.started (Server.sched s') = Scheduler.started (Server.sched s).

#[local] Instance same_started_preorder : PreOrder same_started.
Proof. split; [done|]. unfold same_started. intros s1 s2 s3 E1 E2. by rewrite E2. Qed.

Lemma started_restore clock jobs s s' res :
  restoreHandler sortByStart clock jobs s = Some (s', res) → same_started s s'.
Proof.
  unfold restoreHandler. destruct (generateJobTree jobs) as [[err|forest]|]; [by intros [= <- _]| |done].
  pose proof (recursiveSetJob_keeps (client_SetJob sortByStart clock) same_started) as Hk.
  specialize (Hk ltac:(intros job x; unfold client_SetJob;
    destruct (grpc_SetJob _ _ _ _) as [[x' [e|]]|] eqn:E; [by eapply started_SetJob|by eapply started_SetJob|done])
    forest s).
  destruct (recursiveSetJob _ forest s). by intros [= <- _].
Qed.

(** Requests start and stop nothing: only leadership does. *)
Lemma step_started s s' : step sortByStart s s' →
  same_started s s' ∨ (∃ now active, s' = (establishLeadership now active s).1) ∨ s' = revokeLeadership s.
Proof.
  destruct 1 as [now job s s' code E|now pj s s' err _ _ E|now name s s' code E|now name s s' code E
    |now name threshold s s' code E|now name s s' res E|clock jobs s s' res E|s|s
    |members region sel now name ex s s' res E|now e done s db res E|e s Hp|now active s s' err E|s
    |now c s db res Hst E]; try (by left).
  - left. revert E. unfold jobCreateOrUpdateHandler. destruct (Server.pauseNewJobs s); [by intros [= <- _]|].
    destruct (Validate job); [by intros [= <- _]|].
    destruct (grpc_SetJob _ _ _ _) as [[s1 e]|] eqn:E; [|done]. intros [= <- _]. by eapply started_SetJob.
  - left. by eapply started_SetJob.
  - left. revert E. unfold jobDeleteHandler, grpc_DeleteJob. destruct (Apply _ _ _ _) as [[db res]|]; [|done].
    destruct res as [|err|job|key]; intros [= <- _]; try done. unfold same_started. cbn. apply started_RemoveJob.
  - left. revert E. unfold jobToggleHandler. destruct (GetJob _ _); [|by intros [= <- _]].
    destruct (grpc_SetJob _ _ _ _) as [[s1 e]|] eqn:E; [|done]. intros [= <- _]. by eapply started_SetJob.
  - left. revert E. unfold jobAutoDisableCheckHandler. destruct (Atoi threshold) as [t ok].
    destruct (_ || _); [by intros [= <- _]|]. destruct (GetJob _ _); [|by intros [= <- _]].
    destruct (_ && _); [|by intros [= <- _]].
    destruct (grpc_SetJob _ _ _ _) as [[s1 e]|] eqn:E; [|done]. intros [= <- _]. by eapply started_SetJob.
  - left. revert E. unfold grpc_DeleteExecutions. destruct (Apply _ _ _ _) as [[db r]|]; [|done].
    by intros [= <- _].
  - left. by eapply started_restore.
  - left. apply started_Run in E. unfold same_started. by rewrite E.
  - right. left. exists now, active. by rewrite E.
  - by right; right.
Qed.

(** ** Steps of the loop *)

Lemma served_establish now active s : served sortByStart s →
  served sortByStart (establishLeadership now active s).1.
Proof.
  intros Hs. destruct (establishLeadership now active s) as [s' err] eqn:E.
  eapply served_step; [exact Hs|]. by eapply step_leader.
Qed.

Lemma served_revoke s : served sortByStart s → served sortByStart (revokeLeadership s).
Proof. intros Hs. eapply served_step; [exact Hs|apply step_follower]. Qed.

Lemma served_transfer tries s : served sortByStart s → served sortByStart (leadershipTransfer tries s).1.
Proof.
  intros Hs. induction tries as [|[] tries IH]; cbn [leadershipTransfer]; [done| |done|done].
  by apply served_revoke.
Qed.

Lemma transfer_stopped tries s : Scheduler.started (Server.sched s) = false →
  Scheduler.started (Server.sched (leadershipTransfer tries s).1) = false.
Proof. intros Hs. by induction tries as [|[] tries IH]. Qed.

Lemma run_by_idle strict l s : Scheduler.started (Server.sched s) = false → leading l = false →
  run_by strict l s.
Proof. intros Hs Hl. unfold run_by. by rewrite Hs, Hl. Qed.

Lemma at_reconcile_ok strict now barrier active tries reconciled stopped l s l' s' :
  served sortByStart s → Loop.pc l = AtReconcile → run_by strict (Some l) s →
  at_reconcile now barrier active tries reconciled stopped l s = (l', s') →
  served sortByStart s' ∧ run_by strict (Some l') s'.
Proof.
  intros Hs Hpc. unfold run_by at 1, leading, no_loop. rewrite Hpc. cbn [negb].
  rewrite andb_true_r. intros Hst. unfold at_reconcile. destruct barrier; cbn [negb].
  2: { intros [= <- <-]. split; [done|]. unfold run_by, leading. cbn [Loop.establishedLeader no_loop Loop.pc negb]. by rewrite andb_true_r. }
  assert (∀ s1, served sortByStart s1 → run_by strict (Some (Loop.mk AtWait true)) s1 →
    (if negb reconciled then (Loop.mk AtWait true, s1)
     else if stopped then (Loop.mk AtEnd true, leave (Loop.mk AtWait true) s1) else (Loop.mk AtWait true, s1)) = (l', s') →
    served sortByStart s' ∧ run_by strict (Some l') s') as Hmem.
  { intros s1 Hs1 Hst1. destruct (negb reconciled); [by intros [= <- <-]|].
    destruct stopped; intros [= <- <-]; [|done]. split; [by apply served_revoke|by apply run_by_idle]. }
  destruct (Loop.establishedLeader l) eqn:He; [by apply Hmem|].
  pose proof (served_establish now active s Hs) as Hs1.
  pose proof (establishLeadership_ok sortByStart now active s (served_ok _ _ Hs)) as Hok.
  destruct (establishLeadership now active s) as [s1 [err|]]; cbn [fst] in Hs1.
  - pose proof (served_transfer tries _ (served_revoke _ Hs1)) as Hs2.
    pose proof (transfer_stopped tries (revokeLeadership s1) eq_refl) as Hst2.
    destruct (leadershipTransfer tries (revokeLeadership s1)) as [s2 ok]. cbn [fst] in *.
    intros [= <- <-]. split; [done|]. apply run_by_idle; [done|by destruct ok].
  - apply Hmem; [done|]. split; [done|intros _ _; apply Hok].
Qed.

Lemma agent_Stop_served s : served sortByStart s → served sortByStart (agent_Stop s).
Proof. unfold agent_Stop. intros Hs. by destruct (Scheduler.started _); [apply served_revoke|]. Qed.

Lemma agent_Stop_stopped s : Scheduler.started (Server.sched (agent_Stop s)) = false.
Proof. unfold agent_Stop. by destruct (Scheduler.started (Server.sched s)) eqn:E. Qed.

Lemma agent_step_ok a a' : agent_step sortByStart a a' → agent_ok sortByStart a → agent_ok sortByStart a'.
Proof.
  destruct 1 as [s l stop down told|s l stop down told|s l stop down told|s l stop down told
    |s l stop down told Hno|s m l stop told Hm
    |now barrier active tries reconciled s m l stop down l' s' told Hpc _ E|s m l stop down told Hpc
    |s m l stop down told Hpc|s m l stop down told Hpc Hend|s s' m l stop down told Hstep Hsame
    |s m l stop down told|s m l stop down told];
    intros [Hs Hst Hidle]; cbn [Agent.server Agent.loop Agent.monitoring Agent.told] in *; try by split.
  - split; [done| |done]. cbn. specialize (Hidle eq_refl).
    assert (leading l = false) as Hl by (destruct l; [unfold leading; by rewrite Hidle, andb_false_r|done]).
    apply run_by_idle; [|done]. apply not_true_is_false. intros Hx. apply Hst in Hx. congruence.
  - destruct (at_reconcile_ok _ _ _ _ _ _ _ _ _ _ _ Hs Hpc Hst E) as [Hs' Hst']. split; [done|done|].
    intros Hi. specialize (Hidle Hi). cbn in Hidle. by rewrite Hpc in Hidle.
  - split; [done| |]; cbn [Agent.server Agent.loop Agent.monitoring Agent.told].
    + unfold run_by, leading, no_loop in *. by rewrite Hpc in Hst.
    + intros Hi. specialize (Hidle Hi). cbn in Hidle. by rewrite Hpc in Hidle.
  - split; cbn [Agent.server Agent.loop Agent.monitoring Agent.told]; [| |done].
    + unfold leave. destruct (Loop.establishedLeader l); [by apply served_revoke|done].
    + apply run_by_idle; [|unfold leading; by rewrite andb_false_r]. unfold leave, run_by, leading in *.
      destruct (Loop.establishedLeader l); [done|]. apply not_true_is_false. by intros Hx%Hst.
  - split; [by eapply served_step| |done]. cbn. unfold run_by. by rewrite Hsame.
  - split; [by apply agent_Stop_served| |done]. cbn.
    unfold run_by. by rewrite agent_Stop_stopped.
Qed.

Lemma agent_reachable_ok a : agent_reachable sortByStart a → agent_ok sortByStart a.
Proof.
  induction 1 as [db Hdb|a a' _ IH Hstep]; [|by eapply agent_step_ok].
  split; [by apply served_start|done|done].
Qed.
End lemmas.

Section theorems.
Context `{Env, Engine, !EngineLaws, !TimezoneLaw}.
Variable sortByStart : list Exec.t → list Exec.t.

(** C3. Only an established leader runs the schedule: in every state that
    monitor, loop, requests and [Agent.Stop] lead to, in any order, the scheduler
    of a server is started only while its leader loop runs and has established
    leadership, and exactly then as long as the agent has not been told to stop;
    telling it stops the scheduler; whenever it is started it holds the stored jobs
    (requests and the log as in file Server); while the monitor waits to be told that the
    server leads, no loop runs and the scheduler is stopped, so a new loop is never
    started beside another. *)
Theorem leader_runs_schedule a :
  agent_reachable sortByStart a →
  (Scheduler.started (Server.sched (Agent.server a)) = true → leading (Agent.loop a) = true) ∧
  (Agent.told a = false → leading (Agent.loop a) = true →
     Scheduler.started (Server.sched (Agent.server a)) = true) ∧
  Scheduler.started (Server.sched (agent_Stop (Agent.server a))) = false ∧
  (Scheduler.started (Server.sched (Agent.server a)) = true → follows (Agent.server a)) ∧
  (Agent.monitoring a = Idle →
     no_loop (Agent.loop a) = true ∧ Scheduler.started (Server.sched (Agent.server a)) = false).
Proof.
  intros [Hs [Hst Hst'] Hidle]%agent_reachable_ok. split; [done|].
  split; [intros Ht; apply Hst'; by rewrite Ht|]. split; [apply agent_Stop_stopped|]. split.
  - apply (served_ok _ _ Hs).
  - intros Hi. specialize (Hidle Hi). split; [done|]. apply not_true_is_false. intros Hx%Hst.
    destruct (Agent.loop a) as [l|]; [|done]. unfold leading in Hx. by rewrite Hidle, andb_false_r in Hx.
Qed.
End theorems.

(** ** Example *)

Section demo.
#[local] Existing Instance demo_env.
#[local] Existing Instance demo_timezone.

(** A server gains leadership, is given a job, and loses leadership again. *)
Definition established : Loop.t := Loop.mk AtWait true.
Definition agent_leads : Agent.t := Agent.mk demo_one Watching (Some established) false false false.
Definition agent_lost : Agent.t :=
  Agent.mk (revokeLeadership demo_one) Idle (Some (Loop.mk AtEnd true)) true false false.
(** Told to stop while it leads. *)
Definition agent_told : Agent.t :=
  Agent.mk (agent_Stop demo_one) Watching (Some established) false false true.

Lemma reachable_leads : agent_reachable no_sort agent_leads.
Proof.
  eapply agent_next; [|apply (agent_request _ demo_leader demo_one)].
  - eapply agent_next; [eapply agent_next|].
    + apply (agent_start _ DB.empty), reachable_empty.
    + apply monitor_gained.
    + eapply (loop_reconcile _ 0 true (Some []) [Transferred; Transferred; Transferred] true);
        [reflexivity|reflexivity|]. vm_compute. reflexivity.
  - apply (step_create _ 1 demo_a _ _ 201); vm_compute; reflexivity.
  - vm_compute. reflexivity.
Qed.

Lemma reachable_lost : agent_reachable no_sort agent_lost.
Proof.
  eapply agent_next; [eapply agent_next; [eapply agent_next; [exact reachable_leads|]|]|].
  - apply monitor_lost.
  - by apply loop_leaves.
  - by apply monitor_stopped.
Qed.

Lemma reachable_told : agent_reachable no_sort agent_told.
Proof. eapply agent_next; [exact reachable_leads|]. apply agent_stop. Qed.

Lemma leader_runs_schedule_witness :
  Scheduler.started (Server.sched (Agent.server agent_leads)) = true ∧
  (Job.Name <$> jobs_held (Server.sched (Agent.server agent_leads))) = ["a"] ∧
  follows (Agent.server agent_leads) ∧
  (leading (Agent.loop agent_told) = true ∧ Scheduler.started (Server.sched (Agent.server agent_told)) = false) ∧
  Scheduler.started (Server.sched (Agent.server agent_lost)) = false.
Proof.
  assert (Scheduler.started (Server.sched (Agent.server agent_leads)) = true) as Hst
    by (apply (leader_runs_schedule no_sort agent_leads reachable_leads); reflexivity).
  split; [exact Hst|]. split; [vm_compute; reflexivity|]. split; [|split; [split|]].
  - apply (leader_runs_schedule no_sort agent_leads reachable_leads). exact Hst.
  - reflexivity.
  - apply (leader_runs_schedule no_sort agent_leads reachable_leads).
  - apply (leader_runs_schedule no_sort agent_lost reachable_lost). reflexivity.
Defined.
End demo.
