(* ===== verification/Membership.v ===== *)
(** * Membership: the servers of the log follow the members of the cluster

    src/dkron/leader.go and isServer of src/dkron/utils.go: the leader adds the
    servers among the members of the cluster (serf) to the configuration of the
    replicated log (raft), and removes those that have left.  Raft is an
    interface: [Raft] has the two operations, [RaftLaws] what its documentation
    says of them, and the configuration at the end of the file obeys it; reading
    the configuration does not fail.  The theorem: when it meets no error, a reconciliation brings the configuration
    in line with the members, and another one appends nothing to the log. *)

From S2P Require Import Prelude GoCore GoNet Nodes.

(** ** Servers *)

Module Member.
(** [serf.Member]; the address is its text, and no status is [StatusReap]. *)
Record t := mk {
  Name : string;
  Addr : string;
  Tags : gmap string string;
  Status : option MemberStatus;
}.
End Member.

Module ServerParts.
Record t := mk {
  Name : string;
  ID : string;
  Region : string;
  Datacenter : string;
  Port : Z;
  Bootstrap : bool;
  Expect : Z;
  Addr : string;
  RPCAddr : string;
  Status : option MemberStatus;
}.
End ServerParts.

(** [m.Tags[key]], the empty string when there is none. *)
Definition tag (key : string) (m : Member.t) : string := default "" (Member.Tags m !! key).

(** [None] is a member that is no server. *)
Definition isServer (m : Member.t) : option ServerParts.t :=
  if negb (String.eqb (tag "role" m) "dkron") then None
  else if negb (String.eqb (tag "server" m) "true") then None
  else
    let bootstrap := bool_decide (is_Some (Member.Tags m !! "bootstrap")) in
    let (expect, expect_ok) :=
      match Member.Tags m !! "expect" with Some expectStr => Atoi expectStr | None => (0, true) end in
    if negb expect_ok then None else
    let bootstrap := if expect =? 1 then true else bootstrap in
    let rpcIP := match ParseIP (tag "rpc_addr" m) with Some ip => IP_String ip | None => Member.Addr m end in
    let (port, port_ok) := Atoi (tag "port" m) in
    if negb port_ok then None else
    Some (ServerParts.mk (Member.Name m) (Member.Name m) (tag "region" m) (tag "dc" m) port bootstrap expect
            (TCPAddr_String (Member.Addr m) port) (TCPAddr_String rpcIP port) (Member.Status m)).

(** [strings.EqualFold] of ASCII strings. *)
Definition fold_char (c : ascii) : ascii :=
  let n := nat_of_ascii c in
  if Nat.leb 65 n && Nat.leb n 90 then ascii_of_nat (n + 32) else c.
Fixpoint fold_case (s : string) : string :=
  match s with EmptyString => EmptyString | String c s => String (fold_char c) (fold_case s) end.
Definition EqualFold (s t : string) : bool := String.eqb (fold_case s) (fold_case t).

(** ** The configuration of the log *)

Module RaftServer.
Record t := mk { ID : string; Address : string; Voter : bool }.
End RaftServer.

#[global] Instance RaftServer_eq_dec : EqDecision RaftServer.t.
Proof. solve_decision. Defined.

Definition Configuration : Type := list RaftServer.t.

(** A change of the configuration that is applied, or [None]. *)
Class Raft := {
  AddVoter (id address : string) : Configuration → option Configuration;
  RemoveServer (id : string) : Configuration → option Configuration;
}.

(** No two servers share an identifier or an address. *)
Definition config_ok (c : Configuration) : Prop :=
  NoDup (RaftServer.ID <$> c) ∧ NoDup (RaftServer.Address <$> c).

(** A voter is added, or replaces the server with its identifier; a server is
    removed; a change to a configuration that is not valid is refused. *)
Class RaftLaws `{Raft} : Prop := {
  AddVoter_spec id address c c' : AddVoter id address c = Some c' →
    config_ok c' ∧
    ∀ s, s ∈ c' ↔ s = RaftServer.mk id address true ∨ (s ∈ c ∧ RaftServer.ID s ≠ id);
  RemoveServer_spec id c c' : RemoveServer id c = Some c' → config_ok c →
    config_ok c' ∧ ∀ s, s ∈ c' ↔ s ∈ c ∧ RaftServer.ID s ≠ id;
}.

(** ** Reconciliation *)

(** The configuration, and the number of changes that were appended to the log. *)
Record peers := mk_peers { servers : Configuration; appended : nat }.

Inductive reconcile_error : Type :=
  | ErrRemoving
  | ErrAdding.

Section leader.
Context `{Raft}.
(** The settings of the leader, and the members it knows. *)
Variable NodeName Region : string.
Variable Members : list Member.t.

Definition raft_remove (id : string) (p : peers) : peers * option reconcile_error :=
  match RemoveServer id (servers p) with
  | Some c => (mk_peers c (S (appended p)), None)
  | None => (p, Some ErrRemoving)
  end.

Definition raft_add (id address : string) (p : peers) : peers * option reconcile_error :=
  match AddVoter id address (servers p) with
  | Some c => (mk_peers c (S (appended p)), None)
  | None => (p, Some ErrAdding)
  end.

(** The loop over the servers the configuration had; [true] when it is left
    with a return. *)
Fixpoint addRaftPeer_loop (id addr : string) (known : Configuration) (p : peers)
    : peers * bool * option reconcile_error :=
  match known with
  | [] => (p, false, None)
  | server :: known =>
      let same_address := String.eqb (RaftServer.Address server) addr in
      let same_id := String.eqb (RaftServer.ID server) id in
      if same_address && same_id then (p, true, None)
      else if same_address then
        let (p, err) := raft_remove (RaftServer.ID server) p in
        match err with
        | Some err => (p, true, Some err)
        | None => addRaftPeer_loop id addr known p
        end
      else addRaftPeer_loop id addr known p
  end.

(** Another server is in bootstrap mode, too. *)
Definition bootstrap_conflict (m : Member.t) (parts : ServerParts.t) : bool :=
  ServerParts.Bootstrap parts &&
  existsb (λ member,
    match isServer member with
    | Some p => negb (String.eqb (Member.Name member) (Member.Name m)) && ServerParts.Bootstrap p
    | None => false
    end) Members.

Definition addRaftPeer (m : Member.t) (parts : ServerParts.t) (p : peers)
    : peers * option reconcile_error :=
  if bootstrap_conflict m parts then (p, None) else
  let addr := TCPAddr_String (Member.Addr m) (ServerParts.Port parts) in
  if String.eqb (Member.Name m) NodeName && Nat.ltb (length (servers p)) 3 then (p, None) else
  let '(p, returned, err) := addRaftPeer_loop (ServerParts.ID parts) addr (servers p) p in
  if returned then (p, err) else raft_add (ServerParts.ID parts) addr p.

Definition removeRaftPeer (m : Member.t) (parts : ServerParts.t) (p : peers)
    : peers * option reconcile_error :=
  if EqualFold (Member.Name m) NodeName then (p, None)
  else if existsb (λ server, String.eqb (RaftServer.ID server) (ServerParts.ID parts)) (servers p)
  then raft_remove (ServerParts.ID parts) p
  else (p, None).

Definition reconcileMember (m : Member.t) (p : peers) : peers * option reconcile_error :=
  match isServer m with
  | None => (p, None)
  | Some parts =>
      if negb (String.eqb (ServerParts.Region parts) Region) then (p, None) else
      match Member.Status m with
      | Some StatusAlive => addRaftPeer m parts p
      | Some StatusLeft => removeRaftPeer m parts p
      | _ => (p, None)
      end
  end.

Fixpoint reconcile_loop (members : list Member.t) (p : peers) : peers * option reconcile_error :=
  match members with
  | [] => (p, None)
  | member :: members =>
      let (p, err) := reconcileMember member p in
      match err with
      | Some err => (p, Some err)
      | None => reconcile_loop members p
      end
  end.

Definition reconcile (p : peers) : peers * option reconcile_error := reconcile_loop Members p.
End leader.

(** ** Lemmas *)

Definition has (id address : string) (c : Configuration) : Prop :=
  ∃ voter, RaftServer.mk id address voter ∈ c.

(** What [isServer] reads, when it returns a server. *)
Ltac isServer_inv :=
  unfold isServer; repeat (destruct (negb _); [done|]);
  destruct (match _ !! "expect" with Some _ => _ | None => _ end) as [? []]; [|done];
  destruct (Atoi _) as [? []]; [|done]; by intros [= <-].

Section lemmas.
Context `{Raft, !RaftLaws}.
Variable NodeName Region : string.
Variable Members : list Member.t.

Lemma isServer_ID m parts : isServer m = Some parts →
  ServerParts.ID parts = Member.Name m ∧ ServerParts.Name parts = Member.Name m.
Proof.
  isServer_inv.
Qed.

Lemma isServer_Addr m parts : isServer m = Some parts →
  ServerParts.Addr parts = TCPAddr_String (Member.Addr m) (ServerParts.Port parts) ∧
  ServerParts.RPCAddr parts =
    TCPAddr_String match ParseIP (tag "rpc_addr" m) with Some ip => IP_String ip | None => Member.Addr m end
      (ServerParts.Port parts).
Proof.
  isServer_inv.
Qed.

Lemma isServer_Status m parts : isServer m = Some parts → ServerParts.Status parts = Member.Status m.
Proof.
  isServer_inv.
Qed.

(** The agents announce an address with a port as [rpc_addr], which is never the
    IP address this looks for. *)
Lemma rpc_addr_unused m parts ip port : IP_ok ip → tag "rpc_addr" m = JoinHostPort (IP_String ip) port →
  isServer m = Some parts → ServerParts.RPCAddr parts = ServerParts.Addr parts.
Proof. intros Hip Ht [-> ->]%isServer_Addr. by rewrite Ht, ParseIP_JoinHostPort. Qed.

Lemma addRaftPeer_loop_skip id addr known p :
  (∀ s, s ∈ known → RaftServer.Address s ≠ addr) →
  addRaftPeer_loop id addr known p = (p, false, None).
Proof.
  revert p. induction known as [|s known IH]; intros p Hk; cbn [addRaftPeer_loop]; [done|].
  assert (RaftServer.Address s ≠ addr) as Hs by (apply Hk; left).
  apply String.eqb_neq in Hs. rewrite Hs. cbn [andb]. apply IH. intros x Hx. apply Hk. by right.
Qed.

(** One server has the address: the one that is added, or one to remove. *)
Lemma addRaftPeer_loop_at id addr l1 s l2 p :
  NoDup (RaftServer.Address <$> l1 ++ s :: l2) → RaftServer.Address s = addr →
  addRaftPeer_loop id addr (l1 ++ s :: l2) p =
    if String.eqb (RaftServer.ID s) id then (p, true, None)
    else let (p, err) := raft_remove (RaftServer.ID s) p in
         match err with Some err => (p, true, Some err) | None => (p, false, None) end.
Proof.
  intros Hnd Ha. rewrite fmap_app in Hnd. apply NoDup_app in Hnd as (_ & Hd & Hnd).
  cbn [fmap list_fmap] in *. apply NoDup_cons in Hnd as [Hs _].
  assert (∀ x, x ∈ l2 → RaftServer.Address x ≠ addr) as Hl2.
  { intros x Hx E. apply Hs. rewrite Ha, <- E. by apply list_elem_of_fmap_2. }
  assert (∀ x, x ∈ l1 → RaftServer.Address x ≠ addr) as Hl1.
  { intros x Hx E. apply (Hd (RaftServer.Address x)); [by apply list_elem_of_fmap_2|]. rewrite E, Ha. left. }
  clear Hd Hs. induction l1 as [|x l1 IH]; cbn [app addRaftPeer_loop].
  - apply String.eqb_eq in Ha. rewrite Ha. cbn [andb]. destruct (String.eqb _ id); [done|].
    destruct (raft_remove _ p) as [p' [err|]]; [done|]. by apply addRaftPeer_loop_skip.
  - assert (RaftServer.Address x ≠ addr) as Hx by (apply Hl1; left).
    apply String.eqb_neq in Hx. rewrite Hx. cbn [andb]. apply IH. intros y Hy. apply Hl1. by right.
Qed.

Lemma raft_remove_spec id p p' : config_ok (servers p) → raft_remove id p = (p', None) →
  config_ok (servers p') ∧ ∀ s, s ∈ servers p' ↔ s ∈ servers p ∧ RaftServer.ID s ≠ id.
Proof.
  intros Hok. unfold raft_remove. destruct (RemoveServer _ _) as [c|] eqn:E; [|done]. intros [= <-].
  by apply RemoveServer_spec in E.
Qed.

Lemma raft_add_spec id address p p' : raft_add id address p = (p', None) →
  config_ok (servers p') ∧
  ∀ s, s ∈ servers p' ↔ s = RaftServer.mk id address true ∨ (s ∈ servers p ∧ RaftServer.ID s ≠ id).
Proof.
  unfold raft_add. destruct (AddVoter _ _ _) as [c|] eqn:E; [|done]. intros [= <-]. by apply AddVoter_spec in E.
Qed.

(** Two servers of a valid configuration with one address, or one identifier, are
    the same. *)
Lemma config_ok_inj c s t : config_ok c → s ∈ c → t ∈ c →
  RaftServer.ID s = RaftServer.ID t ∨ RaftServer.Address s = RaftServer.Address t → s = t.
Proof.
  intros [Hi Ha] [i Hs]%list_elem_of_lookup [j Ht]%list_elem_of_lookup [E|E].
  - assert (i = j) as ->; [|congruence].
    apply (NoDup_lookup _ i j (RaftServer.ID s) Hi); rewrite list_lookup_fmap; [by rewrite Hs|by rewrite Ht, E].
  - assert (i = j) as ->; [|congruence].
    apply (NoDup_lookup _ i j (RaftServer.Address s) Ha); rewrite list_lookup_fmap; [by rewrite Hs|by rewrite Ht, E].
Qed.

(** ** One member *)

(** A server of the region that is alive at this address. *)
Definition alive_at (m : Member.t) (addr : string) : Prop := ∃ parts, isServer m = Some parts ∧
  ServerParts.Region parts = Region ∧ Member.Status m = Some StatusAlive ∧
  addr = TCPAddr_String (Member.Addr m) (ServerParts.Port parts).

(** A server of the region that has left, and is not the leader itself. *)
Definition gone (m : Member.t) : Prop := ∃ parts, isServer m = Some parts ∧
  ServerParts.Region parts = Region ∧ Member.Status m = Some StatusLeft ∧
  EqualFold (Member.Name m) NodeName = false.

(** The configuration has what there is to know of the member. *)
Definition settled (c : Configuration) (m : Member.t) : Prop :=
  (∀ addr, alive_at m addr → has (Member.Name m) addr c) ∧
  (gone m → ∀ s, s ∈ c → RaftServer.ID s ≠ Member.Name m).

(** What happens to the configuration [c] for the sake of [m]. *)
Definition touches (m : Member.t) (c c' : Configuration) : Prop :=
  (∀ s, RaftServer.ID s ≠ Member.Name m → (∀ addr, alive_at m addr → RaftServer.Address s ≠ addr) →
     s ∈ c ↔ s ∈ c') ∧
  (∀ s, s ∈ c' → s ∈ c ∨ (RaftServer.ID s = Member.Name m ∧ alive_at m (RaftServer.Address s))).

Lemma touches_refl m c : touches m c c.
Proof. split; [done|by left]. Qed.

Lemma addRaftPeer_spec m addr parts p p' : config_ok (servers p) → isServer m = Some parts →
  alive_at m addr → addr = TCPAddr_String (Member.Addr m) (ServerParts.Port parts) →
  addRaftPeer NodeName Members m parts p = (p', None) →
  config_ok (servers p') ∧ touches m (servers p) (servers p') ∧
  (bootstrap_conflict Members m parts = false → Member.Name m ≠ NodeName →
     has (Member.Name m) addr (servers p')) ∧
  (has (Member.Name m) addr (servers p) → p' = p).
Proof.
  intros Hok Hm Hal Haddr. unfold addRaftPeer. rewrite <- Haddr.
  destruct (isServer_ID m parts Hm) as [Hid _]. rewrite Hid.
  destruct (bootstrap_conflict _ _ _); [intros [= <-]; split_and!; [done|apply touches_refl|done|done]|].
  destruct (_ && Nat.ltb _ 3) eqn:Hself.
  { intros [= <-]. split_and!; [done|apply touches_refl| |done]. intros _ Hne.
    apply andb_true_iff in Hself as [?%String.eqb_eq _]. congruence. }
  destruct (decide (Exists (λ s, RaftServer.Address s = addr) (servers p))) as [Hex|Hno].
  - apply Exists_exists in Hex as (s & Hs & Ha). apply list_elem_of_split in Hs as (l1 & l2 & Hl).
    rewrite Hl at 1. rewrite addRaftPeer_loop_at by (done || (rewrite <- Hl; apply Hok)).
    assert (s ∈ servers p) as Hs by (rewrite Hl; set_solver).
    destruct (String.eqb_spec (RaftServer.ID s) (Member.Name m)) as [Hi|Hi].
    { intros [= <-]. split_and!; [done|apply touches_refl| |done]. intros _ _. exists (RaftServer.Voter s).
      destruct s; cbn in *. by subst. }
    destruct (raft_remove _ p) as [p1 [err|]] eqn:Hrm; [done|].
    apply raft_remove_spec in Hrm as [Hok1 Hrm]; [|done]. intros [Hok2 Hadd]%raft_add_spec.
    split; [done|]. split; [|split].
    + split.
      * intros x Hx Hxa. rewrite Hadd, Hrm. split; [|by intros [->|[[? _] _]]].
        intros Hin. right. split; [|done]. split; [done|]. intros E. apply (Hxa addr Hal).
        by rewrite (config_ok_inj _ x s Hok Hin Hs (or_introl E)).
      * intros x [->|[Hx _]]%Hadd; [by right|]. apply Hrm in Hx as [? _]. by left.
    + intros _ _. exists true. apply Hadd. by left.
    + intros [v Hv]. destruct Hi. by rewrite <- (config_ok_inj _ _ s Hok Hv Hs (or_intror (eq_sym Ha))).
  - rewrite addRaftPeer_loop_skip.
    2: { intros s Hs E. apply Hno, Exists_exists. eauto. }
    intros [Hok2 Hadd]%raft_add_spec. split; [done|]. split; [|split].
    + split.
      * intros x Hx Hxa. rewrite Hadd. split; [by right|]. by intros [->|[? _]].
      * intros x [->|[? _]]%Hadd; [by right|by left].
    + intros _ _. exists true. apply Hadd. by left.
    + intros [v Hv]. destruct Hno. apply Exists_exists. eexists. split; [exact Hv|done].
Qed.

Lemma removeRaftPeer_spec m parts p p' : config_ok (servers p) → isServer m = Some parts →
  (∀ addr, ¬ alive_at m addr) → removeRaftPeer NodeName m parts p = (p', None) →
  config_ok (servers p') ∧ touches m (servers p) (servers p') ∧
  (EqualFold (Member.Name m) NodeName = false → ∀ s, s ∈ servers p' → RaftServer.ID s ≠ Member.Name m) ∧
  ((∀ s, s ∈ servers p → RaftServer.ID s ≠ Member.Name m) → p' = p).
Proof.
  intros Hok Hm Hal. unfold removeRaftPeer. destruct (isServer_ID m parts Hm) as [-> _].
  destruct (EqualFold _ _); [intros [= <-]; split_and!; [done|apply touches_refl|done|done]|].
  destruct (existsb _ _) eqn:Hex.
  - apply existsb_exists in Hex as (x & Hx%list_elem_of_In & Hi%String.eqb_eq).
    intros [Hok1 Hrm]%raft_remove_spec; [|done]. split; [done|]. split; [|split].
    + split; [intros s Hs _; rewrite Hrm; tauto|]. intros s [? _]%Hrm. by left.
    + by intros _ s [_ ?]%Hrm.
    + intros Hno. by destruct (Hno x Hx).
  - intros [= <-]. split_and!; [done|apply touches_refl| |done]. intros _ s Hs Hi.
    assert (existsb (λ server, String.eqb (RaftServer.ID server) (Member.Name m)) (servers p) = true); [|congruence].
    apply existsb_exists. exists s. split; [by apply list_elem_of_In|]. by apply String.eqb_eq.
Qed.

Lemma reconcileMember_spec m p p' : config_ok (servers p) →
  reconcileMember NodeName Region Members m p = (p', None) →
  config_ok (servers p') ∧ touches m (servers p) (servers p') ∧
  ((∀ parts, isServer m = Some parts → bootstrap_conflict Members m parts = false) →
     Member.Name m ≠ NodeName → settled (servers p') m) ∧
  (settled (servers p) m → p' = p).
Proof.
  intros Hok. unfold reconcileMember.
  assert ((∀ addr, ¬ alive_at m addr) → ¬ gone m → (p, None) = (p', @None reconcile_error) →
    config_ok (servers p') ∧ touches m (servers p) (servers p') ∧
    ((∀ parts, isServer m = Some parts → bootstrap_conflict Members m parts = false) →
       Member.Name m ≠ NodeName → settled (servers p') m) ∧
    (settled (servers p) m → p' = p)) as Hnone.
  { intros Ha Hg [= <-]. split_and!; [done|apply touches_refl| |done]. intros _ _.
    split; [by intros addr ?%Ha|done]. }
  destruct (isServer m) as [parts|] eqn:Hm.
  2: { apply Hnone; [intros addr (? & E & _)|intros (? & E & _)]; congruence. }
  destruct (String.eqb_spec (ServerParts.Region parts) Region) as [Hr|Hr]; cbn [negb].
  2: { apply Hnone; [intros addr (? & E & ? & _)|intros (? & E & ? & _)]; rewrite Hm in E;
         pose proof (inj Some _ _ E); congruence. }
  destruct (Member.Status m) as [[]|] eqn:Hst;
    try (apply Hnone; [intros addr (? & _ & _ & ? & _)|intros (? & _ & _ & ? & _)]; congruence).
  - assert (alive_at m (TCPAddr_String (Member.Addr m) (ServerParts.Port parts))) as Hal by by exists parts.
    intros E. destruct (addRaftPeer_spec m _ parts p p' Hok Hm Hal eq_refl E) as (Hok' & Ht & Hh & Hs).
    split; [done|]. split; [done|]. split.
    + intros Hc Hne. split.
      * intros addr (parts' & E' & _ & _ & ->). rewrite Hm in E'. rewrite <- (inj Some _ _ E').
        apply Hh; [by apply Hc|done].
      * intros (? & _ & _ & ? & _). congruence.
    + intros [Hset _]. apply Hs, Hset, Hal.
  - assert (∀ addr, ¬ alive_at m addr) as Hal by (intros addr (? & _ & _ & ? & _); congruence).
    intros E. destruct (removeRaftPeer_spec m parts p p' Hok Hm Hal E) as (Hok' & Ht & Hh & Hs).
    split; [done|]. split; [done|]. split.
    + intros _ _. split; [by intros addr ?%Hal|]. intros (? & _ & _ & _ & Hf). by apply Hh.
    + intros [_ Hset]. destruct (EqualFold (Member.Name m) NodeName) eqn:Hf.
      * revert E. unfold removeRaftPeer. rewrite Hf. by intros [= <-].
      * apply Hs, Hset. by exists parts.
Qed.

(** A settled member needs nothing. *)
Lemma reconcileMember_settled m p : config_ok (servers p) → settled (servers p) m →
  reconcileMember NodeName Region Members m p = (p, None).
Proof.
  intros Hok [Hh Hg]. unfold reconcileMember. destruct (isServer m) as [parts|] eqn:Hm; [|done].
  destruct (String.eqb_spec (ServerParts.Region parts) Region) as [Hr|Hr]; cbn [negb]; [|done].
  destruct (Member.Status m) as [[]|] eqn:Hst; try done.
  - specialize (Hh _ ltac:(by exists parts)) as [v Hv]. unfold addRaftPeer.
    destruct (bootstrap_conflict _ _ _); [done|]. destruct (_ && Nat.ltb _ 3); [done|].
    destruct (isServer_ID m parts Hm) as [-> _]. apply list_elem_of_split in Hv as (l1 & l2 & Hl).
    rewrite Hl at 1. rewrite addRaftPeer_loop_at by (done || (rewrite <- Hl; apply Hok)).
    cbn [RaftServer.ID]. by rewrite String.eqb_refl.
  - unfold removeRaftPeer. destruct (EqualFold _ _) eqn:Hf; [done|]. destruct (isServer_ID m parts Hm) as [-> _].
    assert (gone m) as Hgone by by exists parts. specialize (Hg Hgone).
    destruct (existsb _ _) eqn:Hex; [|done].
    apply existsb_exists in Hex as (x & Hx%list_elem_of_In & Hi%String.eqb_eq). by destruct (Hg x Hx).
Qed.

(** ** All members *)

(** Members have names of their own, servers that are alive addresses of their
    own, and at most one server is in bootstrap mode. *)
Record consistent : Prop := {
  consistent_names : NoDup (Member.Name <$> Members);
  consistent_addresses m1 m2 addr : m1 ∈ Members → m2 ∈ Members →
    alive_at m1 addr → alive_at m2 addr → Member.Name m1 = Member.Name m2;
  consistent_bootstrap m parts : m ∈ Members → isServer m = Some parts →
    bootstrap_conflict Members m parts = false;
}.

Hypothesis Hmembers : consistent.

Lemma settled_touches m m' c c' : m ∈ Members → m' ∈ Members → Member.Name m ≠ Member.Name m' →
  touches m' c c' → settled c m → settled c' m.
Proof.
  intros Hm Hm' Hne [Hkeep Hnew] [Hh Hg]. split.
  - intros addr Ha. destruct (Hh addr Ha) as [v Hv]. exists v. apply Hkeep; [done| |done].
    intros a Ha' <-. apply Hne. by eapply consistent_addresses.
  - intros Hgone s [Hs|[-> _]]%Hnew; [by apply Hg|done].
Qed.

(** A server is not of these members: neither its identifier nor its address. *)
Definition foreign (l : list Member.t) (s : RaftServer.t) : Prop := ∀ m, m ∈ l →
  RaftServer.ID s ≠ Member.Name m ∧ ∀ addr, alive_at m addr → RaftServer.Address s ≠ addr.

Lemma reconcile_loop_spec l p p' : config_ok (servers p) → (∀ m, m ∈ l → m ∈ Members) →
  reconcile_loop NodeName Region Members l p = (p', None) →
  config_ok (servers p') ∧
  (∀ m, m ∈ Members → settled (servers p) m → settled (servers p') m) ∧
  (∀ m, m ∈ l → Member.Name m ≠ NodeName → settled (servers p') m) ∧
  (∀ s, s ∈ servers p' → s ∈ servers p ∨
     ∃ m, m ∈ l ∧ RaftServer.ID s = Member.Name m ∧ alive_at m (RaftServer.Address s)) ∧
  (∀ s, foreign l s → s ∈ servers p → s ∈ servers p').
Proof.
  revert p. induction l as [|m l IH]; intros p Hok Hl; cbn [reconcile_loop].
  { intros [= <-]. split_and!; [done|done|by intros m ?%elem_of_nil|by left|done]. }
  destruct (reconcileMember _ _ _ m p) as [p1 [err|]] eqn:Em; [done|]. intros El.
  assert (m ∈ Members) as Hm by (apply Hl; left).
  destruct (reconcileMember_spec m p p1 Hok Em) as (Hok1 & Ht & Hset & Hsame).
  destruct (IH p1 Hok1 ltac:(intros x Hx; apply Hl; by right) El) as (Hok' & Hpres & Hall & Hnew & Hkeep).
  split; [done|]. split; [|split; [|split]].
  - intros x Hx Hsx. apply Hpres; [done|]. destruct (decide (Member.Name x = Member.Name m)) as [E|E].
    + assert (x = m) as ->.
      { apply list_elem_of_lookup in Hx as [i Hi]. apply list_elem_of_lookup in Hm as [j Hj].
        assert (i = j) as ->; [|congruence].
        apply (NoDup_lookup _ i j (Member.Name x) (consistent_names Hmembers)); rewrite list_lookup_fmap;
          [by rewrite Hi|by rewrite Hj, E]. }
      by rewrite (Hsame Hsx).
    + by apply (settled_touches x m (servers p)).
  - intros x [->|Hx]%elem_of_cons Hne; [|by apply Hall].
    apply Hpres; [done|]. apply Hset; [|done]. intros parts. by apply consistent_bootstrap.
  - intros s [Hs|(x & Hx & Hi)]%Hnew.
    + destruct (proj2 Ht s Hs) as [?|[? ?]]; [by left|right]. exists m. split_and!; [left|done..].
    + right. exists x. split_and!; [by right|apply Hi..].
  - intros s Hf Hs. apply Hkeep; [intros x Hx; apply Hf; by right|]. apply (proj1 Ht); [| |done]; apply Hf; left.
Qed.

Lemma reconcile_loop_settled l p : config_ok (servers p) → (∀ m, m ∈ l → settled (servers p) m) →
  reconcile_loop NodeName Region Members l p = (p, None).
Proof.
  intros Hok. induction l as [|m l IH]; intros Hl; cbn [reconcile_loop]; [done|].
  rewrite reconcileMember_settled by (done || (apply Hl; left)). apply IH. intros x Hx. apply Hl. by right.
Qed.
End lemmas.

Section theorems.
Context `{Raft, !RaftLaws}.
Variable NodeName Region : string.
Variable Members : list Member.t.

(** C17. The servers of the log follow the members of the cluster: when members
    are consistent and the leader itself is configured as it is, a
    reconciliation without an error leaves a valid configuration in which every
    server of the region that is alive has its name and its present address,
    and no server that has left is found; all it adds are such servers, and
    servers that have neither the name nor the address of a member stay.
    Another reconciliation then changes nothing and appends nothing to the
    log. *)
Theorem reconcile_settles p p' :
  config_ok (servers p) → consistent Region Members →
  (∀ m addr, m ∈ Members → Member.Name m = NodeName → alive_at Region m addr → has NodeName addr (servers p)) →
  reconcile NodeName Region Members p = (p', None) →
  config_ok (servers p') ∧
  (∀ m addr, m ∈ Members → alive_at Region m addr → has (Member.Name m) addr (servers p')) ∧
  (∀ m s, m ∈ Members → gone NodeName Region m → s ∈ servers p' → RaftServer.ID s ≠ Member.Name m) ∧
  (∀ s, s ∈ servers p' → s ∈ servers p ∨
     ∃ m, m ∈ Members ∧ RaftServer.ID s = Member.Name m ∧ alive_at Region m (RaftServer.Address s)) ∧
  (∀ s, foreign Region Members s → s ∈ servers p → s ∈ servers p') ∧
  reconcile NodeName Region Members p' = (p', None).
Proof.
  intros Hok Hc Hself Hr. unfold reconcile in *.
  destruct (reconcile_loop_spec NodeName Region Members Hc Members p p' Hok ltac:(done) Hr)
    as (Hok' & Hpres & Hall & Hnew & Hkeep).
  assert (∀ m, m ∈ Members → settled NodeName Region (servers p') m) as Hset.
  { intros m Hm. destruct (decide (Member.Name m = NodeName)) as [E|E]; [|by apply Hall].
    apply Hpres; [done|]. split; [intros addr Ha; rewrite E; by eapply Hself|].
    intros (? & _ & _ & _ & Hf). rewrite E in Hf. unfold EqualFold in Hf. by rewrite String.eqb_refl in Hf. }
  split; [done|]. split; [intros m addr Hm Ha; by apply (Hset m Hm)|].
  split; [intros m s Hm Hg Hs; by apply (Hset m Hm)|]. split; [done|]. split; [done|].
  by apply reconcile_loop_settled.
Qed.
End theorems.

(** ** A configuration that obeys the laws *)


(** An entry of the configuration in its place, or at the end. *)
Definition list_AddVoter (id address : string) (c : Configuration) : option Configuration :=
  let s := RaftServer.mk id address true in
  let c' :=
    if existsb (λ x, String.eqb (RaftServer.ID x) id) c
    then (λ x, if String.eqb (RaftServer.ID x) id then s else x) <$> c
    else c ++ [s] in
  if decide (config_ok c') then Some c' else None.

Definition list_RemoveServer (id : string) (c : Configuration) : option Configuration :=
  let c' := List.filter (λ x, negb (String.eqb (RaftServer.ID x) id)) c in
  if decide (config_ok c' ∧ Exists (λ x, RaftServer.Voter x = true) c') then Some c' else None.

#[global] Instance list_raft : Raft := {| AddVoter := list_AddVoter; RemoveServer := list_RemoveServer |}.

#[global] Instance list_raft_laws : RaftLaws.
Proof.
  split; cbn [AddVoter RemoveServer list_raft].
  - intros id address c c'. unfold list_AddVoter. destruct (decide _) as [Hok|]; [|done]. intros [= <-].
    split; [done|]. intros s. destruct (existsb _ c) eqn:Hex.
    + rewrite list_elem_of_fmap. split.
      * intros (x & -> & Hx). destruct (String.eqb_spec (RaftServer.ID x) id); [by left|by right].
      * apply existsb_exists in Hex as (y & Hy%list_elem_of_In & Hi).
        intros [->|[Hs Hne]]; [exists y; by rewrite Hi|exists s].
        apply String.eqb_neq in Hne. by rewrite Hne.
    + rewrite elem_of_app, list_elem_of_singleton. split; [|tauto]. intros [Hs|]; [right|by left].
      split; [done|]. intros E.
      assert (existsb (λ x, String.eqb (RaftServer.ID x) id) c = true); [|congruence].
      apply existsb_exists. exists s. split; [by apply list_elem_of_In|by apply String.eqb_eq].
  - intros id c c'. unfold list_RemoveServer. destruct (decide _) as [[Hok _]|]; [|done]. intros [= <-] _.
    split; [done|]. intros s. rewrite list_elem_of_In, List.filter_In, <- list_elem_of_In, negb_true_iff, String.eqb_neq.
    done.
Qed.

(** ** Examples *)

Section demo.
Definition server_tags (port : string) : gmap string string :=
  {[ "role" := "dkron"; "server" := "true"; "region" := "global"; "port" := port ]}.

(** The leader, a server that has moved to the address of one that has left, and
    an agent. *)
Definition demo_servers : list Member.t :=
  [Member.mk "n1" "10.0.0.1" (server_tags "6868") (Some StatusAlive);
   Member.mk "n2" "10.0.0.3" (server_tags "6868") (Some StatusAlive);
   Member.mk "n3" "10.0.0.3" (server_tags "6868") (Some StatusLeft);
   Member.mk "w1" "10.0.0.9" {[ "role" := "dkron" ]} (Some StatusAlive)].
Definition demo_peers : peers :=
  mk_peers [RaftServer.mk "n1" "10.0.0.1:6868" true; RaftServer.mk "n2" "10.0.0.2:6868" true;
            RaftServer.mk "n3" "10.0.0.3:6868" true] 0.
Definition demo_reconciled : peers :=
  mk_peers [RaftServer.mk "n1" "10.0.0.1:6868" true; RaftServer.mk "n2" "10.0.0.3:6868" true] 2.

Lemma consistent_demo : consistent "global" demo_servers.
Proof.
  assert (∀ m addr, m ∈ demo_servers → alive_at "global" m addr →
    (Member.Name m = "n1" ∧ addr = "10.0.0.1:6868") ∨ (Member.Name m = "n2" ∧ addr = "10.0.0.3:6868")) as Ha.
  { intros m addr Hm (parts & E & _ & Hst & ->). unfold demo_servers in Hm.
    repeat (apply elem_of_cons in Hm as [->|Hm]); try discriminate; try (by apply elem_of_nil in Hm);
      vm_compute in E; try discriminate; rewrite <- (inj Some _ _ E); [left|right]; split; reflexivity. }
  split.
  - apply (bool_decide_unpack _). vm_compute. exact I.
  - intros m1 m2 addr H1 H2 [[-> E1]|[-> E1]]%Ha [[-> E2]|[-> E2]]%Ha; try done; subst; discriminate.
  - intros m parts Hm E. unfold bootstrap_conflict.
    assert (ServerParts.Bootstrap parts = false) as ->; [|reflexivity]. unfold demo_servers in Hm.
    repeat (apply elem_of_cons in Hm as [->|Hm]); try (by apply elem_of_nil in Hm);
      vm_compute in E; try discriminate; by rewrite <- (inj Some _ _ E).
Qed.

Lemma reconcile_settles_witness :
  reconcile "n1" "global" demo_servers demo_peers = (demo_reconciled, None) ∧
  has "n2" "10.0.0.3:6868" (servers demo_reconciled) ∧
  reconcile "n1" "global" demo_servers demo_reconciled = (demo_reconciled, None).
Proof.
  assert (reconcile "n1" "global" demo_servers demo_peers = (demo_reconciled, None)) as E
    by (vm_compute; reflexivity).
  split; [exact E|].
  destruct (reconcile_settles "n1" "global" demo_servers demo_peers demo_reconciled) as (_ & Hh & _ & _ & _ & Hr).
  - split; apply (bool_decide_unpack _); vm_compute; exact I.
  - exact consistent_demo.
  - intros m addr Hm Hn (parts & Em & _ & _ & ->). exists true. unfold demo_servers in Hm.
    repeat (apply elem_of_cons in Hm as [->|Hm]); try discriminate; try (by apply elem_of_nil in Hm).
    vm_compute in Em. rewrite <- (inj Some _ _ Em). vm_compute. left.
  - exact E.
  - split; [|exact Hr]. apply (Hh (Member.mk "n2" "10.0.0.3" (server_tags "6868") (Some StatusAlive))).
    + right. left.
    + eexists. split; [vm_compute; reflexivity|]. split; [reflexivity|]. split; reflexivity.
Defined.

(** A server that is reaped keeps its vote: nothing removes it. *)
Lemma reaped_server_stays :
  let reaped := Member.mk "n3" "10.0.0.3" (server_tags "6868") None in
  reconcileMember "n1" "global" [reaped] reaped demo_peers = (demo_peers, None).
Proof. vm_compute. reflexivity. Qed.
End demo.
