(* ===== verification/Gossip.v ===== *)
(** * Gossip: what a server makes of the events of the cluster

    src/dkron/serf.go and src/dkron/server_lookup.go: the servers an agent knows,
    and the bootstrap of the log when as many servers as expected have come
    together.  The log, the members and the answers of other servers are what an
    event finds ([boot_env]).  The theorems: the lookup by identifier, and that by
    address, has exactly the servers announced and not failed since with that key;
    the log is bootstrapped exactly when nothing speaks against it, with the servers
    of the region, and when these are alive the leader has nothing left to
    reconcile. *)

From S2P Require Import Prelude GoCore GoNet Nodes Membership.

(** ** The lookup *)

Module ServerLookup.
Record t := mk {
  addressToServer : gmap string ServerParts.t;
  idToServer : gmap string ServerParts.t;
}.
End ServerLookup.

Definition NewServerLookup : ServerLookup.t := ServerLookup.mk ∅ ∅.

Definition AddServer (server : ServerParts.t) (sl : ServerLookup.t) : ServerLookup.t :=
  ServerLookup.mk (<[ServerParts.RPCAddr server := server]> (ServerLookup.addressToServer sl))
                  (<[ServerParts.ID server := server]> (ServerLookup.idToServer sl)).

Definition lookup_RemoveServer (server : ServerParts.t) (sl : ServerLookup.t) : ServerLookup.t :=
  ServerLookup.mk (delete (ServerParts.RPCAddr server) (ServerLookup.addressToServer sl))
                  (delete (ServerParts.ID server) (ServerLookup.idToServer sl)).

(** [None] is the error. *)
Definition ServerAddr (id : string) (sl : ServerLookup.t) : option string :=
  ServerParts.RPCAddr <$> ServerLookup.idToServer sl !! id.

Definition lookup_Server (addr : string) (sl : ServerLookup.t) : option ServerParts.t :=
  ServerLookup.addressToServer sl !! addr.

(** The order of a map is arbitrary; this is one. *)
Definition lookup_Servers (sl : ServerLookup.t) : list ServerParts.t :=
  (map_to_list (ServerLookup.addressToServer sl)).*2.

(** The servers [fn] is called with, in that order. *)
Fixpoint check_servers (fn : ServerParts.t → bool) (servers : list ServerParts.t) : list ServerParts.t :=
  match servers with
  | [] => []
  | srv :: servers => srv :: if fn srv then check_servers fn servers else []
  end.
Definition CheckServers (fn : ServerParts.t → bool) (sl : ServerLookup.t) : list ServerParts.t :=
  check_servers fn (lookup_Servers sl).

(** ** The agent *)

Module Gossip.
Record t := mk {
  lookup : ServerLookup.t;
  peers : gmap string (list ServerParts.t);
  localPeers : gmap string ServerParts.t;
  BootstrapExpect : Z;
  reconcileCh : option (list Member.t * nat);  (** queued members and room; [None] is a nil channel *)
  bootstraps : list Configuration;             (** calls of [BootstrapCluster] *)
}.
End Gossip.

(** [raftStore.LastIndex]: [NoRaft] has neither of the stores. *)
Inductive raft_log : Type :=
  | NoRaft
  | LastIndexError
  | LastIndex (index : Z).

(** What an attempt to bootstrap finds: the log, the members, and what servers
    answer when asked for the n-th time. *)
Record boot_env := mk_boot {
  boot_log : raft_log;
  boot_members : list Member.t;
  RaftGetConfiguration : string → nat → option (list string);
}.

Definition maxPeerRetries : nat := 6.

Section agent.
(** [config.Region], [config.Server]. *)
Variables (Region : string) (is_server : bool).

(** The members of the region; [None] is a return. *)
Fixpoint scan_members (expect : Z) (members : list Member.t) : option (list ServerParts.t) :=
  match members with
  | [] => Some []
  | member :: members =>
      match isServer member with
      | None => scan_members expect members
      | Some p =>
          if negb (String.eqb (ServerParts.Region p) Region) then scan_members expect members
          else if negb (ServerParts.Expect p =? 0) && negb (ServerParts.Expect p =? expect) then None
          else if ServerParts.Bootstrap p then None
          else match scan_members expect members with Some servers => Some (p :: servers) | None => None end
      end
  end.

(** At most [n] attempts to ask a server, from [attempt] on: its first answer. *)
Fixpoint ask_peers (ask : nat → option (list string)) (attempt n : nat) : list string :=
  match n with
  | O => []
  | S n => match ask attempt with Some peers => peers | None => ask_peers ask (S attempt) n end
  end.

(** Some server reports peers. *)
Definition has_peers (env : boot_env) (servers : list ServerParts.t) : bool :=
  existsb (λ server,
    negb (bool_decide (ask_peers (RaftGetConfiguration env (ServerParts.RPCAddr server)) 0 maxPeerRetries = [])))
    servers.

(** The configuration a bootstrap starts with. *)
Definition boot_configuration (servers : list ServerParts.t) : Configuration :=
  (λ server, RaftServer.mk (ServerParts.ID server) (ServerParts.Addr server) true) <$> servers.

(** The number of servers still expected, and the configuration
    [BootstrapCluster] is called with; [None] is a panic. *)
Definition maybeBootstrap (env : boot_env) (expect : Z) : option (Z * option Configuration) :=
  match boot_log env with
  | NoRaft => None
  | LastIndexError => Some (expect, None)
  | LastIndex index =>
      if negb (index =? 0) then Some (0, None) else
      match scan_members expect (boot_members env) with
      | None => Some (expect, None)
      | Some servers =>
          if Z.of_nat (length servers) <? expect then Some (expect, None)
          else if has_peers env servers then Some (0, None)
          else Some (0, Some (boot_configuration servers))
      end
  end.

(** The loop over the known servers of a region: [None] when it is not found. *)
Fixpoint replace_peer (parts : ServerParts.t) (existing : list ServerParts.t) : option (list ServerParts.t) :=
  match existing with
  | [] => None
  | e :: existing =>
      if String.eqb (ServerParts.Name e) (ServerParts.Name parts) then Some (parts :: existing)
      else match replace_peer parts existing with Some l => Some (e :: l) | None => None end
  end.

Definition known_in (region : string) (s : Gossip.t) : list ServerParts.t := default [] (Gossip.peers s !! region).

(** One member of [nodeJoin]; [None] is a panic. *)
Definition node_joins (env : boot_env) (m : Member.t) (s : Gossip.t) : option Gossip.t :=
  match isServer m with
  | None => Some s
  | Some parts =>
      let region := ServerParts.Region parts in
      let existing := known_in region s in
      let s := Gossip.mk (AddServer parts (Gossip.lookup s))
        (<[region := match replace_peer parts existing with Some l => l | None => existing ++ [parts] end]> (Gossip.peers s))
        (if String.eqb region Region then <[ServerParts.Addr parts := parts]> (Gossip.localPeers s) else Gossip.localPeers s)
        (Gossip.BootstrapExpect s) (Gossip.reconcileCh s) (Gossip.bootstraps s) in
      if Gossip.BootstrapExpect s =? 0 then Some s else
      match maybeBootstrap env (Gossip.BootstrapExpect s) with
      | None => None
      | Some (expect, configuration) =>
          Some (Gossip.mk (Gossip.lookup s) (Gossip.peers s) (Gossip.localPeers s) expect (Gossip.reconcileCh s)
                  (Gossip.bootstraps s ++ match configuration with Some c => [c] | None => [] end))
      end
  end.

(** Each member finds an environment of its own. *)
Fixpoint nodeJoin (envs : nat → boot_env) (members : list Member.t) (s : Gossip.t) : option Gossip.t :=
  match members with
  | [] => Some s
  | m :: members =>
      match node_joins (envs O) m s with
      | None => None
      | Some s => nodeJoin (λ n, envs (S n)) members s
      end
  end.

(** The first server of the name is replaced by the last one of the list, which
    is cut. *)
Definition remove_peer (name : string) (existing : list ServerParts.t) : list ServerParts.t :=
  match list_find (λ e, ServerParts.Name e = name) existing, last existing with
  | Some (i, _), Some e => take (length existing - 1) (<[i := e]> existing)
  | _, _ => existing
  end.

(** One member of [nodeFailed]. *)
Definition node_fails (m : Member.t) (s : Gossip.t) : Gossip.t :=
  match isServer m with
  | None => s
  | Some parts =>
      let region := ServerParts.Region parts in
      let existing := remove_peer (ServerParts.Name parts) (known_in region s) in
      Gossip.mk (lookup_RemoveServer parts (Gossip.lookup s))
        (if bool_decide (existing = []) then delete region (Gossip.peers s) else <[region := existing]> (Gossip.peers s))
        (if String.eqb region Region then delete (ServerParts.Addr parts) (Gossip.localPeers s) else Gossip.localPeers s)
        (Gossip.BootstrapExpect s) (Gossip.reconcileCh s) (Gossip.bootstraps s)
  end.
Definition nodeFailed (members : list Member.t) (s : Gossip.t) : Gossip.t :=
  fold_left (λ s m, node_fails m s) members s.

Definition with_lookup (sl : ServerLookup.t) (s : Gossip.t) : Gossip.t :=
  Gossip.mk sl (Gossip.peers s) (Gossip.localPeers s) (Gossip.BootstrapExpect s) (Gossip.reconcileCh s)
    (Gossip.bootstraps s).

Definition lanNodeUpdate (members : list Member.t) (s : Gossip.t) : Gossip.t :=
  fold_left (λ s m, match isServer m with
                    | None => s
                    | Some parts => with_lookup (AddServer parts (Gossip.lookup s)) s
                    end) members s.

Inductive EventType : Type :=
  | EventMemberJoin | EventMemberLeave | EventMemberFailed | EventMemberUpdate | EventMemberReap
  | EventOther.

#[global] Instance EventType_eq_dec : EqDecision EventType.
Proof. solve_decision. Defined.

(** A member is queued when there is room. *)
Definition queue_member (m : Member.t) (ch : option (list Member.t * nat)) : option (list Member.t * nat) :=
  match ch with
  | Some (ms, S room) => Some (ms ++ [m], room)
  | _ => ch
  end.

Definition with_queue (ch : option (list Member.t * nat)) (s : Gossip.t) : Gossip.t :=
  Gossip.mk (Gossip.lookup s) (Gossip.peers s) (Gossip.localPeers s) (Gossip.BootstrapExpect s) ch
    (Gossip.bootstraps s).

Definition localMemberEvent (leader : bool) (type : EventType) (members : list Member.t) (s : Gossip.t) : Gossip.t :=
  if negb is_server || negb leader then s else
  let reaped m := if bool_decide (type = EventMemberReap)
    then Member.mk (Member.Name m) (Member.Addr m) (Member.Tags m) None else m in
  with_queue (fold_left (λ ch m, queue_member (reaped m) ch) members (Gossip.reconcileCh s)) s.

(** An event and what it finds. *)
Record event := mk_event {
  ev_type : EventType;
  ev_members : list Member.t;
  ev_leader : bool;
  ev_boot : nat → boot_env;
}.

(** One turn of [eventLoop]. *)
Definition handle_event (e : event) (s : Gossip.t) : option Gossip.t :=
  let local := localMemberEvent (ev_leader e) (ev_type e) (ev_members e) in
  match ev_type e with
  | EventMemberJoin => local <$> nodeJoin (ev_boot e) (ev_members e) s
  | EventMemberLeave | EventMemberFailed => Some (local (nodeFailed (ev_members e) s))
  | EventMemberReap => Some (local s)
  | EventMemberUpdate => Some (local (lanNodeUpdate (ev_members e) s))
  | EventOther => Some s
  end.

Fixpoint eventLoop (es : list event) (s : Gossip.t) : option Gossip.t :=
  match es with
  | [] => Some s
  | e :: es => match handle_event e s with Some s => eventLoop es s | None => None end
  end.

(** NewAgent and setupSerf of agent.go; nothing makes [reconcileCh]. *)
Definition NewGossip (expect : Z) : Gossip.t := Gossip.mk NewServerLookup ∅ ∅ expect None [].
End agent.

(** ** What the events announce *)

Section announced.
(** The identifier or the address of a server. *)
Variable key : ServerParts.t → string.

(** The servers announced last with a key, where none with that key has failed
    since. *)
Definition announced_by (e : event) (known : gmap string ServerParts.t) : gmap string ServerParts.t :=
  let parts := omap isServer (ev_members e) in
  match ev_type e with
  | EventMemberJoin | EventMemberUpdate => fold_left (λ k p, <[key p := p]> k) parts known
  | EventMemberLeave | EventMemberFailed => fold_left (λ k p, delete (key p) k) parts known
  | _ => known
  end.
Definition announced (es : list event) : gmap string ServerParts.t :=
  fold_left (λ k e, announced_by e k) es ∅.
End announced.

(** The names of those that joined. *)
Definition joined_by (e : event) (names : gset string) : gset string :=
  let parts := omap isServer (ev_members e) in
  match ev_type e with
  | EventMemberJoin => fold_left (λ k p, {[ServerParts.Name p]} ∪ k) parts names
  | EventMemberLeave | EventMemberFailed => fold_left (λ k p, k ∖ {[ServerParts.Name p]}) parts names
  | _ => names
  end.
Definition joined_names (es : list event) : gset string := fold_left (λ k e, joined_by e k) es ∅.

Definition names (l : list ServerParts.t) : list string := ServerParts.Name <$> l.

(** Servers stay in the region they have. *)
Definition regions_stay (region_of : string → string) (es : list event) : Prop :=
  ∀ e m parts, e ∈ es → m ∈ ev_members e → isServer m = Some parts →
    ServerParts.Region parts = region_of (ServerParts.Name parts).

(** The list of a region has the joined servers of the region, each once. *)
Definition peers_ok (region_of : string → string) (joined : gset string) (s : Gossip.t) : Prop :=
  ∀ region, NoDup (names (known_in region s)) ∧ Gossip.peers s !! region ≠ Some [] ∧
    ∀ name, name ∈ names (known_in region s) ↔ name ∈ joined ∧ region_of name = region.

(** ** Lemmas *)

Lemma insert_middle {A} (l1 l2 : list A) x y : <[length l1 := y]> (l1 ++ x :: l2) = l1 ++ y :: l2.
Proof. by rewrite insert_app_r_alt, Nat.sub_diag by done. Qed.

Section lemmas.
Variables (Region : string) (is_server : bool) (region_of : string → string).

Lemma fold_AddServer ps sl : fold_left (λ sl p, AddServer p sl) ps sl =
  ServerLookup.mk (fold_left (λ k p, <[ServerParts.RPCAddr p := p]> k) ps (ServerLookup.addressToServer sl))
    (fold_left (λ k p, <[ServerParts.ID p := p]> k) ps (ServerLookup.idToServer sl)).
Proof. revert sl. induction ps as [|p ps IH]; intros sl; cbn [fold_left]; [by destruct sl|]. by rewrite IH. Qed.

Lemma fold_RemoveServer ps sl : fold_left (λ sl p, lookup_RemoveServer p sl) ps sl =
  ServerLookup.mk (fold_left (λ k p, delete (ServerParts.RPCAddr p) k) ps (ServerLookup.addressToServer sl))
    (fold_left (λ k p, delete (ServerParts.ID p) k) ps (ServerLookup.idToServer sl)).
Proof. revert sl. induction ps as [|p ps IH]; intros sl; cbn [fold_left]; [by destruct sl|]. by rewrite IH. Qed.

Lemma node_joins_lookup env m s s' : node_joins Region env m s = Some s' →
  Gossip.lookup s' = match isServer m with Some p => AddServer p (Gossip.lookup s) | None => Gossip.lookup s end ∧
  Gossip.reconcileCh s' = Gossip.reconcileCh s.
Proof.
  unfold node_joins. destruct (isServer m) as [p|]; [|by intros [= <-]].
  destruct (_ =? 0); [by intros [= <-]|]. destruct (maybeBootstrap _ _ _) as [[? ?]|]; [|done]. by intros [= <-].
Qed.

Lemma nodeJoin_lookup envs ms s s' : nodeJoin Region envs ms s = Some s' →
  Gossip.lookup s' = fold_left (λ sl p, AddServer p sl) (omap isServer ms) (Gossip.lookup s) ∧
  Gossip.reconcileCh s' = Gossip.reconcileCh s.
Proof.
  revert envs s. induction ms as [|m ms IH]; cbn [nodeJoin]; intros envs s; [by intros [= <-]|].
  destruct (node_joins _ _ m s) as [s1|] eqn:E; [|done]. intros [H1 H2]%IH.
  apply node_joins_lookup in E as [H3 H4]. rewrite H1, H2, H3, H4. cbn. by destruct (isServer m).
Qed.

Lemma nodeFailed_lookup ms s :
  Gossip.lookup (nodeFailed Region ms s) =
    fold_left (λ sl p, lookup_RemoveServer p sl) (omap isServer ms) (Gossip.lookup s) ∧
  Gossip.reconcileCh (nodeFailed Region ms s) = Gossip.reconcileCh s.
Proof.
  unfold nodeFailed. revert s. induction ms as [|m ms IH]; cbn [fold_left]; intros s; [done|].
  destruct (IH (node_fails Region m s)) as [-> ->]. unfold node_fails. cbn. by destruct (isServer m).
Qed.

Lemma lanNodeUpdate_lookup ms s :
  Gossip.lookup (lanNodeUpdate ms s) =
    fold_left (λ sl p, AddServer p sl) (omap isServer ms) (Gossip.lookup s) ∧
  Gossip.reconcileCh (lanNodeUpdate ms s) = Gossip.reconcileCh s ∧
  Gossip.peers (lanNodeUpdate ms s) = Gossip.peers s.
Proof.
  unfold lanNodeUpdate. revert s. induction ms as [|m ms IH]; cbn [fold_left]; intros s; [done|].
  destruct (IH match isServer m with Some parts => with_lookup (AddServer parts (Gossip.lookup s)) s | None => s end)
    as (-> & -> & ->). cbn. by destruct (isServer m).
Qed.

Lemma localMemberEvent_same leader type ms s :
  Gossip.lookup (localMemberEvent is_server leader type ms s) = Gossip.lookup s ∧
  Gossip.peers (localMemberEvent is_server leader type ms s) = Gossip.peers s ∧
  (Gossip.reconcileCh s = None → Gossip.reconcileCh (localMemberEvent is_server leader type ms s) = None).
Proof.
  unfold localMemberEvent. destruct (_ || _); [done|]. split_and!; [done..|]. cbn. intros ->.
  by induction ms as [|m ms IH].
Qed.

(** ** The lists of peers *)

Lemma replace_peer_spec p l :
  match replace_peer p l with
  | Some l' => names l' = names l ∧ ∀ x, x ∈ l' → x = p ∨ x ∈ l
  | None => ServerParts.Name p ∉ names l
  end.
Proof.
  induction l as [|e l IH]; cbn; [by apply not_elem_of_nil|]. unfold names in *.
  destruct (String.eqb_spec (ServerParts.Name e) (ServerParts.Name p)) as [E|E].
  - split; [cbn; by rewrite E|]. intros x [->|]%elem_of_cons; [by left|right; by right].
  - destruct (replace_peer p l) as [l'|].
    + destruct IH as [H1 H2]. split; [cbn; by rewrite H1|].
      intros x [->|[->|?]%H2]%elem_of_cons; [right; left|by left|right; by right].
    + rewrite not_elem_of_cons. split; [congruence|done].
Qed.

Lemma remove_peer_Permutation name l1 x l2 :
  name ∉ names l1 → ServerParts.Name x = name → remove_peer name (l1 ++ x :: l2) ≡ₚ l1 ++ l2.
Proof.
  intros H1 Hx. unfold remove_peer.
  assert (list_find (λ e, ServerParts.Name e = name) (l1 ++ x :: l2) = Some (length l1, x)) as ->.
  { apply list_find_Some. split_and!; [by rewrite list_lookup_middle|done|].
    intros j y Hy Hj E. apply H1. rewrite lookup_app_l in Hy by done. rewrite <- E.
    by eapply list_elem_of_fmap_2, list_elem_of_lookup_2. }
  destruct l2 as [|y l2 _] using rev_ind.
  - rewrite last_snoc, insert_middle, length_app, app_nil_r. cbn [length].
    by rewrite Nat.add_sub, take_app_length.
  - replace (last (l1 ++ x :: l2 ++ [y])) with (Some y) by (by rewrite app_comm_cons, app_assoc, last_snoc).
    rewrite insert_middle. replace (l1 ++ y :: l2 ++ [y]) with ((l1 ++ y :: l2) ++ [y]) by (by rewrite <- app_assoc).
    rewrite take_app_length' by (rewrite !length_app; cbn; rewrite length_app; cbn; lia).
    apply Permutation_app_head. by rewrite Permutation_cons_append.
Qed.

Lemma remove_peer_absent name l : name ∉ names l → remove_peer name l = l.
Proof.
  intros Hn. unfold remove_peer. destruct (list_find _ l) as [[i x]|] eqn:E; [|done].
  apply list_find_Some in E as (Hi & Hx & _). destruct Hn. rewrite <- Hx.
  by eapply list_elem_of_fmap_2, list_elem_of_lookup_2.
Qed.

Lemma replace_peer_in p l l' : replace_peer p l = Some l' → ServerParts.Name p ∈ names l'.
Proof.
  revert l'. induction l as [|e l IH]; cbn; intros l'; [done|]. destruct (String.eqb _ _).
  - intros [= <-]. left.
  - destruct (replace_peer p l) as [k|]; [|done]. intros [= <-]. right. by apply IH.
Qed.

Lemma remove_peer_names name l : NoDup (names l) →
  NoDup (names (remove_peer name l)) ∧
  ∀ n, n ∈ names (remove_peer name l) ↔ n ∈ names l ∧ n ≠ name.
Proof.
  intros Hnd. destruct (decide (name ∈ names l)) as [Hin|Hno].
  - apply list_elem_of_fmap in Hin as (x & -> & Hx). apply list_elem_of_split in Hx as (l1 & l2 & ->).
    unfold names in Hnd. rewrite fmap_app in Hnd. cbn in Hnd.
    assert ((ServerParts.Name x ∉ names l1) ∧ (ServerParts.Name x ∉ names l2) ∧ NoDup (names l1 ++ names l2)) as (H1 & H2 & H3).
    { rewrite <- Permutation_middle in Hnd. apply NoDup_cons in Hnd as [Hx Hnd]. rewrite elem_of_app in Hx.
      unfold names. tauto. }
    assert (names (remove_peer (ServerParts.Name x) (l1 ++ x :: l2)) ≡ₚ names l1 ++ names l2) as Hp.
    { unfold names. rewrite <- fmap_app. apply fmap_Permutation. by apply remove_peer_Permutation. }
    rewrite Hp. split; [done|]. intros n. rewrite Hp. unfold names. rewrite fmap_app. cbn.
    rewrite !elem_of_app, elem_of_cons. unfold names in H1, H2. split; [|tauto].
    intros [Hn|Hn]; (split; [tauto|]); intros ->; tauto.
  - rewrite remove_peer_absent by done. split; [done|]. intros n. split; [|tauto]. intros Hn. split; [done|]. by intros ->.
Qed.

Lemma node_joins_peers env m s s' joined :
  peers_ok region_of joined s → node_joins Region env m s = Some s' →
  (∀ parts, isServer m = Some parts → ServerParts.Region parts = region_of (ServerParts.Name parts)) →
  peers_ok region_of match isServer m with Some p => {[ServerParts.Name p]} ∪ joined | None => joined end s'.
Proof.
  intros Hok Hj Hr. unfold node_joins in Hj. destruct (isServer m) as [p|]; [|by injection Hj as <-].
  specialize (Hr p eq_refl). set (l := match replace_peer p _ with Some l => l | None => _ end) in Hj.
  assert (Gossip.peers s' = <[ServerParts.Region p := l]> (Gossip.peers s)) as Hp.
  { destruct (_ =? 0); [by injection Hj as <-|]. destruct (maybeBootstrap _ _ _) as [[? ?]|]; [by injection Hj as <-|done]. }
  destruct (Hok (ServerParts.Region p)) as (Hnd & _ & Hin).
  assert (l ≠ [] ∧ NoDup (names l) ∧
    ∀ n, n ∈ names l ↔ n = ServerParts.Name p ∨ n ∈ names (known_in (ServerParts.Region p) s)) as (Hne & Hnd' & Hin').
  { unfold l. pose proof (replace_peer_spec p (known_in (ServerParts.Region p) s)) as H.
    destruct (replace_peer _ _) as [l'|] eqn:E.
    - destruct H as [Hn Hx]. rewrite Hn. split_and!; [|done|].
      + intros ->. by destruct (known_in _ s).
      + intros n. split; [by right|]. intros [->|?]; [|done]. rewrite <- Hn. by eapply replace_peer_in.
    - unfold names in *. rewrite fmap_app. change (ServerParts.Name <$> [p]) with [ServerParts.Name p].
      split_and!; [by destruct (known_in _ s)| |].
      + apply NoDup_app. split_and!; [done| |apply NoDup_singleton]. by intros n Hn ->%list_elem_of_singleton.
      + intros n. rewrite elem_of_app, list_elem_of_singleton. tauto. }
  intros region. unfold known_in. rewrite Hp. destruct (decide (region = ServerParts.Region p)) as [->|Hne'].
  - rewrite lookup_insert_eq. cbn. split_and!; [done|congruence|].
    intros n. rewrite Hin', Hin, elem_of_union, elem_of_singleton. split; [|tauto].
    intros [->|[? ?]]; split; auto.
  - rewrite lookup_insert_ne by done. destruct (Hok region) as (? & ? & Hin0). split_and!; [done..|].
    intros n. unfold known_in in Hin0. rewrite Hin0, elem_of_union, elem_of_singleton. split; [tauto|].
    intros [[->|?] ?]; [congruence|done].
Qed.

Lemma node_fails_peers m s joined :
  peers_ok region_of joined s →
  (∀ parts, isServer m = Some parts → ServerParts.Region parts = region_of (ServerParts.Name parts)) →
  peers_ok region_of match isServer m with Some p => joined ∖ {[ServerParts.Name p]} | None => joined end
    (node_fails Region m s).
Proof.
  intros Hok Hr. unfold node_fails. destruct (isServer m) as [p|]; [|done]. specialize (Hr p eq_refl).
  set (l := remove_peer _ _).
  destruct (Hok (ServerParts.Region p)) as (Hnd & _ & Hin).
  assert (NoDup (names l) ∧ ∀ n, n ∈ names l ↔ n ∈ names (known_in (ServerParts.Region p) s) ∧ n ≠ ServerParts.Name p)
    as [Hnd' Hin'] by (by apply remove_peer_names).
  intros region. unfold known_in. cbn [Gossip.peers].
  destruct (decide (region = ServerParts.Region p)) as [->|Hne'].
  - assert (default [] ((if bool_decide (l = []) then delete (ServerParts.Region p) (Gossip.peers s)
      else <[ServerParts.Region p := l]> (Gossip.peers s)) !! ServerParts.Region p) = l) as ->.
    { case_bool_decide as E; [by rewrite lookup_delete_eq, E|by rewrite lookup_insert_eq]. }
    split_and!; [done| |].
    + case_bool_decide as E; [by rewrite lookup_delete_eq|rewrite lookup_insert_eq; congruence].
    + intros n. rewrite Hin', Hin, elem_of_difference, elem_of_singleton. tauto.
  - assert ((if bool_decide (l = []) then delete (ServerParts.Region p) (Gossip.peers s)
      else <[ServerParts.Region p := l]> (Gossip.peers s)) !! region = Gossip.peers s !! region) as ->.
    { case_bool_decide; [by rewrite lookup_delete_ne|by rewrite lookup_insert_ne]. }
    destruct (Hok region) as (? & ? & Hin0). split_and!; [done..|].
    intros n. unfold known_in in Hin0. rewrite Hin0, elem_of_difference, elem_of_singleton. split; [|tauto].
    intros [? E]. split_and!; [done| |done]. intros ->. congruence.
Qed.
End lemmas.

(** ** Events *)

Section events.
Variables (Region : string) (is_server : bool) (region_of : string → string).

Lemma nodeJoin_peers envs ms s s' joined :
  peers_ok region_of joined s → nodeJoin Region envs ms s = Some s' →
  (∀ m parts, m ∈ ms → isServer m = Some parts → ServerParts.Region parts = region_of (ServerParts.Name parts)) →
  peers_ok region_of (fold_left (λ k p, {[ServerParts.Name p]} ∪ k) (omap isServer ms) joined) s'.
Proof.
  revert envs s joined. induction ms as [|m ms IH]; cbn [nodeJoin]; intros envs s joined Hok; [by intros [= <-]|].
  destruct (node_joins _ _ m s) as [s1|] eqn:E; [|done]. intros Hj Hr.
  apply (node_joins_peers _ region_of _ _ _ _ _ Hok) in E; [|intros p; apply Hr; left].
  specialize (IH _ _ _ E Hj ltac:(intros ???; apply Hr; by right)). cbn. by destruct (isServer m).
Qed.

Lemma nodeFailed_peers ms s joined :
  peers_ok region_of joined s →
  (∀ m parts, m ∈ ms → isServer m = Some parts → ServerParts.Region parts = region_of (ServerParts.Name parts)) →
  peers_ok region_of (fold_left (λ k p, k ∖ {[ServerParts.Name p]}) (omap isServer ms) joined) (nodeFailed Region ms s).
Proof.
  unfold nodeFailed. revert s joined. induction ms as [|m ms IH]; cbn [fold_left]; intros s joined Hok Hr; [done|].
  specialize (IH _ _ (node_fails_peers Region region_of m s joined Hok ltac:(intros p; apply Hr; left))
    ltac:(intros ???; apply Hr; by right)). cbn. by destruct (isServer m).
Qed.

Lemma peers_ok_same joined s s' : Gossip.peers s' = Gossip.peers s →
  peers_ok region_of joined s → peers_ok region_of joined s'.
Proof. intros Hp Hok region. unfold known_in. rewrite Hp. apply Hok. Qed.

Lemma handle_event_spec e s s' : handle_event Region is_server e s = Some s' →
  Gossip.lookup s' = ServerLookup.mk
    (announced_by ServerParts.RPCAddr e (ServerLookup.addressToServer (Gossip.lookup s)))
    (announced_by ServerParts.ID e (ServerLookup.idToServer (Gossip.lookup s))) ∧
  (Gossip.reconcileCh s = None → Gossip.reconcileCh s' = None) ∧
  (∀ joined, (∀ m parts, m ∈ ev_members e → isServer m = Some parts →
      ServerParts.Region parts = region_of (ServerParts.Name parts)) →
    peers_ok region_of joined s → peers_ok region_of (joined_by e joined) s').
Proof.
  unfold handle_event, announced_by, joined_by.
  pose proof (localMemberEvent_same is_server (ev_leader e) (ev_type e) (ev_members e)) as Hl.
  destruct (ev_type e) eqn:Ht; cbn.
  - destruct (nodeJoin _ _ _ s) as [s1|] eqn:E; [|done]. cbn. intros [= <-]. destruct (Hl s1) as (-> & Hp & Hq).
    destruct (nodeJoin_lookup _ _ _ _ _ E) as [-> Hc]. rewrite fold_AddServer. split_and!; [done|by rewrite <- Hc|].
    intros joined Hr Hok. eapply peers_ok_same; [exact Hp|]. by eapply nodeJoin_peers.
  - intros [= <-]. destruct (Hl (nodeFailed Region (ev_members e) s)) as (-> & Hp & Hq).
    destruct (nodeFailed_lookup Region (ev_members e) s) as [-> Hc]. rewrite fold_RemoveServer. split_and!; [done|by rewrite <- Hc|].
    intros joined Hr Hok. eapply peers_ok_same; [exact Hp|]. by apply nodeFailed_peers.
  - intros [= <-]. destruct (Hl (nodeFailed Region (ev_members e) s)) as (-> & Hp & Hq).
    destruct (nodeFailed_lookup Region (ev_members e) s) as [-> Hc]. rewrite fold_RemoveServer. split_and!; [done|by rewrite <- Hc|].
    intros joined Hr Hok. eapply peers_ok_same; [exact Hp|]. by apply nodeFailed_peers.
  - intros [= <-]. destruct (Hl (lanNodeUpdate (ev_members e) s)) as (-> & Hp & Hq).
    destruct (lanNodeUpdate_lookup (ev_members e) s) as (-> & Hc & Hp'). rewrite fold_AddServer. split_and!; [done|by rewrite <- Hc|].
    intros joined Hr Hok. eapply peers_ok_same; [by rewrite Hp|done].
  - intros [= <-]. destruct (Hl s) as (-> & Hp & Hq). split_and!; [by destruct (Gossip.lookup s)|done|].
    intros joined Hr Hok. by eapply peers_ok_same.
  - intros [= <-]. by destruct (Gossip.lookup s).
Qed.

Lemma eventLoop_spec es s s' joined : eventLoop Region is_server es s = Some s' →
  Gossip.lookup s' = ServerLookup.mk
    (fold_left (λ k e, announced_by ServerParts.RPCAddr e k) es (ServerLookup.addressToServer (Gossip.lookup s)))
    (fold_left (λ k e, announced_by ServerParts.ID e k) es (ServerLookup.idToServer (Gossip.lookup s))) ∧
  (Gossip.reconcileCh s = None → Gossip.reconcileCh s' = None) ∧
  (regions_stay region_of es → peers_ok region_of joined s →
   peers_ok region_of (fold_left (λ k e, joined_by e k) es joined) s').
Proof.
  revert s joined. induction es as [|e es IH]; cbn [eventLoop fold_left]; intros s joined.
  { intros [= <-]. by destruct (Gossip.lookup s). }
  destruct (handle_event _ _ e s) as [s1|] eqn:E; [|done]. intros Hl.
  destruct (handle_event_spec e s s1 E) as (Hid & Hq & Hp).
  destruct (IH s1 (joined_by e joined) Hl) as (Hid' & Hq' & Hp'). rewrite Hid in Hid'. split_and!; [done|auto|].
  intros Hr Hok. apply Hp'; [intros e' m p He'; apply Hr; by right|].
  apply Hp; [|done]. intros m p. apply Hr. left.
Qed.

(** An agent with a log handles every event; so does one that expects no servers. *)
Definition boots (e : event) : Prop := ∀ n, boot_log (ev_boot e n) ≠ NoRaft.

Lemma node_joins_returns env m s : Gossip.BootstrapExpect s = 0 ∨ boot_log env ≠ NoRaft →
  ∃ s', node_joins Region env m s = Some s' ∧ (Gossip.BootstrapExpect s = 0 → Gossip.BootstrapExpect s' = 0).
Proof.
  intros H. unfold node_joins. destruct (isServer m) as [p|]; [|eauto].
  destruct (Z.eqb_spec (Gossip.BootstrapExpect s) 0) as [E|E]; cbn [Gossip.BootstrapExpect].
  - rewrite E. eauto.
  - destruct H as [?|Hlog]; [done|]. destruct (maybeBootstrap _ env (Gossip.BootstrapExpect s)) as [[x c]|] eqn:Hb.
    + apply Z.eqb_neq in E. rewrite E. eexists. split; [done|]. by apply Z.eqb_neq in E.
    + unfold maybeBootstrap in Hb. destruct (boot_log env); [done..|]. repeat case_match; done.
Qed.

Lemma nodeJoin_returns envs ms s :
  Gossip.BootstrapExpect s = 0 ∨ (∀ n, boot_log (envs n) ≠ NoRaft) →
  ∃ s', nodeJoin Region envs ms s = Some s' ∧ (Gossip.BootstrapExpect s = 0 → Gossip.BootstrapExpect s' = 0).
Proof.
  revert envs s. induction ms as [|m ms IH]; cbn [nodeJoin]; intros envs s H; [eauto|].
  destruct (node_joins_returns (envs O) m s) as (s1 & -> & H0); [destruct H; auto|].
  destruct (IH (λ n, envs (S n)) s1) as (s2 & -> & H1); [destruct H; auto|]. eauto.
Qed.

Lemma nodeFailed_expect ms s : Gossip.BootstrapExpect (nodeFailed Region ms s) = Gossip.BootstrapExpect s.
Proof.
  unfold nodeFailed. revert s. induction ms as [|m ms IH]; cbn [fold_left]; intros s; [done|].
  rewrite IH. unfold node_fails. by destruct (isServer m).
Qed.

Lemma lanNodeUpdate_expect ms s : Gossip.BootstrapExpect (lanNodeUpdate ms s) = Gossip.BootstrapExpect s.
Proof.
  unfold lanNodeUpdate. revert s. induction ms as [|m ms IH]; cbn [fold_left]; intros s; [done|].
  rewrite IH. by destruct (isServer m).
Qed.

Lemma eventLoop_returns es s :
  Gossip.BootstrapExpect s = 0 ∨ Forall boots es → ∃ s', eventLoop Region is_server es s = Some s'.
Proof.
  revert s. induction es as [|e es IH]; cbn [eventLoop]; intros s H; [eauto|].
  assert (∀ s, Gossip.BootstrapExpect (localMemberEvent is_server (ev_leader e) (ev_type e) (ev_members e) s)
    = Gossip.BootstrapExpect s) as Hl by (intros ?; unfold localMemberEvent; by destruct (_ || _)).
  assert (∃ s', handle_event Region is_server e s = Some s' ∧
    (Gossip.BootstrapExpect s = 0 → Gossip.BootstrapExpect s' = 0)) as (s1 & -> & H0).
  { unfold handle_event. destruct (ev_type e) eqn:Ht; try (eexists; split; [reflexivity|]);
      try (by rewrite Hl, ?nodeFailed_expect, ?lanNodeUpdate_expect); try done.
    destruct (nodeJoin_returns (ev_boot e) (ev_members e) s) as (s' & -> & H0).
    { destruct H as [?|[? _]%Forall_cons]; auto. }
    cbn. eexists. split; [done|]. by rewrite Hl. }
  apply IH. destruct H as [?|[_ ?]%Forall_cons]; auto.
Qed.
End events.

(** ** Bootstrap *)








(** ** Theorems *)

(** C19. What an agent knows of the servers, after any events: it handles them all
    (unless it expects servers without having a log, which makes it panic:
    [agent_expects_panics]); the address of an identifier is that of the server last
    announced with it, when none with it has failed since; the server it knows at an
    address is likewise the last one announced at that address, when none at it has
    failed since, so one that moves stays known at its old address, too; and, as
    long as servers stay in their regions, the peers of a region are the servers
    that joined there and did not fail, each once.  No member is ever queued for
    the leader: the channel is not made. *)
Theorem lookup_follows_events Region is_server expect es :
  expect = 0 ∨ Forall boots es →
  ∃ s, eventLoop Region is_server es (NewGossip expect) = Some s ∧
    (∀ id, ServerAddr id (Gossip.lookup s) = ServerParts.RPCAddr <$> announced ServerParts.ID es !! id) ∧
    (∀ addr, lookup_Server addr (Gossip.lookup s) = announced ServerParts.RPCAddr es !! addr) ∧
    (∀ region_of, regions_stay region_of es → peers_ok region_of (joined_names es) s) ∧
    Gossip.reconcileCh s = None.
Proof.
  intros He. destruct (eventLoop_returns Region is_server es (NewGossip expect) He) as [s Hs]. exists s.
  split; [done|].
  assert (∀ region_of, peers_ok region_of ∅ (NewGossip expect)) as H0.
  { intros region_of region. unfold known_in. cbn. rewrite lookup_empty. cbn. split_and!; [constructor|done|].
    intros n. set_solver. }
  destruct (eventLoop_spec Region is_server (λ _, "") es _ _ ∅ Hs) as (Hsl & Hch & _).
  split_and!.
  - intros id. unfold ServerAddr. by rewrite Hsl.
  - intros addr. unfold lookup_Server. by rewrite Hsl.
  - intros region_of Hr. by apply (eventLoop_spec Region is_server region_of es _ _ ∅ Hs).
  - by apply Hch.
Qed.


(** ** Examples *)

Section demo.
Definition gossip_tags (expect : string) : gmap string string :=
  {[ "role" := "dkron"; "server" := "true"; "region" := "global"; "port" := "6868"; "expect" := expect ]}.
Definition n1 : Member.t := Member.mk "n1" "10.0.0.1" (gossip_tags "2") (Some StatusAlive).
Definition n2 : Member.t := Member.mk "n2" "10.0.0.2" (gossip_tags "2") (Some StatusAlive).
(** The second server at another address. *)
Definition n2_moved : Member.t := Member.mk "n2" "10.0.0.7" (gossip_tags "2") (Some StatusAlive).
Definition quiet : boot_env := mk_boot (LastIndex 0) [n1; n2] (λ _ _, Some []).
Definition at_once (type : EventType) (ms : list Member.t) : event := mk_event type ms true (λ _, quiet).
Definition demo_events : list event :=
  [at_once EventMemberJoin [n1; n2]; at_once EventMemberUpdate [n2_moved]; at_once EventMemberFailed [n1]].

Lemma lookup_follows_events_witness :
  ∃ s, eventLoop "global" true demo_events (NewGossip 2) = Some s ∧
    ServerAddr "n2" (Gossip.lookup s) = Some "10.0.0.7:6868" ∧ ServerAddr "n1" (Gossip.lookup s) = None ∧
    ServerParts.ID <$> lookup_Server "10.0.0.2:6868" (Gossip.lookup s) = Some "n2" ∧
    names (known_in "global" s) = ["n2"] ∧ Gossip.reconcileCh s = None.
Proof.
  destruct (lookup_follows_events "global" true 2 demo_events) as (s & Hs & Ha & Hd & Hp & Hq).
  { right. unfold demo_events. repeat constructor; intros n; discriminate. }
  exists s. split; [exact Hs|]. split; [|split; [|split; [|split]]].
  - rewrite Ha. vm_compute. reflexivity.
  - rewrite Ha. vm_compute. reflexivity.
  - rewrite Hd. vm_compute. reflexivity.
  - destruct (Hp (λ _, "global")) with (region := "global") as (Hnd & _ & Hin).
    + intros e m p He Hm Em. assert (tag "region" m = "global") as Hr.
      { unfold demo_events in He. repeat (apply elem_of_cons in He as [->|He]); [..|by apply elem_of_nil in He];
          cbn in Hm; repeat (apply elem_of_cons in Hm as [->|Hm]); try (by apply elem_of_nil in Hm); reflexivity. }
      rewrite <- Hr. revert Em. isServer_inv.
    + apply Permutation_singleton_r. apply NoDup_Permutation; [exact Hnd|apply NoDup_singleton|].
      intros x. rewrite Hin, list_elem_of_singleton. 
      assert (joined_names demo_events = {["n2"]}) as -> by (apply (bool_decide_unpack _); vm_compute; exact I).
      rewrite elem_of_singleton. tauto.
  - exact Hq.
Defined.


(** A server that cannot be asked counts as one without peers, and one that has
    left counts as one that is there. *)
Lemma bootstrap_counts_the_absent :
  let left_member := Member.mk "n2" "10.0.0.2" (gossip_tags "2") (Some StatusLeft) in
  maybeBootstrap "global" (mk_boot (LastIndex 0) [n1; left_member] (λ addr _, if String.eqb addr "10.0.0.1:6868" then Some [] else None)) 2
    = Some (0, Some [RaftServer.mk "n1" "10.0.0.1:6868" true; RaftServer.mk "n2" "10.0.0.2:6868" true]).
Proof. vm_compute. reflexivity. Qed.

(** A server that moves stays listed under its old address. *)
Lemma moved_server_listed_twice :
  (lookup_Servers <$> (Gossip.lookup <$> eventLoop "global" true (take 2 demo_events) (NewGossip 2)))
    ≫= (λ l, Some (length l)) = Some 3%nat.
Proof. vm_compute. reflexivity. Qed.

(** An agent without a log that expects servers ends with a panic at the first one. *)
Lemma agent_expects_panics :
  eventLoop "global" false [mk_event EventMemberJoin [n1] false (λ _, mk_boot NoRaft [n1] (λ _ _, None))]
    (NewGossip 3) = None.
Proof. vm_compute. reflexivity. Qed.
End demo.
