(* ===== verification/Addresses.v ===== *)
(** * Addresses: where an agent listens, and how it joins a cluster

    The addresses of src/dkron/config.go and the joining of
    src/dkron/retry_join.go.  Templates are evaluated by go-sockaddr, names by
    the resolver of the system, cloud providers by go-discover: parameters.
    The theorems: [AddrParts] returns, except for the addresses on which it loops
    for ever; an address that is advertised can be read by it, unless its brackets
    do not match; joining is tried once more often than configured. *)

From S2P Require Import Prelude GoCore GoNet.

(** ** Normalisation *)

Module Config.
(** The settings of config.go these functions use. *)
Record t := mk {
  BindAddr : string;
  HTTPAddr : string;
  AdvertiseAddr : string;
  DevMode : bool;
}.
End Config.

Definition DefaultBindPort : Z := 8946.

Inductive config_error : Type :=
  | ErrTemplate           (** a template does not parse *)
  | ErrMultiple           (** a template gives several addresses *)
  | ErrParsing (e : AddrError)
  | ErrResolvingHost
  | ErrLocalhost
  | ErrResolve.           (** [net.ResolveTCPAddr] fails *)

Definition isMissingPort (e : AddrError) : bool := Contains (AddrError_Error e) missingPort.
Definition isTooManyColons (e : AddrError) : bool := Contains (AddrError_Error e) tooManyColons.

Module retryJoiner.
Record t := mk { addrs : list string; maxAttempts : Z }.
End retryJoiner.

Section addresses.
(** [template.Parse] of go-sockaddr, [net.LookupIP], and [net.ResolveTCPAddr]
    with the text of the address it finds. *)
Variable template_Parse : string → option string.
Variable LookupIP : string → option (list IP).
Variable ResolveTCPAddr : string → option (string * Z).

Definition ParseSingleIPTemplate (ipTmpl : string) : string + config_error :=
  match template_Parse ipTmpl with
  | None => inr ErrTemplate
  | Some out => match Split " " out with [ip] => inl ip | _ => inr ErrMultiple end
  end.

(** The loop over the addresses found; [None] when it ends. *)
Fixpoint advertise_loop (defport : Z) (dev : bool) (ips : list IP) : option (string + config_error) :=
  match ips with
  | [] => None
  | ip :: ips =>
      if IsLinkLocalUnicast ip || IsGlobalUnicast ip then Some (inl (JoinHostPort (IP_String ip) (pretty defport)))
      else if IsLoopback ip then
        if dev then Some (inl (JoinHostPort (IP_String ip) (pretty defport))) else Some (inr ErrLocalhost)
      else advertise_loop defport dev ips
  end.

Definition normalizeAdvertise (addr bind : string) (defport : Z) (dev : bool) : string + config_error :=
  match ParseSingleIPTemplate addr with
  | inr err => inr err
  | inl addr =>
      if negb (String.eqb addr "") then
        match SplitHostPort addr with
        | inr err =>
            if negb (isMissingPort err) && negb (isTooManyColons err) then inr (ErrParsing err)
            else inl (JoinHostPort addr (pretty defport))
        | inl _ => inl addr
        end
      else
        let bindHost := match SplitHostPort bind with inl (host, _) => host | inr _ => bind end in
        match LookupIP bindHost with
        | None => inr ErrResolvingHost
        | Some ips =>
            match advertise_loop defport dev ips with
            | Some result => result
            | None =>
                match ParseSingleIPTemplate "{{ GetPrivateIP }}" with
                | inr err => inr err
                | inl addr => inl (JoinHostPort addr (pretty defport))
                end
            end
        end
  end.

(** One of the two addresses that are only evaluated. *)
Definition normalize_template (addr : string) : string + config_error :=
  if String.eqb addr "" then inl addr else ParseSingleIPTemplate addr.

(** The configuration keeps what was set before an error. *)
Definition normalizeAddrs (c : Config.t) : Config.t * option config_error :=
  match normalize_template (Config.BindAddr c) with
  | inr err => (c, Some err)
  | inl bind =>
      let c := Config.mk bind (Config.HTTPAddr c) (Config.AdvertiseAddr c) (Config.DevMode c) in
      match normalize_template (Config.HTTPAddr c) with
      | inr err => (c, Some err)
      | inl http =>
          let c := Config.mk bind http (Config.AdvertiseAddr c) (Config.DevMode c) in
          match normalizeAdvertise (Config.AdvertiseAddr c) (Config.BindAddr c) DefaultBindPort (Config.DevMode c) with
          | inr err => (c, Some err)
          | inl addr => (Config.mk bind http addr (Config.DevMode c), None)
          end
      end
  end.

(** [goto START] as fuel: [None] is a loop that goes on. *)
Fixpoint AddrParts (fuel : nat) (checkAddr : string) : option (string * Z + config_error) :=
  match fuel with
  | O => None
  | S fuel =>
      match SplitHostPort checkAddr with
      | inr ae =>
          if String.eqb (Err ae) missingPort then AddrParts fuel (checkAddr +:+ ":" +:+ pretty DefaultBindPort)
          else Some (inr (ErrParsing ae))
      | inl _ =>
          match ResolveTCPAddr checkAddr with
          | None => Some (inr ErrResolve)
          | Some addr => Some (inl addr)
          end
      end
  end.

(** What setupSerf and bindRPCAddr of agent.go make of the settings: the two
    addresses serf gets. *)
Definition serf_addresses (fuel : nat) (c : Config.t)
    : option ((string * Z) * option (string * Z) + config_error) :=
  match AddrParts fuel (Config.BindAddr c) with
  | None => None
  | Some (inr err) => Some (inr err)
  | Some (inl bind) =>
      if String.eqb (Config.AdvertiseAddr c) "" then Some (inl (bind, None)) else
      match AddrParts fuel (Config.AdvertiseAddr c) with
      | None => None
      | Some (inr err) => Some (inr err)
      | Some (inl advertise) => Some (inl (bind, Some advertise))
      end
  end.

(** ** Joining *)

(** What an attempt to join finds: what go-discover answers, and whether serf
    could join the addresses. *)
Record attempt_env := mk_attempt {
  disco_Addrs : string → option (list string);
  join : list string → bool;
}.

Inductive joined : Type :=
  | JoinDone                     (** [nil] *)
  | DiscoError                   (** the error of [discover.New] *)
  | RetryExhausted.

(** The addresses of one attempt; what fails is left out. *)
Fixpoint join_addrs (env : attempt_env) (configured : list string) : list string :=
  match configured with
  | [] => []
  | addr :: configured =>
      (if Contains addr "provider=" then
         match disco_Addrs env addr with None => [] | Some servers => servers end
       else
         match ParseSingleIPTemplate addr with inr _ => [] | inl ipAddr => [ipAddr] end)
      ++ join_addrs env configured
  end.

(** [true] when the attempt ends the loop. *)
Definition attempt_joins (r : retryJoiner.t) (env : attempt_env) : bool :=
  let addrs := join_addrs env (retryJoiner.addrs r) in
  negb (bool_decide (addrs = [])) && join env addrs.

(** The loop, on the attempts to come; [None] when it still waits after them.
    The second result are the attempts it made. *)
Fixpoint retry_loop (r : retryJoiner.t) (attempt : Z) (envs : list attempt_env)
    : option (joined * nat) :=
  match envs with
  | [] => None
  | env :: envs =>
      if attempt_joins r env then Some (JoinDone, 1%nat) else
      let attempt := attempt + 1 in
      if (0 <? retryJoiner.maxAttempts r) && (retryJoiner.maxAttempts r <? attempt)
      then Some (RetryExhausted, 1%nat)
      else match retry_loop r attempt envs with
           | Some (j, n) => Some (j, S n)
           | None => None
           end
  end.

(** [disco_ok]: [discover.New] returns no error. *)
Definition retryJoin (r : retryJoiner.t) (disco_ok : bool) (envs : list attempt_env) : option (joined * nat) :=
  if bool_decide (retryJoiner.addrs r = []) then Some (JoinDone, O)
  else if negb disco_ok then Some (DiscoError, O)
  else retry_loop r 0 envs.

(** ** Lemmas *)

(** The address with a port. *)
Definition with_port (address : string) : string :=
  match SplitHostPort address with
  | inr ae => if String.eqb (Err ae) missingPort then address +:+ ":" +:+ pretty DefaultBindPort else address
  | inl _ => address
  end.

Definition resolved (address : string) : string * Z + config_error :=
  match SplitHostPort address with
  | inr ae => inr (ErrParsing ae)
  | inl _ => match ResolveTCPAddr address with Some addr => inl addr | None => inr ErrResolve end
  end.

Lemma AddrParts_S fuel a e : SplitHostPort a = inr e → Err e = missingPort →
  AddrParts (S fuel) a = AddrParts fuel (a +:+ ":" +:+ pretty DefaultBindPort).
Proof. intros He Hm. cbn [AddrParts]. by rewrite He, Hm, String.eqb_refl. Qed.

Lemma AddrParts_resolved fuel a :
  (match SplitHostPort a with inr e => Err e ≠ missingPort | inl _ => True end) →
  AddrParts (S fuel) a = Some (resolved a).
Proof.
  intros Ha. cbn [AddrParts]. unfold resolved. destruct (SplitHostPort a) as [hp|e]; [by destruct (ResolveTCPAddr a)|].
  by apply String.eqb_neq in Ha as ->.
Qed.

Lemma AddrParts_stuck fuel a : stuck a = true → AddrParts fuel a = None.
Proof.
  revert a. induction fuel as [|fuel IH]; intros a Ha; [done|].
  rewrite (AddrParts_S _ _ _ (stuck_missingPort a Ha)) by done. apply IH. by apply stuck_app.
Qed.

Lemma defport_plain : plain (pretty DefaultBindPort) = true ∧ ContainsChar (pretty DefaultBindPort) ":" = false.
Proof. done. Qed.

Lemma advertise_loop_splits defport dev ips r : Forall IP_ok ips → 0 ≤ defport →
  advertise_loop defport dev ips = Some (inl r) → ∃ hp, SplitHostPort r = inl hp.
Proof.
  intros Hok Hd. induction Hok as [|ip ips Hip _ IH]; cbn; [done|].
  assert (∃ hp, SplitHostPort (JoinHostPort (IP_String ip) (pretty defport)) = inl hp) as Hj.
  { eexists. apply SplitHostPort_JoinHostPort; [by apply IP_String_plain|by apply pretty_plain|by apply pretty_no_colon]. }
  destruct (_ || _); [by intros [= <-]|]. destruct (IsLoopback ip); [|done]. destruct dev; [by intros [= <-]|done].
Qed.
End addresses.

Lemma attempt_count T r attempt envs j n :
  retry_loop T r attempt envs = Some (j, n) → (1 ≤ n ≤ length envs)%nat.
Proof.
  revert attempt n. induction envs as [|env envs IH]; cbn; intros attempt n; [done|].
  destruct (attempt_joins T r env); [intros [= <- <-]; lia|].
  destruct (_ && _); [intros [= <- <-]; lia|].
  destruct (retry_loop T r (attempt + 1) envs) as [[j' n']|] eqn:E; [|done].
  intros [= <- <-]. specialize (IH _ _ E). lia.
Qed.

(** As long as no attempt joins, nothing but the number of attempts ends the loop. *)
Lemma retry_loop_fails T r attempt failing envs :
  Forall (λ env, attempt_joins T r env = false) failing → 0 ≤ attempt →
  (0 < retryJoiner.maxAttempts r → attempt + Z.of_nat (length failing) ≤ retryJoiner.maxAttempts r) →
  retry_loop T r attempt (failing ++ envs) =
    match retry_loop T r (attempt + Z.of_nat (length failing)) envs with
    | Some (j, n) => Some (j, (length failing + n)%nat)
    | None => None
    end.
Proof.
  intros Hf. revert attempt. induction Hf as [|env failing He _ IH]; intros attempt Ha Hm.
  - cbn [app length]. rewrite Z.add_0_r. by destruct (retry_loop _ _ _ _) as [[]|].
  - cbn [app retry_loop length]. cbn [length] in Hm. rewrite He.
    destruct (_ && _) eqn:E.
    { apply andb_true_iff in E as [?%Z.ltb_lt ?%Z.ltb_lt]. lia. }
    rewrite IH by lia. replace (attempt + 1 + Z.of_nat (length failing)) with (attempt + Z.of_nat (S (length failing))) by lia.
    by destruct (retry_loop _ _ _ _) as [[]|].
Qed.

Lemma missingPort_is addr : isMissingPort (mkAddrError missingPort addr) = true.
Proof.
  unfold isMissingPort, AddrError_Error. cbn [Err Addr]. destruct (String.eqb addr ""); [done|].
  by do 3 apply Contains_app_r.
Qed.

(** The brackets of an address without a port that the agent does not get past:
    when it has a colon, the first closing bracket is not followed by one; when it
    has none, it begins with a bracket, and something follows the closing one. *)
Definition bad_brackets (a : string) : bool :=
  if ContainsChar a ":" then
    match cut "]" a with
    | Some (_, String c _) => negb (Ascii.eqb c ":")
    | Some (_, EmptyString) => true
    | None => false
    end
  else match closing a with Some (_, String _ _) => true | _ => false end.

(** An address that is set, is not split, and has such brackets. *)
Definition unreadable (a : string) : bool :=
  negb (String.eqb a "") && (match SplitHostPort a with inl _ => false | inr _ => true end) && bad_brackets a.

Lemma closing_no_colon a h c k : closing a = Some (h, String c k) → ContainsChar a ":" = false → c ≠ ":"%char.
Proof.
  unfold closing. destruct a as [|d a]; [done|]. cbn. destruct (Ascii.eqb d "["); [|done].
  intros [-> _]%cut_spec [_ Ha]%orb_false_elim ->. rewrite ContainsChar_app in Ha. cbn in Ha.
  by rewrite !orb_true_r in Ha.
Qed.

(** The port that is added to an address without one. *)
Lemma JoinHostPort_brackets a (r := JoinHostPort a (pretty DefaultBindPort)) :
  stuck r = bad_brackets a ∧ ∀ e, SplitHostPort r = inr e → Err e = missingPort → bad_brackets a = true.
Proof.
  assert (stuck r = bad_brackets a ∧ ∀ h, closing r ≠ Some (h, "")) as [Hs Hc].
  { subst r. rewrite stuck_closing, closing_JoinHostPort by done. unfold bad_brackets.
    destruct (ContainsChar a ":") eqn:Ha.
    - by destruct (cut "]" a) as [[h [|c k]]|].
    - destruct (closing a) as [[h [|c k]]|] eqn:E; [done| |done]. split; [|done].
      cbn. apply negb_true_iff, Ascii.eqb_neq. by eapply closing_no_colon. }
  split; [done|]. intros e He Hm.
  destruct (closing_missingPort r e He Hm (ContainsChar_JoinHostPort _ _)) as [[h Hh]|Hst]; [by destruct (Hc h)|].
  by rewrite <- Hs.
Qed.

(** What is advertised is stuck when the address is unreadable, and otherwise has
    a port. *)
Lemma normalizeAdvertise_reads T LookupIP addr bind dev a r :
  (∀ host ips, LookupIP host = Some ips → Forall IP_ok ips) →
  (∀ ip, ParseSingleIPTemplate T "{{ GetPrivateIP }}" = inl ip → plain ip = true) →
  ParseSingleIPTemplate T addr = inl a →
  normalizeAdvertise T LookupIP addr bind DefaultBindPort dev = inl r →
  stuck r = unreadable a ∧ (∀ e, SplitHostPort r = inr e → Err e = missingPort → unreadable a = true) ∧
  (plain a = true → ∃ hp, SplitHostPort r = inl hp).
Proof.
  intros Hips Hpriv Ha. unfold normalizeAdvertise, unreadable. rewrite Ha.
  assert (∀ hp, SplitHostPort r = inl hp → stuck r = false) as Hsplit.
  { intros hp Hhp. apply not_true_is_false. intros Hst%stuck_missingPort. congruence. }
  assert (∀ h, plain h = true → ∃ hp, SplitHostPort (JoinHostPort h (pretty DefaultBindPort)) = inl hp) as Hj.
  { intros h Hh. eexists. by apply SplitHostPort_JoinHostPort; try apply defport_plain. }
  destruct (String.eqb_spec a "") as [->|Hne]; cbn [negb andb].
  - intros Hr. assert (∃ hp, SplitHostPort r = inl hp) as [hp Hhp].
    { destruct (LookupIP _) as [ips|] eqn:Hl; [|done]. destruct (advertise_loop _ _ ips) as [[r'|e]|] eqn:E; [|done|].
      - injection Hr as <-. apply (advertise_loop_splits DefaultBindPort dev ips); [by apply (Hips _ _ Hl)|done|done].
      - destruct (ParseSingleIPTemplate T "{{ GetPrivateIP }}") as [q|e]; [|done]. injection Hr as <-. by apply Hj, Hpriv. }
    split; [by eapply Hsplit|]. split; [intros e He; congruence|eauto].
  - destruct (SplitHostPort a) as [hp|e] eqn:E.
    + intros [= <-]. split; [by eapply Hsplit|]. split; [intros e He; congruence|eauto].
    + destruct (_ && _); [done|]. intros [= <-]. destruct (JoinHostPort_brackets a) as [H1 H2].
      split; [done|]. split; [done|apply Hj].
Qed.

(** ** Tags *)

(** src/cmd/agent.go: the tags of the command line; a later one wins. *)
Fixpoint UnmarshalTags_loop (tags : list string) (result : gmap string string) : string + gmap string string :=
  match tags with
  | [] => inr result
  | tag :: tags =>
      match cut "=" tag with
      | Some (key, value) =>
          if (String.length key =? 0)%nat then inl ("invalid tag: '" +:+ tag +:+ "'")
          else UnmarshalTags_loop tags (<[key := value]> result)
      | None => inl ("invalid tag: '" +:+ tag +:+ "'")
      end
  end.
Definition UnmarshalTags (tags : list string) : string + gmap string string := UnmarshalTags_loop tags ∅.

(** Tags that are written as name and value are read back, whatever is in the
    values. *)
Lemma UnmarshalTags_read (tags : gmap string string) l :
  (∀ k v, tags !! k = Some v → k ≠ "" ∧ ContainsChar k "=" = false) → l ≡ₚ map_to_list tags →
  UnmarshalTags ((λ kv, kv.1 +:+ String "=" kv.2) <$> l) = inr tags.
Proof.
  intros Hkeys Hl. unfold UnmarshalTags.
  assert (∀ l r, Forall (λ kv : string * string, kv.1 ≠ "" ∧ ContainsChar kv.1 "=" = false) l → NoDup l.*1 →
    UnmarshalTags_loop ((λ kv, kv.1 +:+ String "=" kv.2) <$> l) r = inr (list_to_map l ∪ r)) as Hloop.
  { clear. induction l as [|[k v] l IH]; intros r Hok Hnd; cbn [fmap list_fmap UnmarshalTags_loop list_to_map].
    - cbn. by rewrite map_empty_union.
    - apply Forall_cons in Hok as [[Hk Hc] Hok]. apply NoDup_cons in Hnd as [Hnew Hnd]. cbn in Hk, Hc.
      cbn [fst snd]. rewrite cut_app by done. destruct k as [|c k]; [done|]. cbn [String.length Nat.eqb].
      rewrite IH by done. f_equal. cbn. rewrite <- insert_union_l, insert_union_r; [done|].
      by apply not_elem_of_list_to_map_1. }
  rewrite Hloop.
  - f_equal. rewrite map_union_empty. etrans; [|apply list_to_map_to_list]. apply list_to_map_proper; [|done].
    rewrite Hl. apply NoDup_fst_map_to_list.
  - rewrite Hl. apply Forall_forall. intros [k v] Hkv%elem_of_map_to_list. by apply (Hkeys k v).
  - rewrite Hl. apply NoDup_fst_map_to_list.
Qed.

(** ** Theorems *)

(** C21. [AddrParts] loops for ever exactly on the addresses whose first closing
    bracket is followed by something else than a colon; on every other one it
    splits at most twice, adds the port when it is missing, and returns the
    address the system finds or the error. *)
Theorem AddrParts_returns ResolveTCPAddr address :
  (stuck address = true → ∀ fuel, AddrParts ResolveTCPAddr fuel address = None) ∧
  (stuck address = false → ∀ fuel, (2 ≤ fuel)%nat →
     AddrParts ResolveTCPAddr fuel address = Some (resolved ResolveTCPAddr (with_port address))).
Proof.
  split; [intros Ha fuel; by apply AddrParts_stuck|]. intros Ha fuel Hf.
  destruct fuel as [|[|fuel]]; [lia..|]. unfold with_port.
  destruct (SplitHostPort address) as [hp|e] eqn:E; [apply AddrParts_resolved; by rewrite E|].
  destruct (String.eqb_spec (Err e) missingPort) as [Hm|Hm]; [|apply AddrParts_resolved; by rewrite E].
  rewrite (AddrParts_S _ _ _ _ E Hm). apply AddrParts_resolved.
  by apply (missingPort_added address e); try apply defport_plain.
Qed.

Lemma AddrParts_returns_witness :
  AddrParts (λ _, None) 99 "[::1]x" = None ∧
  AddrParts (λ a, Some (a, 8946)) 2 "[::1]" = Some (inl ("[::1]:8946", 8946)).
Proof.
  split.
  - by apply (proj1 (AddrParts_returns (λ _, None) "[::1]x")).
  - apply (proj2 (AddrParts_returns (λ a, Some (a, 8946)) "[::1]")); [done|lia].
Defined.

(** C22. What is advertised can be read, with a named exception: whatever address is
    configured, or none, the advertised address that is made of it is read by
    [AddrParts] at the first try, with the address the system finds or the error,
    unless the one configured has no port and its brackets do not match as in
    "[::1]", "[::1]x" and "[a]x" ([unreadable]); on these [AddrParts] goes on for
    ever, and the agent never starts.  An address without brackets, or none, is
    always split into host and port; an IPv6 address in brackets without a port is
    never read.  (The system finds well formed addresses, and the private address
    has no brackets.) *)
Theorem advertised_is_read T LookupIP ResolveTCPAddr addr bind dev a r :
  (∀ host ips, LookupIP host = Some ips → Forall IP_ok ips) →
  (∀ ip, ParseSingleIPTemplate T "{{ GetPrivateIP }}" = inl ip → plain ip = true) →
  ParseSingleIPTemplate T addr = inl a →
  normalizeAdvertise T LookupIP addr bind DefaultBindPort dev = inl r →
  (unreadable a = false → ∀ fuel, AddrParts ResolveTCPAddr (S fuel) r =
     Some match SplitHostPort r with
          | inl _ => match ResolveTCPAddr r with Some addr => inl addr | None => inr ErrResolve end
          | inr e => inr (ErrParsing e)
          end) ∧
  (unreadable a = true → ∀ fuel, AddrParts ResolveTCPAddr fuel r = None ∧
     ∀ c, Config.AdvertiseAddr c = r →
       (∀ err, AddrParts ResolveTCPAddr fuel (Config.BindAddr c) ≠ Some (inr err)) →
       serf_addresses ResolveTCPAddr fuel c = None) ∧
  (plain a = true → unreadable a = false ∧ ∃ hp, SplitHostPort r = inl hp) ∧
  (∀ h, plain h = true → ContainsChar h ":" = true → a = "[" +:+ h +:+ "]" → unreadable a = true).
Proof.
  intros Hips Hpriv Ha Hr.
  destruct (normalizeAdvertise_reads T LookupIP addr bind dev a r Hips Hpriv Ha Hr) as (Hst & Hmiss & Hplain).
  split_and!.
  - intros Hu fuel. apply AddrParts_resolved. destruct (SplitHostPort r) as [hp|e]; [done|].
    intros Hm. by rewrite (Hmiss e eq_refl Hm) in Hu.
  - intros Hu fuel. rewrite Hu in Hst. split; [by apply AddrParts_stuck|]. intros c Hadv Hbind. unfold serf_addresses.
    destruct (AddrParts _ fuel (Config.BindAddr c)) as [[bd|e]|]; [|by destruct (Hbind e)|done].
    rewrite Hadv, AddrParts_stuck by done. destruct (String.eqb_spec r "") as [->|]; done.
  - intros Hp. destruct (Hplain Hp) as [hp Hhp]. split; [|by exists hp]. rewrite <- Hst.
    apply not_true_is_false. intros Hx%stuck_missingPort. congruence.
  - intros h [Ho Hc]%plain_spec Hcol ->. unfold unreadable. rewrite bracketed_missingPort by done.
    unfold bad_brackets. rewrite !ContainsChar_app, Hcol, orb_true_r. cbn [orb].
    change ("[" +:+ h +:+ "]") with (String "[" h +:+ String "]" ""). by rewrite cut_app.
Qed.

Lemma advertised_is_read_witness :
  let T := Some in
  let LookupIP := λ _ : string, Some [IPv4 10 0 0 1] in
  let ResolveTCPAddr := λ a : string, Some (a, DefaultBindPort) in
  normalizeAdvertise T LookupIP "" "example:8946" DefaultBindPort false = inl "10.0.0.1:8946" ∧
  AddrParts ResolveTCPAddr 1 "10.0.0.1:8946" = Some (inl ("10.0.0.1:8946", DefaultBindPort)) ∧
  AddrParts ResolveTCPAddr 1 "[::1]:8946" = Some (inl ("[::1]:8946", DefaultBindPort)) ∧
  serf_addresses ResolveTCPAddr 1000 (Config.mk "0.0.0.0:8946" "" "[[::1]]:8946" false) = None.
Proof.
  cbv zeta.
  assert (∀ (host : string) ips, Some [IPv4 10 0 0 1] = Some ips → Forall IP_ok ips) as Hips.
  { intros host ips [= <-]. constructor; [|constructor]. repeat (constructor; [lia|]). constructor. }
  split_and!; [done|..].
  - apply (advertised_is_read Some (λ _, Some [IPv4 10 0 0 1]) (λ a, Some (a, DefaultBindPort)) "" "example:8946"
      false "" "10.0.0.1:8946" Hips ltac:(done) eq_refl eq_refl). reflexivity.
  - apply (advertised_is_read Some (λ _, Some [IPv4 10 0 0 1]) (λ a, Some (a, DefaultBindPort)) "[::1]:8946" ""
      false "[::1]:8946" "[::1]:8946" Hips ltac:(done) eq_refl eq_refl). reflexivity.
  - refine (proj2 (proj1 (proj2 (advertised_is_read Some (λ _, Some [IPv4 10 0 0 1]) (λ a, Some (a, DefaultBindPort))
      "[::1]" "" false "[::1]" "[[::1]]:8946" Hips ltac:(done) eq_refl eq_refl)) eq_refl 1000%nat)
      (Config.mk "0.0.0.0:8946" "" "[[::1]]:8946" false) eq_refl _).
    intros err. discriminate.
Defined.

(** Text after the brackets, without or with a colon in them, is not read, either. *)
Example unreadable_addresses :
  unreadable <$> ["[a]x"; "[::1]x"; "[::1]"; "[a]"; "::1"; "[::1]:8946"; "node-1"; "[::1]:1:2"; "a:b]c"; ""] =
    [true; true; true; false; false; false; false; false; true; false].
Proof. reflexivity. Qed.

(** How often an agent tries to join: until it succeeds, or, when attempts are
    limited, until one more than that many have failed.  Without a limit it goes
    on. *)
Lemma retryJoin_attempts T r failing env rest :
  retryJoiner.addrs r ≠ [] → Forall (λ env, attempt_joins T r env = false) failing →
  (attempt_joins T r env = true →
   (0 < retryJoiner.maxAttempts r → Z.of_nat (length failing) ≤ retryJoiner.maxAttempts r) →
   retryJoin T r true (failing ++ env :: rest) = Some (JoinDone, S (length failing))) ∧
  (0 < retryJoiner.maxAttempts r → Z.of_nat (length failing) = retryJoiner.maxAttempts r + 1 →
   retryJoin T r true (failing ++ rest) = Some (RetryExhausted, length failing)) ∧
  (retryJoiner.maxAttempts r ≤ 0 → retryJoin T r true failing = None).
Proof.
  intros Hne Hf. unfold retryJoin. rewrite bool_decide_false by done. cbn [negb]. split_and!.
  - intros He Hm. rewrite retry_loop_fails by (done || lia). cbn [retry_loop]. rewrite He. do 2 f_equal. lia.
  - intros Hpos Hlen. destruct (exists_last (l := failing)) as (init & last & ->); [by intros ->; cbn in Hlen; lia|].
    apply Forall_app in Hf as [Hi [Hl _]%Forall_cons]. rewrite length_app in *. cbn [length] in *.
    rewrite <- app_assoc, retry_loop_fails by (done || lia). cbn [app retry_loop]. rewrite Hl.
    destruct (Z.ltb_spec 0 (retryJoiner.maxAttempts r)); [|lia].
    destruct (Z.ltb_spec (retryJoiner.maxAttempts r) (0 + Z.of_nat (length init) + 1)); [done|lia].
  - intros Hm. rewrite <- (app_nil_r failing), retry_loop_fails by (done || lia). done.
Qed.

Lemma retryJoin_attempts_witness :
  let down := mk_attempt (λ _, None) (λ _, false) in
  let up := mk_attempt (λ _, None) (λ addrs, bool_decide (addrs = ["10.0.0.1:8946"])) in
  let r := retryJoiner.mk ["10.0.0.1:8946"; "provider=aws"] 2 in
  retryJoin Some r true [down; down; up] = Some (JoinDone, 3%nat) ∧
  retryJoin Some r true [down; down; down; up] = Some (RetryExhausted, 3%nat) ∧
  retryJoin Some (retryJoiner.mk ["10.0.0.1:8946"] 0) true [down; down; down] = None.
Proof.
  cbv zeta. split_and!.
  - apply (proj1 (retryJoin_attempts Some (retryJoiner.mk ["10.0.0.1:8946"; "provider=aws"] 2)
      (replicate 2 (mk_attempt (λ _, None) (λ _, false)))
      (mk_attempt (λ _, None) (λ addrs, bool_decide (addrs = ["10.0.0.1:8946"]))) []
      ltac:(done) ltac:(by repeat constructor))); [done|by cbn].
  - apply (proj1 (proj2 (retryJoin_attempts Some (retryJoiner.mk ["10.0.0.1:8946"; "provider=aws"] 2)
      (replicate 3 (mk_attempt (λ _, None) (λ _, false))) (mk_attempt (λ _, None) (λ _, false))
      [mk_attempt (λ _, None) (λ addrs, bool_decide (addrs = ["10.0.0.1:8946"]))]
      ltac:(done) ltac:(by repeat constructor)))); by cbn.
  - apply (proj2 (proj2 (retryJoin_attempts Some (retryJoiner.mk ["10.0.0.1:8946"] 0)
      (replicate 3 (mk_attempt (λ _, None) (λ _, false))) (mk_attempt (λ _, None) (λ _, false)) []
      ltac:(done) ltac:(by repeat constructor)))). by cbn.
Defined.
