(* ===== verification/Streams.v ===== *)
(** * Streams: an execution between its node and the leader

    [AgentRun] of src/dkron/grpc_agent.go, which runs an execution on a node and
    streams its progress, and [AgentRun] of src/dkron/grpc_client.go, which the
    leader calls, follows the stream with and reports from.  Executors are
    plugins, the connections and the answers to calls are the network's: they
    are parameters.  The theorems: an execution is sent to a node again only
    after an error, at most as often and as late as configured, and what the
    node has done is what the leader is told. *)

From S2P Require Import Prelude GoCore Jobs Store.

(** ** Errors of calls *)

Module Code.
Inductive t := Unknown | DeadlineExceeded | ResourceExhausted | Aborted | Internal | Unavailable
  | Other (name : string).
End Code.

Definition code_String (c : Code.t) : string :=
  match c with
  | Code.Unknown => "Unknown"
  | Code.DeadlineExceeded => "DeadlineExceeded"
  | Code.ResourceExhausted => "ResourceExhausted"
  | Code.Aborted => "Aborted"
  | Code.Internal => "Internal"
  | Code.Unavailable => "Unavailable"
  | Code.Other name => name
  end.

(** An error with a gRPC status, and one without, as dialling returns it. *)
Inductive call_error : Type :=
  | StatusError (code : Code.t) (desc : string)
  | PlainError (msg : string).

Definition Error (err : call_error) : string :=
  match err with
  | StatusError code desc => "rpc error: code = " +:+ code_String code +:+ " desc = " +:+ desc
  | PlainError msg => msg
  end.

Definition isRetryableError (err : option call_error) : bool :=
  match err with
  | None => false
  | Some (StatusError code _) =>
      match code with
      | Code.Unavailable | Code.DeadlineExceeded | Code.ResourceExhausted | Code.Aborted
      | Code.Internal => true
      | _ => false
      end
  | Some (PlainError errStr) =>
      Contains errStr "transport is closing" || Contains errStr "connection refused"
      || Contains errStr "connection reset" || Contains errStr "broken pipe"
      || Contains errStr "context deadline exceeded"
  end.

Definition ErrNotLeader : string :=
  "grpc: Error, server is not leader, this operation should be run on the leader".
Definition ErrBrokenStream : string :=
  "grpc: Error on execution streaming, agent connection was abruptly terminated".

(** ** The node *)

Module ExecuteResponse.
Record t := mk { Output : string; Error : string }.
End ExecuteResponse.

(** What an executor returns: an error, maybe with a response, or a response. *)
Inductive executed : Type :=
  | ExecuteFailed (err : string) (out : option ExecuteResponse.t)
  | Executed (out : ExecuteResponse.t).

(** How the call ends: it returns, or the last message does not get through and
    the node reports the execution itself. *)
Inductive run_end : Type :=
  | Returned (err : option string)
  | FellBack (execution : PbExecution.t).

Definition started (now : time) (node : string) (e : PbExecution.t) : PbExecution.t :=
  PbExecution.mk (PbExecution.JobName e) (PbExecution.Success e) (PbExecution.Output e) node
    (PbExecution.Group e) (PbExecution.Attempt e) now (PbExecution.FinishedAt e).

Definition with_Output (b : string) (e : PbExecution.t) : PbExecution.t :=
  PbExecution.mk (PbExecution.JobName e) (PbExecution.Success e) b (PbExecution.NodeName e)
    (PbExecution.Group e) (PbExecution.Attempt e) (PbExecution.StartedAt e) (PbExecution.FinishedAt e).

Definition finished (now : time) (success : bool) (output : string) (e : PbExecution.t) : PbExecution.t :=
  PbExecution.mk (PbExecution.JobName e) success output (PbExecution.NodeName e)
    (PbExecution.Group e) (PbExecution.Attempt e) (PbExecution.StartedAt e) now.

Definition maxBufSize : Z := 256000.

Section node.
(** The executors of the node: the updates they stream, and what they return. *)
Variable ExecutorPlugins : gmap string (string → Config → list string * executed).
(** What a ring buffer of that size holds after the writes. *)
Variable circbuf : Z → list string → string.
(** Whether the message with this number gets through. *)
Variable Send : nat → bool.

(** The messages of the updates that get through, from number [i] on; an update
    that does not is the executor's error to handle. *)
Fixpoint updates (i : nat) (bs : list string) (execution : PbExecution.t) : list PbExecution.t :=
  match bs with
  | [] => []
  | b :: bs => (if Send i then [with_Output b execution] else []) ++ updates (S i) bs execution
  end.

Definition newline : string := String (ascii_of_nat 10) "".

(** Whether the execution succeeded, and the writes to the buffer. *)
Definition result_of (r : executed) : bool * list string :=
  match r with
  | ExecuteFailed err out =>
      (false, (err +:+ newline) :: match out with Some out => [ExecuteResponse.Output out] | None => [] end)
  | Executed out =>
      if String.eqb (ExecuteResponse.Error out) "" then (true, [ExecuteResponse.Output out])
      else (false, [ExecuteResponse.Error out +:+ newline; ExecuteResponse.Output out])
  end.

(** The updates of the executor, and what [result_of] makes of its result. *)
Definition call_executor (jex : string) (job : PbJob.t) : list string * (bool * list string) :=
  match (ExecutorPlugins !! jex : option (string → Config → list string * executed)) with
  | Some Execute =>
      let (bs, out) := Execute (PbJob.Name job) (PbJob.ExecutorConfig job) in (bs, result_of out)
  | None => ([], (false, ["grpc_agent: Specified executor is not present"]))
  end.

(** [AgentServer.AgentRun]: the messages that get through, and the end. *)
Definition node_AgentRun (NodeName : string) (start finish : time) (job : PbJob.t)
    (execution : PbExecution.t) : list PbExecution.t * run_end :=
  let execution := started start NodeName execution in
  if negb (Send 0) then ([], Returned (Some "grpc: stream closed")) else
  let jex := PbJob.Executor job in
  if String.eqb jex "" then
    ([execution], Returned (Some "grpc_agent: No executor defined, nothing to do"))
  else
    let '(bs, (success, output)) := call_executor jex job in
    let final := finished finish success (circbuf maxBufSize output) execution in
    let sent := execution :: updates 1 bs execution in
    if Send (S (length bs)) then (sent ++ [final], Returned None) else (sent, FellBack final).
End node.

(** ** The leader *)

(** What the leader does for others to see. *)
Inductive action : Type :=
  | Dispatch
  | CallSetExecution (execution : PbExecution.t)
  | CallExecutionDone (execution : PbExecution.t)
  | Sleep (d : Z).

(** An attempt finds no connection, is refused, or gets a stream of messages
    with its end: no error is [io.EOF]. *)
Inductive connection : Type :=
  | ConnectError (err : call_error)
  | OpenError (err : call_error)
  | Stream (messages : list PbExecution.t) (ending : option call_error).

Module Client.
(** The executions the leader follows, and what it has done so far. *)
Record t := mk { activeExecutions : gmap string PbExecution.t; log : list action }.
End Client.

Section client.
(** The answer to the last call of a log: [None] is a success. *)
Variable answer : list action → option call_error.
Variable clock : list action → time.

Definition act (a : action) (c : Client.t) : Client.t :=
  Client.mk (Client.activeExecutions c) (Client.log c ++ [a]).

Definition exec_Key (e : PbExecution.t) : string := Key (NewExecutionFromProto e).

(** A call that reaches a server that leads no longer is forwarded. *)
Definition client_ExecutionDone (execution : PbExecution.t) (c : Client.t)
    : Client.t * option call_error :=
  let c := act (CallExecutionDone (execution_ToProto (NewExecutionFromProto execution))) c in
  match answer (Client.log c) with
  | None => (c, None)
  | Some err =>
      if String.eqb (Error err) ("rpc error: code = Unknown desc = " +:+ ErrNotLeader) then (c, None)
      else (c, Some err)
  end.

Definition client_SetExecution (execution : PbExecution.t) (c : Client.t)
    : Client.t * option call_error :=
  let c := act (CallSetExecution execution) c in (c, answer (Client.log c)).

Definition broken (now : time) (err : call_error) (e : PbExecution.t) : PbExecution.t :=
  finished now false (ErrBrokenStream +:+ ": " +:+ Error err) e.

(** The loop of [agentRunAttempt] with the keys whose deletion is deferred; the
    execution it was called with is changed in place until the first message. *)
Fixpoint recv_loop (first : bool) (execution : PbExecution.t) (deferred : list string)
    (messages : list PbExecution.t) (ending : option call_error) (c : Client.t)
    : Client.t * list string * PbExecution.t * option call_error :=
  match messages with
  | [] =>
      let execution :=
        match ending with
        | None => execution
        | Some err => broken (clock (Client.log c)) err execution
        end in
      let (c, err) := client_ExecutionDone execution c in (c, deferred, execution, err)
  | ars :: messages =>
      let c := Client.mk (<[exec_Key ars := ars]> (Client.activeExecutions c)) (Client.log c) in
      let deferred := exec_Key ars :: deferred in
      if first then recv_loop true ars deferred messages ending c
      else
        let (c, err) := client_SetExecution ars c in
        match err with
        | Some err => (c, deferred, ars, Some err)
        | None => recv_loop true ars deferred messages ending c
        end
  end.

(** The client, the execution as the next attempt finds it, and the error. *)
Definition agentRunAttempt (execution : PbExecution.t) (conn : connection) (c : Client.t)
    : Client.t * PbExecution.t * option call_error :=
  match conn with
  | ConnectError err | OpenError err => (c, execution, Some err)
  | Stream messages ending =>
      let '(c, deferred, last, err) := recv_loop false execution [] messages ending (act Dispatch c) in
      let c := Client.mk (foldr delete (Client.activeExecutions c) deferred) (Client.log c) in
      (c, match messages with [] => last | _ => execution end, err)
  end.

(** The doubling stops at the maximum, before it can overflow. *)
Fixpoint backoff_loop (n : nat) (maxInterval backoff : Z) : Z :=
  match n with
  | O => backoff
  | S n =>
      let backoff := int64 (backoff * 2) in
      if maxInterval <? backoff then maxInterval else backoff_loop n maxInterval backoff
  end.

Definition retry_backoff (initialInterval maxInterval : Z) (attempt : nat) : Z :=
  let backoff := backoff_loop (attempt - 1) maxInterval initialInterval in
  if maxInterval <? backoff then maxInterval else backoff.

Section run.
Variable initialInterval maxInterval : Z.
(** The connection an attempt gets. *)
Variable connect : nat → PbExecution.t → connection.

(** The loop from [attempt] on, with [n] attempts left; [lastErr] is returned
    when none is. *)
Fixpoint run_loop (n attempt : nat) (execution : PbExecution.t) (lastErr : option call_error)
    (c : Client.t) : Client.t * option call_error :=
  match n with
  | O => (c, lastErr)
  | S n =>
      let c :=
        match attempt with
        | O => c
        | S _ => act (Sleep (retry_backoff initialInterval maxInterval attempt)) c
        end in
      let '(c, execution, err) := agentRunAttempt execution (connect attempt execution) c in
      match err with
      | None => (c, None)
      | Some err =>
          if isRetryableError (Some err) then run_loop n (S attempt) execution (Some err) c
          else (c, Some err)
      end
  end.

(** [GRPCClient.AgentRun] *)
Definition AgentRun (maxRetries : Z) (execution : PbExecution.t) (c : Client.t)
    : Client.t * option call_error :=
  run_loop (Z.to_nat (maxRetries + 1)) 0 execution None c.
End run.
End client.

(** ** Backoff *)

Lemma backoff_loop_min n maxInterval backoff :
  0 < backoff < 2 ^ 62 → 0 ≤ maxInterval < 2 ^ 62 →
  Z.min maxInterval (backoff_loop n maxInterval backoff) = Z.min maxInterval (backoff * 2 ^ Z.of_nat n).
Proof.
  intros Hb Hm. revert backoff Hb. induction n as [|n IH]; intros b Hb; cbn [backoff_loop].
  { by rewrite Z.mul_1_r. }
  rewrite Nat2Z.inj_succ, Z.pow_succ_r, int64_id by lia.
  assert (0 < 2 ^ Z.of_nat n) by lia.
  destruct (Z.ltb_spec maxInterval (b * 2)) as [Hlt|Hge]; [nia|]. rewrite IH by lia. f_equal. lia.
Qed.

Lemma retry_backoff_min initialInterval maxInterval attempt :
  0 < initialInterval < 2 ^ 62 → 0 ≤ maxInterval < 2 ^ 62 →
  retry_backoff initialInterval maxInterval attempt =
    Z.min maxInterval (initialInterval * 2 ^ (Z.of_nat (attempt - 1))).
Proof.
  intros Hi Hm. rewrite <- backoff_loop_min by done. unfold retry_backoff.
  destruct (Z.ltb_spec maxInterval (backoff_loop (attempt - 1) maxInterval initialInterval)); lia.
Qed.

(** ** An attempt *)

Definition dispatches (l : list action) : nat :=
  length (List.filter (λ a, match a with Dispatch => true | _ => false end) l).
Definition sleeps (l : list action) : list Z := omap (λ a, match a with Sleep d => Some d | _ => None end) l.

Lemma dispatches_app l l' : dispatches (l ++ l') = (dispatches l + dispatches l')%nat.
Proof. unfold dispatches. by rewrite List.filter_app, length_app. Qed.
Lemma sleeps_app l l' : sleeps (l ++ l') = sleeps l ++ sleeps l'.
Proof. apply omap_app. Qed.

(** The active executions a client has left are some it had. *)
Definition forgets (c c' : Client.t) : Prop := ∀ k,
  Client.activeExecutions c' !! k = Client.activeExecutions c !! k ∨ Client.activeExecutions c' !! k = None.

Lemma forgets_trans c1 c2 c3 : forgets c1 c2 → forgets c2 c3 → forgets c1 c3.
Proof. intros H1 H2 k. destruct (H2 k) as [->|]; auto. Qed.

Lemma lookup_foldr_delete {A} (ks : list string) (m : gmap string A) k :
  foldr delete m ks !! k = if decide (k ∈ ks) then None else m !! k.
Proof.
  induction ks as [|k' ks IH]; cbn [foldr].
  - by rewrite decide_False by apply not_elem_of_nil.
  - destruct (decide (k = k')) as [->|Hne].
    + rewrite lookup_delete_eq, decide_True by left. done.
    + rewrite lookup_delete_ne, IH by done. apply decide_ext. rewrite elem_of_cons. naive_solver.
Qed.

Section client_lemmas.
Variable answer : list action → option call_error.
Variable clock : list action → time.

(** The error of a report that was the last action of the log. *)
Definition report_error (l : list action) : option call_error :=
  match answer l with
  | None => None
  | Some err =>
      if String.eqb (Error err) ("rpc error: code = Unknown desc = " +:+ ErrNotLeader) then None else Some err
  end.

Definition report (e : PbExecution.t) : action := CallExecutionDone (execution_ToProto (NewExecutionFromProto e)).

Lemma client_ExecutionDone_eq e c :
  client_ExecutionDone answer e c = (act (report e) c, report_error (Client.log c ++ [report e])).
Proof.
  unfold client_ExecutionDone, report_error. cbn [act Client.log]. fold (report e).
  destruct (answer _); [|done]. by destruct (String.eqb _ _).
Qed.

(** The execution as it is reported at the end of a stream. *)
Definition reported (l : list action) (ending : option call_error) (e : PbExecution.t) : PbExecution.t :=
  match ending with None => e | Some err => broken (clock l) err e end.

Lemma recv_loop_started e ks ms ending c :
  let '(c', ks', _, err) := recv_loop answer clock true e ks ms ending c in
  let final := reported (Client.log c) ending (default e (last ms)) in
  Client.log c' = Client.log c ++ [report final] ∧
  err = report_error (Client.log c ++ [report final]) ∧
  (∀ k, k ∈ ks → k ∈ ks') ∧
  ∀ k, k ∉ ks' → Client.activeExecutions c' !! k = Client.activeExecutions c !! k.
Proof.
  revert e ks c. induction ms as [|m ms IH]; intros e ks c; cbn [recv_loop].
  - set (e' := match ending with None => e | Some err => broken _ err e end).
    rewrite client_ExecutionDone_eq. by split_and!.
  - specialize (IH m (exec_Key m :: ks)
      (Client.mk (<[exec_Key m := m]> (Client.activeExecutions c)) (Client.log c))).
    destruct (recv_loop _ _ _ _ _ _ _ _) as [[[c' ks'] e'] err].
    replace (default e (last (m :: ms))) with (default m (last ms))
      by (by rewrite last_cons; destruct (last ms)).
    destruct IH as (Hl & He & Hk & Ha). split; [done|]. split; [done|]. split.
    + intros k Hin. apply Hk. by right.
    + intros k Hin. rewrite Ha by done. cbn. apply lookup_insert_ne. intros <-. apply Hin, Hk. left.
Qed.

(** What an attempt does, for each kind of connection. *)
Lemma agentRunAttempt_log e conn c :
  let '(c', e', err) := agentRunAttempt answer clock e conn c in
  forgets c c' ∧
  match conn with
  | ConnectError err0 | OpenError err0 => Client.log c' = Client.log c ∧ e' = e ∧ err = Some err0
  | Stream [] ending =>
      let final := reported (Client.log c ++ [Dispatch]) ending e in
      Client.log c' = Client.log c ++ [Dispatch; report final] ∧ e' = final ∧
      err = report_error (Client.log c')
  | Stream (m :: ms) ending =>
      let l := Client.log c ++ [Dispatch; CallSetExecution m] in
      e' = e ∧
      match answer l with
      | Some err0 => Client.log c' = l ∧ err = Some err0
      | None =>
          let final := reported l ending (default m (last ms)) in
          Client.log c' = l ++ [report final] ∧ err = report_error (Client.log c')
      end
  end.
Proof.
  destruct conn as [err0|err0|[|m ms] ending]; cbn [agentRunAttempt]; [by split; [by left|]..| |].
  - cbn [recv_loop]. rewrite client_ExecutionDone_eq. split; [by left|]. cbn [act Client.log foldr].
    rewrite <- app_assoc. by split_and!.
  - cbn [recv_loop]. unfold client_SetExecution, act. cbn [Client.log Client.activeExecutions].
    rewrite <- app_assoc. cbn [app]. destruct (answer _) as [err0|].
    { split; [|by split]. intros k. cbn [Client.activeExecutions]. rewrite lookup_foldr_delete.
      case_decide as Hk; [by right|left]. apply lookup_insert_ne. intros <-. apply Hk. left. }
    set (c1 := Client.mk _ _). pose proof (recv_loop_started m [exec_Key m] ms ending c1) as Hr.
    destruct (recv_loop _ _ _ _ _ _ _ _) as [[[c' ks'] e'] err]. destruct Hr as (Hl & -> & Hk & Ha).
    split; [|split; [done|]; cbn [Client.log]; by rewrite Hl]. intros k.
    cbn [Client.activeExecutions]. rewrite lookup_foldr_delete. case_decide as Hin; [by right|left].
    rewrite Ha by done.
    apply lookup_insert_ne. intros <-. apply Hin, Hk. left.
Qed.

(** ** All attempts *)

Definition is_call (a : action) : bool :=
  match a with CallSetExecution _ | CallExecutionDone _ => true | _ => false end.

(** The calls of a log, after what was [before], that were answered by an error
    that may go away. *)
Fixpoint faults (before l : list action) : nat :=
  match l with
  | [] => 0
  | a :: l =>
      ((if is_call a && isRetryableError (answer (before ++ [a])) then 1 else 0)
       + faults (before ++ [a]) l)%nat
  end.

Lemma faults_app before l l' : faults before (l ++ l') = (faults before l + faults (before ++ l) l')%nat.
Proof.
  revert before. induction l as [|a l IH]; intros before; cbn [faults app]; [by rewrite app_nil_r|].
  rewrite IH, <- app_assoc. cbn [app]. lia.
Qed.

Lemma report_error_retryable l : isRetryableError (report_error l) = true → isRetryableError (answer l) = true.
Proof. unfold report_error. destruct (answer l); [|done]. by destruct (String.eqb _ _). Qed.

(** An attempt sends the execution at most once, and has itself met a fault when
    another attempt follows it; without an error its last action is the report. *)
Lemma agentRunAttempt_actions e conn c :
  let '(c', _, err) := agentRunAttempt answer clock e conn c in
  ∃ l, Client.log c' = Client.log c ++ l ∧ forgets c c' ∧ sleeps l = [] ∧ (dispatches l ≤ 1)%nat ∧
    (isRetryableError err = true → (dispatches l ≤ faults (Client.log c) l)%nat) ∧
    (err = None → ∃ l0 e0, l = l0 ++ [report e0] ∧ report_error (Client.log c') = None).
Proof.
  pose proof (agentRunAttempt_log e conn c) as Hl.
  destruct (agentRunAttempt _ _ _ _ _) as [[c' e'] err]. destruct Hl as [Hf Hl].
  destruct conn as [err0|err0|[|m ms] ending].
  - destruct Hl as (-> & _ & ->). exists []. rewrite app_nil_r. split_and!; (done || cbn; lia).
  - destruct Hl as (-> & _ & ->). exists []. rewrite app_nil_r. split_and!; (done || cbn; lia).
  - destruct Hl as (Hl & _ & ->). set (final := reported _ _ _) in *.
    exists [Dispatch; report final]. split_and!; [done..|cbn; lia| |].
    + intros Hr%report_error_retryable. rewrite Hl in Hr. cbn [faults is_call andb report].
      rewrite <- app_assoc. cbn [app]. fold (report final). rewrite Hr. cbn. lia.
    + intros Hn. by exists [Dispatch], final.
  - destruct Hl as [_ Hl]. destruct (answer _) as [err0|] eqn:Ha.
    + destruct Hl as [Hl ->]. exists [Dispatch; CallSetExecution m]. split_and!; [done..|cbn; lia| |done].
      intros Hr. cbn [faults is_call andb]. rewrite <- app_assoc. cbn [app]. rewrite Ha, Hr. cbn. lia.
    + destruct Hl as [Hl ->]. set (final := reported _ _ _) in *.
      exists [Dispatch; CallSetExecution m; report final]. rewrite Hl, <- app_assoc. split_and!; [done..|cbn; lia| |].
      * intros Hr%report_error_retryable. cbn [faults is_call andb report].
        rewrite <- !app_assoc. cbn [app] in *. fold (report final). rewrite Hr. cbn. lia.
      * intros Hn. by exists [Dispatch; CallSetExecution m], final.
Qed.

Section run_lemmas.
Variable initialInterval maxInterval : Z.
Variable connect : nat → PbExecution.t → connection.

(** What [n] attempts from number [attempt] on do to a client, with the error
    they end with. *)
Definition run_actions (n attempt : nat) (lastErr : option call_error) (c c' : Client.t)
    (err : option call_error) : Prop :=
  let first := if Nat.eqb attempt 0 then 1%nat else O in
  ∃ l, Client.log c' = Client.log c ++ l ∧ forgets c c' ∧
    (∃ k, sleeps l = retry_backoff initialInterval maxInterval <$> seq (Nat.max 1 attempt) k ∧
       (k + first ≤ Nat.max n first)%nat) ∧
    (dispatches l ≤ n)%nat ∧ (dispatches l ≤ 1 + faults (Client.log c) l)%nat ∧
    (err = None → lastErr = None ∧ n = O ∨
       ∃ l0 e0, l = l0 ++ [report e0] ∧ report_error (Client.log c') = None).

(** One attempt, and the wait before it unless it is the first. *)
Definition one_actions (attempt : nat) (c c' : Client.t) (err : option call_error) : Prop :=
  ∃ l, Client.log c' = Client.log c ++ l ∧ forgets c c' ∧
    sleeps l = (if Nat.eqb attempt 0 then [] else [retry_backoff initialInterval maxInterval attempt]) ∧
    (dispatches l ≤ 1)%nat ∧
    (isRetryableError err = true → (dispatches l ≤ faults (Client.log c) l)%nat) ∧
    (err = None → ∃ l0 e0, l = l0 ++ [report e0] ∧ report_error (Client.log c') = None).

Lemma one_attempt attempt e c :
  let c0 :=
    match attempt with
    | O => c
    | S _ => act (Sleep (retry_backoff initialInterval maxInterval attempt)) c
    end in
  let '(c', _, err) := agentRunAttempt answer clock e (connect attempt e) c0 in
  one_actions attempt c c' err.
Proof.
  intros c0.
  assert (∃ l0, Client.log c0 = Client.log c ++ l0 ∧ Client.activeExecutions c0 = Client.activeExecutions c ∧
    sleeps l0 = (if Nat.eqb attempt 0 then [] else [retry_backoff initialInterval maxInterval attempt]) ∧
    dispatches l0 = O) as (l0 & Hl0 & Ha0 & Hs0 & Hd0).
  { unfold c0. destruct attempt as [|a]; [exists []|exists [Sleep (retry_backoff initialInterval maxInterval (S a))]];
      cbn [act Client.log]; rewrite ?app_nil_r; by split_and!. }
  clearbody c0. pose proof (agentRunAttempt_actions e (connect attempt e) c0) as Hat.
  destruct (agentRunAttempt _ _ _ _ _) as [[c1 e1] err].
  destruct Hat as (l1 & Hl1 & Hf1 & Hs1 & Hd1 & Hr1 & Hn1). rewrite Hl0 in Hl1, Hr1.
  exists (l0 ++ l1). split; [by rewrite app_assoc|]. split; [intros k; rewrite <- Ha0; apply Hf1|].
  split; [by rewrite sleeps_app, Hs0, Hs1, app_nil_r|]. split; [rewrite dispatches_app; lia|]. split.
  - intros Hr. specialize (Hr1 Hr). rewrite dispatches_app, faults_app. lia.
  - intros Hn. destruct (Hn1 Hn) as (l2 & e2 & -> & Hrep). exists (l0 ++ l2), e2. by rewrite app_assoc.
Qed.

Lemma run_actions_last n attempt lastErr c c' err :
  one_actions attempt c c' err → run_actions (S n) attempt lastErr c c' err.
Proof.
  intros (l & Hl & Hf & Hs & Hd & _ & Hn). exists l. split; [done|]. split; [done|]. split.
  { rewrite Hs. destruct attempt as [|a]; cbn [Nat.eqb]; [exists O|exists 1%nat]; split; (done || lia). }
  split; [lia|]. split; [lia|]. intros E. right. by apply Hn.
Qed.

Lemma run_actions_more n attempt lastErr c c1 c2 err err2 :
  isRetryableError (Some err) = true → one_actions attempt c c1 (Some err) →
  run_actions n (S attempt) (Some err) c1 c2 err2 → run_actions (S n) attempt lastErr c c2 err2.
Proof.
  intros Hret (l & Hl & Hf & Hs & Hd & Hr & _) (l2 & Hl2 & Hf2 & (k & Hk & Hkn) & Hd2 & Hx2 & Hn2).
  specialize (Hr Hret). exists (l ++ l2). split; [by rewrite Hl2, Hl, app_assoc|].
  split; [by eapply forgets_trans|]. split.
  { rewrite sleeps_app, Hs, Hk. cbn [Nat.eqb] in Hkn. destruct attempt as [|a]; cbn [Nat.eqb].
    - exists k. split; [done|lia].
    - exists (S k). split; [done|lia]. }
  split; [rewrite dispatches_app; lia|]. split.
  { rewrite dispatches_app, faults_app, <- Hl. lia. }
  intros Hn. destruct (Hn2 Hn) as [[? _]|(l3 & e3 & -> & Hrep)]; [done|]. right.
  exists (l ++ l3), e3. by rewrite <- app_assoc.
Qed.

Lemma run_loop_actions n attempt e lastErr c :
  let (c', err) := run_loop answer clock initialInterval maxInterval connect n attempt e lastErr c in
  run_actions n attempt lastErr c c' err.
Proof.
  revert attempt e lastErr c. induction n as [|n IH]; intros attempt e lastErr c; cbn [run_loop].
  { exists []. rewrite app_nil_r. split_and!; [done|by left| |cbn; lia..|by left].
    exists O. split; [done|]. destruct attempt; cbn; lia. }
  pose proof (one_attempt attempt e c) as Hone. cbv zeta in Hone.
  destruct (agentRunAttempt _ _ _ _ _) as [[c1 e1] [err|]]; [|by apply run_actions_last].
  destruct (isRetryableError (Some err)) eqn:Hret; [|by apply run_actions_last].
  specialize (IH (S attempt) e1 (Some err) c1). destruct (run_loop _ _ _ _ _ _ _ _ _ _).
  by eapply run_actions_more.
Qed.
End run_lemmas.
End client_lemmas.

(** ** What the executor has done *)

(** The executor of the job is there and returns a response without an error. *)
Definition succeeds (ExecutorPlugins : gmap string (string → Config → list string * executed))
    (job : PbJob.t) : Prop :=
  PbJob.Executor job ≠ "" ∧ ∃ Execute bs out, ExecutorPlugins !! PbJob.Executor job = Some Execute ∧
    Execute (PbJob.Name job) (PbJob.ExecutorConfig job) = (bs, Executed out) ∧
    ExecuteResponse.Error out = "".

Lemma call_executor_succeeds plugins job : PbJob.Executor job ≠ "" →
  (call_executor plugins (PbJob.Executor job) job).2.1 = true ↔ succeeds plugins job.
Proof.
  intros Hj. unfold call_executor, succeeds.
  destruct (plugins !! PbJob.Executor job) as [Execute|]; [|split; [done|intros (_ & ? & ? & ? & ? & _); done]].
  destruct (Execute _ _) as [bs [err out|out]] eqn:He; cbn.
  - split; [done|]. intros (_ & x & ? & ? & [= <-] & E & _). by rewrite He in E.
  - destruct (String.eqb_spec (ExecuteResponse.Error out) "") as [Ho|Ho]; cbn.
    + split; [|done]. intros _. split; [done|]. by exists Execute, bs, out.
    + split; [done|]. intros (_ & x & ? & ? & [= <-] & E & ?). rewrite He in E. by injection E as _ <-.
Qed.

(** What is written to the buffer. *)
Lemma call_executor_output plugins job : (call_executor plugins (PbJob.Executor job) job).2.2 =
  match plugins !! PbJob.Executor job with
  | None => ["grpc_agent: Specified executor is not present"]
  | Some Execute =>
      match (Execute (PbJob.Name job) (PbJob.ExecutorConfig job)).2 with
      | Executed (ExecuteResponse.mk out err) =>
          if decide (err = "") then [out] else [err +:+ newline; out]
      | ExecuteFailed err (Some (ExecuteResponse.mk out _)) => [err +:+ newline; out]
      | ExecuteFailed err None => [err +:+ newline]
      end
  end.
Proof.
  unfold call_executor. destruct (plugins !! PbJob.Executor job) as [Execute|]; [|done].
  destruct (Execute _ _) as [bs [err [[out oerr]|]|[out err]]]; cbn; try done.
  by destruct (String.eqb_spec err ""), (decide (err = "")).
Qed.

(** ** Theorems *)

Section theorems.
Variable answer : list action → option call_error.
Variable clock : list action → time.
Variable initialInterval maxInterval : Z.
Variable connect : nat → PbExecution.t → connection.

(** C14. Retries of a call to a node are bounded and justified: whatever the
    network does, the leader sends an execution to its node at most
    [maxRetries + 1] times, and at most once more than its own calls were
    answered by an error that may go away; it waits at most [maxRetries] times,
    first the initial interval, then double each time up to the maximum, without
    overflow; when it returns no error, the last thing it did was to report the
    execution, and the report was taken; and it forgets what it followed. *)
Theorem AgentRun_retries maxRetries e c :
  0 < initialInterval < 2 ^ 62 → 0 ≤ maxInterval < 2 ^ 62 →
  let (c', err) := AgentRun answer clock initialInterval maxInterval connect maxRetries e c in
  ∃ l, Client.log c' = Client.log c ++ l ∧ forgets c c' ∧
    (∃ k, Z.of_nat k ≤ Z.max 0 maxRetries ∧
       sleeps l = (λ i, Z.min maxInterval (initialInterval * 2 ^ Z.of_nat i)) <$> seq 0 k) ∧
    Z.of_nat (dispatches l) ≤ Z.max 0 (maxRetries + 1) ∧
    (dispatches l ≤ 1 + faults answer (Client.log c) l)%nat ∧
    (err = None → 0 ≤ maxRetries →
       ∃ l0 e0, l = l0 ++ [report e0] ∧ report_error answer (Client.log c') = None).
Proof.
  intros Hi Hm. unfold AgentRun.
  pose proof (run_loop_actions answer clock initialInterval maxInterval connect
    (Z.to_nat (maxRetries + 1)) 0 e None c) as Ha.
  destruct (run_loop _ _ _ _ _ _ _ _ _ _) as [c' err].
  destruct Ha as (l & Hl & Hf & (k & Hs & Hk) & Hd & Hx & Hn). exists l. cbn [Nat.eqb] in Hk.
  split; [done|]. split; [done|]. split.
  { exists k. split; [lia|]. rewrite Hs. rewrite <- (fmap_S_seq 0), <- list_fmap_compose.
    apply list_fmap_ext. intros i x _. unfold compose. rewrite retry_backoff_min by done.
    replace (S x - 1)%nat with x by lia. done. }
  split; [lia|]. split; [done|]. intros He Hr. destruct (Hn He) as [[_ ?]|?]; [lia|done].
Qed.

(** C13. The leader is told what the node has done: when the first and the last
    message of the stream get through, the node ends the stream in its first
    attempt, and the two calls of the leader are answered without an error, then it
    stores the execution once as started on the node, and once as ended, under the
    same key and with the job, group and attempt it was sent with; it ended at the
    time the node says, with success exactly when the executor of the job exists
    and returned no error, and with the last [maxBufSize] bytes, as the ring buffer
    keeps them, of the error in a line of its own, if any, and the output of the
    executor.  (The number of retries is not negative, and the attempt fits the 32
    bits of its field.)  A job without an executor is reported as a broken stream, failed at
    the time the leader sees that. *)
Theorem stream_reports_run plugins circbuf Send node start finish job e c maxRetries :
  let e0 := started start node e in
  Send 0%nat = true →
  Send (S (length (call_executor plugins (PbJob.Executor job) job).1)) = true →
  answer (Client.log c ++ [Dispatch; CallSetExecution e0]) = None →
  (∀ final, answer (Client.log c ++ [Dispatch; CallSetExecution e0; CallExecutionDone final]) = None) →
  0 ≤ maxRetries → in_uint32 (PbExecution.Attempt e) →
  let (messages, r) := node_AgentRun plugins circbuf Send node start finish job e in
  ∃ ending, r = Returned ending ∧
  (connect 0 e = Stream messages (StatusError Code.Unknown <$> ending) →
   ∃ c' final,
     AgentRun answer clock initialInterval maxInterval connect maxRetries e c = (c', None) ∧
     Client.log c' = Client.log c ++ [Dispatch; CallSetExecution e0; CallExecutionDone final] ∧
     exec_Key final = exec_Key e0 ∧ PbExecution.NodeName final = node ∧
     PbExecution.JobName final = PbExecution.JobName e ∧ PbExecution.Group final = PbExecution.Group e ∧
     PbExecution.Attempt final = PbExecution.Attempt e ∧
     (PbExecution.Success final = true ↔ succeeds plugins job) ∧
     (if String.eqb (PbJob.Executor job) ""
      then PbExecution.Output final = "grpc: Error on execution streaming, agent connection was abruptly terminated: rpc error: code = Unknown desc = grpc_agent: No executor defined, nothing to do" ∧
        PbExecution.FinishedAt final = clock (Client.log c ++ [Dispatch; CallSetExecution e0])
      else PbExecution.FinishedAt final = finish ∧
        PbExecution.Output final = circbuf maxBufSize
          match plugins !! PbJob.Executor job with
          | None => ["grpc_agent: Specified executor is not present"]
          | Some Execute =>
              match (Execute (PbJob.Name job) (PbJob.ExecutorConfig job)).2 with
              | Executed (ExecuteResponse.mk out err) =>
                  if decide (err = "") then [out] else [err +:+ newline; out]
              | ExecuteFailed err (Some (ExecuteResponse.mk out _)) => [err +:+ newline; out]
              | ExecuteFailed err None => [err +:+ newline]
              end
          end)).
Proof.
  intros e0 Hs0 Hs1 Hans Hdone Hm Hu.
  assert (∀ ms ending last_e, last (e0 :: ms) = Some last_e →
    connect 0 e = Stream (e0 :: ms) ending → ∃ c',
    AgentRun answer clock initialInterval maxInterval connect maxRetries e c = (c', None) ∧
    Client.log c' = Client.log c ++ [Dispatch; CallSetExecution e0;
      report (reported clock (Client.log c ++ [Dispatch; CallSetExecution e0]) ending last_e)]) as Hrun.
  { intros ms ending last_e Hlast Hc. unfold AgentRun.
    destruct (Z.to_nat (maxRetries + 1)) as [|n] eqn:Hn; [lia|]. cbn [run_loop].
    pose proof (agentRunAttempt_log answer clock e (connect 0 e) c) as Hl. rewrite Hc in *.
    destruct (agentRunAttempt _ _ _ _ _) as [[c' e'] err]. destruct Hl as (_ & _ & Hl).
    rewrite Hans in Hl. destruct Hl as [Hl ->]. rewrite <- app_assoc in Hl. cbn [app] in Hl.
    unfold report_error. rewrite Hl. unfold report at 1. rewrite Hdone.
    exists c'. split; [done|]. rewrite Hl. rewrite last_cons in Hlast.
    replace (default e0 (last ms)) with last_e; [done|]. destruct (last ms); by injection Hlast. }
  unfold node_AgentRun. rewrite Hs0. cbn [negb]. fold e0.
  destruct (String.eqb_spec (PbJob.Executor job) "") as [Hj|Hj].
  - eexists. split; [done|]. intros Hc.
    destruct (Hrun [] _ e0 eq_refl Hc) as (c' & Hr & Hl). exists c'. eexists. split; [exact Hr|].
    split; [exact Hl|]. split_and!; try done; [by apply uint32_id|by split; [|intros [? _]]].
  - pose proof (call_executor_output plugins job) as Hout.
    pose proof (call_executor_succeeds plugins job Hj) as Hsucc.
    destruct (call_executor plugins _ job) as [bs [success output]]. cbn [fst snd] in *.
    rewrite Hs1. eexists. split; [done|]. intros Hc. cbn [app] in Hc.
    set (final := finished finish success _ e0) in *.
    destruct (Hrun _ _ final ltac:(by rewrite app_comm_cons, last_snoc) Hc) as (c' & Hr & Hl).
    exists c'. eexists. split; [exact Hr|]. split; [exact Hl|].
    split_and!; try done; [by apply uint32_id|]. cbn. by rewrite Hout.
Qed.
End theorems.

(** ** Examples *)

Section demo.
Definition demo_execution : PbExecution.t := PbExecution.mk "a" false "" "" 7 1 zero_time zero_time.
Definition demo_job : PbJob.t :=
  PbJob.mk "a" "" "" "@daily" "" "" 0 0 false ∅ 0 [] "" "" ∅ "shell" ∅ "" ∅ None None None false None None.
Definition demo_plugins : gmap string (string → Config → list string * executed) :=
  {[ "shell" := λ _ _, (["50%"], Executed (ExecuteResponse.mk "done" "")) ]}.
Definition demo_client : Client.t := Client.mk ∅ [].
Definition demo_run (start : time) : list PbExecution.t :=
  (node_AgentRun demo_plugins (λ _, String.concat "") (λ _, true) "n1" start 9000 demo_job demo_execution).1.

Lemma stream_reports_run_witness :
  ∃ c' final,
    AgentRun (λ _, None) (λ _, 0) 1000 30000 (λ _ _, Stream (demo_run 5000) None) 3 demo_execution demo_client
      = (c', None) ∧
    Client.log c' = [Dispatch; CallSetExecution (started 5000 "n1" demo_execution); CallExecutionDone final] ∧
    PbExecution.Success final = true ∧ PbExecution.FinishedAt final = 9000 ∧ PbExecution.Output final = "done".
Proof.
  destruct (stream_reports_run (λ _, None) (λ _, 0) 1000 30000 (λ _ _, Stream (demo_run 5000) None)
    demo_plugins (λ _, String.concat "") (λ _, true) "n1" 5000 9000 demo_job demo_execution demo_client 3
    eq_refl eq_refl eq_refl ltac:(reflexivity) ltac:(lia) ltac:(unfold in_uint32; cbn; lia)) as (ending & E & Hr).
  injection E as <-. destruct (Hr eq_refl) as (c' & final & H1 & H2 & _ & _ & _ & _ & _ & H3 & H4 & H5).
  exists c', final. split; [exact H1|]. split; [exact H2|]. split; [|split; [exact H4|exact H5]]. apply H3.
  split; [done|]. eexists _, _, _. split; [reflexivity|]. split; reflexivity.
Defined.

(** The first two connections fail; the third attempt gets through. *)
Definition demo_connect (attempt : nat) (_ : PbExecution.t) : connection :=
  if Nat.ltb attempt 2 then ConnectError (PlainError "context deadline exceeded")
  else Stream (demo_run 5000) None.

Lemma AgentRun_retries_witness :
  0 < 1000 < 2 ^ 62 ∧ 0 ≤ 1500 < 2 ^ 62 ∧
  sleeps (Client.log (AgentRun (λ _, None) (λ _, 0) 1000 1500 demo_connect 3 demo_execution demo_client).1)
    = [1000; 1500] ∧
  dispatches (Client.log (AgentRun (λ _, None) (λ _, 0) 1000 1500 demo_connect 3 demo_execution demo_client).1)
    = 1%nat ∧
  (AgentRun (λ _, None) (λ _, 0) 1000 1500 demo_connect 3 demo_execution demo_client).2 = None ∧
  ∃ l, Client.log (AgentRun (λ _, None) (λ _, 0) 1000 1500 demo_connect 3 demo_execution demo_client).1 = l ∧
    Z.of_nat (dispatches l) ≤ 4.
Proof.
  assert (0 < 1000 < 2 ^ 62) as Hi by lia. assert (0 ≤ 1500 < 2 ^ 62) as Hm by lia.
  split; [exact Hi|]. split; [exact Hm|]. split; [vm_compute; reflexivity|].
  split; [vm_compute; reflexivity|]. split; [vm_compute; reflexivity|].
  pose proof (AgentRun_retries (λ _, None) (λ _, 0) 1000 1500 demo_connect 3 demo_execution demo_client Hi Hm)
    as Ha. destruct (AgentRun _ _ _ _ _ _ _ _) as [c' err].
  destruct Ha as (l & Hl & _ & _ & Hd & _). exists l. split; [exact Hl|exact Hd].
Defined.

(** When the leader cannot be told that the execution has started, the node
    already runs it, and the next attempt sends it once more. *)
Lemma execution_sent_twice :
  let down l := match l with
    | [Dispatch; CallSetExecution _] => Some (StatusError Code.Unavailable "no leader")
    | _ => None
    end in
  let r := AgentRun down (λ _, 0) 1000 1500
    (λ attempt _, Stream (demo_run (5000 + Z.of_nat attempt)) None) 3 demo_execution demo_client in
  r.2 = None ∧ dispatches (Client.log r.1) = 2%nat.
Proof. vm_compute. split; reflexivity. Qed.
End demo.
