(* ===== verification/Cluster.v ===== *)
(** * Cluster: what an agent answers about the cluster

    The questions of src/dkron/agent.go to serf and raft: the leader, the servers,
    the executions that are running; the call that asks a server for those it
    follows (grpc.go, grpc_client.go); and the handlers of api.go that answer with
    it.  The members and the state of the log are what serf and raft report.  The
    theorem: which executions the interface shows as running. *)

From S2P Require Import Prelude GoCore JsCore Jobs Nodes Store Runs Streams Membership.

(** ** The agent *)

Module Agent.
(** The region of its configuration, the members serf reports, and of the log,
    when it has one, whether it leads it and the address of the leader. *)
Record t := mk {
  Region : string;
  Members : list Member.t;
  raft : option (bool * string);
  (** Whether the process of a plugin has exited, by name; whether it is a server. *)
  PluginClients : list (string * bool);
  Server : bool;
}.
End Agent.

(** [None] is [ErrLeaderNotFound]. *)
Definition leaderMember (a : Agent.t) : option Member.t :=
  match Agent.raft a with
  | None => None
  | Some (_, l) => List.find (λ m, String.eqb (tag "rpc_addr" m) l) (Agent.Members a)
  end.

Definition IsLeader (a : Agent.t) : bool :=
  match Agent.raft a with Some (leads, _) => leads | None => false end.

Definition Leader (a : Agent.t) : string :=
  match Agent.raft a with Some (_, l) => l | None => "" end.

(** A member that is a server and alive. *)
Definition alive_server (m : Member.t) : option ServerParts.t :=
  match isServer m with
  | None => None
  | Some parts => if bool_decide (Member.Status m = Some StatusAlive) then Some parts else None
  end.

Definition Servers (a : Agent.t) : list ServerParts.t := omap alive_server (Agent.Members a).

Definition LocalServers (a : Agent.t) : list ServerParts.t :=
  omap (λ m, let? parts := alive_server m in
    if String.eqb (Agent.Region a) (ServerParts.Region parts) then Some parts else None) (Agent.Members a).

(** ** Running executions *)

Section active.
(** The order in which a map is walked. *)
Variable Range : gmap string PbExecution.t → list PbExecution.t.

(** The answer of a server to GetActiveExecutions. *)
Definition grpc_GetActiveExecutions (c : Client.t) : list PbExecution.t := Range (Client.activeExecutions c).
End active.

Section busy.
(** What the server of an address answers; [None] when it cannot be asked. *)
Variable ask : string → option (list PbExecution.t).

(** The first error ends it. *)
Fixpoint ask_all (servers : list ServerParts.t) (executions : list PbExecution.t)
    : option (list PbExecution.t) :=
  match servers with
  | [] => Some executions
  | s :: servers =>
      match ask (ServerParts.RPCAddr s) with
      | None => None
      | Some exs => ask_all servers (executions ++ exs)
      end
  end.
Definition GetActiveExecutions (a : Agent.t) : option (list PbExecution.t) := ask_all (LocalServers a) [].

(** The status, the header X-Total-Count and the executions. *)
Definition busyHandler (a : Agent.t) : Z * option (Z * list Exec.t) :=
  match GetActiveExecutions a with
  | None => (500, None)
  | Some exs =>
      let executions := js_sort by_start (NewExecutionFromProto <$> exs) in
      (200, Some (Z.of_nat (length executions), executions))
  end.
End busy.

(** ** Other handlers *)

Definition isLeaderHandler (a : Agent.t) : Z * string :=
  if IsLeader a then (200, "I am a leader") else (404, "I am a follower").

(** The status and the member; without a leader the error is written first, and
    the body that follows is null. *)
Definition leaderHandler (a : Agent.t) : Z * option Member.t :=
  match leaderMember a with Some m => (200, Some m) | None => (500, None) end.

(** The first server of the region that takes connections; [None] is
    [ErrNoSuitableServer]. *)
Definition checkAndSelectServer (dial : string → bool) (a : Agent.t) : option string :=
  List.find dial (ServerParts.RPCAddr <$> LocalServers a).

(** The status, the texts of [status] and [issues], and [leader]. *)
Record health := mk_health { h_code : Z; h_status : string; h_issues : list string; h_leader : option bool }.

Definition healthHandler (a : Agent.t) : health :=
  let issues := omap (λ p : string * bool,
    if p.2 then Some ("plugin " +:+ p.1 +:+ " has exited") else None) (Agent.PluginClients a) in
  let leader := if Agent.Server a then Some (IsLeader a) else None in
  match issues with
  | [] => mk_health 200 "healthy" [] leader
  | _ => mk_health 503 "unhealthy" issues leader
  end.

(** ** Lemmas *)

Lemma elem_of_LocalServers a s :
  s ∈ LocalServers a ↔
  ∃ m, m ∈ Agent.Members a ∧ isServer m = Some s ∧ Member.Status m = Some StatusAlive ∧
    Agent.Region a = ServerParts.Region s.
Proof.
  unfold LocalServers. rewrite list_elem_of_omap. apply exist_proper. intros m. apply and_iff_compat_l.
  unfold alive_server. destruct (isServer m) as [parts|]; [|naive_solver].
  case_bool_decide; [|naive_solver].
  destruct (String.eqb_spec (Agent.Region a) (ServerParts.Region parts)); naive_solver.
Qed.

(** A server that is selected is alive, of the region and takes connections; one is
    selected when there is any. *)
Lemma checkAndSelectServer_spec dial a :
  match checkAndSelectServer dial a with
  | Some peer => dial peer = true ∧ ∃ s, s ∈ LocalServers a ∧ ServerParts.RPCAddr s = peer
  | None => ∀ s, s ∈ LocalServers a → dial (ServerParts.RPCAddr s) = false
  end.
Proof.
  unfold checkAndSelectServer. destruct (List.find _ _) as [peer|] eqn:E.
  - apply List.find_some in E as [(s & -> & Hs)%list_elem_of_In%list_elem_of_fmap Hd]. split; [done|]. by exists s.
  - intros s Hs. apply (List.find_none _ _ E), list_elem_of_In, list_elem_of_fmap. by exists s.
Qed.

Lemma ask_all_spec ask servers exs :
  match ask_all ask servers exs with
  | None => ∃ s, s ∈ servers ∧ ask (ServerParts.RPCAddr s) = None
  | Some all =>
      (∀ s, s ∈ servers → is_Some (ask (ServerParts.RPCAddr s))) ∧
      all = exs ++ (servers ≫= λ s, default [] (ask (ServerParts.RPCAddr s)))
  end.
Proof.
  revert exs. induction servers as [|s servers IH]; intros exs; cbn [ask_all].
  - split; [intros s []%elem_of_nil|]. by rewrite app_nil_r.
  - destruct (ask (ServerParts.RPCAddr s)) as [l|] eqn:Hs; [|exists s; split; [by left|done]].
    specialize (IH (exs ++ l)). destruct (ask_all ask servers (exs ++ l)) as [all|].
    + destruct IH as [Hall ->]. split.
      * intros s' [->|Hs']%elem_of_cons; [by rewrite Hs|by apply Hall].
      * cbn. by rewrite Hs, app_assoc.
    + destruct IH as (s' & Hin & Hn). exists s'. split; [by right|done].
Qed.

(** A server is healthy while no process of a plugin has exited. *)
Lemma healthHandler_spec a :
  (h_code (healthHandler a) = 200 ↔ Forall (λ p, p.2 = false) (Agent.PluginClients a)) ∧
  (h_code (healthHandler a) = 200 ∨ h_code (healthHandler a) = 503).
Proof.
  unfold healthHandler. destruct a as [region ms raft ps server]. cbn.
  induction ps as [|[n []] ps IH]; cbn; [split; [by split|by left]| |].
  - split; [|by right]. split; [done|]. by intros [? _]%Forall_cons.
  - rewrite Forall_cons. destruct (omap _ ps); cbn in *; naive_solver.
Qed.

(** ** Properties *)

(** C26. The list of running executions has every execution the servers of the
    agent's region that are alive follow, as often as they follow it, the earliest
    first, with their number; those of other regions are not asked for. When one of the servers cannot be
    asked there is no list. *)
Theorem busy_lists_active Range (nodes : string → option Client.t) (a : Agent.t) :
  (∀ m, Range m ≡ₚ (map_to_list m).*2) →
  let follows s := default ∅ (Client.activeExecutions <$> nodes (ServerParts.RPCAddr s)) in
  let local s := ∃ m, m ∈ Agent.Members a ∧ isServer m = Some s ∧ Member.Status m = Some StatusAlive ∧
    Agent.Region a = ServerParts.Region s in
  match busyHandler (λ addr, grpc_GetActiveExecutions Range <$> nodes addr) a with
  | (code, Some (n, l)) =>
      code = 200 ∧ n = Z.of_nat (length l) ∧ (∀ s, local s → is_Some (nodes (ServerParts.RPCAddr s))) ∧
      (∀ e, e ∈ l ↔ ∃ s k p, local s ∧ follows s !! k = Some p ∧ e = NewExecutionFromProto p) ∧
      n = sum_by (λ s, Z.of_nat (size (follows s))) (LocalServers a) ∧
      StronglySorted (λ e f, Exec.StartedAt e ≤ Exec.StartedAt f) l
  | (code, None) => code = 500 ∧ ∃ s, local s ∧ nodes (ServerParts.RPCAddr s) = None
  end.
Proof.
  intros HRange follows local. unfold busyHandler, GetActiveExecutions.
  pose proof (ask_all_spec (λ addr, grpc_GetActiveExecutions Range <$> nodes addr) (LocalServers a) []) as Hask.
  assert (∀ s, default [] (grpc_GetActiveExecutions Range <$> nodes (ServerParts.RPCAddr s)) ≡ₚ
    (map_to_list (follows s)).*2) as Hf.
  { intros s. unfold follows. destruct (nodes _) as [c|]; cbn; [apply HRange|by rewrite map_to_list_empty]. }
  destruct (ask_all _ _ _) as [all|].
  2: { destruct Hask as (s & Hs%elem_of_LocalServers & Hn%fmap_None). split; [done|]. by exists s. }
  destruct Hask as [Hall ->]. cbn [app]. split; [done|]. split; [done|]. split_and!.
  - intros s Hs%elem_of_LocalServers. by apply Hall, fmap_is_Some in Hs.
  - intros e. rewrite js_sort_Permutation, list_elem_of_fmap. setoid_rewrite list_elem_of_bind. split.
    + intros (p & -> & s & Hp & Hs%elem_of_LocalServers). rewrite Hf, list_elem_of_fmap in Hp.
      destruct Hp as ([k q] & -> & Hk%elem_of_map_to_list). by exists s, k, q.
    + intros (s & k & p & Hs%elem_of_LocalServers & Hk & ->). exists p. split; [done|]. exists s.
      split; [|done]. rewrite Hf, list_elem_of_fmap. exists (k, p). by rewrite elem_of_map_to_list.
  - rewrite (Permutation_length (js_sort_Permutation _ _)), length_fmap.
    generalize (LocalServers a). intros l. induction l as [|s l IH]; [done|].
    rewrite sum_by_cons, bind_cons, length_app, Nat2Z.inj_add, IH. f_equal.
    by rewrite Hf, length_fmap, length_map_to_list.
  - apply js_sort_by_start.
Qed.

(** ** Examples *)

Definition demo_member (name region : string) : Member.t :=
  Member.mk name "10.0.0.1" {["role" := "dkron"; "server" := "true"; "port" := "6868"; "region" := region;
    "rpc_addr" := name]} (Some StatusAlive).
Definition demo_agent : Agent.t :=
  Agent.mk "eu" [demo_member "10.0.0.1" "eu"; demo_member "10.0.0.2" "us"] (Some (true, "10.0.0.1")) [("shell", false)] true.
Definition demo_client : Client.t :=
  Client.mk {["5-n" := PbExecution.mk "a" false "" "n" 1 1 5 zero_time;
              "3-n" := PbExecution.mk "b" false "" "n" 1 1 3 zero_time]} [].

Lemma busy_lists_active_witness :
  (∀ m : gmap string PbExecution.t, (λ m, (map_to_list m).*2) m ≡ₚ (map_to_list m).*2) ∧
  (Exec.JobName <$> (default (0, []) (busyHandler (λ addr, grpc_GetActiveExecutions (λ m, (map_to_list m).*2) <$>
    (if String.eqb addr "10.0.0.1:6868" then Some demo_client else None)) demo_agent).2).2) = ["b"; "a"] ∧
  StronglySorted (λ e f, Exec.StartedAt e ≤ Exec.StartedAt f)
    (default (0, []) (busyHandler (λ addr, grpc_GetActiveExecutions (λ m, (map_to_list m).*2) <$>
      (if String.eqb addr "10.0.0.1:6868" then Some demo_client else None)) demo_agent).2).2.
Proof.
  split; [done|]. split; [vm_compute; reflexivity|].
  refine (proj2 (proj2 (proj2 (proj2 (proj2 (busy_lists_active (λ m, (map_to_list m).*2)
    (λ addr, if String.eqb addr "10.0.0.1:6868" then Some demo_client else None) demo_agent _)))))).
  done.
Defined.
