(* ===== verification/Shutdown.v ===== *)
(** * Shutdown: how the process of an agent ends

    [handleSignals] of src/cmd/agent.go with [Stop] and [GetRunningJobs] of
    src/dkron/agent.go, and what [AgentRun] of src/dkron/grpc_agent.go does to the
    executions the process counts as running.  The main goroutine, the goroutine
    that stops the agent and the calls go on at the same time: [proceed] is what
    the process does by itself, [arrive] what comes from outside.  The theorems:
    the process waits while it counts executions as running, and for nothing else;
    of each group it counts one; and once no call arrives it ends.  The calls that make an agent leave (Leave of
    grpc.go, leaveHandler of api.go) run [Stop], too, in a process that goes on:
    they are not among the steps. *)

From S2P Require Import Prelude GoCore.

(** ** The process *)

Inductive signal : Type := Interrupt | SIGTERM | SIGHUP.

(** [handleSignals]: at its first select, in the loop that waits for jobs, at its
    last select, and after the end of the process. *)
Inductive main_pc : Type := AtWait | AtJobs | AtLeave | Exited (code : Z).

(** [Agent.Stop]: not called, at each of its calls, waiting for the runs of the
    scheduler, and returned. *)
Inductive stop_error : Type := ErrStoreShutdown | ErrLeave | ErrSerfShutdown.
Inductive stop_pc : Type :=
  | NotCalled | AtSched | AtSchedDone | AtRaft | AtStore | AtSerfLeave | AtSerfShutdown
  | StopReturned (err : option stop_error).

(** A call of [AgentRun]: before the executor, in it, after it but with the result
    not sent, and returned. *)
Inductive position : Type := Accepted | Executing | Ended | Returned.

Module Call.
Record t := mk { Group : Z; at_ : position }.
End Call.

Module Proc.
Record t := mk {
  (** [signalCh], a channel for four signals *)
  signals : list signal;
  main : main_pc;
  stop : stop_pc;
  (** [config.Server], which reloading the configuration changes *)
  Server : bool;
  (** the scheduler, of a server: whether it is started, and the runs it waits for *)
  sched : option (bool * nat);
  calls : list Call.t;
  (** the keys of [runningExecutions] *)
  running : gset Z;
}.
End Proc.

Definition GetRunningJobs (s : Proc.t) : nat := size (Proc.running s).

(** ** Steps *)

(** The runtime delivers a signal to a channel that is not full. *)
Definition notify (sig : signal) (signals : list signal) : list signal :=
  if Nat.ltb (length signals) 4 then signals ++ [sig] else signals.

Definition exited (s : Proc.t) : bool := match Proc.main s with Exited _ => true | _ => false end.

(** What reaches a process that has not ended. *)
Inductive arrive : Proc.t → Proc.t → Prop :=
  | arrive_signal sig sg m st sv sc cs rn : arrive
      (Proc.mk sg m st sv sc cs rn) (Proc.mk (notify sig sg) m st sv sc cs rn)
  | arrive_call g sg m st sv sc cs rn : arrive
      (Proc.mk sg m st sv sc cs rn) (Proc.mk sg m st sv sc (cs ++ [Call.mk g Accepted]) rn)
  (** The first select of the main goroutine: joining the cluster has failed. *)
  | arrive_join_error sg st sv sc cs rn : arrive
      (Proc.mk sg AtWait st sv sc cs rn) (Proc.mk sg (Exited 1) st sv sc cs rn)
  (** The scheduler is started or stopped, or starts a run. *)
  | arrive_sched started started' n n' sg m st sv cs rn : arrive
      (Proc.mk sg m st sv (Some (started, n)) cs rn) (Proc.mk sg m st sv (Some (started', n')) cs rn).

(** The main goroutine: a signal is taken from the channel, the executions are
    counted, the last select.  The channel [gracefulCh] is closed before the last
    select, so that it never waits for the [gracefulTimeout] it sets up. *)
Inductive main_step : Proc.t → Proc.t → Prop :=
  | main_reload sv' sg st sv sc cs rn : main_step
      (Proc.mk (SIGHUP :: sg) AtWait st sv sc cs rn) (Proc.mk sg AtWait st sv' sc cs rn)
  | main_leave sig sg sv sc cs rn : sig ≠ SIGHUP → main_step
      (Proc.mk (sig :: sg) AtWait NotCalled sv sc cs rn) (Proc.mk sg AtJobs AtSched sv sc cs rn)
  | main_no_jobs s sg st sv sc cs rn : s = Proc.mk sg AtJobs st sv sc cs rn → Nat.ltb (GetRunningJobs s) 1 = true →
      main_step s (Proc.mk sg AtLeave st sv sc cs rn)
  | main_signal sig sg st sv sc cs rn : main_step
      (Proc.mk (sig :: sg) AtLeave st sv sc cs rn) (Proc.mk sg (Exited 1) st sv sc cs rn)
  | main_graceful sg st sv sc cs rn : main_step
      (Proc.mk sg AtLeave st sv sc cs rn) (Proc.mk sg (Exited 0) st sv sc cs rn).

(** [Agent.Stop], from its first call to its last; a server that has no scheduler
    ends the process with a panic. *)
Inductive stop_step : Proc.t → Proc.t → Prop :=
  | stop_client sg m sc cs rn : stop_step
      (Proc.mk sg m AtSched false sc cs rn) (Proc.mk sg m AtSerfLeave false sc cs rn)
  | stop_panic sg m cs rn : stop_step
      (Proc.mk sg m AtSched true None cs rn) (Proc.mk sg (Exited 2) AtSched true None cs rn)
  | stop_sched n sg m cs rn : stop_step
      (Proc.mk sg m AtSched true (Some (true, n)) cs rn) (Proc.mk sg m AtSchedDone true (Some (false, n)) cs rn)
  | stop_no_sched n sg m cs rn : stop_step
      (Proc.mk sg m AtSched true (Some (false, n)) cs rn) (Proc.mk sg m AtRaft true (Some (false, n)) cs rn)
  | stop_sched_run started n st sg m sv cs rn : stop_step
      (Proc.mk sg m st sv (Some (started, S n)) cs rn) (Proc.mk sg m st sv (Some (started, n)) cs rn)
  | stop_sched_done started sg m sv cs rn : stop_step
      (Proc.mk sg m AtSchedDone sv (Some (started, O)) cs rn) (Proc.mk sg m AtRaft sv (Some (started, O)) cs rn)
  | stop_raft sg m sv sc cs rn : stop_step
      (Proc.mk sg m AtRaft sv sc cs rn) (Proc.mk sg m AtStore sv sc cs rn)
  | stop_store (err : bool) sg m sv sc cs rn : stop_step
      (Proc.mk sg m AtStore sv sc cs rn)
      (Proc.mk sg m (if err then StopReturned (Some ErrStoreShutdown) else AtSerfLeave) sv sc cs rn)
  | stop_leave (err : bool) sg m sv sc cs rn : stop_step
      (Proc.mk sg m AtSerfLeave sv sc cs rn)
      (Proc.mk sg m (if err then StopReturned (Some ErrLeave) else AtSerfShutdown) sv sc cs rn)
  | stop_serf (err : bool) sg m sv sc cs rn : stop_step
      (Proc.mk sg m AtSerfShutdown sv sc cs rn)
      (Proc.mk sg m (StopReturned (if err then Some ErrSerfShutdown else None)) sv sc cs rn).

(** A call: it ends before it has an executor, finds none, calls the executor,
    comes back from it, and reports the result, or fails to. *)
Inductive call_step (g : Z) : position * gset Z → position * gset Z → Prop :=
  | call_refused rn : call_step g (Accepted, rn) (Returned, rn)
  | call_no_executor rn : call_step g (Accepted, rn) (Ended, rn ∖ {[g]})
  | call_execute rn : call_step g (Accepted, rn) (Executing, {[g]} ∪ rn)
  | call_executed rn : call_step g (Executing, rn) (Ended, rn ∖ {[g]})
  | call_reported rn : call_step g (Ended, rn) (Returned, rn).

Inductive proceed : Proc.t → Proc.t → Prop :=
  | proceed_main s s' : main_step s s' → proceed s s'
  | proceed_stop s s' : exited s = false → stop_step s s' → proceed s s'
  | proceed_call g p p' l1 l2 sg m st sv sc rn rn' : (∀ code, m ≠ Exited code) →
      call_step g (p, rn) (p', rn') →
      proceed (Proc.mk sg m st sv sc (l1 ++ Call.mk g p :: l2) rn)
              (Proc.mk sg m st sv sc (l1 ++ Call.mk g p' :: l2) rn').

Definition step (s s' : Proc.t) : Prop := exited s = false ∧ arrive s s' ∨ proceed s s'.

(** An agent that has started: no signal, no call. *)
Definition initial (s : Proc.t) : Prop :=
  Proc.signals s = [] ∧ Proc.main s = AtWait ∧ Proc.stop s = NotCalled ∧ Proc.calls s = [] ∧
  Proc.running s = ∅ ∧ Proc.Server s = bool_decide (is_Some (Proc.sched s)).

(** The groups of the calls that are not over, and of those in an executor. *)
Definition pending (s : Proc.t) : list Z :=
  omap (λ c, match Call.at_ c with Accepted | Executing => Some (Call.Group c) | _ => None end) (Proc.calls s).
Definition executing (s : Proc.t) : list Z :=
  omap (λ c, match Call.at_ c with Executing => Some (Call.Group c) | _ => None end) (Proc.calls s).

(** At most one call of the group is under way. *)
Definition alone (g : Z) (s : Proc.t) : Prop := (count_occ Z.eq_dec (pending s) g <= 1)%nat.

#[global] Instance alone_dec g s : Decision (alone g s) := le_dec _ _.

(** Steps to states with that property. *)
Definition alone_step (g : Z) (s s' : Proc.t) : Prop := step s s' ∧ alone g s'.

(** The steps that are left for the process to take. *)
Definition main_left (m : main_pc) : nat :=
  match m with AtWait => 3 | AtJobs => 2 | AtLeave => 1 | Exited _ => 0 end%nat.
Definition stop_left (st : stop_pc) : nat :=
  match st with
  | NotCalled => 7 | AtSched => 6 | AtSchedDone => 5 | AtRaft => 4 | AtStore => 3 | AtSerfLeave => 2
  | AtSerfShutdown => 1 | StopReturned _ => 0
  end%nat.
Definition call_left (c : Call.t) : nat :=
  match Call.at_ c with Accepted => 3 | Executing => 2 | Ended => 1 | Returned => 0 end%nat.
Definition steps_left (s : Proc.t) : nat :=
  (length (Proc.signals s) + main_left (Proc.main s) + stop_left (Proc.stop s) +
  match Proc.sched s with Some (_, n) => n | None => 0 end + sum_list_with call_left (Proc.calls s))%nat.

(** ** Lemmas *)

(** Every key of the map is the group of a call in its executor. *)
Definition running_sound (s : Proc.t) : Prop := ∀ g, g ∈ Proc.running s → g ∈ executing s.
(** The map has the group when a call of it is in its executor. *)
Definition running_complete (g : Z) (s : Proc.t) : Prop := g ∈ executing s → g ∈ Proc.running s.

Lemma elem_of_executing g s : g ∈ executing s ↔ Call.mk g Executing ∈ Proc.calls s.
Proof.
  unfold executing. rewrite list_elem_of_omap. split.
  - intros ([g' []] & Hc & [=]); by subst.
  - intros Hc. by exists (Call.mk g Executing).
Qed.

Lemma executing_pending g s : g ∈ executing s → g ∈ pending s.
Proof.
  intros Hg%elem_of_executing. apply list_elem_of_omap. by exists (Call.mk g Executing).
Qed.

Lemma call_step_sound g p p' rn rn' l1 l2 : call_step g (p, rn) (p', rn') →
  (∀ h, h ∈ rn → Call.mk h Executing ∈ l1 ++ Call.mk g p :: l2) →
  ∀ h, h ∈ rn' → Call.mk h Executing ∈ l1 ++ Call.mk g p' :: l2.
Proof.
  intros Hs Hok h Hh. inversion Hs; subst; specialize (Hok h); set_solver.
Qed.

Lemma step_sound s s' : step s s' → running_sound s → running_sound s'.
Proof.
  intros Hs Hok g. rewrite elem_of_executing. unfold running_sound in Hok. setoid_rewrite elem_of_executing in Hok.
  destruct Hs as [[_ Ha]|Hp].
  - destruct Ha; cbn in *; intros Hg; try (by apply Hok). apply elem_of_app. left. by apply Hok.
  - destruct Hp as [s s' Hm|s s' _ Hm|]; [destruct Hm; subst; cbn in *; by apply Hok|destruct Hm; cbn in *; by apply Hok|].
    cbn in *. by eapply call_step_sound.
Qed.

(** A call that is alone in its group is not in its executor twice. *)
Lemma alone_others sg m st sv sc rn g p l1 l2 :
  alone g (Proc.mk sg m st sv sc (l1 ++ Call.mk g p :: l2) rn) → p = Accepted ∨ p = Executing →
  ∀ q, Call.mk g Executing ∈ l1 ++ Call.mk g q :: l2 → q = Executing.
Proof.
  unfold alone, pending. cbn [Proc.calls]. rewrite omap_app. cbn [omap list_omap Call.at_ Call.Group].
  set (under_way c := match Call.at_ c with Accepted | Executing => Some (Call.Group c) | _ => None end).
  fold (omap under_way l2). rewrite count_occ_app. intros Hle Hp q Hin.
  assert (∀ l, Call.mk g Executing ∈ l → (0 < count_occ Z.eq_dec (omap under_way l) g)%nat) as Hone.
  { intros l Hl. apply count_occ_In, list_elem_of_In, list_elem_of_omap. by exists (Call.mk g Executing). }
  assert (count_occ Z.eq_dec (omap under_way l1) g = 0%nat ∧ count_occ Z.eq_dec (omap under_way l2) g = 0%nat) as [E1 E2].
  { destruct Hp as [->| ->]; cbn in Hle; destruct (Z.eq_dec g g); (done || lia). }
  apply elem_of_app in Hin as [Hin%Hone|[Hin|Hin%Hone]%elem_of_cons]; [lia|by injection Hin|lia].
Qed.

Lemma call_step_complete g sg m st sv sc h p p' rn rn' l1 l2 :
  alone g (Proc.mk sg m st sv sc (l1 ++ Call.mk h p :: l2) rn) → call_step h (p, rn) (p', rn') →
  (Call.mk g Executing ∈ l1 ++ Call.mk h p :: l2 → g ∈ rn) →
  Call.mk g Executing ∈ l1 ++ Call.mk h p' :: l2 → g ∈ rn'.
Proof.
  intros Hd Hs Hok Hg. destruct (decide (g = h)) as [->|Hn]; [|inversion Hs; subst; set_solver].
  pose proof (alone_others _ _ _ _ _ _ _ _ _ _ Hd) as Hothers.
  inversion Hs; subst; try set_solver.
  - discriminate (Hothers (or_introl eq_refl) _ Hg).
  - discriminate (Hothers (or_intror eq_refl) _ Hg).
Qed.

Lemma step_complete g s s' : alone g s → step s s' → running_complete g s → running_complete g s'.
Proof.
  unfold running_complete. rewrite !elem_of_executing. intros Hd Hs Hok.
  destruct Hs as [[_ Ha]|Hp].
  - destruct Ha; cbn in *; try done. intros Hg. apply Hok.
    by apply elem_of_app in Hg as [?|?%list_elem_of_singleton].
  - destruct Hp as [s s' Hm|s s' _ Hm|]; [destruct Hm; subst; cbn in *; done|destruct Hm; cbn in *; done|].
    cbn in *. by eapply call_step_complete.
Qed.

Lemma GetRunningJobs_zero s : Nat.ltb (GetRunningJobs s) 1 = true → Proc.running s = ∅.
Proof. intros Hs%Nat.ltb_lt. apply leibniz_equiv, size_empty_inv. unfold GetRunningJobs in Hs. lia. Qed.

Lemma initial_ok s : initial s → running_sound s ∧ ∀ g, alone g s ∧ running_complete g s.
Proof.
  intros (_ & _ & _ & Hc & Hr & _). unfold alone, running_complete, running_sound, pending, executing.
  rewrite Hc, Hr. cbn. split; [set_solver|]. intros g. split; [lia|set_solver].
Qed.

(** ** Waiting for the executions *)

(** The check that let the process end. *)
Definition checked_between (R : Proc.t → Proc.t → Prop) (ok : Proc.t → Prop) (s0 s : Proc.t) : Prop :=
  ∃ s1 s2, rtc R s0 s1 ∧ Proc.main s1 = AtJobs ∧ ok s1 ∧ main_step s1 s2 ∧
    Proc.main s2 = AtLeave ∧ rtc R s2 s.

(** Only a check gets past the loop, and only from there does the process end
    with 0. *)
Lemma main_changes s s' : step s s' → (Proc.main s' = AtLeave ∨ Proc.main s' = Exited 0) →
  Proc.main s = AtLeave ∨
  (Proc.main s = AtJobs ∧ Proc.main s' = AtLeave ∧ main_step s s' ∧ Proc.running s = ∅) .
Proof.
  intros [[Hx Ha]|Hp] Hm.
  - destruct Ha; cbn in *; destruct Hm as [Hm|Hm]; try done; try (by left); by rewrite Hm in Hx.
  - destruct Hp as [s s' Hs|s s' Hx Hs|g p p' l1 l2 sg m st sv sc rn rn' Hx Hs].
    + destruct Hs; cbn in *; try (by destruct Hm); try (by left).
      subst. right. split_and!; try done; [by apply main_no_jobs|by apply (GetRunningJobs_zero (Proc.mk sg AtJobs st sv sc cs rn))].
    + destruct Hs; cbn in *; destruct Hm as [Hm|Hm]; try done; try (by left); by rewrite Hm in Hx.
    + cbn in *. destruct Hm as [Hm|Hm]; [by left|by destruct (Hx 0)].
Qed.

Lemma checked_between_snoc R ok s0 s s' :
  checked_between R ok s0 s → R s s' → checked_between R ok s0 s'.
Proof. intros (s1 & s2 & ? & ? & ? & ? & ? & ?) HR. exists s1, s2. split_and!; try done. by eapply rtc_r. Qed.

(** Whatever holds when the map is empty holds at the check. *)
Lemma ended_checked R ok s0 s : (∀ s s', R s s' → step s s') →
  (∀ s, rtc R s0 s → Proc.running s = ∅ → ok s) → initial s0 → rtc R s0 s →
  Proc.main s = AtLeave ∨ Proc.main s = Exited 0 → checked_between R ok s0 s.
Proof.
  intros HR Hok H0 Hs. revert s Hs. refine (rtc_ind_r _ _ _ _); [destruct H0 as (_ & -> & _); by intros []|].
  intros s s' Hs Hst IH Hm.
  destruct (main_changes s s' (HR _ _ Hst) Hm) as [Hl|(Hj & Hl & Hms & Hr)]; [eapply checked_between_snoc; eauto|].
  exists s, s'. split_and!; try done. by apply Hok.
Qed.

Lemma rtc_sound s0 s : initial s0 → rtc step s0 s → running_sound s.
Proof.
  intros H0. revert s. apply rtc_ind_r; [by apply initial_ok|]. intros ?? _ Hst. by apply step_sound.
Qed.

Lemma alone_rtc_step g s0 s : rtc (alone_step g) s0 s → rtc step s0 s.
Proof. apply rtc_subrel. by intros ?? []. Qed.

Lemma alone_running g s0 s : initial s0 → rtc (alone_step g) s0 s → g ∈ Proc.running s ↔ g ∈ executing s.
Proof.
  intros H0 Hs. split; [apply (rtc_sound s0 s H0), (alone_rtc_step g), Hs|].
  enough (alone g s ∧ running_complete g s) as [_ Hc] by exact Hc.
  revert s Hs. apply rtc_ind_r; [by apply initial_ok|]. intros s s' _ [Hs Ha'] [Ha Hc].
  split; [done|by eapply step_complete].
Qed.

(** Nothing but the end of the executions, or a panic, ends the loop. *)
Lemma AtJobs_stays s s' : step s s' → Proc.main s = AtJobs → Proc.running s ≠ ∅ →
  Proc.main s' = AtJobs ∨ (Proc.main s' = Exited 2 ∧ Proc.Server s = true ∧ Proc.sched s = None).
Proof.
  intros [[_ Ha]|Hp] Hm Hr; [destruct Ha; cbn in *; by left|].
  destruct Hp as [s s' Hs|s s' _ Hs|]; cbn in *; [|destruct Hs; cbn in *; by eauto|by left].
  destruct Hs; subst; cbn in *; try done. by destruct Hr, (GetRunningJobs_zero (Proc.mk sg AtJobs st sv sc cs rn)).
Qed.

(** C4. An agent that is told to stop waits for its executions: when its process
    ends with status 0, it has come past a check at which its map of running
    executions was empty, and as long as the map is not, no signal, no timeout and
    no end of [Stop] takes it past the loop; only the panic of a server that has no
    scheduler does. The map has one entry for a group: for a group of which never
    more than one call was under way, it has the group exactly while the call is in
    its executor, so that call was in no executor at the check. (Of two calls of
    one group the first that ends takes the entry away: [shared_group_unnoticed].) *)
Theorem shutdown_waits s0 s : initial s0 → rtc step s0 s →
  (Proc.main s = Exited 0 → checked_between step (λ s, Proc.running s = ∅) s0 s) ∧
  (Proc.main s = AtJobs → Proc.running s ≠ ∅ → ∀ s', step s s' →
     Proc.main s' = AtJobs ∨ (Proc.main s' = Exited 2 ∧ Proc.Server s = true ∧ Proc.sched s = None)) ∧
  (∀ g, rtc (alone_step g) s0 s →
     (g ∈ Proc.running s ↔ g ∈ executing s) ∧
     (Proc.main s = Exited 0 → checked_between (alone_step g) (λ s, g ∉ executing s) s0 s)).
Proof.
  intros H0 Hs. split; [|split].
  - intros Hm. by apply ended_checked; auto.
  - intros Hm Hr s' Hst. by apply AtJobs_stays.
  - intros g Hg. split; [by eapply alone_running|]. intros Hm. apply ended_checked; auto.
    + by intros ?? [].
    + intros s1 Hs1 Hr. rewrite <- (alone_running g s0 s1 H0 Hs1), Hr. set_solver.
Qed.

(** ** The end of the process *)

Lemma call_step_left g p p' rn rn' : call_step g (p, rn) (p', rn') →
  (call_left (Call.mk g p') < call_left (Call.mk g p))%nat.
Proof. intros Hs. inversion Hs; subst; cbn; lia. Qed.

Lemma proceed_left s s' : proceed s s' → (steps_left s' < steps_left s)%nat.
Proof.
  destruct 1 as [s s' Hs|s s' Hx Hs|g p p' l1 l2 sg m st sv sc rn rn' _ Hs].
  - destruct Hs; subst; unfold steps_left; cbn; lia.
  - destruct Hs; unfold steps_left; try destruct err; cbn; try lia. destruct m; cbn; (done || lia).
  - apply call_step_left in Hs. unfold steps_left. cbn [Proc.signals Proc.main Proc.stop Proc.sched Proc.calls].
    rewrite !sum_list_with_app. cbn [sum_list_with]. lia.
Qed.

Lemma rtc_proceed_step s s' : rtc proceed s s' → rtc step s s'.
Proof. apply rtc_subrel. intros ???. by right. Qed.

(** Past the first select, the process can go on until it has ended. *)
Lemma proceed_progress s : running_sound s → Proc.main s = AtJobs ∨ Proc.main s = AtLeave →
  ∃ s', proceed s s'.
Proof.
  destruct s as [sg m st sv sc cs rn]. cbn. intros Hr [->| ->]; [|eexists; apply proceed_main, main_graceful].
  destruct (decide (rn = ∅)) as [->|[g Hg]%set_choose_L].
  - eexists. apply proceed_main. by eapply main_no_jobs.
  - apply Hr, elem_of_executing, list_elem_of_split in Hg as (l1 & l2 & Hl). cbn in Hl. subst cs.
    eexists. eapply proceed_call; [done|]. apply call_executed.
Qed.

Lemma proceed_main_pc s s' : proceed s s' →
  Proc.main s = AtJobs ∨ Proc.main s = AtLeave ∨ exited s = true →
  Proc.main s' = AtJobs ∨ Proc.main s' = AtLeave ∨ exited s' = true.
Proof.
  destruct 1 as [s s' Hs|s s' _ Hs|]; unfold exited; [..|done].
  - destruct Hs; subst; cbn; tauto.
  - destruct Hs; cbn; tauto.
Qed.

(** No signal is pending, and [Stop] will find the scheduler of a server. *)
Definition quiet (s : Proc.t) : Prop :=
  Proc.signals s = [] ∧ (Proc.Server s = true → is_Some (Proc.sched s)) ∧ Proc.main s ≠ AtWait ∧
  ∀ code, Proc.main s = Exited code → code = 0.

Lemma proceed_quiet s s' : proceed s s' → quiet s → quiet s'.
Proof.
  intros Hp (Hsig & Hsc & Hm & Hx). unfold quiet. destruct Hp as [s s' Hs|s s' _ Hs|].
  - destruct Hs; subst; cbn in *; try done. split_and!; try done. by intros code [= <-].
  - destruct Hs; cbn in *; split_and!; try done. by destruct (Hsc eq_refl).
  - done.
Qed.

Lemma nsteps_left n s s' : nsteps proceed n s s' → (n + steps_left s' ≤ steps_left s)%nat.
Proof. induction 1 as [|n s1 s2 s3 Hp%proceed_left _ IH]; lia. Qed.

Lemma rtc_proceed_main_pc s s' : rtc proceed s s' → Proc.main s = AtJobs ∨ Proc.main s = AtLeave ∨ exited s = true →
  Proc.main s' = AtJobs ∨ Proc.main s' = AtLeave ∨ exited s' = true.
Proof. induction 1; eauto using proceed_main_pc. Qed.

Lemma rtc_proceed_quiet s s' : rtc proceed s s' → quiet s → quiet s'.
Proof. induction 1; eauto using proceed_quiet. Qed.

(** C5. Once an agent has been told to stop and no call arrives, its process ends:
    what it does by itself is bounded by [steps_left], and it can only stop doing so
    when it has ended, whatever the errors of [Stop] and in whatever order its
    goroutines run.  When no other signal has arrived and the server has a
    scheduler, the status is 0. *)
Theorem shutdown_ends s0 s : initial s0 → rtc step s0 s → Proc.main s = AtJobs ∨ Proc.main s = AtLeave →
  (∀ n s', nsteps proceed n s s' → (n ≤ steps_left s)%nat) ∧
  (∀ s', rtc proceed s s' → (∀ s'', ¬ proceed s' s'') → exited s' = true) ∧
  (Proc.signals s = [] → (Proc.Server s = true → is_Some (Proc.sched s)) →
   ∀ s' code, rtc proceed s s' → Proc.main s' = Exited code → code = 0).
Proof.
  intros H0 Hs Hm. split_and!.
  - intros n s' Hn%nsteps_left. lia.
  - intros s' Hp Hend. destruct (rtc_proceed_main_pc s s' Hp ltac:(tauto)) as [Hm'|[Hm'|Hm']]; [..|done].
    all: destruct (proceed_progress s') as [s'' Hs'']; [|tauto|by destruct (Hend s'')].
    all: apply (rtc_sound s0 s' H0); etrans; [exact Hs|by apply rtc_proceed_step].
  - intros Hsig Hsc s' code Hp. apply (rtc_proceed_quiet s s' Hp). split_and!; [done|done|..].
    + by destruct Hm as [-> | ->].
    + intros c Hc. destruct Hm as [Hm|Hm]; congruence.
Qed.

(** ** Examples *)

Definition idle_agent (server : bool) : Proc.t :=
  Proc.mk [] AtWait NotCalled server (if server then Some (true, O) else None) [] ∅.

Lemma idle_agent_initial server : initial (idle_agent server).
Proof. by destruct server. Qed.

(** The stages of an execution on an agent that is told to stop while it runs. *)
Definition asked : Proc.t := Proc.mk [] AtWait NotCalled true (Some (true, O)) [Call.mk 7 Accepted] ∅.
Definition busy : Proc.t := Proc.mk [] AtWait NotCalled true (Some (true, O)) [Call.mk 7 Executing] ({[7]} ∪ ∅).
Definition told : Proc.t := Proc.mk [SIGTERM] AtWait NotCalled true (Some (true, O)) [Call.mk 7 Executing] ({[7]} ∪ ∅).
Definition waiting : Proc.t := Proc.mk [] AtJobs AtSched true (Some (true, O)) [Call.mk 7 Executing] ({[7]} ∪ ∅).
Definition ended (m : main_pc) : Proc.t :=
  Proc.mk [] m AtSched true (Some (true, O)) [Call.mk 7 Ended] (({[7]} ∪ ∅) ∖ {[7]}).

(** A step of an example: how many calls are under way is decided. *)
Ltac example_step c := split; [c|by apply (bool_decide_unpack (alone _ _))].

Lemma demo_waiting : rtc (alone_step 7) (idle_agent true) waiting.
Proof.
  apply rtc_l with asked; [example_step ltac:(left; split; [done|apply (arrive_call 7)])|].
  apply rtc_l with busy; [example_step ltac:(right; by apply (proceed_call 7 Accepted Executing [] []); [|constructor])|].
  apply rtc_l with told; [example_step ltac:(left; split; [done|apply (arrive_signal SIGTERM)])|].
  apply rtc_once. example_step ltac:(right; by apply proceed_main, main_leave).
Qed.

Lemma demo_ended : rtc (alone_step 7) waiting (ended (Exited 0)).
Proof.
  apply rtc_l with (ended AtJobs); [example_step ltac:(right; by apply (proceed_call 7 Executing Ended [] []); [|constructor])|].
  apply rtc_l with (ended AtLeave); [example_step ltac:(right; by apply proceed_main; eapply main_no_jobs)|].
  apply rtc_once. example_step ltac:(right; by apply proceed_main, main_graceful).
Qed.

Lemma shutdown_waits_witness :
  checked_between step (λ s, Proc.running s = ∅) (idle_agent true) (ended (Exited 0)) ∧
  checked_between (alone_step 7) (λ s, 7 ∉ executing s) (idle_agent true) (ended (Exited 0)) ∧
  (∀ s', step waiting s' → Proc.main s' = AtJobs ∨
     (Proc.main s' = Exited 2 ∧ Proc.Server waiting = true ∧ Proc.sched waiting = None)).
Proof.
  assert (rtc (alone_step 7) (idle_agent true) (ended (Exited 0))) as He
    by (etrans; [exact demo_waiting|exact demo_ended]).
  destruct (shutdown_waits (idle_agent true) (ended (Exited 0)) (idle_agent_initial true) (alone_rtc_step _ _ _ He))
    as (H1 & _ & H3).
  split; [by apply H1|]. split; [by apply (proj2 (H3 7 He))|].
  by apply (proj1 (proj2 (shutdown_waits (idle_agent true) waiting (idle_agent_initial true)
    (alone_rtc_step _ _ _ demo_waiting)))).
Defined.

Lemma shutdown_ends_witness :
  (∀ n s', nsteps proceed n waiting s' → (n ≤ steps_left waiting)%nat) ∧ steps_left waiting = 10%nat ∧
  (∀ s' code, rtc proceed waiting s' → Proc.main s' = Exited code → code = 0).
Proof.
  assert (rtc step (idle_agent true) waiting) as Hw by exact (alone_rtc_step _ _ _ demo_waiting).
  pose proof (shutdown_ends (idle_agent true) waiting (idle_agent_initial true) Hw (or_introl eq_refl)) as (H1 & _ & H3).
  split; [exact H1|]. split; [reflexivity|]. by apply H3.
Defined.

(** The process may end while the result of an execution is not reported, and
    before the agent has left the cluster. *)
Lemma result_lost : ∃ s, rtc (alone_step 7) (idle_agent true) s ∧ Proc.main s = Exited 0 ∧
  Call.mk 7 Ended ∈ Proc.calls s ∧ Proc.stop s = AtSched.
Proof.
  exists (ended (Exited 0)). split; [etrans; [exact demo_waiting|exact demo_ended]|]. split_and!; [done|left|done].
Qed.

(** With two calls of one group, the process may end while one is in its executor. *)
Lemma shared_group_unnoticed : ∃ s, rtc step (idle_agent true) s ∧ Proc.main s = Exited 0 ∧ executing s = [7].
Proof.
  pose (state m cs rn := Proc.mk [] m AtSched true (Some (true, O)) cs rn).
  exists (state (Exited 0) [Call.mk 7 Ended; Call.mk 7 Executing] (({[7]} ∪ ({[7]} ∪ ∅)) ∖ {[7]})). split; [|done].
  transitivity waiting; [exact (alone_rtc_step _ _ _ demo_waiting)|].
  apply rtc_l with (state AtJobs [Call.mk 7 Executing; Call.mk 7 Accepted] ({[7]} ∪ ∅)).
  { left. split; [done|]. apply (arrive_call 7). }
  apply rtc_l with (state AtJobs [Call.mk 7 Executing; Call.mk 7 Executing] ({[7]} ∪ ({[7]} ∪ ∅))).
  { right. apply (proceed_call 7 Accepted Executing [Call.mk 7 Executing] []); [done|constructor]. }
  apply rtc_l with (state AtJobs [Call.mk 7 Ended; Call.mk 7 Executing] (({[7]} ∪ ({[7]} ∪ ∅)) ∖ {[7]})).
  { right. apply (proceed_call 7 Executing Ended [] [Call.mk 7 Executing]); [done|constructor]. }
  apply rtc_l with (state AtLeave [Call.mk 7 Ended; Call.mk 7 Executing] (({[7]} ∪ ({[7]} ∪ ∅)) ∖ {[7]})).
  { right. apply proceed_main. by eapply main_no_jobs. }
  apply rtc_once. right. apply proceed_main, main_graceful.
Qed.

(** A client whose configuration has become that of a server when it is reloaded
    ends with a panic. *)
Lemma reloaded_client_panics : ∃ s, rtc (alone_step 7) (idle_agent false) s ∧ Proc.main s = Exited 2.
Proof.
  exists (Proc.mk [] (Exited 2) AtSched true None [] ∅). split; [|done].
  apply rtc_l with (Proc.mk [SIGHUP] AtWait NotCalled false None [] ∅).
  { example_step ltac:(left; split; [done|apply (arrive_signal SIGHUP)]). }
  apply rtc_l with (Proc.mk [] AtWait NotCalled true None [] ∅).
  { example_step ltac:(right; apply proceed_main, main_reload). }
  apply rtc_l with (Proc.mk [SIGTERM] AtWait NotCalled true None [] ∅).
  { example_step ltac:(left; split; [done|apply (arrive_signal SIGTERM)]). }
  apply rtc_l with (Proc.mk [] AtJobs AtSched true None [] ∅).
  { example_step ltac:(right; by apply proceed_main, main_leave). }
  apply rtc_once. example_step ltac:(right; apply proceed_stop; [done|apply stop_panic]).
Qed.
