(* ===== verification/AgentTags.v ===== *)
(** * AgentTags: what an agent tells the others about itself

    The tags an agent announces: [setupSerf], [Start], [advertiseRPCAddr] and
    [UpdateTags] of src/dkron/agent.go, [initConfig] of src/cmd/dkron.go and
    [handleReload] of src/cmd/agent.go.  Serf, which may refuse tags, and viper,
    which reads files, flags and the environment, are parameters.  The theorems:
    what a server announces is what the others read of it (file Membership), and
    reloading its configuration does not change it; the leader is found by the
    address it announces (file Cluster). *)

From S2P Require Import Prelude GoCore JsCore GoNet Nodes Membership Addresses Cluster.

(** ** Settings *)

Module Settings.
(** The settings of config.go these functions use. *)
Record t := mk {
  Tags : gmap string string;
  Server : bool;
  Bootstrap : bool;
  BootstrapExpect : Z;
  Datacenter : string;
  Region : string;
  RPCPort : Z;
  AdvertiseRPCPort : Z;
}.
End Settings.

Definition with_Tags (tags : gmap string string) (c : Settings.t) : Settings.t :=
  Settings.mk tags (Settings.Server c) (Settings.Bootstrap c) (Settings.BootstrapExpect c)
    (Settings.Datacenter c) (Settings.Region c) (Settings.RPCPort c) (Settings.AdvertiseRPCPort c).

Definition with_AdvertiseRPCPort (port : Z) (c : Settings.t) : Settings.t :=
  Settings.mk (Settings.Tags c) (Settings.Server c) (Settings.Bootstrap c) (Settings.BootstrapExpect c)
    (Settings.Datacenter c) (Settings.Region c) (Settings.RPCPort c) port.

Module Viper.
(** What viper reads at one time: how it fills the settings, maybe with an error,
    the flags named tag, and the map named tags. *)
Record t := mk {
  Unmarshal : Settings.t → Settings.t * bool;
  tag : list string;
  tags : gmap string string;
}.
End Viper.

Inductive init_error : Type := ErrUnmarshalling | ErrTags (err : string).

(** The settings, which are changed in place, and the error. *)
Definition initConfig (v : Viper.t) (config : Settings.t) : Settings.t * option init_error :=
  let (config, ok) := Viper.Unmarshal v config in
  if negb ok then (config, Some ErrUnmarshalling) else
  match Viper.tag v with
  | [] => (with_Tags (Viper.tags v) config, None)
  | cliTags =>
      match UnmarshalTags cliTags with
      | inl err => (config, Some (ErrTags err))
      | inr tags => (with_Tags tags config, None)
      end
  end.

(** ** The agent *)

Module Announcer.
(** The settings, which the command shares with the agent, and the tags of the
    member serf keeps for it. *)
Record t := mk { config : Settings.t; LocalTags : gmap string string }.
End Announcer.

Definition reserved : list string :=
  ["role"; "version"; "server"; "bootstrap"; "expect"; "port"; "rpc_addr"].

Section agent.
(** The version of the program, the address of the member, and whether serf takes
    the tags. *)
Variable Version : string.
Variable ip : IP.
Variable fits : gmap string string → bool.

(** The tags serf is created with, which are those of the settings, too. *)
Definition setupSerf_Tags (c : Settings.t) : gmap string string :=
  let tags := <["role" := "dkron"]> (Settings.Tags c) in
  let tags := <["dc" := Settings.Datacenter c]> tags in
  let tags := <["region" := Settings.Region c]> tags in
  let tags := <["version" := Version]> tags in
  let tags := if Settings.Server c then <["server" := FormatBool (Settings.Server c)]> tags else tags in
  let tags := if Settings.Bootstrap c then <["bootstrap" := "1"]> tags else tags in
  if Settings.BootstrapExpect c =? 0 then tags else <["expect" := pretty (Settings.BootstrapExpect c)]> tags.

(** [None] is an error: the agent does not start. *)
Definition setupSerf (c : Settings.t) : option Announcer.t :=
  let tags := setupSerf_Tags c in
  if fits tags then Some (Announcer.mk (with_Tags tags c) tags) else None.

Definition advertiseRPCAddr (c : Settings.t) : string :=
  JoinHostPort (IP_String ip) (pretty (Settings.AdvertiseRPCPort c)).

(** [Start], as far as the tags go. *)
Definition Start (c : Settings.t) : option Announcer.t :=
  match setupSerf c with
  | None => None
  | Some a =>
      let c := Announcer.config a in
      let c := if Settings.AdvertiseRPCPort c <=? 0 then with_AdvertiseRPCPort (Settings.RPCPort c) c else c in
      let tags := <["rpc_addr" := advertiseRPCAddr c]> (Announcer.LocalTags a) in
      let tags := <["port" := pretty (Settings.AdvertiseRPCPort c)]> tags in
      if fits tags then Some (Announcer.mk c tags) else None
  end.

(** The reserved tags are kept, where there are any. *)
Definition keep_reserved (currentTags tags : gmap string string) : gmap string string :=
  foldl (λ tags tagName,
    match currentTags !! tagName with Some val => <[tagName := val]> tags | None => tags end) tags reserved.

(** The tags of the argument, which are changed in place, and those of the member;
    [false] when serf does not take them. *)
Definition UpdateTags (tags : gmap string string) (a : Announcer.t)
    : gmap string string * gmap string string * bool :=
  let tags := keep_reserved (Announcer.LocalTags a) tags in
  let tags := <["dc" := Settings.Datacenter (Announcer.config a)]> tags in
  let tags := <["region" := Settings.Region (Announcer.config a)]> tags in
  if fits tags then (tags, tags, true) else (tags, Announcer.LocalTags a, false).

(** The error of [initConfig] is dropped. *)
Definition handleReload (v : Viper.t) (a : Announcer.t) : Announcer.t * bool :=
  let c := (initConfig v (Announcer.config a)).1 in
  let '(tags, local, taken) := UpdateTags (Settings.Tags c) (Announcer.mk c (Announcer.LocalTags a)) in
  (Announcer.mk (with_Tags tags c) local, taken).
End agent.

(** ** What a server announces *)

(** The port calls are answered at. *)
Definition rpc_port (c : Settings.t) : Z :=
  if Settings.AdvertiseRPCPort c <=? 0 then Settings.RPCPort c else Settings.AdvertiseRPCPort c.

(** What the others are to read of a server with these settings. *)
Definition announced (c : Settings.t) (region dc : string) (m : Member.t) : ServerParts.t :=
  let addr := TCPAddr_String (Member.Addr m) (rpc_port c) in
  ServerParts.mk (Member.Name m) (Member.Name m) region dc (rpc_port c)
    (Settings.Bootstrap c || (Settings.BootstrapExpect c =? 1)) (Settings.BootstrapExpect c) addr addr
    (Member.Status m).

(** The tags a user gives do not claim what the settings of the agent do not say. *)
Definition modest (c : Settings.t) (tags : gmap string string) : Prop :=
  (Settings.Server c = false → tags !! "server" = None) ∧
  (Settings.Bootstrap c = false → tags !! "bootstrap" = None) ∧
  (Settings.BootstrapExpect c = 0 → tags !! "expect" = None).

(** Settings a server can be started with. *)
Record server_ok (c : Settings.t) : Prop := {
  ok_port : 0 ≤ rpc_port c < 2 ^ 63;
  ok_expect : 0 ≤ Settings.BootstrapExpect c < 2 ^ 63;
  ok_tags : modest c (Settings.Tags c);
}.

Section announce.
Variable Version : string.
Variable ip : IP.
Variable fits : gmap string string → bool.

(** An agent that was started with the settings [c] and reloaded any number of
    times; with the region and datacenter it announces. *)
Inductive announces (c : Settings.t) : Announcer.t → string → string → Prop :=
  | announces_start a : Start Version ip fits c = Some a →
      announces c a (Settings.Region c) (Settings.Datacenter c)
  | announces_reload a region dc v a' taken : announces c a region dc →
      handleReload fits v a = (a', taken) → modest c (Settings.Tags (initConfig v (Announcer.config a)).1) →
      announces c a' (if taken then Settings.Region (Announcer.config a') else region)
        (if taken then Settings.Datacenter (Announcer.config a') else dc).

(** The tags that say it. *)
Record says (c : Settings.t) (region dc : string) (tags : gmap string string) : Prop := {
  says_role : tags !! "role" = Some "dkron";
  says_server : tags !! "server" = if Settings.Server c then Some "true" else None;
  says_region : tags !! "region" = Some region;
  says_dc : tags !! "dc" = Some dc;
  says_bootstrap : tags !! "bootstrap" = if Settings.Bootstrap c then Some "1" else None;
  says_expect : tags !! "expect" =
    if Settings.BootstrapExpect c =? 0 then None else Some (pretty (Settings.BootstrapExpect c));
  says_rpc_addr : tags !! "rpc_addr" = Some (JoinHostPort (IP_String ip) (pretty (rpc_port c)));
  says_port : tags !! "port" = Some (pretty (rpc_port c));
}.

Lemma Start_says c a : modest c (Settings.Tags c) → Start Version ip fits c = Some a →
  says c (Settings.Region c) (Settings.Datacenter c) (Announcer.LocalTags a).
Proof.
  intros (Hs & Hb & He). unfold Start, setupSerf. destruct (fits _); [|done]. cbn [Announcer.config Announcer.LocalTags].
  set (c1 := if _ <=? 0 then _ else _). assert (Settings.AdvertiseRPCPort c1 = rpc_port c) as Hp.
  { subst c1. unfold rpc_port. cbn. by destruct (_ <=? 0). }
  clearbody c1. destruct (fits _); [|done]. intros [= <-]. cbn [Announcer.LocalTags].
  unfold advertiseRPCAddr, setupSerf_Tags. rewrite Hp. split.
  all: destruct (Settings.Server c) eqn:Es, (Settings.Bootstrap c) eqn:Eb,
    (Z.eqb_spec (Settings.BootstrapExpect c) 0); simplify_map_eq; auto.
Qed.

Lemma keep_lookup (cur : gmap string string) l (tags : gmap string string) k :
  foldl (λ tags tagName, match cur !! tagName with Some val => <[tagName := val]> tags | None => tags end) tags l !! k =
    match (if decide (k ∈ l) then cur !! k else None : option string) with Some v => Some v | None => tags !! k end.
Proof.
  revert tags. induction l as [|n l IH]; intros tags; cbn [foldl]; [done|]. rewrite IH. clear IH.
  destruct (decide (k ∈ l)) as [Hl|Hl].
  - rewrite decide_True by by right. destruct (cur !! k) eqn:E; [done|].
    destruct (decide (n = k)) as [->|]; [by rewrite E|]. by destruct (cur !! n); simplify_map_eq.
  - destruct (decide (n = k)) as [->|].
    + rewrite decide_True by left. by destruct (cur !! k) eqn:E; simplify_map_eq.
    + rewrite decide_False by (by intros [?|?]%elem_of_cons). by destruct (cur !! n); simplify_map_eq.
Qed.

Lemma keep_reserved_lookup (cur : gmap string string) tags k : bool_decide (k ∈ reserved) = true →
  keep_reserved cur tags !! k = match cur !! k with Some v => Some v | None => tags !! k end.
Proof. intros Hk%bool_decide_eq_true. unfold keep_reserved. by rewrite keep_lookup, decide_True. Qed.

Lemma reload_says c a region dc v a' taken : says c region dc (Announcer.LocalTags a) →
  modest c (Settings.Tags (initConfig v (Announcer.config a)).1) → handleReload fits v a = (a', taken) →
  says c (if taken then Settings.Region (Announcer.config a') else region)
    (if taken then Settings.Datacenter (Announcer.config a') else dc) (Announcer.LocalTags a').
Proof.
  intros Ha (Hs & Hb & He). unfold handleReload, UpdateTags. cbn [Announcer.config Announcer.LocalTags].
  destruct (fits _); intros [= <- <-]; cbn [Announcer.config Announcer.LocalTags with_Tags
    Settings.Region Settings.Datacenter]; [|done].
  destruct Ha as [H1 H2 _ _ H5 H6 H7 H8].
  split; rewrite ?lookup_insert_eq; [| |done|rewrite lookup_insert_ne by done; by rewrite lookup_insert_eq|..].
  all: rewrite !lookup_insert_ne, keep_reserved_lookup by done.
  - by rewrite H1.
  - rewrite H2. destruct (Settings.Server c); auto.
  - rewrite H5. destruct (Settings.Bootstrap c); auto.
  - rewrite H6. destruct (Z.eqb_spec (Settings.BootstrapExpect c) 0); auto.
  - by rewrite H7.
  - by rewrite H8.
Qed.

Lemma announces_says c a region dc : modest c (Settings.Tags c) → announces c a region dc →
  says c region dc (Announcer.LocalTags a).
Proof. intros Hc. induction 1; eauto using Start_says, reload_says. Qed.

Lemma tag_said key m v : Member.Tags m !! key = Some v → tag key m = v.
Proof. unfold tag. by intros ->. Qed.

Lemma Atoi_pretty_range n : 0 ≤ n < 2 ^ 63 → Atoi (pretty n) = (n, true).
Proof.
  intros Hn. assert (0 ≤ n) by lia. rewrite Atoi_digits by (by apply pretty_digits || by apply pretty_not_empty).
  rewrite digits_value_pretty by lia. by destruct (Z.ltb_spec n (2 ^ 63)); [|lia].
Qed.

Lemma says_isServer c region dc m : server_ok c → IP_ok ip → Settings.Server c = true →
  says c region dc (Member.Tags m) → isServer m = Some (announced c region dc m).
Proof.
  intros [Hp He _] Hip Hs Hm. pose proof (says_server _ _ _ _ Hm) as Hserver. rewrite Hs in Hserver.
  unfold isServer. rewrite (tag_said _ _ _ (says_role _ _ _ _ Hm)), (tag_said _ _ _ Hserver),
    (tag_said _ _ _ (says_region _ _ _ _ Hm)), (tag_said _ _ _ (says_dc _ _ _ _ Hm)),
    (tag_said _ _ _ (says_rpc_addr _ _ _ _ Hm)), (tag_said _ _ _ (says_port _ _ _ _ Hm)),
    (says_expect _ _ _ _ Hm), (says_bootstrap _ _ _ _ Hm).
  rewrite ParseIP_JoinHostPort, (Atoi_pretty_range (rpc_port c)) by done. cbn [String.eqb Ascii.eqb Bool.eqb negb].
  unfold announced. destruct (Z.eqb_spec (Settings.BootstrapExpect c) 0) as [E|E].
  - rewrite E. cbn. by destruct (Settings.Bootstrap c).
  - rewrite Atoi_pretty_range by done. cbn. destruct (Settings.Bootstrap c); cbn; [|by destruct (_ =? 1)].
    by destruct (_ =? 1).
Qed.

(** C15. Announcing and reading, for an agent whose user's tags are modest: neither
    at the start nor at a reload do they name [server], [bootstrap] or [expect] where
    the settings do not set it.  From its start on and after any number of reloads, a
    server whose port and number of expected servers fit reads, wherever it is seen as
    a member, as the server its settings describe, at the address where it can be
    called; a reload can only move it to another region or datacenter.  And an agent
    that is no server does not read as one.  (Without modesty it can:
    [client_taken_for_server].) *)
Theorem server_is_read c a region dc m : modest c (Settings.Tags c) → announces c a region dc → IP_ok ip →
  Member.Tags m = Announcer.LocalTags a →
  (Settings.Server c = true → server_ok c → isServer m = Some (announced c region dc m)) ∧
  (Settings.Server c = false → isServer m = None).
Proof.
  intros Hc Ha%announces_says Hip Hm; [|done]. rewrite <- Hm in Ha. split.
  - intros Hs Hok. by apply says_isServer.
  - intros Hs. unfold isServer. rewrite (tag_said _ _ _ (says_role _ _ _ _ Ha)).
    unfold tag at 1. rewrite (says_server _ _ _ _ Ha), Hs. done.
Qed.
End announce.

(** ** Finding the leader *)

(** C16. The leader is found by an agent that has a log and whose log knows the
    address of the leader, when the configuration of the log is settled (file
    Membership: each alive server of the region is in it with its address).  The
    leader is a server of the configuration and, for this agent, an alive member of its
    region with the tags its settings give it, on the conditions of the theorem
    above, modesty among them.  The agent then finds a member that announces the
    address of the leader, and the leader itself when no two members announce the
    same.  An agent that is no server has no log, and finds none. *)
Theorem leader_is_found Version fits Region (conf : Configuration) A leads s leader c a region dc ip :
  config_ok conf → s ∈ conf → Agent.raft A = Some (leads, RaftServer.Address s) →
  leader ∈ Agent.Members A → RaftServer.ID s = Member.Name leader →
  (∀ m addr, m ∈ Agent.Members A → alive_at Region m addr → has (Member.Name m) addr conf) →
  server_ok c → Settings.Server c = true → IP_ok ip → announces Version ip fits c a region dc →
  region = Region → Member.Tags leader = Announcer.LocalTags a → Member.Addr leader = IP_String ip →
  Member.Status leader = Some StatusAlive →
  ∃ m, leaderMember A = Some m ∧ m ∈ Agent.Members A ∧ tag "rpc_addr" m = RaftServer.Address s ∧
    ((∀ m1 m2, m1 ∈ Agent.Members A → m2 ∈ Agent.Members A → tag "rpc_addr" m1 = tag "rpc_addr" m2 → m1 = m2) →
     m = leader).
Proof.
  intros Hok Hs HA Hl Hid Hset Hc Hsrv Hip Ha -> Htags Haddr Hst.
  pose proof (announces_says _ _ _ _ _ _ _ (ok_tags c Hc) Ha) as Hsays. rewrite <- Htags in Hsays.
  pose proof (says_isServer _ _ _ _ leader Hc Hip Hsrv Hsays) as Hread.
  assert (tag "rpc_addr" leader = RaftServer.Address s) as Hrpc.
  { destruct (Hset leader (TCPAddr_String (Member.Addr leader) (rpc_port c)) Hl) as [v Hv]; [by eexists|].
    rewrite (config_ok_inj conf s _ Hok Hs Hv (or_introl Hid)). cbn [RaftServer.Address].
    rewrite Haddr. by apply tag_said, (says_rpc_addr _ _ _ _ _ Hsays). }
  unfold leaderMember. rewrite HA.
  destruct (List.find _ _) as [m|] eqn:E.
  - apply List.find_some in E as [Hm%list_elem_of_In Ht%String.eqb_eq]. exists m. split_and!; try done.
    intros Hinj. apply Hinj; [done..|]. by rewrite Ht.
  - apply (List.find_none _ _) with (x := leader) in E; [|by apply list_elem_of_In].
    apply String.eqb_neq in E. by destruct E.
Qed.

(** ** Examples *)

Definition demo_settings (server : bool) (tags : gmap string string) : Settings.t :=
  Settings.mk tags server false 3 "dc1" "global" 6868 0.
Definition demo_viper (tags : gmap string string) (region : string) : Viper.t :=
  Viper.mk (λ c, (Settings.mk (Settings.Tags c) (Settings.Server c) (Settings.Bootstrap c)
    (Settings.BootstrapExpect c) "dc1" region (Settings.RPCPort c) 0, true)) [] tags.

Definition demo_ip : IP := IPv4 10 0 0 1.

(** A server with a tag, reloaded with another one and another region. *)
Definition demo_started : option Announcer.t :=
  Start "devel" demo_ip (λ _, true) (demo_settings true {["disk" := "ssd"]}).
Definition demo_reloaded : option Announcer.t :=
  (λ a, (handleReload (λ _, true) (demo_viper {["disk" := "hdd"; "role" := "boss"]} "eu") a).1) <$> demo_started.
Definition demo_member (name : string) (a : option Announcer.t) : Member.t :=
  Member.mk name "10.0.0.1" (from_option Announcer.LocalTags ∅ a) (Some StatusAlive).

Lemma demo_server_ok : server_ok (demo_settings true {["disk" := "ssd"]}).
Proof. split; [by vm_compute|by vm_compute|by split_and!]. Qed.

Lemma demo_announces : ∃ a, demo_reloaded = Some a ∧
  announces "devel" demo_ip (λ _, true) (demo_settings true {["disk" := "ssd"]}) a "eu" "dc1".
Proof.
  destruct demo_started as [a|] eqn:E; [|by vm_compute in E].
  unfold demo_reloaded. rewrite E. eexists. split; [reflexivity|].
  refine (announces_reload "devel" demo_ip (λ _, true) _ a "global" "dc1" (demo_viper {["disk" := "hdd"; "role" := "boss"]} "eu") _
    true (announces_start _ _ _ _ a E) _ _).
  - reflexivity.
  - by split_and!.
Qed.

Lemma server_is_read_witness :
  isServer (demo_member "n1" demo_reloaded) =
    Some (ServerParts.mk "n1" "n1" "eu" "dc1" 6868 false 3 "10.0.0.1:6868" "10.0.0.1:6868" (Some StatusAlive)).
Proof.
  destruct demo_announces as (a & E & Ha).
  refine (proj1 (server_is_read "devel" demo_ip (λ _, true) _ a "eu" "dc1" (demo_member "n1" demo_reloaded)
    (ok_tags _ demo_server_ok) Ha _ _) eq_refl demo_server_ok).
  - by repeat constructor.
  - by rewrite E.
Defined.

Definition demo_leader : Member.t := demo_member "n1" demo_reloaded.
Definition demo_conf : Configuration := [RaftServer.mk "n1" "10.0.0.1:6868" true].

Lemma leader_is_found_witness :
  ∃ m, leaderMember (Agent.mk "eu" [demo_leader] (Some (false, "10.0.0.1:6868")) [] false) = Some m ∧
    tag "rpc_addr" m = "10.0.0.1:6868".
Proof.
  destruct demo_announces as (a & E & Ha).
  destruct (leader_is_found "devel" (λ _, true) "eu" demo_conf
    (Agent.mk "eu" [demo_leader] (Some (false, "10.0.0.1:6868")) [] false) false (RaftServer.mk "n1" "10.0.0.1:6868" true)
    demo_leader (demo_settings true {["disk" := "ssd"]}) a "eu" "dc1" demo_ip) as (m & Hm & _ & Ht & _); [..|by exists m]; try exact demo_server_ok; try done.
  - by apply (bool_decide_unpack (config_ok demo_conf)).
  - left.
  - left.
  - intros m addr ->%list_elem_of_singleton (parts & Hp & _ & _ & ->).
    assert (isServer demo_leader = Some (ServerParts.mk "n1" "n1" "eu" "dc1" 6868 false 3 "10.0.0.1:6868"
      "10.0.0.1:6868" (Some StatusAlive))) as E' by (vm_compute; reflexivity).
    rewrite E' in Hp. injection Hp as <-. exists true. left.
  - by repeat constructor.
  - unfold demo_leader, demo_member. by rewrite E.
Defined.

(** A client whose user tags it as a server is read as one. *)
Lemma client_taken_for_server :
  let a := Start "devel" demo_ip (λ _, true) (demo_settings false {["server" := "true"]}) in
  is_Some a ∧ is_Some (isServer (demo_member "client" a)).
Proof. split; vm_compute; by eexists. Qed.
