(* ===== verification/RaftPeers.v ===== *)
(** * RaftPeers: the log of a server is set up, listed and repaired

    [setupRaft] of src/dkron/agent.go, and the operations for an operator on the
    configuration of the log: [RaftGetConfiguration] and [RaftRemovePeerByID] of
    src/dkron/grpc.go, and the commands of src/cmd/raft.go.  The stores and the
    functions of raft are a library: what they answer is an argument.  The
    theorems: what becomes of a server that is removed by hand when the leader
    reconciles the members (file Membership); under which names servers are
    listed; when a server starts a log of its own. *)

From S2P Require Import Prelude GoCore GoNet Nodes Membership Cluster AgentTags.

(** ** Listing *)

Module RaftServerInfo.
(** [typesv1.RaftServer] *)
Record t := mk {
  Id : string;
  Node : string;
  Address : string;
  Leader : bool;
  Voter : bool;
  RaftProtocol : string;
}.
End RaftServerInfo.

Definition index_server (serverMap : gmap string Member.t) (member : Member.t) : gmap string Member.t :=
  match isServer member with
  | None => serverMap
  | Some parts => <[TCPAddr_String (Member.Addr member) (ServerParts.Port parts) := member]> serverMap
  end.

(** The servers among the members by their address; a later member wins. *)
Definition serverMap (members : list Member.t) : gmap string Member.t := foldl index_server ∅ members.

Definition list_entry (servers : gmap string Member.t) (leader : string) (server : RaftServer.t) : RaftServerInfo.t :=
  let (node, raftProtocolVersion) :=
    match servers !! RaftServer.Address server with
    | Some member => (Member.Name member, default "unknown" (Member.Tags member !! "raft_vsn"))
    | None => ("(unknown)", "unknown")
    end in
  RaftServerInfo.mk (RaftServer.ID server) node (RaftServer.Address server)
    (String.eqb (RaftServer.Address server) leader) (RaftServer.Voter server) raftProtocolVersion.

(** The index of the configuration and its servers; [None] is an error of raft. *)
Definition RaftGetConfiguration (future : option (Z * Configuration)) (leader : string) (members : list Member.t)
    : option (Z * list RaftServerInfo.t) :=
  match future with
  | None => None
  | Some (index, conf) => Some (index, list_entry (serverMap members) leader <$> conf)
  end.

(** [raft list-peers]: the lines that are printed as a table. *)
Definition peer_line (s : RaftServerInfo.t) : string :=
  RaftServerInfo.Node s +:+ "|" +:+ RaftServerInfo.Id s +:+ "|" +:+ RaftServerInfo.Address s +:+ "|" +:+
  (if RaftServerInfo.Leader s then "leader" else "follower") +:+ "|" +:+ FormatBool (RaftServerInfo.Voter s).

Definition list_peers (reply : list RaftServerInfo.t) : list string :=
  "Node|ID|Address|State|Voter" :: (peer_line <$> reply).

(** ** Removing *)

Inductive remove_error : Type := ErrConfiguration | ErrNotFound (id : string) | ErrRemove.

Section remove.
Context `{Raft}.

(** [readable]: whether raft gives its configuration. *)
Definition RaftRemovePeerByID (readable : bool) (id : string) (p : peers) : peers * option remove_error :=
  if negb readable then (p, Some ErrConfiguration)
  else if existsb (λ s, String.eqb (RaftServer.ID s) id) (servers p) then
    match raft_remove id p with
    | (p, None) => (p, None)
    | (p, Some _) => (p, Some ErrRemove)
    end
  else (p, Some (ErrNotFound id)).
End remove.

(** ** Setting up *)

Module RaftTimes.
(** The timeouts of [raft.Config], in nanoseconds. *)
Record t := mk { HeartbeatTimeout : Z; ElectionTimeout : Z; LeaderLeaseTimeout : Z }.
End RaftTimes.

Module RaftSetup.
(** The settings, and the listener the log is served at. *)
Record t := mk {
  NodeName : string;
  Bootstrap : bool;
  BootstrapExpect : Z;
  DevMode : bool;
  RaftMultiplier : Z;
  LocalAddr : string;
}.
End RaftSetup.

Module RaftLib.
(** What the libraries answer: whether the stores open, the file peers.json
    ([None]: there is none; [Some None]: it cannot be parsed), whether recovering
    and removing the file succeed, whether there is a state, and whether a
    configuration can be written and raft started. *)
Record t := mk {
  NewFileSnapshotStore : bool;
  NewBoltStore : bool;
  NewLogCache : bool;
  peersFile : option (option Configuration);
  RecoverCluster : bool;
  Remove : bool;
  HasExistingState : option bool;
  BootstrapCluster : bool;
  NewRaft : bool;
}.
End RaftLib.

(** What is done to the stores, in order. *)
Inductive raft_action : Type :=
  | OpenInmem | OpenSnapshots | OpenBolt
  | Recover (configuration : Configuration) | RemovePeersFile
  | Bootstrapped (configuration : Configuration)
  | Started (times : RaftTimes.t).

Inductive setup_error : Type :=
  | ErrMultiplier | ErrSnapshotStore | ErrBoltStore | ErrLogCache | ErrParsePeers | ErrRecover | ErrRemovePeers
  | ErrHasState | ErrBootstrap | ErrNewRaft.

Definition raft_times (raftMultiplier : Z) (config : RaftTimes.t) : option RaftTimes.t :=
  if (raftMultiplier <? 1) || (10 <? raftMultiplier) then None
  else Some (RaftTimes.mk (RaftTimes.HeartbeatTimeout config * raftMultiplier)
    (RaftTimes.ElectionTimeout config * raftMultiplier) (RaftTimes.LeaderLeaseTimeout config * raftMultiplier)).

(** The stores on disk, and the recovery from peers.json. *)
Definition disk_stores (lib : RaftLib.t) : list raft_action * option setup_error :=
  if negb (RaftLib.NewFileSnapshotStore lib) then ([], Some ErrSnapshotStore)
  else if negb (RaftLib.NewBoltStore lib) then ([OpenSnapshots], Some ErrBoltStore)
  else if negb (RaftLib.NewLogCache lib) then ([OpenSnapshots; OpenBolt], Some ErrLogCache)
  else
    let opened := [OpenSnapshots; OpenBolt] in
    match RaftLib.peersFile lib with
    | None => (opened, None)
    | Some None => (opened, Some ErrParsePeers)
    | Some (Some configuration) =>
        if negb (RaftLib.RecoverCluster lib) then (opened, Some ErrRecover)
        else if negb (RaftLib.Remove lib) then (opened ++ [Recover configuration], Some ErrRemovePeers)
        else (opened ++ [Recover configuration; RemovePeersFile], None)
    end.

(** The first configuration of a log: the server alone. *)
Definition own_configuration (c : RaftSetup.t) : Configuration :=
  [RaftServer.mk (RaftSetup.NodeName c) (RaftSetup.LocalAddr c) true].

Definition bootstrap (c : RaftSetup.t) (lib : RaftLib.t) : list raft_action * option setup_error :=
  match RaftLib.HasExistingState lib with
  | None => ([], Some ErrHasState)
  | Some true => ([], None)
  | Some false =>
      if RaftLib.BootstrapCluster lib then ([Bootstrapped (own_configuration c)], None)
      else ([], Some ErrBootstrap)
  end.

(** One part after another, up to the first error. *)
Definition and_then (a b : list raft_action * option setup_error) : list raft_action * option setup_error :=
  match a with (l, None) => (l ++ b.1, b.2) | _ => a end.

Definition setupRaft (defaults : RaftTimes.t) (c : RaftSetup.t) (lib : RaftLib.t)
    : list raft_action * option setup_error :=
  let Bootstrap := if (0 <? RaftSetup.BootstrapExpect c) && (RaftSetup.BootstrapExpect c =? 1)
    then true else RaftSetup.Bootstrap c in
  match raft_times (RaftSetup.RaftMultiplier c) defaults with
  | None => ([], Some ErrMultiplier)
  | Some config =>
      and_then (if RaftSetup.DevMode c then ([OpenInmem], None) else disk_stores lib)
        (and_then (if Bootstrap || RaftSetup.DevMode c then bootstrap c lib else ([], None))
          (if RaftLib.NewRaft lib then ([Started config], None) else ([], Some ErrNewRaft)))
  end.

(** ** Lemmas *)

(** The member is a server at this address. *)
Definition server_at (m : Member.t) (addr : string) : Prop := ∃ parts, isServer m = Some parts ∧
  addr = TCPAddr_String (Member.Addr m) (ServerParts.Port parts).

Lemma serverMap_lookup members addr :
  match serverMap members !! addr with
  | Some m => m ∈ members ∧ server_at m addr
  | None => ∀ m, m ∈ members → ¬ server_at m addr
  end.
Proof.
  unfold serverMap. induction members as [|m members IH] using rev_ind; cbn [foldl].
  { rewrite lookup_empty. by intros m ?%elem_of_nil. }
  rewrite foldl_app. cbn [foldl]. revert IH. generalize (foldl index_server ∅ members). intros servers IH.
  unfold index_server.
  assert (∀ (servers : gmap string Member.t), match servers !! addr with
      | Some m0 => m0 ∈ members ∧ server_at m0 addr | None => ∀ m0, m0 ∈ members → ¬ server_at m0 addr end →
    ¬ server_at m addr → match servers !! addr with
      | Some m0 => m0 ∈ members ++ [m] ∧ server_at m0 addr
      | None => ∀ m0, m0 ∈ members ++ [m] → ¬ server_at m0 addr end) as Hother.
  { intros sv Hsv Hm. destruct (sv !! addr) as [x|]; [split; [set_solver|apply Hsv]|].
    intros x [Hx|Hx]%elem_of_app; [by apply Hsv|]. apply list_elem_of_singleton in Hx. by subst. }
  destruct (isServer m) as [parts|] eqn:Hm.
  2: { apply Hother; [done|]. intros (? & ? & _). congruence. }
  destruct (decide (addr = TCPAddr_String (Member.Addr m) (ServerParts.Port parts))) as [->|Hne].
  - rewrite lookup_insert_eq. split; [set_solver|]. by exists parts.
  - rewrite lookup_insert_ne by done. apply Hother; [done|]. intros (parts' & E & ->). rewrite Hm in E. injection E as <-.
    by apply Hne.
Qed.

(** Every server of the log is listed, under the name of the member that has its
    address, when only one has. *)
Lemma peers_named index conf leader members reply :
  RaftGetConfiguration (Some (index, conf)) leader members = Some (index, reply) →
  RaftServerInfo.Id <$> reply = RaftServer.ID <$> conf ∧ RaftServerInfo.Address <$> reply = RaftServer.Address <$> conf ∧
  (∀ e, e ∈ reply → RaftServerInfo.Leader e = true ↔ RaftServerInfo.Address e = leader) ∧
  (∀ e m, e ∈ reply → m ∈ members → server_at m (RaftServerInfo.Address e) →
     (∀ m', m' ∈ members → server_at m' (RaftServerInfo.Address e) → m' = m) →
     RaftServerInfo.Node e = Member.Name m) ∧
  (∀ e, e ∈ reply → (∀ m, m ∈ members → ¬ server_at m (RaftServerInfo.Address e)) →
     RaftServerInfo.Node e = "(unknown)").
Proof.
  intros [= <-].
  assert (∀ s, let e := list_entry (serverMap members) leader s in
    RaftServerInfo.Id e = RaftServer.ID s ∧ RaftServerInfo.Address e = RaftServer.Address s ∧
    RaftServerInfo.Leader e = String.eqb (RaftServer.Address s) leader ∧
    RaftServerInfo.Node e = from_option Member.Name "(unknown)" (serverMap members !! RaftServer.Address s)) as He.
  { intros s. unfold list_entry. by destruct (serverMap members !! _). }
  split_and!.
  - rewrite <- list_fmap_compose. apply list_fmap_ext. intros ? s _. apply He.
  - rewrite <- list_fmap_compose. apply list_fmap_ext. intros ? s _. apply (He s).
  - intros e (s & -> & _)%list_elem_of_fmap. destruct (He s) as (_ & -> & -> & _). apply String.eqb_eq.
  - intros e m (s & -> & _)%list_elem_of_fmap. destruct (He s) as (_ & -> & _ & ->). intros Hm Ha Hone.
    pose proof (serverMap_lookup members (RaftServer.Address s)) as Hl. destruct (serverMap members !! _) as [x|].
    + destruct Hl as [Hx Hxa]. by rewrite (Hone x Hx Hxa).
    + by destruct (Hl m Hm).
  - intros e (s & -> & _)%list_elem_of_fmap. destruct (He s) as (_ & -> & _ & ->). intros Hno.
    pose proof (serverMap_lookup members (RaftServer.Address s)) as Hl. destruct (serverMap members !! _) as [x|]; [|done].
    destruct Hl as [Hx Hxa]. by destruct (Hno x Hx).
Qed.

(** ** Removing a server *)

Section removing.
Context `{Raft, !RaftLaws}.

Lemma raft_remove_appended id p p' : raft_remove id p = (p', None) → appended p' = S (appended p).
Proof. unfold raft_remove. destruct (RemoveServer _ _); [|done]. by intros [= <-]. Qed.

Lemma raft_remove_error id p p' err : raft_remove id p = (p', Some err) → p' = p.
Proof. unfold raft_remove. destruct (RemoveServer _ _); [done|]. by intros [= <-]. Qed.

(** C18. Removing a server of the log by hand, from a valid configuration, in a cluster
    whose members have distinct names, whose alive servers have distinct addresses and
    which has at most one server in bootstrap mode.  An identifier
    that is not of the configuration is refused, and an error leaves the
    configuration as it was; otherwise that server, and no other, is gone.  As the
    comment of the operation warns, it comes back when the leader then reconciles the
    members without an error, if it is the name of an alive member of the region and
    not that of the leader itself; and it stays away if no alive member of the region
    has that name.  Nothing is said of the leader itself. *)
Theorem removed_peer_returns NodeName Region Members readable id p p1 err :
  config_ok (servers p) → consistent Region Members → RaftRemovePeerByID readable id p = (p1, err) →
  (err = Some (ErrNotFound id) ↔ readable = true ∧ ∀ s, s ∈ servers p → RaftServer.ID s ≠ id) ∧
  match err with
  | Some _ => p1 = p
  | None =>
      (∀ s, s ∈ servers p1 ↔ s ∈ servers p ∧ RaftServer.ID s ≠ id) ∧ appended p1 = S (appended p) ∧
      ∀ p2, reconcile NodeName Region Members p1 = (p2, None) →
        (∀ m addr, m ∈ Members → alive_at Region m addr → Member.Name m = id → id ≠ NodeName → has id addr (servers p2)) ∧
        ((∀ m addr, m ∈ Members → Member.Name m = id → ¬ alive_at Region m addr) →
         ∀ s, s ∈ servers p2 → RaftServer.ID s ≠ id)
  end.
Proof.
  intros Hok Hc. unfold RaftRemovePeerByID. destruct readable; cbn [negb]; [|intros [= <- <-]; by split; [split; [|intros []]|]].
  destruct (existsb _ _) eqn:Hex.
  - apply existsb_exists in Hex as (x & Hx%list_elem_of_In & Hi%String.eqb_eq).
    assert (¬ ∀ s, s ∈ servers p → RaftServer.ID s ≠ id) as Hin by (intros Hno; by apply (Hno x Hx)).
    destruct (raft_remove id p) as [p' [e|]] eqn:Hrm; intros [= <- <-].
    { split; [split; [done|by intros []]|]. by eapply raft_remove_error. }
    split; [split; [done|by intros []]|].
    pose proof (raft_remove_appended _ _ _ Hrm) as Happ. apply raft_remove_spec in Hrm as [Hok1 Hrm]; [|done].
    split; [done|]. split; [done|]. intros p2 Hr.
    destruct (reconcile_loop_spec NodeName Region Members Hc Members p' p2 Hok1 ltac:(done) Hr) as (_ & _ & Hall & Hnew & _).
    split.
    + intros m addr Hm Ha <- Hne. by apply (proj1 (Hall m Hm Hne)).
    + intros Hno s [[_ Hs]%Hrm|(m & Hm & Hid & Ha)]%Hnew; [done|]. intros E. eapply Hno; [exact Hm| |exact Ha]. congruence.
  - intros [= <- <-]. split; [|done]. split; [|done]. intros _. split; [done|]. intros s Hs Hi.
    assert (existsb (λ s, String.eqb (RaftServer.ID s) id) (servers p) = true); [|congruence].
    apply existsb_exists. exists s. split; [by apply list_elem_of_In|]. by apply String.eqb_eq.
Qed.
End removing.

(** ** Setting up the log *)

Lemma and_then_elem x a b : x ∈ (and_then a b).1 ↔ x ∈ a.1 ∨ (a.2 = None ∧ x ∈ b.1).
Proof. destruct a as [l [e|]]; cbn; [|rewrite elem_of_app]; naive_solver. Qed.
Lemma and_then_ok a b : (and_then a b).2 = None ↔ a.2 = None ∧ b.2 = None.
Proof. destruct a as [l [e|]]; cbn; naive_solver. Qed.

Lemma disk_stores_actions lib x : x ∈ (disk_stores lib).1 →
  x = OpenSnapshots ∨ x = OpenBolt ∨ x = RemovePeersFile ∨
  ∃ conf, x = Recover conf ∧ RaftLib.peersFile lib = Some (Some conf).
Proof.
  unfold disk_stores. destruct (RaftLib.NewFileSnapshotStore lib), (RaftLib.NewBoltStore lib), (RaftLib.NewLogCache lib);
    cbn [negb fst]; try set_solver.
  destruct (RaftLib.peersFile lib) as [[conf|]|]; [|set_solver..].
  destruct (RaftLib.RecoverCluster lib), (RaftLib.Remove lib); set_solver.
Qed.

Lemma bootstrap_actions c lib x : x ∈ (bootstrap c lib).1 →
  x = Bootstrapped (own_configuration c) ∧ RaftLib.HasExistingState lib = Some false.
Proof.
  unfold bootstrap. destruct (RaftLib.HasExistingState lib) as [[]|], (RaftLib.BootstrapCluster lib); set_solver.
Qed.

(** A server writes a first configuration, of itself alone, only when it is told to
    bootstrap, expects no other server or is in development, and has no state; it
    recovers the configuration of peers.json unless it is in development; a
    multiplier out of bounds is refused before a store is opened; and raft is
    started exactly when there is no error. *)
Lemma setupRaft_spec defaults c lib r : setupRaft defaults c lib = r →
  (¬ 1 ≤ RaftSetup.RaftMultiplier c ≤ 10 → r = ([], Some ErrMultiplier)) ∧
  (∀ conf, Bootstrapped conf ∈ r.1 → conf = own_configuration c ∧ RaftLib.HasExistingState lib = Some false ∧
     (RaftSetup.Bootstrap c = true ∨ RaftSetup.BootstrapExpect c = 1 ∨ RaftSetup.DevMode c = true)) ∧
  (∀ conf, Recover conf ∈ r.1 → RaftSetup.DevMode c = false ∧ RaftLib.peersFile lib = Some (Some conf)) ∧
  (r.2 = None ↔ ∃ times, Started times ∈ r.1).
Proof.
  intros <-. unfold setupRaft, raft_times.
  destruct (Z.ltb_spec (RaftSetup.RaftMultiplier c) 1), (Z.ltb_spec 10 (RaftSetup.RaftMultiplier c)); cbn [orb].
  1-3: split_and!; [done|set_solver..].
  pose proof (disk_stores_actions lib) as Hdisk. pose proof (bootstrap_actions c lib) as Hboot.
  split_and!; [lia|..].
  - intros conf. rewrite !and_then_elem. intros [Hx|[_ [Hx|[_ Hx]]]].
    + destruct (RaftSetup.DevMode c); [set_solver|]. apply Hdisk in Hx. naive_solver.
    + destruct (_ || _) eqn:Hb; [|set_solver]. apply Hboot in Hx as [[= ->] Hs]. split; [done|]. split; [done|].
      destruct (RaftSetup.DevMode c), (RaftSetup.Bootstrap c); auto. right. left.
      destruct (Z.eqb_spec (RaftSetup.BootstrapExpect c) 1); [done|]. by rewrite andb_false_r in Hb.
    + destruct (RaftLib.NewRaft lib); set_solver.
  - intros conf. rewrite !and_then_elem. intros [Hx|[_ [Hx|[_ Hx]]]].
    + destruct (RaftSetup.DevMode c); [set_solver|]. apply Hdisk in Hx. naive_solver.
    + destruct (_ || _) eqn:Hb; [|set_solver]. by apply Hboot in Hx as [? _].
    + destruct (RaftLib.NewRaft lib); set_solver.
  - rewrite !and_then_ok. setoid_rewrite and_then_elem. setoid_rewrite and_then_elem. split.
    + intros (-> & -> & Hn). eexists. right. split; [done|]. right. split; [done|].
      destruct (RaftLib.NewRaft lib); [left|done].
    + intros (times & [Hx|[H1 [Hx|[H2 Hx]]]]).
      * destruct (RaftSetup.DevMode c); [set_solver|]. apply Hdisk in Hx. naive_solver.
      * destruct (_ || _) eqn:Hb; [|set_solver]. by apply Hboot in Hx as [? _].
      * destruct (RaftLib.NewRaft lib); [done|set_solver].
Qed.

(** ** Examples *)

(** The server n2 is removed from the log, and comes back at the address it has as
    a member. *)
Lemma removed_peer_returns_witness :
  let p := demo_peers in
  let p1 := mk_peers [RaftServer.mk "n1" "10.0.0.1:6868" true; RaftServer.mk "n3" "10.0.0.3:6868" true] 1 in
  let p2 := mk_peers [RaftServer.mk "n1" "10.0.0.1:6868" true; RaftServer.mk "n2" "10.0.0.3:6868" true] 3 in
  RaftRemovePeerByID true "n2" p = (p1, None) ∧
  reconcile "n1" "global" demo_servers p1 = (p2, None) ∧ has "n2" "10.0.0.3:6868" (servers p2) ∧
  (RaftRemovePeerByID true "n9" p).2 = Some (ErrNotFound "n9").
Proof.
  intros p p1 p2.
  assert (RaftRemovePeerByID true "n2" p = (p1, None)) as E by (vm_compute; reflexivity).
  assert (reconcile "n1" "global" demo_servers p1 = (p2, None)) as Er by (vm_compute; reflexivity).
  assert (config_ok (servers p)) as Hok by (split; apply (bool_decide_unpack _); vm_compute; exact I).
  split; [exact E|]. split; [exact Er|]. split.
  - destruct (removed_peer_returns "n1" "global" demo_servers true "n2" p p1 None Hok consistent_demo E)
      as (_ & _ & _ & Hback).
    apply (proj1 (Hback p2 Er) (Member.mk "n2" "10.0.0.3" (server_tags "6868") (Some StatusAlive))); [..|done|done].
    + right. left.
    + eexists. split; [vm_compute; reflexivity|]. split; [reflexivity|]. split; reflexivity.
  - apply (proj1 (removed_peer_returns "n1" "global" demo_servers true "n9" p _ _ Hok consistent_demo
      (surjective_pairing _))).
    split; [done|]. intros s Hs. cbn in Hs. by repeat (apply elem_of_cons in Hs as [->|Hs]); try (by apply elem_of_nil in Hs).
Defined.

(** A server alone, whose calls are advertised at another port than they are
    answered at, does not find itself as the leader: its log has the address it
    listens at, and reconciling leaves the server itself alone. *)
Lemma lone_leader_not_found :
  let settings := Settings.mk ∅ true true 1 "dc1" "global" 6868 7000 in
  let a := Start "devel" demo_ip (λ _, true) settings in
  let me := demo_member "n1" a in
  let conf := own_configuration (RaftSetup.mk "n1" true 1 false 1 "10.0.0.1:6868") in
  tag "rpc_addr" me = "10.0.0.1:7000" ∧
  reconcile "n1" "global" [me] (mk_peers conf 0) = (mk_peers conf 0, None) ∧
  leaderMember (Agent.mk "global" [me] (Some (true, "10.0.0.1:6868")) [] true) = None.
Proof. vm_compute. by split_and!. Qed.

(** The multiplier 0 is refused. *)
Lemma multiplier_zero_refused defaults lib :
  setupRaft defaults (RaftSetup.mk "n1" false 0 false 0 "10.0.0.1:6868") lib = ([], Some ErrMultiplier).
Proof. done. Qed.
