(* ===== verification/Cascade.v ===== *)
(** * Cascade: what one run sets off

    [ExecutionDone] of src/dkron/grpc.go on the leader and [Job.Run] of
    src/dkron/job.go: an execution that ends is stored, and retried, or followed
    by the jobs that depend on it, whose executions end in turn.  The calls wait
    for each other, and those of one run go on at the same time; a cascade is
    the tree of the calls that are open, and its steps may come in any order.
    A node that cannot send the end of an execution reports it itself, beside the
    leader that sees the stream break ([AgentRun] of src/dkron/grpc_agent.go).
    The theorem: without cycles of dependent jobs a cascade settles, within a
    bound. *)

From S2P Require Import Prelude GoCore Jobs Store Fsm Running Nodes Scheduler Server Streams.

Section cascade.
Context `{Env, Engine}.
Variable sortByStart : list Exec.t → list Exec.t.
(** The processors of the leader, the name it gives them as its own, the order
    it visits those of a job in, and how the notifications of an execution go. *)
Variable ProcessorPlugins : gmap string (Config → PbExecution.t → PbExecution.t).
Variable NodeName : string.
Variable visit : gmap string Config → list (string * Config).
Variable SendPostNotifications : Exec.t → list Exec.t → Job.t → option string.

(** ** An execution has ended *)

Inductive done_error : Type :=
  | DoneJobNotFound
  | DoneNotification (err : string).

(** What is left to do once the execution is stored. *)
Inductive after_done : Type :=
  | DoneError (err : done_error)
  | DoneRetry (jobName : string) (execution : Exec.t)
  | DoneChain (job : Job.t).

Definition process (processors : list (string * Config)) (pbex : PbExecution.t) : PbExecution.t :=
  fold_left (λ pbex kv,
    match ProcessorPlugins !! kv.1 with
    | Some processor => processor (<["reporting_node" := NodeName]> kv.2) pbex
    | None => pbex
    end) processors pbex.

Definition next_attempt (e : Exec.t) : Exec.t :=
  Exec.mk (Exec.JobName e) (Exec.StartedAt e) (Exec.FinishedAt e) (Exec.Success e) ""
    (Exec.NodeName e) (Exec.Group e) (Exec.Attempt e + 1).

(** [ExecutionDone] up to the first call it waits for. *)
Definition ExecutionDone (now : time) (pbex : PbExecution.t) (s : Server.t)
    : option (Server.t * after_done) :=
  match GetJob (PbExecution.JobName pbex) (Server.db s) with
  | None => Some (s, DoneError DoneJobNotFound)
  | Some job =>
      let pbex := process (visit (Job.Processors job)) pbex in
      let? (db, _) := Apply sortByStart now (ExecutionDoneType pbex) (Server.db s) in
      let s := with_db db s in
      match GetJob (Job.Name job) db with
      | None => Some (s, DoneError DoneJobNotFound)
      | Some job =>
          let execution := NewExecutionFromProto pbex in
          if negb (Exec.Success execution) && (Exec.Attempt execution <? Job.Retries job + 1) then
            Some (s, DoneRetry (Job.Name job) (next_attempt execution))
          else
            match SendPostNotifications execution (GetExecutionGroup execution db) job with
            | Some err => Some (s, DoneError (DoneNotification err))
            | None => Some (s, DoneChain job)
            end
      end
  end.

(** The jobs that are run after it. *)
Definition followers (job : Job.t) : list string :=
  if String.eqb (Job.Status job) "success" then Job.DependentJobs job else [].

(** The end of [ExecutionDone]: an ephemeral job is deleted; the payload. *)
Definition ExecutionDone_end (now : time) (job : Job.t) (s : Server.t)
    : option (Server.t * option string) :=
  if Job.Ephemeral job && String.eqb (Job.Status job) "success" then
    let? (s, deleted) := grpc_DeleteJob sortByStart now (Job.Name job) s in
    Some (s, match deleted with Some _ => Some "deleted" | None => None end)
  else Some (s, Some "saved").

(** ** Running a job *)

Definition NewExecution (now : time) (jobName : string) : Exec.t :=
  Exec.mk jobName zero_time zero_time false "" "" now 1.

Section run.
Variable members : list Node.t.
Variable region : string.
Variable selectFunc : nat → list Node.t → nat.
Variable globalLock : bool.
Variable active : option (list PbExecution.t).

(** [Job.Run]: the execution, and the nodes it is sent to; an error is logged. *)
Definition Job_Run (now : time) (j : Job.t) (s : Server.t) : option (Server.t * (Exec.t * list Node.t)) :=
  let (db, runnable) := isRunnable now globalLock active j (Server.db s) in
  let s := with_db db s in
  let ex := NewExecution now (Job.Name j) in
  if runnable then
    let? (s, res) := Run sortByStart members region selectFunc now (Job.Name j) ex s in
    Some (s, (ex, match res with inr (_, nodes) => nodes | inl _ => [] end))
  else Some (s, (ex, [])).
End run.

(** ** Open calls *)

(** A call of [AgentRun] with this many attempts left after this one, before
    and after the node has started the execution; a node that reports an execution
    itself; and a call of [ExecutionDone] that waits for the calls of a retry, or of
    one dependent job, with the rest of these jobs to come. *)
Inductive task : Type :=
  | Calling (left : nat) (ex : PbExecution.t)
  | Following (left : nat) (ex ex0 : PbExecution.t)
  | Fallback (ex : PbExecution.t)
  | Retrying (calls : list task)
  | Chaining (job : Job.t) (rest : list string) (calls : list task).

Variable maxRetries : nat.
(** An upper bound for the members of the cluster. *)
Variable most : nat.

Definition calls_of (ex : Exec.t) (nodes : list Node.t) : list task :=
  (λ _, Calling maxRetries (execution_ToProto ex)) <$> nodes.

(** The same execution of the same job. *)
Definition same_run (e e' : PbExecution.t) : Prop :=
  PbExecution.JobName e' = PbExecution.JobName e ∧ PbExecution.Group e' = PbExecution.Group e ∧
  PbExecution.Attempt e' = PbExecution.Attempt e.

(** The calls after an execution has ended. *)
Inductive ended : Server.t → after_done → Server.t → list task → Prop :=
  | ended_error s err : ended s (DoneError err) s []
  | ended_retry s now members region selectFunc name ex s' res :
      (length members ≤ most)%nat →
      Run sortByStart members region selectFunc now name ex s = Some (s', res) →
      ended s (DoneRetry name ex) s'
        match res with inr (_, nodes) => [Retrying (calls_of ex nodes)] | inl _ => [] end
  | ended_chain s job : ended s (DoneChain job) s [Chaining job (followers job) []].

(** The node that got an attempt sends the end of the execution, or cannot, and
    reports it itself: nobody waits for that call. *)
Inductive falls_back (faults : bool) (ex : PbExecution.t) : list task → Prop :=
  | sent : falls_back faults ex []
  | not_sent : faults = true → falls_back faults ex [Fallback ex].

(** A step of a task, to the tasks it becomes and those that go on beside it.
    Without [faults] no call to a node fails. *)
Inductive task_step (faults : bool) : Server.t → task → Server.t → list task → list task → Prop :=
  | step_started now node start left ex s db res up :
      Apply sortByStart now (SetExecutionType (started start node ex)) (Server.db s) = Some (db, res) →
      falls_back faults (started start node ex) up →
      task_step faults s (Calling left ex) (with_db db s) [Following left (started start node ex) ex] up
  | step_again left ex s up : faults = true → falls_back faults ex up →
      task_step faults s (Calling (S left) ex) s [Calling left ex] up
  | step_again_followed left ex ex0 s : faults = true →
      task_step faults s (Following (S left) ex ex0) s [Calling left ex0] []
  | step_lost left ex s up : faults = true → falls_back faults ex up →
      task_step faults s (Calling left ex) s [] up
  | step_lost_followed left ex ex0 s : faults = true →
      task_step faults s (Following left ex ex0) s [] []
  | step_broken now left ex pbex s s1 after s2 ts up : faults = true → falls_back faults ex up →
      same_run ex pbex → ExecutionDone now pbex s = Some (s1, after) → ended s1 after s2 ts →
      task_step faults s (Calling left ex) s2 ts up
  | step_reported now left ex ex0 pbex s s1 after s2 ts : same_run ex pbex →
      ExecutionDone now pbex s = Some (s1, after) → ended s1 after s2 ts →
      task_step faults s (Following left ex ex0) s2 ts []
  (** The node's own call of [ExecutionDone] reaches the leader, or does not. *)
  | step_fallback now ex pbex s s1 after s2 ts : same_run ex pbex →
      ExecutionDone now pbex s = Some (s1, after) → ended s1 after s2 ts →
      task_step faults s (Fallback ex) s2 ts []
  | step_fallback_lost ex s : faults = true → task_step faults s (Fallback ex) s [] []
  | step_dependent_gone job name rest s : GetJob name (Server.db s) = None →
      task_step faults s (Chaining job (name :: rest) []) s [] []
  | step_dependent now members region selectFunc lock active job name dj rest s s' ex nodes :
      (length members ≤ most)%nat → GetJob name (Server.db s) = Some dj →
      Job_Run members region selectFunc lock active now dj s = Some (s', (ex, nodes)) →
      task_step faults s (Chaining job (name :: rest) []) s' [Chaining job rest (calls_of ex nodes)] []
  | step_chained now job s s' payload : ExecutionDone_end now job s = Some (s', payload) →
      task_step faults s (Chaining job [] []) s' [] []
  | step_retried s : task_step faults s (Retrying []) s [] []
  | step_in_retry l1 t l2 s s' ts up : task_step faults s t s' ts up →
      task_step faults s (Retrying (l1 ++ t :: l2)) s' [Retrying (l1 ++ ts ++ l2)] up
  | step_in_chain job rest l1 t l2 s s' ts up : task_step faults s t s' ts up →
      task_step faults s (Chaining job rest (l1 ++ t :: l2)) s' [Chaining job rest (l1 ++ ts ++ l2)] up.

(** A step of the cascade. *)
Inductive cascade_step (faults : bool) : Server.t * list task → Server.t * list task → Prop :=
  | cascade_task l1 t l2 s s' ts up : task_step faults s t s' ts up →
      cascade_step faults (s, l1 ++ t :: l2) (s', l1 ++ ts ++ l2 ++ up).

(** An open call, and the calls it waits for. *)
Inductive within (t : task) : task → Prop :=
  | within_self : within t t
  | within_retry t' calls : t' ∈ calls → within t t' → within t (Retrying calls)
  | within_chain t' job rest calls : t' ∈ calls → within t t' → within t (Chaining job rest calls).
End cascade.

(** ** The weight of a cascade *)

Section weight.
Variable maxRetries most : nat.
(** The jobs at the start, the lists of dependent jobs, and a ranking of them. *)
Variable jobs : gmap string Job.t.
Variable deps : string → list string.
Variable rank : string → nat.

Definition retries (name : string) : nat :=
  match jobs !! name with Some j => Z.to_nat (Job.Retries j) | None => 0%nat end.

(** The steps of a call with [n] attempts left, when what follows the end of an
    execution takes [after] steps: each attempt may be reported by its node, too. *)
Definition call_weight (n after : nat) : nat := ((n + 1) * (after + 2) + after)%nat.

(** The steps once an execution has ended that can be retried so many times, when
    what follows the job takes [chain] steps. *)
Fixpoint tries_weight (chain tries : nat) : nat :=
  match tries with
  | O => 2 + chain
  | S tries => 2 + call_weight maxRetries (tries_weight chain tries)
  end.

(** The same for attempt [k] of a job. *)
Definition after_weight (chain : nat) (name : string) (k : nat) : nat :=
  tries_weight chain (retries name + 1 - k).

(** The steps of a run of a job, on as many nodes as there are. *)
Definition run_weight_with (chain : nat) (name : string) : nat :=
  (1 + most * call_weight maxRetries (after_weight chain name 1))%nat.

(** The steps of the runs below a job, down to this depth. *)
Fixpoint chain_weight (depth : nat) (name : string) : nat :=
  match depth with
  | O => 0
  | S depth => sum_list_with (λ d, run_weight_with (chain_weight depth d) d) (deps name)
  end.

Definition chain (name : string) : nat := chain_weight (rank name) name.
Definition run_weight (name : string) : nat := run_weight_with (chain name) name.

Fixpoint weight (t : task) : nat :=
  match t with
  | Calling n ex =>
      call_weight n (after_weight (chain (PbExecution.JobName ex)) (PbExecution.JobName ex)
        (Z.to_nat (PbExecution.Attempt ex)))
  | Following n ex _ =>
      let after := after_weight (chain (PbExecution.JobName ex)) (PbExecution.JobName ex)
        (Z.to_nat (PbExecution.Attempt ex)) in n * (after + 2) + after + 1
  | Fallback ex =>
      after_weight (chain (PbExecution.JobName ex)) (PbExecution.JobName ex)
        (Z.to_nat (PbExecution.Attempt ex))
  | Retrying calls => 1 + sum_list_with weight calls
  | Chaining _ rest calls => 1 + sum_list_with run_weight rest + sum_list_with weight calls
  end%nat.

Definition total_weight (ts : list task) : nat := sum_list_with weight ts.

(** Every job ranks above those that depend on it, and the retries can be
    counted. *)
Definition ranked : Prop :=
  (∀ name j, jobs !! name = Some j → Job.Retries j + 1 < 2 ^ 32) ∧
  (∀ name d, d ∈ deps name → (rank d < rank name)%nat).

Lemma sum_list_le {A} (f g : A → nat) l : (∀ x, x ∈ l → (f x ≤ g x)%nat) →
  (sum_list_with f l ≤ sum_list_with g l)%nat.
Proof.
  induction l as [|x l IH]; intros Hl; cbn; [done|].
  assert (f x ≤ g x)%nat by (apply Hl; left). assert (sum_list_with f l ≤ sum_list_with g l)%nat; [|lia].
  apply IH. intros y Hy. apply Hl. by right.
Qed.

Lemma sum_list_submseteq {A} (f : A → nat) l k : l ⊆+ k → (sum_list_with f l ≤ sum_list_with f k)%nat.
Proof. intros [k' ->]%submseteq_Permutation. rewrite sum_list_with_app. lia. Qed.

Lemma call_weight_mono n a a' : (a ≤ a')%nat → (call_weight n a ≤ call_weight n a')%nat.
Proof. intros Ha. unfold call_weight. nia. Qed.

Lemma tries_weight_mono c c' tries : (c ≤ c')%nat → (tries_weight c tries ≤ tries_weight c' tries)%nat.
Proof.
  intros Hc. induction tries as [|tries IH]; cbn [tries_weight]; [lia|].
  by apply Nat.add_le_mono_l, call_weight_mono.
Qed.

Lemma tries_weight_chain c tries : (2 + c ≤ tries_weight c tries)%nat.
Proof. induction tries as [|tries IH]; cbn [tries_weight]; [done|]. unfold call_weight. nia. Qed.

Lemma run_weight_with_mono c c' name : (c ≤ c')%nat →
  (run_weight_with c name ≤ run_weight_with c' name)%nat.
Proof.
  intros Hc. unfold run_weight_with, after_weight. apply Nat.add_le_mono_l, Nat.mul_le_mono_l.
  by apply call_weight_mono, tries_weight_mono.
Qed.

Lemma chain_weight_mono depth depth' name : (depth ≤ depth')%nat →
  (chain_weight depth name ≤ chain_weight depth' name)%nat.
Proof.
  revert depth' name. induction depth as [|depth IH]; intros [|depth'] name Hd; cbn [chain_weight]; try lia.
  apply sum_list_le. intros d _. apply run_weight_with_mono, IH. lia.
Qed.

Lemma chain_deps name : ranked → (sum_list_with run_weight (deps name) ≤ chain name)%nat.
Proof.
  intros [_ Hr]. unfold chain. specialize (Hr name).
  destruct (rank name) as [|depth]; cbn [chain_weight].
  - destruct (deps name) as [|d l]; [done|]. specialize (Hr d ltac:(left)). lia.
  - apply sum_list_le. intros d Hd. apply run_weight_with_mono, chain_weight_mono.
    specialize (Hr d Hd). lia.
Qed.

Lemma weight_calls ex nodes : in_uint32 (Exec.Attempt ex) →
  total_weight (calls_of maxRetries ex nodes) =
    (length nodes * call_weight maxRetries (after_weight (chain (Exec.JobName ex)) (Exec.JobName ex)
       (Z.to_nat (Exec.Attempt ex))))%nat.
Proof.
  intros Hu. unfold total_weight, calls_of. induction nodes as [|n nodes IH]; [done|].
  cbn [fmap list_fmap sum_list_with length]. rewrite IH. cbn [weight execution_ToProto PbExecution.JobName
    PbExecution.Attempt]. rewrite uint32_id by done. lia.
Qed.

End weight.

(** ** A step is one lighter *)

Section settle.
Context `{Env, Engine, !EngineLaws, !TimezoneLaw}.
Variable sortByStart : list Exec.t → list Exec.t.
Variable ProcessorPlugins : gmap string (Config → PbExecution.t → PbExecution.t).
Variable NodeName : string.
Variable visit : gmap string Config → list (string * Config).
Variable SendPostNotifications : Exec.t → list Exec.t → Job.t → option string.
Variable maxRetries most : nat.
Variable jobs : gmap string Job.t.
Variable deps : string → list string.
Variable rank : string → nat.

(** Processors leave the identity of an execution alone. *)
Hypothesis processors_keep : ∀ k processor config e,
  ProcessorPlugins !! k = Some processor → same_run e (processor config e).
Hypothesis jobs_ranked : ranked jobs deps rank.

Abbreviation after_weight := (after_weight maxRetries jobs).
Abbreviation chain := (chain maxRetries most jobs deps rank).
Abbreviation run_weight := (run_weight maxRetries most jobs deps rank).
Abbreviation total_weight := (total_weight maxRetries most jobs deps rank).

(** The jobs of the store are some of those at the start, and their lists of
    dependent jobs have not grown. *)
Definition below (s : Server.t) : Prop :=
  server_ok sortByStart s ∧ configs (Server.db s) ⊆ jobs ∧ ∀ n, deps_in (Server.db s) n ⊆+ deps n.

(** Neither configurations nor lists have changed. *)
Definition steady (s s' : Server.t) : Prop :=
  server_ok sortByStart s' ∧ configs (Server.db s') = configs (Server.db s) ∧
  ∀ n, deps_in (Server.db s') n = deps_in (Server.db s) n.

(** Attempts count from one, and what waits for dependent jobs is a job of the
    store. *)
Inductive task_ok : task → Prop :=
  | ok_calling n ex : 1 ≤ PbExecution.Attempt ex < 2 ^ 32 → task_ok (Calling n ex)
  | ok_following n ex ex0 : 1 ≤ PbExecution.Attempt ex < 2 ^ 32 → same_run ex ex0 →
      task_ok (Following n ex ex0)
  | ok_fallback ex : 1 ≤ PbExecution.Attempt ex < 2 ^ 32 → task_ok (Fallback ex)
  | ok_retrying calls : Forall task_ok calls → task_ok (Retrying calls)
  | ok_chaining job rest calls :
      (∀ j, jobs !! Job.Name job = Some j → Job.Ephemeral j = Job.Ephemeral job) →
      Forall task_ok calls → task_ok (Chaining job rest calls).

Lemma same_run_refl e : same_run e e.
Proof. done. Qed.
Lemma same_run_trans e1 e2 e3 : same_run e1 e2 → same_run e2 e3 → same_run e1 e3.
Proof. intros (Ea & Eb & Ec) (Ed & Ee & Ef). split_and!; congruence. Qed.

Lemma process_keeps ps e : same_run e (process ProcessorPlugins NodeName ps e).
Proof.
  unfold process. revert e. induction ps as [|[k config] ps IH]; intros e; cbn [fold_left]; [done|].
  eapply same_run_trans; [|apply IH]. cbn.
  destruct (ProcessorPlugins !! k) as [P|] eqn:HP; [by eapply processors_keep|done].
Qed.

Lemma below_job s name p : below s → DB.jobs (Server.db s) !! name = Some p →
  PbJob.Name p = name ∧ jobs !! name = Some (config (NewJobFromProto p)) ∧
  retries jobs name = Z.to_nat (PbJob.Retries p) ∧ 0 ≤ PbJob.Retries p < 2 ^ 32 - 1 ∧
  PbJob.DependentJobs p ⊆+ deps name.
Proof.
  intros (Hs & Hc & Hd) Hp. destruct (reachable_ok _ _ (proj1 Hs)) as [Hdb _].
  pose proof (ok_keyed _ Hdb _ _ Hp) as Hn.
  assert (jobs !! name = Some (config (NewJobFromProto p))) as Hj.
  { eapply lookup_weaken; [|exact Hc]. by apply lookup_configs. }
  pose proof (proj1 jobs_ranked _ _ Hj) as Hr. cbn in Hr.
  split; [done|]. split; [done|]. split; [unfold retries; by rewrite Hj|]. split.
  { destruct (ok_stored _ Hdb _ _ Hp) as (_ & _ & Hst & _). unfold in_uint32 in Hst. lia. }
  specialize (Hd name). unfold deps_in in Hd. by rewrite Hp in Hd.
Qed.

Lemma steady_refl s : below s → steady s s.
Proof. by intros [? _]. Qed.

Lemma steady_trans s1 s2 s3 : steady s1 s2 → steady s2 s3 → steady s1 s3.
Proof. intros (_ & E1 & E2) (Hs & E3 & E4). split; [done|]. split; [congruence|]. intros n. by rewrite E4. Qed.

Lemma steady_below s s' : below s → steady s s' → below s'.
Proof.
  intros (_ & Hc & Hd) (Hs & E1 & E2). split; [done|]. rewrite E1. split; [done|].
  intros n. rewrite E2. apply Hd.
Qed.

Lemma steady_shape s db : below s → reachable sortByStart db → shape db = shape (Server.db s) →
  steady s (with_db db s).
Proof.
  intros [Hs _] Hr Hsh. pose proof (configs_shape _ _ Hsh) as Hc. apply shape_hierarchy in Hsh as [Hd _].
  split; [by apply server_ok_with_db|by split].
Qed.

Lemma below_Apply now c s db res : below s →
  match c with SetJobType _ | DeleteJobType _ => False | _ => True end →
  Apply sortByStart now c (Server.db s) = Some (db, res) → steady s (with_db db s).
Proof.
  intros Hb Hc E. pose proof (Apply_other_shape _ _ _ _ _ _ (proj1 (proj1 Hb)) E) as Ho.
  assert (reachable sortByStart db ∧ shape db = shape (Server.db s)) as [Hr Hsh] by (by destruct c).
  by apply steady_shape.
Qed.

Lemma sum_followers s name p : below s → DB.jobs (Server.db s) !! name = Some p →
  (sum_list_with run_weight (followers (NewJobFromProto p)) ≤ chain name)%nat.
Proof.
  intros Hb Hp. destruct (below_job _ _ _ Hb Hp) as (_ & _ & _ & _ & Hd).
  etransitivity; [|by apply chain_deps]. unfold followers.
  destruct (String.eqb _ _); [|cbn; lia]. by apply sum_list_submseteq.
Qed.

(** ** Execution done *)

Definition done_fits (pbex : PbExecution.t) (s : Server.t) (after : after_done) : Prop :=
  match after with
  | DoneError _ => True
  | DoneRetry name ex =>
      Exec.JobName ex = PbExecution.JobName pbex ∧ Exec.Attempt ex = PbExecution.Attempt pbex + 1 ∧
      PbExecution.Attempt pbex ≤ Z.of_nat (retries jobs (PbExecution.JobName pbex)) ∧
      PbExecution.Attempt pbex < 2 ^ 32 - 1
  | DoneChain job =>
      (sum_list_with run_weight (followers job) ≤ chain (PbExecution.JobName pbex))%nat ∧
      jobs !! Job.Name job = Some (config job)
  end.

Lemma ExecutionDone_below now pbex s s1 after : below s →
  ExecutionDone sortByStart ProcessorPlugins NodeName visit SendPostNotifications now pbex s = Some (s1, after) →
  steady s s1 ∧ done_fits pbex s1 after.
Proof.
  intros Hb. unfold ExecutionDone.
  destruct (GetJob _ _) as [job|] eqn:Hg; [|intros [= <- <-]; split; [by apply steady_refl|done]].
  apply GetJob_Some in Hg as (p & Hp & ->). destruct (below_job _ _ _ Hb Hp) as (Hname & _).
  pose proof (process_keeps (visit (Job.Processors (NewJobFromProto p))) pbex) as (Hn & _ & Ha).
  set (pbex' := process _ _ _ _) in *. clearbody pbex'.
  destruct (Apply _ _ _ _) as [[db res]|] eqn:E; [|done]. apply below_Apply in E as Hst; [|done|done].
  pose proof (steady_below _ _ Hb Hst) as Hb1.
  destruct (GetJob _ db) as [job|] eqn:Hg; [|by intros [= <- <-]].
  apply GetJob_Some in Hg as (q & Hq & ->). cbn [NewJobFromProto Job.Name] in Hq. rewrite Hname in Hq.
  destruct (below_job _ _ _ Hb1 Hq) as (Hqn & Hqj & Hret & Hlt & _).
  destruct (negb _ && _) eqn:Hretry.
  - intros [= <- <-]. split; [done|]. apply andb_true_iff in Hretry as [_ Hk%Z.ltb_lt].
    cbn in Hk |- *. rewrite Hret. rewrite Ha in *. split_and!; (done || lia).
  - destruct (SendPostNotifications _ _ _); intros [= <- <-]; [done|]. split; [done|].
    split; [by eapply sum_followers|]. cbn [NewJobFromProto Job.Name]. by rewrite Hqn.
Qed.

(** ** Runs *)

Lemma run_targets_length members region selectFunc job ex nodes :
  run_targets members region selectFunc job ex = inr nodes →
  (length nodes ≤ if (Exec.Attempt ex <=? 1)%Z then length members else 1)%nat.
Proof.
  unfold run_targets. destruct (Exec.Attempt ex <=? 1).
  - assert (length (getTargetNodes selectFunc region members (map_to_list (Job.Tags job))) ≤ length members)%nat
      as Hl.
    { unfold getTargetNodes. destruct (cleanTags _) as [bareTags card]. etransitivity.
      - apply submseteq_length, selectNodes_spec.
      - unfold getQualifyingNodes. rewrite filterArray_spec. apply List.filter_length_le. }
    destruct (getTargetNodes _ _ _ _); [done|]. by intros [= <-].
  - destruct (List.find _ members) as [m|]; [|done]. case_bool_decide; [|done]. intros [= <-]. cbn. lia.
Qed.

Lemma Run_below members region selectFunc now name ex s s' res : below s →
  Run sortByStart members region selectFunc now name ex s = Some (s', res) →
  steady s s' ∧ ∀ job nodes, res = inr (job, nodes) →
    (length nodes ≤ if (Exec.Attempt ex <=? 1)%Z then length members else 1)%nat.
Proof.
  intros Hb E. split.
  - destruct (Run_ok sortByStart members region selectFunc now name ex s (proj1 Hb)) as (s2 & r2 & E2 & Hs2 & Hd & Hc).
    rewrite E2 in E. injection E as <- _. by split.
  - intros job nodes ->. revert E. unfold Run. destruct (GetJob name _) as [j|]; [|done].
    assert (∀ (a b : Server.t) (j : Job.t), Some (a, match run_targets members region selectFunc j ex with
      | inl err => inl err | inr nodes => inr (j, nodes) end) = Some (b, inr (job, nodes)) →
      (length nodes ≤ if (Exec.Attempt ex <=? 1)%Z then length members else 1)%nat) as Hend.
    { intros a b j'. destruct (run_targets _ _ _ _ _) as [|ns] eqn:Ht; [done|]. intros [= _ _ <-].
      by eapply run_targets_length. }
    destruct (String.eqb _ _); [|apply Hend]. destruct (GetEntryJob _ _); [|done].
    destruct (applySetJob _ _ _ _) as [[? [?|]]|]; [done|apply Hend|done].
Qed.

Lemma Job_Run_below members region selectFunc lock active now name dj s s' ex nodes : below s →
  GetJob name (Server.db s) = Some dj →
  Job_Run sortByStart members region selectFunc lock active now dj s = Some (s', (ex, nodes)) →
  steady s s' ∧ Exec.JobName ex = name ∧ Exec.Attempt ex = 1 ∧ (length nodes ≤ length members)%nat.
Proof.
  intros Hb (p & Hp & ->)%GetJob_Some. destruct (below_job _ _ _ Hb Hp) as (Hname & _).
  unfold Job_Run.
  destruct (isRunnable_ok sortByStart now lock active (NewJobFromProto p) (Server.db s) (proj1 (proj1 Hb)))
    as [Hr Hs].
  destruct (isRunnable now lock active (NewJobFromProto p) (Server.db s)) as [db ok]. cbn [fst] in *.
  pose proof (steady_shape _ _ Hb Hr Hs) as Hst. pose proof (steady_below _ _ Hb Hst) as Hb1.
  destruct ok; [|intros [= <- <- <-]; cbn; split_and!; (done || lia)].
  destruct (Run _ _ _ _ _ _ _ _) as [[s2 res]|] eqn:E; [|done]. intros [= <- <- <-].
  destruct (Run_below _ _ _ _ _ _ _ _ _ Hb1 E) as [Hb2 Hl].
  split; [by eapply steady_trans|]. split_and!; [done..|].
  destruct res as [err|[job ns]]; [cbn; lia|]. exact (Hl job ns eq_refl).
Qed.
(** ** Steps *)

Lemma calls_ok ex nodes : 1 ≤ Exec.Attempt ex < 2 ^ 32 → Forall task_ok (calls_of maxRetries ex nodes).
Proof.
  intros Hk. apply Forall_fmap, Forall_forall. intros n _. constructor. cbn.
  by rewrite uint32_id by (unfold in_uint32; lia).
Qed.

Lemma ended_lighter pbex s1 after s2 ts : below s1 → 1 ≤ PbExecution.Attempt pbex →
  done_fits pbex s1 after → ended sortByStart maxRetries most s1 after s2 ts →
  steady s1 s2 ∧ Forall task_ok ts ∧
  (total_weight ts < after_weight (chain (PbExecution.JobName pbex)) (PbExecution.JobName pbex)
     (Z.to_nat (PbExecution.Attempt pbex)))%nat.
Proof.
  intros Hb Hk Hfit Hend. unfold Cascade.after_weight, Cascade.total_weight.
  pose proof (tries_weight_chain maxRetries (chain (PbExecution.JobName pbex))
    (retries jobs (PbExecution.JobName pbex) + 1 - Z.to_nat (PbExecution.Attempt pbex))) as Hge.
  destruct Hend as [s err|s now members region selectFunc name ex s' res Hm Hrun|s job]; cbn [done_fits] in Hfit.
  - split; [by apply steady_refl|]. split; [constructor|]. cbn [sum_list_with]. lia.
  - destruct Hfit as (Hname & Ha & Hle & Hlt).
    destruct (Run_below _ _ _ _ _ _ _ _ _ Hb Hrun) as [Hb2 Hl].
    split; [done|]. destruct res as [err|[job nodes]]; [split; [constructor|cbn [sum_list_with]; lia]|].
    split; [constructor; [|constructor]; constructor; apply calls_ok; lia|].
    specialize (Hl job nodes eq_refl). replace (Exec.Attempt ex <=? 1) with false in Hl by lia.
    pose proof (weight_calls maxRetries most jobs deps rank ex nodes ltac:(unfold in_uint32; lia)) as Hw.
    unfold Cascade.total_weight in Hw. cbn [sum_list_with weight]. rewrite Hw, Hname. unfold Cascade.after_weight.
    set (R := retries jobs _) in *. set (c := chain _) in *.
    replace (R + 1 - Z.to_nat (PbExecution.Attempt pbex))%nat
      with (S (R + 1 - Z.to_nat (Exec.Attempt ex)))%nat by lia. cbn [tries_weight].
    set (w := call_weight _ _). nia.
  - destruct Hfit as [Hf Hj]. split; [by apply steady_refl|]. split.
    + constructor; [|constructor]. constructor; [|constructor]. rewrite Hj. by intros j [= <-].
    + cbn [sum_list_with weight]. lia.
Qed.

Lemma total_weight_app l1 l2 : total_weight (l1 ++ l2) = (total_weight l1 + total_weight l2)%nat.
Proof. apply sum_list_with_app. Qed.

Lemma report_lighter now ex pbex s s1 after s2 ts : below s → 1 ≤ PbExecution.Attempt ex → same_run ex pbex →
  ExecutionDone sortByStart ProcessorPlugins NodeName visit SendPostNotifications now pbex s = Some (s1, after) →
  ended sortByStart maxRetries most s1 after s2 ts →
  steady s s2 ∧ Forall task_ok ts ∧
  (total_weight ts < after_weight (chain (PbExecution.JobName ex)) (PbExecution.JobName ex)
     (Z.to_nat (PbExecution.Attempt ex)))%nat.
Proof.
  intros Hb Hk (Hn & _ & Ha) E Hend. destruct (ExecutionDone_below _ _ _ _ _ Hb E) as [Hst Hfit].
  rewrite <- Hn, <- Ha in *. pose proof (steady_below _ _ Hb Hst) as Hb1.
  destruct (ended_lighter _ _ _ _ _ Hb1 Hk Hfit Hend) as (Hst2 & ? & ?).
  split; [by eapply steady_trans|by split].
Qed.

Lemma ExecutionDone_end_below now job s s' payload : below s →
  ExecutionDone_end sortByStart now job s = Some (s', payload) → below s' ∧ ∀ name,
    configs (Server.db s') !! name = configs (Server.db s) !! name ∨
    (configs (Server.db s') !! name = None ∧ name = Job.Name job ∧ Job.Ephemeral job = true ∧
     Job.Status job = "success").
Proof.
  intros Hb. unfold ExecutionDone_end.
  destruct (Job.Ephemeral job) eqn:He; cbn [andb]; [|intros [= <- _]; split; [done|by left]].
  destruct (String.eqb_spec (Job.Status job) "success") as [Hstat|_]; [|intros [= <- _]; split; [done|by left]].
  destruct (grpc_DeleteJob_ok sortByStart now (Job.Name job) s (proj1 Hb)) as (s2 & d & -> & Hs2 & Hd & Hc).
  intros [= <- _]. split.
  - split; [done|]. split; [|intros n; etransitivity; [apply Hd|apply Hb]]. rewrite Hc. destruct d; [|by apply Hb].
    etransitivity; [apply delete_subseteq|apply Hb].
  - intros name. rewrite Hc. destruct d; [|by left]. destruct (decide (name = Job.Name job)) as [->|Hn].
    + right. by rewrite lookup_delete_eq.
    + left. by apply lookup_delete_ne, not_eq_sym.
Qed.

(** What became of the configurations: only a call that found its job ephemeral and
    successful has deleted it. *)
Definition spares (t : task) (s s' : Server.t) : Prop := ∀ name,
  configs (Server.db s') !! name = configs (Server.db s) !! name ∨
  (configs (Server.db s') !! name = None ∧ ∃ job, within (Chaining job [] []) t ∧
     Job.Name job = name ∧ Job.Ephemeral job = true ∧ Job.Status job = "success").

Lemma steady_spares t s s' : steady s s' → spares t s s'.
Proof. intros (_ & E & _) name. left. by rewrite E. Qed.

Lemma spares_within t t' s s' : (∀ u, within u t → within u t') → spares t s s' → spares t' s s'.
Proof.
  intros Hw Hs name. destruct (Hs name) as [?|(? & job & ? & ? & ? & ?)]; [by left|right].
  split; [done|]. exists job. split_and!; auto.
Qed.

Lemma falls_back_lighter faults ex up : falls_back faults ex up → 1 ≤ PbExecution.Attempt ex < 2 ^ 32 →
  Forall task_ok up ∧
  (total_weight up ≤ after_weight (chain (PbExecution.JobName ex)) (PbExecution.JobName ex)
     (Z.to_nat (PbExecution.Attempt ex)))%nat.
Proof.
  intros [|_] Hk; unfold Cascade.total_weight; cbn [sum_list_with weight]; (split; [|lia]).
  - constructor.
  - constructor; [|constructor]. by constructor.
Qed.

(** What a step leaves open. *)
Definition lighter (t : task) (ts up : list task) : Prop :=
  Forall task_ok ts ∧ Forall task_ok up ∧ (total_weight ts + total_weight up < total_weight [t])%nat.

(** A call that reports an execution, with what the node may report itself. *)
Lemma reported_lighter faults now t ex pbex s s1 after s2 ts up : below s → 1 ≤ PbExecution.Attempt ex < 2 ^ 32 →
  same_run ex pbex →
  ExecutionDone sortByStart ProcessorPlugins NodeName visit SendPostNotifications now pbex s = Some (s1, after) →
  ended sortByStart maxRetries most s1 after s2 ts →
  falls_back faults ex up →
  (let A := after_weight (chain (PbExecution.JobName ex)) (PbExecution.JobName ex)
     (Z.to_nat (PbExecution.Attempt ex)) in A + total_weight up ≤ total_weight [t])%nat →
  below s2 ∧ spares t s s2 ∧ lighter t ts up.
Proof.
  intros Hb Hk Hsame E Hend Hup Hw.
  destruct (report_lighter now ex pbex s s1 after s2 ts Hb (proj1 Hk) Hsame E Hend) as (Hst & Hts & Hlt).
  destruct (falls_back_lighter _ _ _ Hup Hk) as [Hoku _].
  split; [by eapply steady_below|]. split; [by apply steady_spares|]. split; [done|]. split; [done|].
  cbn zeta in Hw. lia.
Qed.

Lemma in_calls_lighter l1 l2 t ts up : lighter t ts up → Forall task_ok (l1 ++ t :: l2) →
  Forall task_ok (l1 ++ ts ++ l2) ∧ Forall task_ok up ∧
  (total_weight (l1 ++ ts ++ l2) + total_weight up < total_weight (l1 ++ t :: l2))%nat.
Proof.
  intros (Hts & Hup & Hw) [Hl1 [_ Hl2]%Forall_cons]%Forall_app.
  split; [by rewrite !Forall_app|]. split; [done|].
  change (t :: l2) with ([t] ++ l2). rewrite !total_weight_app. lia.
Qed.

Lemma total_weight_1 t : total_weight [t] = weight maxRetries most jobs deps rank t.
Proof. apply Nat.add_0_r. Qed.
Lemma total_weight_nil : total_weight [] = 0%nat.
Proof. done. Qed.

Ltac weigh :=
  rewrite ?total_weight_1, ?total_weight_nil;
  cbn [weight sum_list_with started PbExecution.JobName PbExecution.Attempt] in *; unfold call_weight; lia.

Lemma task_step_lighter faults s t s' ts up :
  task_step sortByStart ProcessorPlugins NodeName visit SendPostNotifications maxRetries most faults s t s' ts up →
  below s → task_ok t → below s' ∧ spares t s s' ∧ lighter t ts up.
Proof.
  assert (∀ s t, below s → spares t s s) as Hrefl by (intros; by apply steady_spares, steady_refl).
  assert (∀ l1 (t : task) l2, task_ok (Retrying (l1 ++ t :: l2)) → task_ok t) as Ht1.
  { intros l1 t0 l2 Hok. inversion Hok as [| | |? Hcs|]; subst. by apply Forall_elt in Hcs. }
  induction 1 as [now node start n ex s db res up E Hup|n ex s up _ Hup|n ex ex0 s _|n ex s up _ Hup|n ex ex0 s _
    |now n ex pbex s s1 after s2 ts up _ Hup Hsame E Hend|now n ex ex0 pbex s s1 after s2 ts Hsame E Hend
    |now ex pbex s s1 after s2 ts Hsame E Hend|ex s _
    |job name rest s Hg|now members region sel lock active job name dj rest s s' ex nodes Hm Hg E
    |now job s s' payload E|s|l1 t l2 s s' ts up Hstep IH|job rest l1 t l2 s s' ts up Hstep IH];
    intros Hb Hok; inversion Hok as [? ? Hk|? ? ? Hk Hsm|? Hk|? Hcs|? ? ? Heph Hcs]; subst.
  - apply below_Apply in E; [|done|done]. destruct (falls_back_lighter _ _ _ Hup Hk) as [Hoku Hw].
    split; [by eapply steady_below|]. split; [by apply steady_spares|]. split; [constructor; [by constructor|constructor]|].
    split; [done|]. weigh.
  - destruct (falls_back_lighter _ _ _ Hup Hk) as [Hoku Hw].
    split; [done|]. split; [by apply Hrefl|]. split; [constructor; [by constructor|constructor]|]. split; [done|]. weigh.
  - destruct Hsm as (Hn & _ & Ha). split; [done|]. split; [by apply Hrefl|]. split.
    { constructor; [|constructor]. constructor. by rewrite Ha. }
    split; [constructor|]. rewrite !total_weight_1. cbn [weight]. rewrite Hn, Ha. weigh.
  - destruct (falls_back_lighter _ _ _ Hup Hk) as [Hoku Hw].
    split; [done|]. split; [by apply Hrefl|]. split; [constructor|]. split; [done|]. weigh.
  - split; [done|]. split; [by apply Hrefl|]. split; [constructor|]. split; [constructor|].
    weigh.
  - apply (reported_lighter faults now _ ex pbex s s1 after); try done. cbn zeta.
    destruct (falls_back_lighter _ _ _ Hup Hk) as [_ Hw]. weigh.
  - apply (reported_lighter faults now _ ex pbex s s1 after); try done; [constructor|]. cbn zeta. weigh.
  - apply (reported_lighter faults now _ ex pbex s s1 after); try done. constructor.
  - split; [done|]. split; [by apply Hrefl|]. split; [constructor|]. split; [constructor|].
    unfold Cascade.total_weight. cbn [sum_list_with weight]. unfold Cascade.after_weight.
    pose proof (tries_weight_chain maxRetries (chain (PbExecution.JobName ex))
      (retries jobs (PbExecution.JobName ex) + 1 - Z.to_nat (PbExecution.Attempt ex))). lia.
  - split; [done|]. split; [by apply Hrefl|]. split; [constructor|]. split; [constructor|].
    weigh.
  - destruct (Job_Run_below _ _ _ _ _ _ _ _ _ _ _ _ Hb Hg E) as (Hst & Hn & Ha & Hl).
    split; [by eapply steady_below|]. split; [by apply steady_spares|]. split.
    { constructor; [|constructor]. constructor; [done|]. apply calls_ok. lia. }
    split; [constructor|].
    pose proof (weight_calls maxRetries most jobs deps rank ex nodes ltac:(unfold in_uint32; lia)) as Hw.
    unfold Cascade.total_weight in *. cbn [sum_list_with weight]. rewrite Hw, Hn, Ha.
    unfold Cascade.run_weight at 2, run_weight_with. change (Z.to_nat 1) with 1%nat.
    set (w := call_weight _ _). nia.
  - destruct (ExecutionDone_end_below _ _ _ _ _ Hb E) as [Hb' Hsp]. split; [done|]. split.
    { intros name. destruct (Hsp name) as [?|(? & -> & ? & ?)]; [by left|right]. split; [done|].
      exists job. split_and!; [constructor|done..]. }
    split; [constructor|]. split; [constructor|]. weigh.
  - split; [done|]. split; [by apply Hrefl|]. split; [constructor|]. split; [constructor|].
    unfold Cascade.total_weight. cbn. lia.
  - destruct (IH Hb (Ht1 _ _ _ Hok)) as (Hb' & Hsp & Hl). split; [done|]. split.
    { eapply spares_within; [|exact Hsp]. intros u Hu. apply (within_retry _ t); [|done].
      apply elem_of_app. right. left. }
    destruct (in_calls_lighter l1 l2 t ts up Hl Hcs) as (H1' & H2' & H3').
    split; [constructor; [by constructor|constructor]|]. split; [done|]. unfold Cascade.total_weight in *.
    cbn [sum_list_with weight]. lia.
  - destruct (IH Hb (Ht1 _ _ _ (ok_retrying _ Hcs))) as (Hb' & Hsp & Hl). split; [done|]. split.
    { eapply spares_within; [|exact Hsp]. intros u Hu. apply (within_chain _ t); [|done].
      apply elem_of_app. right. left. }
    destruct (in_calls_lighter l1 l2 t ts up Hl Hcs) as (H1' & H2' & H3').
    split; [constructor; [by constructor|constructor]|]. split; [done|]. unfold Cascade.total_weight in *.
    cbn [sum_list_with weight]. lia.
Qed.

(** ** There is always a next step *)

Lemma ExecutionDone_total now pbex s : below s → ∃ s1 after,
  ExecutionDone sortByStart ProcessorPlugins NodeName visit SendPostNotifications now pbex s = Some (s1, after).
Proof.
  intros Hb. unfold ExecutionDone. destruct (GetJob _ _) as [job|]; [|eauto].
  set (pbex' := process _ _ _ _). clearbody pbex'.
  destruct (Apply_reachable sortByStart now (ExecutionDoneType pbex') (Server.db s) (proj1 (proj1 Hb)))
    as (db & res & -> & _).
  destruct (GetJob _ db) as [job'|]; [|eauto]. destruct (negb _ && _); [eauto|].
  destruct (SendPostNotifications _ _ _); eauto.
Qed.

Lemma ended_total s after : below s → ∃ s' ts, ended sortByStart maxRetries most s after s' ts.
Proof.
  intros Hb. destruct after as [err|name ex|job].
  - eexists _, _. constructor.
  - destruct (Run_ok sortByStart [] "" (λ _ _, O) 0 name ex s (proj1 Hb)) as (s' & res & E & _).
    eexists _, _. eapply (ended_retry _ _ _ s 0 [] "" (λ _ _, O)); [cbn; lia|exact E].
  - eexists _, _. constructor.
Qed.

Lemma Job_Run_total dj s : below s →
  ∃ s' ex nodes, Job_Run sortByStart [] "" (λ _ _, O) false None 0 dj s = Some (s', (ex, nodes)).
Proof.
  intros Hb. unfold Job_Run.
  destruct (isRunnable_ok sortByStart 0 false None dj (Server.db s) (proj1 (proj1 Hb))) as [Hr Hs].
  apply configs_shape in Hs. destruct (isRunnable 0 false None dj (Server.db s)) as [db ok]. cbn [fst] in *.
  destruct ok; [|eauto].
  destruct (Run_ok sortByStart [] "" (λ _ _, O) 0 (Job.Name dj) (NewExecution 0 (Job.Name dj)) (with_db db s))
    as (s' & res & -> & _); [|eauto]. by apply server_ok_with_db; [apply Hb|..].
Qed.

Lemma ExecutionDone_end_total now job s : below s →
  ∃ s' payload, ExecutionDone_end sortByStart now job s = Some (s', payload).
Proof.
  intros Hb. unfold ExecutionDone_end. destruct (_ && _); [|eauto].
  destruct (grpc_DeleteJob_ok sortByStart now (Job.Name job) s (proj1 Hb)) as (s2 & d & -> & _). eauto.
Qed.

Abbreviation task_step' := (task_step sortByStart ProcessorPlugins NodeName visit SendPostNotifications maxRetries most).
Abbreviation cascade_step' :=
  (cascade_step sortByStart ProcessorPlugins NodeName visit SendPostNotifications maxRetries most).

Lemma task_progress t s : below s → ∃ s' ts up, task_step' false s t s' ts up.
Proof.
  intros Hb. remember (weight maxRetries most jobs deps rank t) as w eqn:Hw.
  assert (weight maxRetries most jobs deps rank t ≤ w)%nat as Hle by lia.
  clear Hw. revert t Hle. induction w as [w IH] using (well_founded_induction Nat.lt_wf_0). intros t Hle.
  assert (∀ ex, ∃ s1 after s2 ts, ExecutionDone sortByStart ProcessorPlugins NodeName visit SendPostNotifications
    0 ex s = Some (s1, after) ∧ ended sortByStart maxRetries most s1 after s2 ts) as Hreport.
  { intros ex. destruct (ExecutionDone_total 0 ex s Hb) as (s1 & after & E).
    destruct (ExecutionDone_below _ _ _ _ _ Hb E) as [Hst _].
    destruct (ended_total s1 after (steady_below _ _ Hb Hst)) as (s2 & ts & Hend). by exists s1, after, s2, ts. }
  destruct t as [n ex|n ex ex0|ex|calls|job rest calls].
  - destruct (Apply_reachable sortByStart 0 (SetExecutionType (started 0 "" ex)) (Server.db s)
      (proj1 (proj1 Hb))) as (db & res & E & _). eexists _, _, _. eapply step_started; [done|constructor].
  - destruct (Hreport ex) as (s1 & after & s2 & ts & E & Hend). eexists _, _, _. by eapply step_reported.
  - destruct (Hreport ex) as (s1 & after & s2 & ts & E & Hend). eexists _, _, _. by eapply step_fallback.
  - destruct calls as [|t calls]; [eexists _, _, _; apply step_retried|]. cbn [weight sum_list_with] in Hle.
    destruct (IH (weight maxRetries most jobs deps rank t) ltac:(lia) t (le_n _)) as (s' & ts & up & Ht).
    eexists _, _, _. by eapply (step_in_retry _ _ _ _ _ _ _ _ []).
  - destruct calls as [|t calls].
    + destruct rest as [|d rest].
      * destruct (ExecutionDone_end_total 0 job s Hb) as (s' & payload & E). eexists _, _, _. by eapply step_chained.
      * destruct (GetJob d (Server.db s)) as [dj|] eqn:Hg; [|eexists _, _, _; by eapply step_dependent_gone].
        destruct (Job_Run_total dj s Hb) as (s' & ex & nodes & E). eexists _, _, _.
        eapply step_dependent; [|exact Hg|exact E]. cbn. lia.
    + cbn [weight sum_list_with] in Hle.
      destruct (IH (weight maxRetries most jobs deps rank t) ltac:(lia) t (le_n _)) as (s' & ts & up & Ht).
      eexists _, _, _. by eapply (step_in_chain _ _ _ _ _ _ _ _ _ _ []).
Qed.

(** An open call of a sound cascade waits for a job of the store. *)
Lemma within_ok t u : within t u → task_ok u → task_ok t.
Proof.
  induction 1 as [|t' calls Hin _ IH|t' job rest calls Hin _ IH]; [done|..]; intros Hok; apply IH.
  - inversion Hok as [| | |? Hcs|]; subst. by eapply (proj1 (Forall_forall _ _) Hcs).
  - inversion Hok as [| | | |? ? ? _ Hcs]; subst. by eapply (proj1 (Forall_forall _ _) Hcs).
Qed.

(** Only a call that found its job ephemeral and successful deletes it. *)
Definition deleted_by (ts : list task) (name : string) : Prop :=
  ∃ t job, t ∈ ts ∧ within (Chaining job [] []) t ∧ Job.Name job = name ∧ Job.Ephemeral job = true ∧
    Job.Status job = "success".

Lemma cascade_lighter faults st st' : cascade_step' faults st st' →
  below st.1 → Forall task_ok st.2 →
  (below st'.1 ∧ Forall task_ok st'.2 ∧ (total_weight st'.2 < total_weight st.2)%nat) ∧
  ∀ name, configs (Server.db st'.1) !! name = configs (Server.db st.1) !! name ∨
    (configs (Server.db st'.1) !! name = None ∧ deleted_by st.2 name).
Proof.
  destruct 1 as [l1 t l2 s s' ts up Ht]. cbn [fst snd]. intros Hb Hok.
  pose proof Hok as Hok'. apply Forall_app in Hok as [Hl1 Hok]. apply Forall_cons in Hok as [Hok Hl2].
  destruct (task_step_lighter _ _ _ _ _ _ Ht Hb Hok) as (Hb' & Hsp & Hts & Hup & Hw). split.
  - split; [done|]. split; [by rewrite !Forall_app|].
    change (t :: l2) with ([t] ++ l2). rewrite !total_weight_app. lia.
  - intros name. destruct (Hsp name) as [?|(? & job & ? & ? & ? & ?)]; [by left|right]. split; [done|].
    exists t, job. split_and!; [|done..]. apply elem_of_app. right. left.
Qed.

(** The jobs at the start are unchanged, or ephemeral and deleted. *)
Definition kept (s : Server.t) : Prop := ∀ name,
  configs (Server.db s) !! name = jobs !! name ∨
  (configs (Server.db s) !! name = None ∧ ∃ j, jobs !! name = Some j ∧ Job.Ephemeral j = true).

Lemma cascade_kept faults st st' : cascade_step' faults st st' →
  below st.1 → Forall task_ok st.2 → kept st.1 → kept st'.1.
Proof.
  intros Hstep Hb Hok Hk name. destruct (cascade_lighter _ _ _ Hstep Hb Hok) as [_ Hd].
  destruct (Hd name) as [->|[E (t & job & Hin & Hw & <- & He & _)]]; [apply Hk|].
  destruct (Hk (Job.Name job)) as [E'|[_ ?]]; [|by right].
  destruct (jobs !! Job.Name job) as [j|] eqn:Hj; [right|by left].
  split; [done|]. exists j. split; [done|].
  pose proof (within_ok _ _ Hw (proj1 (Forall_forall _ _) Hok t Hin)) as Hc.
  inversion Hc as [| | | |? ? ? Heph _]; subst. by rewrite (Heph j Hj).
Qed.

Lemma cascade_nsteps faults n st st' : nsteps (cascade_step' faults) n st st' →
  below st.1 → Forall task_ok st.2 → kept st.1 →
  below st'.1 ∧ Forall task_ok st'.2 ∧ kept st'.1 ∧ (n + total_weight st'.2 ≤ total_weight st.2)%nat.
Proof.
  induction 1 as [st|n st1 st2 st3 Hstep _ IH]; intros Hb Hok Hk; [split_and!; (done || lia)|].
  destruct (cascade_lighter _ _ _ Hstep Hb Hok) as [(Hb2 & Hok2 & Hw) _].
  pose proof (cascade_kept _ _ _ Hstep Hb Hok Hk) as Hk2.
  destruct (IH Hb2 Hok2 Hk2) as (Hb3 & Hok3 & Hk3 & Hw3). split_and!; (done || lia).
Qed.

Lemma cascade_progress st : below st.1 → st.2 ≠ [] → ∃ st', cascade_step' false st st'.
Proof.
  destruct st as [s [|t ts]]; [done|]. intros Hb _.
  destruct (task_progress t s Hb) as (s' & ts' & up & Ht). eexists. exact (cascade_task _ _ _ _ _ _ _ _ [] t ts s s' ts' up Ht).
Qed.

(** Running on without faults, everything is closed at some time. *)
Lemma cascade_ends st : below st.1 → Forall task_ok st.2 →
  ∃ n st', nsteps (cascade_step' false) n st st' ∧ st'.2 = [].
Proof.
  remember (total_weight st.2) as w eqn:Hw. revert st Hw.
  induction w as [w IH] using (well_founded_induction Nat.lt_wf_0). intros st -> Hb Hok.
  destruct (decide (st.2 = [])) as [E|E]; [exists O, st; split; [constructor|done]|].
  destruct (cascade_progress st Hb E) as [st1 Hstep].
  destruct (cascade_lighter _ _ _ Hstep Hb Hok) as [(Hb1 & Hok1 & Hlt) _].
  destruct (IH _ Hlt st1 eq_refl Hb1 Hok1) as (n & st' & Hn & Hnil).
  exists (S n), st'. split; [by econstructor|done].
Qed.
End settle.

(** ** Theorem *)

Section theorems.
Context `{Env, Engine, !EngineLaws, !TimezoneLaw}.
Variable sortByStart : list Exec.t → list Exec.t.
Variable ProcessorPlugins : gmap string (Config → PbExecution.t → PbExecution.t).
Variable NodeName : string.
Variable visit : gmap string Config → list (string * Config).
Variable SendPostNotifications : Exec.t → list Exec.t → Job.t → option string.
Variable maxRetries most : nat.

(** C7. What a run sets off settles: when the lists of dependent jobs have no
    cycles, processors leave the identity of an execution alone, and nothing else
    happens to the server, the calls that are open, in whatever order they go on and
    with whatever results, those of nodes that report by themselves among them,
    make at most as many steps as their weight, which counts retries, nodes and
    dependent jobs; none of them gets stuck, and without faults all are closed in
    the end.  Meanwhile the scheduler follows the store, and no configuration of a
    job changes, is added or disappears, but for ephemeral jobs, which only the end
    of a call deletes that found the job ephemeral and successful. *)
Theorem cascade_settles rank s ts :
  (∀ k processor config e, ProcessorPlugins !! k = Some processor → same_run e (processor config e)) →
  served sortByStart s → ranked (configs (Server.db s)) (deps_in (Server.db s)) rank →
  Forall (task_ok (configs (Server.db s))) ts →
  let cascade := cascade_step sortByStart ProcessorPlugins NodeName visit SendPostNotifications maxRetries most in
  (∀ faults n st, nsteps (cascade faults) n (s, ts) st →
     (n ≤ total_weight maxRetries most (configs (Server.db s)) (deps_in (Server.db s)) rank ts)%nat ∧
     server_ok sortByStart st.1 ∧
     (∀ name, configs (Server.db st.1) !! name = configs (Server.db s) !! name ∨
        (configs (Server.db st.1) !! name = None ∧
         ∃ j, configs (Server.db s) !! name = Some j ∧ Job.Ephemeral j = true)) ∧
     (∀ st' name, cascade faults st st' →
        configs (Server.db st'.1) !! name = configs (Server.db st.1) !! name ∨
        (configs (Server.db st'.1) !! name = None ∧ deleted_by st.2 name)) ∧
     (st.2 ≠ [] → ∃ st', cascade false st st')) ∧
  ∃ n st, nsteps (cascade false) n (s, ts) st ∧ st.2 = [].
Proof.
  intros Hp Hs%served_ok Hr Hok.
  assert (below sortByStart (configs (Server.db s)) (deps_in (Server.db s)) s) as Hb by by split_and!.
  assert (kept (configs (Server.db s)) s) as Hk by by left.
  split; [|by eapply (cascade_ends sortByStart ProcessorPlugins NodeName visit SendPostNotifications
    maxRetries most _ _ rank Hp Hr (s, ts))].
  intros faults n st Hn.
  destruct (cascade_nsteps _ _ _ _ _ _ _ _ _ rank Hp Hr _ _ _ _ Hn Hb Hok Hk) as (Hb' & Hok' & Hk' & Hw).
  cbn [snd] in Hw. split; [lia|]. split; [apply Hb'|]. split; [exact Hk'|]. split.
  - intros st' name Hstep. by apply (cascade_lighter _ _ _ _ _ _ _ _ _ rank Hp Hr _ _ _ Hstep Hb' Hok').
  - by apply (cascade_progress sortByStart ProcessorPlugins NodeName visit SendPostNotifications maxRetries most
      (configs (Server.db s)) (deps_in (Server.db s)) rank Hp Hr).
Qed.
End theorems.

(** ** Examples *)

Section demo.
#[local] Existing Instance demo_env.
#[local] Existing Instance demo_timezone.

Definition no_processors : gmap string (Config → PbExecution.t → PbExecution.t) := ∅.
Definition notified (e : Exec.t) (l : list Exec.t) (j : Job.t) : option string := None.
Definition ends (now : time) (e : Exec.t) (s : Server.t) : option (Server.t * after_done) :=
  ExecutionDone no_sort no_processors "leader" map_to_list notified now (execution_ToProto e) s.

(** A run of [a], which [b] depends on, on one node. *)
Definition demo_node : Node.t := Node.mk "n1" ∅ StatusAlive.
Definition demo_calls : list task := calls_of 1 (NewExecution 5 "a") [demo_node].
Definition demo_rank (name : string) : nat := if String.eqb name "a" then 1 else 0.

Lemma cascade_settles_witness :
  total_weight 1 1 (configs (Server.db demo_two)) (deps_in (Server.db demo_two)) demo_rank demo_calls = 43%nat ∧
  ∃ n st, nsteps (cascade_step no_sort no_processors "leader" map_to_list notified 1 1 false) n
    (demo_two, demo_calls) st ∧ st.2 = [].
Proof.
  split; [vm_compute; reflexivity|].
  apply (cascade_settles no_sort no_processors "leader" map_to_list notified 1 1 demo_rank demo_two demo_calls).
  - intros k P config e HP. unfold no_processors in HP. rewrite lookup_empty in HP. discriminate.
  - exact (proj1 (proj2 served_demo)).
  - split; [intros name j; revert name j; apply (bool_decide_unpack (map_Forall _ _)); vm_compute; exact I|].
    intros name d. unfold deps_in. destruct (DB.jobs (Server.db demo_two) !! name) as [p|] eqn:Hp;
      [|intros Hd; by apply elem_of_nil in Hd].
    revert d. apply Forall_forall. revert name p Hp.
    apply (bool_decide_unpack (map_Forall (λ name p,
      Forall (λ d, (demo_rank d < demo_rank name)%nat) (PbJob.DependentJobs p)) (DB.jobs (Server.db demo_two)))).
    vm_compute. exact I.
  - constructor; [|constructor]. constructor. vm_compute. split; [discriminate|reflexivity].
Defined.

(** A job with a retry, and one that depends on it. *)
Definition flaky (ephemeral : bool) : Job.t :=
  Job.mk "a" "a" "" "" "@daily" "" "" 0 0 None None false ∅ ∅ 1 [] "" ∅ "allow" "shell" ∅ "" 0 ephemeral
    None None.
Definition demo_flaky (ephemeral : bool) : Server.t :=
  after (jobCreateOrUpdateHandler no_sort 2 demo_b
    (after (jobCreateOrUpdateHandler no_sort 1 (flaky ephemeral) demo_leader))).

Definition attempt_at (start finish : time) (ok : bool) (attempt : Z) : Exec.t :=
  Exec.mk "a" start finish ok "" "n1" 7 attempt.

(** The first attempt fails and is retried; the retry succeeds. Both are in the
    group of the run, so the job has failed partially, and nothing follows. *)
Lemma successful_retry_is_not_followed :
  let r1 := ends 6000 (attempt_at 5000 6000 false 1) (demo_flaky false) in
  let r2 := ends 8000 (attempt_at 7000 8000 true 2) (after r1) in
  (λ r, match r.2 with DoneRetry name ex => Some (name, Exec.Attempt ex, Exec.Group ex) | _ => None end) <$> r1
    = Some (Some ("a", 2, 7)) ∧
  (λ r, match r.2 with DoneChain job => Some (Job.Status job, Job.DependentJobs job, followers job) | _ => None end)
    <$> r2 = Some (Some ("partially_failed", ["b"], [])).
Proof. vm_compute. split; reflexivity. Qed.

(** The same run without a failure is followed by [b]. *)
Lemma successful_run_is_followed :
  let r := ends 6000 (attempt_at 5000 6000 true 1) (demo_flaky false) in
  (λ r, match r.2 with DoneChain job => Some (Job.Status job, followers job) | _ => None end) <$> r
    = Some (Some ("success", ["b"])).
Proof. vm_compute. reflexivity. Qed.

(** An ephemeral job with a dependent job cannot be deleted: the call fails after
    every successful run. *)
Lemma ephemeral_parent_stays :
  let r := ends 6000 (attempt_at 5000 6000 true 1) (demo_flaky true) in
  (λ r, match r.2 with
        | DoneChain job =>
            Some ((λ x, (x.2, bool_decide (is_Some (DB.jobs (Server.db x.1) !! "a")))) <$>
              ExecutionDone_end no_sort 9000 job r.1)
        | _ => None
        end) <$> r
    = Some (Some (Some (None, true))).
Proof. vm_compute. reflexivity. Qed.

(** A notification that fails keeps the dependent jobs from running. *)
Lemma notification_error_stops :
  let r := ExecutionDone no_sort no_processors "leader" map_to_list (λ _ _ _, Some "smtp: refused") 6000
    (execution_ToProto (attempt_at 5000 6000 true 1)) (demo_flaky false) in
  (λ r, match r.2 with DoneError err => Some err | _ => None end) <$> r
    = Some (Some (DoneNotification "smtp: refused")).
Proof. vm_compute. reflexivity. Qed.
End demo.
