(* ===== verification/Attempts.v ===== *)
(** * Attempts: the wait before a retry, and executions by group

    [CalculateExponentialBackoff] of src/dkron/execution.go, which
    [ExecutionDone] waits for before it runs a failed execution again (file
    Cascade), and [GetGroupedExecutions] of src/dkron/store.go.  The theorem: how
    long the wait is, and that it never overflows. *)

From S2P Require Import Prelude GoCore Jobs Store Cascade.

(** ** Waiting *)

(** 500 ms, in nanoseconds. *)
Definition defaultRetryInterval : Z := 500000000.

(** [t.Sub(u)]: cut to the range of [time.Duration]. *)
Definition time_Sub (t u : time) : Z := Z.max (- 2 ^ 63) (Z.min (2 ^ 63 - 1) (t - u)).

(** [time.Duration(math.Log2(float64(n)) + float64(attempt))] for a natural number
    [n]: the sum is cut to an integer.  The logarithm of 0 is minus infinity, which
    is converted to the least integer; that of another number below [2 ^ 35] is
    cut to that of the power of two below it, as floats of this size are closer to
    each other than the logarithms of two numbers, for attempts below [2 ^ 20]. *)
Definition trunc_log2_plus (n attempt : Z) : Z :=
  if n =? 0 then - 2 ^ 63 else Z.log2 n + attempt.

Definition CalculateExponentialBackoff (now : time) (e : Exec.t) : Z :=
  if now <? Exec.StartedAt e then 0 else
  let diff := time_Sub now (Exec.StartedAt e) in
  int64 (trunc_log2_plus (Z.quot diff defaultRetryInterval) (Exec.Attempt e) * defaultRetryInterval).

(** ** Groups *)

Definition add_to_group (groups : gmap Z (list Exec.t)) (exec : Exec.t) : gmap Z (list Exec.t) :=
  <[Exec.Group exec := default [] (groups !! Exec.Group exec) ++ [exec]]> groups.

(** The executions by group, and the groups, the last one first; the order in which
    a map is walked does not matter, as the keys are sorted. *)
Definition GetGroupedExecutions (execs : list Exec.t) : gmap Z (list Exec.t) * list Z :=
  let groups := foldl add_to_group ∅ execs in
  (groups, merge_sort Z.ge (map_to_list groups).*1).

(** ** Lemmas *)

Lemma duration_steps diff : 0 ≤ diff < 2 ^ 63 → 0 ≤ diff `quot` defaultRetryInterval < 2 ^ 35.
Proof.
  intros Hd. unfold defaultRetryInterval. rewrite Z.quot_div_nonneg by lia. split; [apply Z.div_pos; lia|].
  apply Z.div_lt_upper_bound; lia.
Qed.

Lemma time_Sub_range t u : u ≤ t → 0 ≤ time_Sub t u < 2 ^ 63.
Proof. unfold time_Sub. lia. Qed.

(** The whole intervals an execution has been running for. *)
Definition intervals (now : time) (e : Exec.t) : Z :=
  Z.min (2 ^ 63 - 1) (now - Exec.StartedAt e) / defaultRetryInterval.

Lemma intervals_log2 now e : defaultRetryInterval ≤ now - Exec.StartedAt e →
  0 < intervals now e ∧ 0 ≤ Z.log2 (intervals now e) ≤ 34.
Proof.
  intros Hge. assert (0 < intervals now e) as Hpos.
  { apply Z.div_str_pos. unfold defaultRetryInterval in *. lia. }
  split; [done|]. split; [apply Z.log2_nonneg|]. apply Z.lt_succ_r, Z.log2_lt_pow2; [done|].
  apply Z.div_lt_upper_bound; unfold defaultRetryInterval; lia.
Qed.

Lemma backoff_short now e : now - Exec.StartedAt e < defaultRetryInterval →
  CalculateExponentialBackoff now e = 0.
Proof.
  intros Hlt. unfold CalculateExponentialBackoff. destruct (Z.ltb_spec now (Exec.StartedAt e)); [done|].
  rewrite Z.quot_small by (unfold time_Sub, defaultRetryInterval in *; lia). by vm_compute.
Qed.

Lemma backoff_long now e : 0 ≤ Exec.Attempt e ≤ 2 ^ 20 → defaultRetryInterval ≤ now - Exec.StartedAt e →
  CalculateExponentialBackoff now e = (Z.log2 (intervals now e) + Exec.Attempt e) * defaultRetryInterval.
Proof.
  intros Ha Hge. pose proof (intervals_log2 now e Hge) as [Hpos Hlog]. unfold CalculateExponentialBackoff.
  destruct (Z.ltb_spec now (Exec.StartedAt e)); [unfold defaultRetryInterval in *; lia|].
  assert (time_Sub now (Exec.StartedAt e) = Z.min (2 ^ 63 - 1) (now - Exec.StartedAt e)) as -> by (unfold time_Sub; lia).
  rewrite Z.quot_div_nonneg by (unfold defaultRetryInterval; lia). change (_ / _) with (intervals now e).
  unfold trunc_log2_plus. destruct (Z.eqb_spec (intervals now e) 0); [lia|].
  apply int64_id. unfold defaultRetryInterval in *. lia.
Qed.

(** C29. The wait before a retry: an execution that ran for less than half a second
    is retried at once; otherwise the wait is half a second for each attempt and for
    each doubling of the half seconds it ran.  So one attempt more makes it half a
    second longer, whatever the name of the function says, and it is never negative
    and never overflows. *)
Theorem backoff_linear now e : 0 ≤ Exec.Attempt e < 2 ^ 20 →
  let wait := CalculateExponentialBackoff now e in
  (now - Exec.StartedAt e < defaultRetryInterval → wait = 0) ∧
  (defaultRetryInterval ≤ now - Exec.StartedAt e →
     wait = (Z.log2 (intervals now e) + Exec.Attempt e) * defaultRetryInterval ∧
     CalculateExponentialBackoff now (next_attempt e) = wait + defaultRetryInterval) ∧
  0 ≤ wait ≤ (34 + Exec.Attempt e) * defaultRetryInterval.
Proof.
  intros Ha. cbn zeta. split; [apply backoff_short|]. split.
  - intros Hge. rewrite (backoff_long now (next_attempt e)), (backoff_long now e) by (cbn [next_attempt Exec.Attempt]; done || lia).
    split; [done|]. change (intervals now (next_attempt e)) with (intervals now e). cbn [next_attempt Exec.Attempt]. lia.
  - destruct (Z.lt_ge_cases (now - Exec.StartedAt e) defaultRetryInterval) as [Hlt|Hge].
    + rewrite backoff_short by done. unfold defaultRetryInterval. lia.
    + pose proof (intervals_log2 now e Hge). rewrite backoff_long by (done || lia). unfold defaultRetryInterval. lia.
Qed.

(** An execution that ran for five minutes and failed. *)
Lemma backoff_linear_witness :
  let e := Exec.mk "a" 0 300000000000 false "" "n" 0 2 in
  CalculateExponentialBackoff 300000000000 e = 5500000000 ∧
  CalculateExponentialBackoff 300000000000 (next_attempt e) = 6000000000.
Proof.
  intros e. destruct (backoff_linear 300000000000 e) as (_ & H & _); [by cbn|].
  destruct H as [-> ->]; [by vm_compute|]. split; vm_compute; reflexivity.
Defined.

(** Grouping keeps the executions of each group in their order, and lists every
    group once, the last one first. *)
Lemma foldl_add_to_group execs groups g :
  default [] (foldl add_to_group groups execs !! g) =
    default [] (groups !! g) ++ List.filter (λ e, Exec.Group e =? g) execs ∧
  (is_Some (foldl add_to_group groups execs !! g) ↔ is_Some (groups !! g) ∨ ∃ e, e ∈ execs ∧ Exec.Group e = g).
Proof.
  revert groups. induction execs as [|e execs IH]; intros groups; cbn [foldl List.filter].
  { rewrite app_nil_r. split; [done|]. set_solver. }
  destruct (IH (add_to_group groups e)) as [-> ->]. unfold add_to_group.
  destruct (Z.eqb_spec (Exec.Group e) g) as [Hg|Hne].
  - rewrite Hg, !lookup_insert_eq. simpl. rewrite <- app_assoc. split; [done|]. split; [|by eauto].
    intros _. right. exists e. split; [left|done].
  - rewrite !lookup_insert_ne by done. split; [done|]. split; intros [?|(x & Hx & ?)]; auto; right; exists x.
    + split; [by right|done].
    + by apply elem_of_cons in Hx as [->|Hx].
Qed.

Lemma GetGroupedExecutions_spec execs :
  let (groups, byGroup) := GetGroupedExecutions execs in
  (∀ g, default [] (groups !! g) = List.filter (λ e, Exec.Group e =? g) execs) ∧
  (∀ g, g ∈ byGroup ↔ ∃ e, e ∈ execs ∧ Exec.Group e = g) ∧ NoDup byGroup ∧ StronglySorted Z.ge byGroup.
Proof.
  unfold GetGroupedExecutions.
  assert (merge_sort Z.ge (map_to_list (foldl add_to_group ∅ execs)).*1 ≡ₚ
    (map_to_list (foldl add_to_group ∅ execs)).*1) as Hp by apply merge_sort_Permutation.
  split_and!.
  - intros g. destruct (foldl_add_to_group execs ∅ g) as [-> _]. by rewrite lookup_empty.
  - intros g. rewrite Hp, list_elem_of_fmap. destruct (foldl_add_to_group execs ∅ g) as [_ Hg].
    rewrite lookup_empty in Hg. split.
    + intros ([g' l] & -> & Hl%elem_of_map_to_list). destruct Hg as [Hg _].
      destruct Hg as [[? [=]]|He]; [by exists l|exact He].
    + intros He. destruct Hg as [_ [l Hl]]; [by right|]. exists (g, l). split; [done|]. by apply elem_of_map_to_list.
  - rewrite Hp. apply NoDup_fst_map_to_list.
  - apply StronglySorted_merge_sort; [intros ???; lia|intros ??; lia].
Qed.
