(* ===== verification/Plugins.v ===== *)
(** * Plugins: finding them, and what processors do with an output

    src/cmd/plugins.go finds the plugins by the names of their files; the four
    processors under src/builtin/bins handle the output of an execution on the
    leader, before it is stored.  What a processor writes is a value.  One process
    of a plugin serves all calls, and keeps the settings of a call in fields of its
    own.  The theorem: which output each processor of a job is given, and which one
    is stored. *)

From S2P Require Import Prelude GoCore GoText Jobs Store Fsm Running Nodes Scheduler Server Streams Cascade.

(** ** Finding plugins *)

(** [path.Base] of a path that ends in a name. *)
Definition path_Base (file : string) : string :=
  match cut_last "/" file with Some (_, base) => base | None => file end.

Definition TrimSuffix (s suffix : string) : string :=
  match strip_prefix (rev_string suffix) (rev_string s) with Some r => rev_string r | None => s end.

(** The plugin's name; [None] is [false]. *)
Definition getPluginName (file : string) : option string :=
  match cut "-" (path_Base file) with
  | Some (_, rest) =>
      match cut "-" rest with Some (_, name) => Some (TrimSuffix name ".exe") | None => None end
  | None => None
  end.

Definition embededPlugins : list string := ["shell"; "http"].

Section discover.
Context {Processor Executor : Type}.
(** The files [plugin.Discover] finds of a kind in a directory, or its error; the
    path of the executable, when it is known; and [pluginFactory] for each kind. *)
Variable Discover : string → string → string + list string.
Variable pluginDir : string.
Variable Executable : option string.
Variable Dir : string → string.
Variable newProcessor : string → string + Processor.
Variable newExecutor : string → list string → string + Executor.

(** One kind of plugins from their files; the file found last wins. *)
Fixpoint load {A} (factory : string → string + A) (files : list string) (table : gmap string A)
    : string + gmap string A :=
  match files with
  | [] => inr table
  | file :: files =>
      match getPluginName file with
      | None => load factory files table
      | Some name =>
          match factory file with
          | inl err => inl err
          | inr p => load factory files (<[name := p]> table)
          end
      end
  end.

Fixpoint load_embeded (exePath : string) (names : list string) (table : gmap string Executor)
    : string + gmap string Executor :=
  match names with
  | [] => inr table
  | name :: names =>
      match newExecutor exePath [name] with
      | inl err => inl err
      | inr p => load_embeded exePath names (<[name := p]> table)
      end
  end.

(** The files of processors and of executors, those next to the executable last. *)
Definition discover_files : string + list string * list string :=
  match Discover "dkron-processor-*" pluginDir with
  | inl err => inl err
  | inr processors =>
      match Discover "dkron-executor-*" pluginDir with
      | inl err => inl err
      | inr executors =>
          match Executable with
          | None => inr (processors, executors)
          | Some exePath =>
              match Discover "dkron-processor-*" (Dir exePath) with
              | inl err => inl err
              | inr p =>
                  match Discover "dkron-executor-*" (Dir exePath) with
                  | inl err => inl err
                  | inr e => inr (processors ++ p, executors ++ e)
                  end
              end
          end
      end
  end.

Definition DiscoverPlugins : string + gmap string Processor * gmap string Executor :=
  match discover_files with
  | inl err => inl err
  | inr (processors, executors) =>
      match load newProcessor processors ∅ with
      | inl err => inl err
      | inr ps =>
          match load (λ file, newExecutor file []) executors ∅ with
          | inl err => inl err
          | inr es =>
              match load_embeded (default "" Executable) embededPlugins es with
              | inl err => inl err
              | inr es => inr (ps, es)
              end
          end
      end
  end.
End discover.

(** ** Processors *)

(** What a processor leaves outside of the program. *)
Inductive written : Type :=
  | File (path content : string)
  | Printed (stderr : bool) (text : string)
  | Syslog (text : string)
  | Fluent (host job_name message : string).

(** The settings a processor reads: [parseConfig] of each of them. *)
Definition parse_forward (config : Config) : bool :=
  match ParseBool (default "" (config !! "forward")) with Some forward => forward | None => false end.

Definition defaultLogDir : string := "/var/log/dkron".
Definition parse_logDir (config : Config) : string :=
  let logDir := default "" (config !! "log_dir") in
  if negb (String.eqb logDir "") then logDir else defaultLogDir.

Definition with_output (output : string) (e : PbExecution.t) : PbExecution.t :=
  PbExecution.mk (PbExecution.JobName e) (PbExecution.Success e) output (PbExecution.NodeName e)
    (PbExecution.Group e) (PbExecution.Attempt e) (PbExecution.StartedAt e) (PbExecution.FinishedAt e).

Definition pb_Key (e : PbExecution.t) : string := pretty (int64 (PbExecution.StartedAt e)) +:+ "-" +:+ PbExecution.NodeName e.

Definition filePath (logDir : string) (e : PbExecution.t) : string := logDir +:+ "/" +:+ pb_Key e +:+ ".log".

Definition forwarded (forward : bool) (instead : string) (e : PbExecution.t) : PbExecution.t :=
  if negb forward then with_output instead e else e.

(** That the file cannot be written is logged only. *)
Definition FilesOutput_Process (config : Config) (e : PbExecution.t) : list written * PbExecution.t :=
  let path := filePath (parse_logDir config) e in
  ([File path (PbExecution.Output e)], forwarded (parse_forward config) path e).

Definition newline : string := bytes [10%nat].
Definition LogOutput_Process (config : Config) (e : PbExecution.t) : list written * PbExecution.t :=
  let print := Printed (negb (PbExecution.Success e)) in
  ([print ("----- BEGIN OUTPUT job=" +:+ PbExecution.JobName e +:+ " execution=" +:+ pb_Key e +:+ " -----" +:+ newline);
    print (PbExecution.Output e); print (newline +:+ "----- END OUTPUT -----" +:+ newline)],
   forwarded (parse_forward config) "Output in dkron log" e).

(** [logger] tells whether [NewLogger] succeeds. *)
Definition SyslogOutput_Process (logger : bool) (config : Config) (e : PbExecution.t) : list written * PbExecution.t :=
  if negb logger then ([], e) else
  ([Syslog (PbExecution.Output e)], forwarded (parse_forward config) "Output in syslog" e).

Definition FluentOutput_Process (config : Config) (e : PbExecution.t) : list written * PbExecution.t :=
  ([Fluent (PbExecution.NodeName e) (PbExecution.JobName e) (PbExecution.Output e)],
   forwarded (parse_forward config) "Output sent to Fluent" e).

Definition Plugin : Type := Config → PbExecution.t → list written * PbExecution.t.

(** The processors of the repository, by the names their files give them. *)
Definition processors (logger : bool) : gmap string Plugin :=
  list_to_map ((λ p, (default "" (getPluginName p.1), p.2)) <$>
    [("dkron-processor-files", FilesOutput_Process); ("dkron-processor-log", LogOutput_Process);
     ("dkron-processor-syslog", SyslogOutput_Process logger); ("dkron-processor-fluent", FluentOutput_Process)]).

(** The table the leader calls them through. *)
Definition ProcessorPlugins (logger : bool) : gmap string (Config → PbExecution.t → PbExecution.t) :=
  (λ (p : Plugin) config e, (p config e).2) <$> processors logger.

(** What the processors of a job write: the leader gives each of them the
    execution the one before returned. *)
Fixpoint processor_writes (logger : bool) (NodeName : string) (visited : list (string * Config)) (e : PbExecution.t)
    : list (string * list written) :=
  match visited with
  | [] => []
  | (k, config) :: visited =>
      match (processors logger !! k : option Plugin) with
      | Some p =>
          let config : Config := <["reporting_node" := NodeName]> config in
          let (ws, e) := p config e in
          (k, ws) :: processor_writes logger NodeName visited e
      | None => processor_writes logger NodeName visited e
      end
  end.

(** ** Lemmas *)

(** What a processor puts in the place of the output, when it does. *)
Definition replaces (logger : bool) (e : PbExecution.t) (kv : string * Config) : option string :=
  let (k, config) := kv in
  let instead := if String.eqb k "files" then Some (filePath (parse_logDir config) e)
    else if String.eqb k "log" then Some "Output in dkron log"
    else if String.eqb k "syslog" then if logger then Some "Output in syslog" else None
    else if String.eqb k "fluent" then Some "Output sent to Fluent" else None in
  if parse_forward config then None else instead.

(** The output that is left after some processors. *)
Definition left_output (logger : bool) (e : PbExecution.t) (visited : list (string * Config)) : string :=
  default (PbExecution.Output e) (last (omap (replaces logger e) visited)).

(** An execution with another output. *)
Inductive same_but_output : PbExecution.t → PbExecution.t → Prop :=
  | same_but_output_intro e out : same_but_output e (with_output out e).

Lemma with_output_id e : with_output (PbExecution.Output e) e = e.
Proof. by destruct e. Qed.
Lemma with_output_twice a b e : with_output a (with_output b e) = with_output a e.
Proof. done. Qed.

Lemma same_but_output_run e e' : same_but_output e e' → same_run e e'.
Proof. by intros []. Qed.

Lemma replaces_output logger out e kv : replaces logger (with_output out e) kv = replaces logger e kv.
Proof. done. Qed.

Lemma processors_cases logger k p : processors logger !! k = Some p →
  (k = "files" ∧ p = FilesOutput_Process) ∨ (k = "log" ∧ p = LogOutput_Process) ∨
  (k = "syslog" ∧ p = SyslogOutput_Process logger) ∨ (k = "fluent" ∧ p = FluentOutput_Process).
Proof. intros Hp%elem_of_list_to_map_2. cbn in Hp. vm_compute getPluginName in Hp. set_solver. Qed.

Lemma processors_None logger k e config : processors logger !! k = None → replaces logger e (k, config) = None.
Proof.
  intros Hp%not_elem_of_list_to_map_2. vm_compute in Hp. unfold replaces.
  rewrite !(proj2 (String.eqb_neq k _)) by set_solver. by destruct (parse_forward config).
Qed.

Lemma Config_insert_ne (config : Config) (k k' v : string) : k ≠ k' → <[k := v]> config !! k' = config !! k'.
Proof. apply (lookup_insert_ne (M := gmap string)). Qed.

(** The name the leader adds changes no setting that is read. *)
Lemma reporting_node_unread (node : string) (config : Config) :
  parse_forward (<["reporting_node" := node]> config) = parse_forward config ∧
  parse_logDir (<["reporting_node" := node]> config) = parse_logDir config.
Proof. unfold parse_forward, parse_logDir. by rewrite !Config_insert_ne. Qed.

Lemma processor_output logger k (p : Plugin) config e : processors logger !! k = Some p →
  (p config e).2 = with_output (default (PbExecution.Output e) (replaces logger e (k, config))) e.
Proof.
  intros [[-> ->]|[[-> ->]|[[-> ->]|[-> ->]]]]%processors_cases; unfold replaces; cbn [String.eqb Ascii.eqb Bool.eqb];
    unfold FilesOutput_Process, LogOutput_Process, SyslogOutput_Process, FluentOutput_Process, forwarded.
  all: try (destruct logger; cbn [negb]); cbn [snd]; destruct (parse_forward config); cbn [negb default];
    by rewrite ?with_output_id.
Qed.

(** One processor of the table, as the leader calls it. *)
Lemma process_cons logger node k config visited e :
  process (ProcessorPlugins logger) node ((k, config) :: visited) e =
  process (ProcessorPlugins logger) node visited
    (with_output (default (PbExecution.Output e) (replaces logger e (k, config))) e).
Proof.
  unfold process. cbn [fold_left fst snd]. f_equal. unfold ProcessorPlugins. rewrite lookup_fmap.
  destruct (processors logger !! k) as [p|] eqn:Hp.
  - etrans; [exact (processor_output logger k p (<["reporting_node" := node]> config : Config) e Hp)|].
    unfold replaces.
    destruct (reporting_node_unread node config) as [-> ->]. done.
  - rewrite processors_None by done. symmetry. apply with_output_id.
Qed.

Lemma left_output_cons logger e kv visited :
  left_output logger (with_output (default (PbExecution.Output e) (replaces logger e kv)) e) visited =
  left_output logger e (kv :: visited).
Proof.
  unfold left_output. change (kv :: visited) with ([kv] ++ visited). rewrite omap_app.
  assert (omap (replaces logger (with_output (default (PbExecution.Output e) (replaces logger e kv)) e)) visited
    = omap (replaces logger e) visited) as -> by done.
  cbn [omap list_omap]. destruct (replaces logger e kv) as [r|]; cbn [app default PbExecution.Output with_output]; [|done].
  rewrite last_cons. by destruct (last _).
Qed.

Lemma process_output logger node visited : ∀ e,
  process (ProcessorPlugins logger) node visited e = with_output (left_output logger e visited) e.
Proof.
  induction visited as [|[k config] visited IH]; intros e; [by destruct e|].
  by rewrite process_cons, IH, left_output_cons.
Qed.

Lemma processor_writes_app logger node pre post : ∀ e,
  processor_writes logger node (pre ++ post) e =
  processor_writes logger node pre e ++
    processor_writes logger node post (process (ProcessorPlugins logger) node pre e).
Proof.
  induction pre as [|[k config] pre IH]; intros e; [done|]. cbn [app processor_writes]. rewrite process_cons.
  destruct (processors logger !! k) as [p|] eqn:Hp.
  - assert ((p (<["reporting_node" := node]> config : Config) e).2 =
      with_output (default (PbExecution.Output e) (replaces logger e (k, config))) e) as He.
    { rewrite (processor_output logger k p) by done. unfold replaces.
      by destruct (reporting_node_unread node config) as [-> ->]. }
    destruct (p _ e) as [ws e']. cbn in He. subst e'. cbn [app]. by rewrite IH.
  - rewrite processors_None by done. cbn [default]. by rewrite with_output_id, IH.
Qed.

(** The processors satisfy what [Cascade] asks of them. *)
Lemma processors_same_run logger k processor config e :
  ProcessorPlugins logger !! k = Some processor → same_run e (processor config e).
Proof.
  unfold ProcessorPlugins. rewrite lookup_fmap. destruct (processors logger !! k) as [p|] eqn:Hp; [|done].
  intros [= <-]. cbv beta. rewrite (processor_output logger k p config e Hp). by apply same_but_output_run.
Qed.

(** While all forward, each of them is given the execution as it is. *)
Lemma forwards_nothing logger e kv : parse_forward kv.2 = true → replaces logger e kv = None.
Proof. destruct kv as [k config]. unfold replaces. cbn [snd]. by intros ->. Qed.

Lemma forwards_output logger e visited : Forall (λ kv, parse_forward kv.2 = true) visited →
  left_output logger e visited = PbExecution.Output e.
Proof.
  intros Hall. unfold left_output. assert (omap (replaces logger e) visited = []) as ->; [|done].
  induction Hall as [|kv l Hkv Hall IH]; [done|]. cbn. by rewrite forwards_nothing, IH.
Qed.

Definition writes_alone (logger : bool) (node : string) (e : PbExecution.t) (kv : string * Config)
    : list (string * list written) := processor_writes logger node [kv] e.

Lemma forwards_writes logger node e visited : Forall (λ kv, parse_forward kv.2 = true) visited →
  processor_writes logger node visited e = visited ≫= writes_alone logger node e.
Proof.
  induction visited as [|kv visited IH]; [done|]. intros [Hkv Hall]%Forall_cons.
  change (kv :: visited) with ([kv] ++ visited). rewrite processor_writes_app, process_output.
  rewrite forwards_output, with_output_id, IH by auto. done.
Qed.

(** ** Theorem *)

(** The processors of a job change nothing but the output of an execution:
    each of them is given the execution with the output the ones before it left,
    which is the original while all of them forward, else what the last one that
    does not forward puts in its place; and so is the one that is stored.  When
    all of them forward, each gets and leaves the original output, in whatever
    order they are visited. *)
Lemma processors_chain (logger : bool) (node : string) (visited : list (string * Config)) (e : PbExecution.t) :
  process (ProcessorPlugins logger) node visited e = with_output (left_output logger e visited) e ∧
  (∀ pre k config post (p : Plugin), visited = pre ++ (k, config) :: post → processors logger !! k = Some p →
     ∃ before after, processor_writes logger node visited e = before ++
       (k, (p (<["reporting_node" := node]> config : Config) (with_output (left_output logger e pre) e)).1) :: after) ∧
  (Forall (λ kv, parse_forward kv.2 = true) visited → ∀ visited', visited ≡ₚ visited' →
     process (ProcessorPlugins logger) node visited' e = e ∧
     processor_writes logger node visited' e ≡ₚ processor_writes logger node visited e).
Proof.
  split; [apply process_output|]. split.
  - intros pre k config post p -> Hp. rewrite processor_writes_app, process_output.
    cbn [processor_writes]. rewrite Hp. destruct (p _ _) as [ws e'] eqn:E. by eexists _, _.
  - intros Hall visited' Hperm. rewrite process_output, !forwards_writes, forwards_output by (done || by rewrite <- Hperm).
    split; [apply with_output_id|]. by rewrite Hperm.
Qed.

(** *** The order of processors *)

(** Go visits a map in any order: a job with two processors that do not forward
    stores the output in a file, or the placeholder of the other one. *)
Lemma order_decides_output :
  let job_processors : list (string * Config) := [("log", ∅); ("files", ∅)] in
  let e := PbExecution.mk "a" true "out" "n1" 0 1 5 6 in
  processor_writes true "n1" (reverse job_processors) e !! 0%nat =
    Some ("files", [File "/var/log/dkron/5-n1.log" "out"]) ∧
  processor_writes true "n1" job_processors e !! 1%nat =
    Some ("files", [File "/var/log/dkron/5-n1.log" "Output in dkron log"]).
Proof. split; vm_compute; reflexivity. Qed.

(** ** Calls at the same time *)

(** The process of a plugin has one [forward] for all the calls it serves:
    [parseConfig] sets it, and [Process] reads it afterwards. *)
Module Served.
Inductive call : Type :=
  | Waiting (config : Config) (e : PbExecution.t)
  | Parsed (config : Config) (e : PbExecution.t)
  | Answered (config : Config) (e result : PbExecution.t).
End Served.
Import Served.

Inductive serve (instead : string) : bool * list call → bool * list call → Prop :=
  | serve_parse forward config e before after :
      serve instead (forward, before ++ Waiting config e :: after)
        (parse_forward config, before ++ Parsed config e :: after)
  | serve_answer forward config e before after :
      serve instead (forward, before ++ Parsed config e :: after)
        (forward, before ++ Answered config e (forwarded forward instead e) :: after).

(** A call is between the two. *)
Definition is_parsed (c : call) : bool := match c with Parsed _ _ => true | _ => false end.

(** An answer is the one the settings of the call ask for, and a call that has
    parsed its settings finds them. *)
Definition call_ok (instead : string) (forward : bool) (c : call) : Prop :=
  match c with
  | Waiting _ _ => True
  | Parsed config _ => forward = parse_forward config
  | Answered config e result => result = forwarded (parse_forward config) instead e
  end.

(** Calls of which at most one is between the two are answered by their own
    settings. *)
Lemma serve_alone instead st st' :
  serve instead st st' → (length (List.filter is_parsed st'.2) ≤ 1)%nat →
  Forall (call_ok instead st.1) st.2 → Forall (call_ok instead st'.1) st'.2.
Proof.
  assert (∀ forward forward' l, length (List.filter is_parsed l) = 0%nat →
    Forall (call_ok instead forward) l → Forall (call_ok instead forward') l) as Hmove.
  { induction l as [|c l IH]; [done|]. cbn. intros Hl [Hc Hok]%Forall_cons. by destruct c; constructor; auto. }
  intros [forward config e before after|forward config e before after]; cbn [fst snd];
    rewrite List.filter_app, length_app, !Forall_app, !Forall_cons; cbn [List.filter is_parsed length]; intros Hone.
  - intros (Hb & _ & Ha). split_and!; [apply (Hmove forward); auto; lia|done|apply (Hmove forward); auto; lia].
  - intros (Hb & Hc & Ha). cbn in Hc. by subst forward.
Qed.

(** Calls that overlap are not: the output of a job that forwards is replaced. *)
Lemma overlap_loses_output e e' :
  let yes : Config := {[ "forward" := "true" ]} in
  PbExecution.Output e ≠ "Output in dkron log" →
  ∃ result, rtc (serve "Output in dkron log") (false, [Waiting yes e; Waiting ∅ e']) 
    (false, [Answered yes e result; Parsed ∅ e']) ∧ PbExecution.Output result ≠ PbExecution.Output e.
Proof.
  cbn. intros Hout. exists (with_output "Output in dkron log" e). split; [|done].
  eapply rtc_l; [exact (serve_parse _ _ _ e [] _)|].
  eapply rtc_l; [exact (serve_parse _ _ ∅ e' [Parsed _ e] [])|].
  eapply rtc_once. exact (serve_answer _ false _ e [] _).
Qed.

(** *** Names *)

Example getPluginName_examples :
  getPluginName "/etc/dkron/plugins/dkron-processor-files" = Some "files" ∧
  getPluginName "./dkron-executor-my-own.exe" = Some "my-own" ∧ getPluginName "/usr/bin/dkron" = None.
Proof. by vm_compute. Qed.

(** The file found last wins. *)
Lemma load_last {A} (factory : string → string + A) (files : list string) (file name : string) table table' :
  load factory (files ++ [file]) table = inr table' → getPluginName file = Some name →
  ∃ p, factory file = inr p ∧ table' !! name = Some p.
Proof.
  revert table. induction files as [|f files IH]; intros table; cbn.
  - intros H E. rewrite E in H. destruct (factory file) as [|p]; [done|]. injection H as <-.
    exists p. split; [done|apply lookup_insert_eq].
  - destruct (getPluginName f); [|apply IH]. destruct (factory f); [done|apply IH].
Qed.
