(* ===== verification/Notify.v ===== *)
(** * Notify: what is sent when an execution starts and ends

    src/dkron/notifier.go: telemetry (cronitor), mails and web hooks.  A message is
    a value; the network answers it with [deliver].  Templates, the text of times
    and requests that cannot be built are parameters.  The theorems: which messages
    are sent, in which order, and that every failure is reported; headers that have
    no colon end the server. *)

From S2P Require Import Prelude GoCore GoText GoNet Jobs Store.

(** ** Messages *)

Module Config.
(** The settings of config.go the notifier reads. *)
Record t := mk {
  NodeName : string;
  MailHost : string;
  MailPort : Z;
  MailUsername : string;
  MailPassword : string;
  MailFrom : string;
  MailPayload : string;
  MailSubjectPrefix : string;
  PreWebhookEndpoint : string;
  PreWebhookPayload : string;
  PreWebhookHeaders : list string;
  WebhookEndpoint : string;
  WebhookPayload : string;
  WebhookHeaders : list string;
  CronitorEndpoint : string;
}.
End Config.

Inductive message : Type :=
  | Get (url : string)
  | Post (endpoint : string) (host : option string) (headers : Header) (body : string)
  | Mail (server : string) (auth : option (string * string * string)) (to from subject text : string).

(** *** Query strings *)

Definition upper_hex (n : Z) : ascii :=
  match String.get (Z.to_nat n) "0123456789ABCDEF" with Some c => c | None => "0" end.

(** [url.QueryEscape] *)
Fixpoint QueryEscape (s : string) : string :=
  match s with
  | EmptyString => EmptyString
  | String c s =>
      let r := QueryEscape s in
      if is_letter c || is_digit c || ContainsChar "-_.~" c then String c r
      else if Ascii.eqb c " " then String "+" r
      else String "%" (String (upper_hex (byte_of c / 16)) (String (upper_hex (byte_of c mod 16)) r))
  end.

(** [Values.Encode] of single values whose keys are sorted. *)
Definition Encode (params : list (string * string)) : string :=
  Join "&" ((λ p, QueryEscape p.1 +:+ "=" +:+ QueryEscape p.2) <$> params).

(** *** Reports *)

(** The fields a template sees. *)
Module Report.
Record t := mk {
  Report : string;
  JobName : string;
  ReportingNode : string;
  StartTime : time;
  FinishedAt : time;
  Success : string;
  NodeName : string;
  Output : string;
}.
End Report.

Definition newline : string := bytes [10%nat].
Definition show_bool (b : bool) : string := if b then "true" else "false".

Module Notifier.
Record t := mk {
  Config : Config.t;
  Job : Job.t;
  Execution : Exec.t;
  ExecutionGroup : list Exec.t;
}.
End Notifier.

Section notifier.
(** [time.Time.String]; a template's parse error; what it executes to, or its
    error; the error of [http.NewRequest]; and what becomes of a message: an error
    or [None]. *)
Variable show_time : time → string.
Variable template_error : string → option string.
Variable template_Execute : string → Report.t → string + string.
Variable NewRequest_error : string → option string.
Variable deliver : message → option string.

Definition report (n : Notifier.t) : string :=
  let e := Notifier.Execution n in
  let exgStr := fold_left (λ exgStr ex,
    exgStr +:+ bytes [9%nat] +:+ "[Node]: " +:+ Exec.NodeName ex +:+ " [Start]: " +:+ show_time (Exec.StartedAt ex)
    +:+ " [End]: " +:+ show_time (Exec.FinishedAt ex) +:+ " [Success]: " +:+ show_bool (Exec.Success ex) +:+ newline)
    (Notifier.ExecutionGroup n) "" in
  "Executed: " +:+ Exec.JobName e +:+ newline +:+ "Reporting node: " +:+ Config.NodeName (Notifier.Config n)
  +:+ newline +:+ "Start time: " +:+ show_time (Exec.StartedAt e) +:+ newline +:+ "End time: "
  +:+ show_time (Exec.FinishedAt e) +:+ newline +:+ "Success: " +:+ show_bool (Exec.Success e) +:+ newline
  +:+ "Node: " +:+ Exec.NodeName e +:+ newline +:+ "Output: " +:+ Exec.Output e +:+ newline
  +:+ "Execution group: " +:+ pretty (Exec.Group e) +:+ newline +:+ exgStr.

Definition buildTemplate (n : Notifier.t) (templ : string) : string :=
  match template_error templ with
  | Some e => "Failed to parse template: " +:+ e
  | None =>
      let e := Notifier.Execution n in
      let data := Report.mk (report n) (Exec.JobName e) (Config.NodeName (Notifier.Config n)) (Exec.StartedAt e)
        (Exec.FinishedAt e) (show_bool (Exec.Success e)) (Exec.NodeName e) (Exec.Output e) in
      match template_Execute templ data with
      | inl out => out
      | inr err => "Failed to execute template:" +:+ err
      end
  end.

Definition statusString (n : Notifier.t) : string :=
  if Exec.Success (Notifier.Execution n) then "Success" else "Failed".

Definition auth (n : Notifier.t) : option (string * string * string) :=
  let c := Notifier.Config n in
  if negb (String.eqb (Config.MailUsername c) "") && negb (String.eqb (Config.MailPassword c) "")
  then Some (Config.MailUsername c, Config.MailPassword c, Config.MailHost c) else None.

(** ** Sending *)

(** The messages sent and the error; [None] is a panic. *)
Definition outcome : Type := option (list message * option string).

Definition send (what : string) (m : message) : outcome := Some ([m], (λ e, what +:+ e) <$> deliver m).

Definition sendExecutionEmail (n : Notifier.t) : outcome :=
  let c := Notifier.Config n in
  let data := if negb (String.eqb (Config.MailPayload c) "") then buildTemplate n (Config.MailPayload c)
    else Exec.Output (Notifier.Execution n) in
  send "notifier: Error sending email " (Mail (Config.MailHost c +:+ ":" +:+ pretty (Config.MailPort c)) (auth n) (Job.OwnerEmail (Notifier.Job n))
    (Config.MailFrom c)
    (Config.MailSubjectPrefix c +:+ statusString n +:+ " " +:+ Exec.JobName (Notifier.Execution n) +:+ " execution report")
    data).

(** The loop over the headers: the host and the others; [None] is a panic. *)
Fixpoint webhook_headers (hs : list string) (host : option string) (header : Header)
    : option (option string * Header) :=
  match hs with
  | [] => Some (host, header)
  | h :: hs =>
      if String.eqb h "" then webhook_headers hs host header else
      match header_parts h with
      | None => None
      | Some (k, v) =>
          if EqualFoldWord k "host" then webhook_headers hs (Some v) header
          else webhook_headers hs host (Header_Set k v header)
      end
  end.

Definition callWebhook (endpoint payload : string) (headers : list string) (n : Notifier.t) : outcome :=
  let out := buildTemplate n payload in
  match NewRequest_error endpoint with
  | Some err => Some ([], Some err)
  | None =>
      match webhook_headers headers None ∅ with
      | None => None
      | Some (host, header) => send "notifier: Error posting notification: " (Post endpoint host header out)
      end
  end.

Definition callPreExecutionWebhook (n : Notifier.t) : outcome :=
  let c := Notifier.Config n in
  callWebhook (Config.PreWebhookEndpoint c) (Config.PreWebhookPayload c) (Config.PreWebhookHeaders c) n.
Definition callExecutionWebhook (n : Notifier.t) : outcome :=
  let c := Notifier.Config n in
  callWebhook (Config.WebhookEndpoint c) (Config.WebhookPayload c) (Config.WebhookHeaders c) n.

Definition cronitorTelemetry (state : string) (n : Notifier.t) : outcome :=
  let c := Notifier.Config n in
  let e := Notifier.Execution n in
  if negb (String.eqb (Config.CronitorEndpoint c) "") then
    let message := "Job " +:+ state +:+ " by Dkron" in
    let state := if String.eqb state "complete" && negb (Exec.Success e) then "fail" else state in
    let params := [("host", Exec.NodeName e); ("message", message); ("series", Key e); ("state", state)] in
    send "notifier: Error sending telemetry to cronitor: " (Get (Config.CronitorEndpoint c +:+ "/" +:+ Exec.JobName e +:+ "?" +:+ Encode params))
  else Some ([], None).

(** One notification after others: its messages, and its error after theirs. *)
Definition and_then (r : option (list message * list string)) (enabled : bool) (what : string) (o : outcome)
    : option (list message * list string) :=
  match r with
  | None => None
  | Some (sent, werr) =>
      if negb enabled then Some (sent, werr) else
      match o with
      | None => None
      | Some (ms, err) => Some (sent ++ ms, werr ++ match err with Some e => [what +:+ e] | None => [] end)
      end
  end.

(** What is configured. *)
Definition pre_webhook_on (n : Notifier.t) : bool :=
  let c := Notifier.Config n in
  negb (String.eqb (Config.PreWebhookEndpoint c) "") && negb (String.eqb (Config.PreWebhookPayload c) "").
Definition mail_on (n : Notifier.t) : bool :=
  let c := Notifier.Config n in
  negb (String.eqb (Config.MailHost c) "") && negb (Config.MailPort c =? 0)
  && negb (String.eqb (Job.OwnerEmail (Notifier.Job n)) "").
Definition webhook_on (n : Notifier.t) : bool :=
  let c := Notifier.Config n in
  negb (String.eqb (Config.WebhookEndpoint c) "") && negb (String.eqb (Config.WebhookPayload c) "").

(** The messages and the errors: there is none when the list is empty. *)
Definition SendPreNotifications (n : Notifier.t) : option (list message * list string) :=
  let r := and_then (Some ([], [])) true "notifier: error sending cronitor telemetry " (cronitorTelemetry "run" n) in
  and_then r (pre_webhook_on n) "notifier: error sending email: " (callPreExecutionWebhook n).

Definition SendPostNotifications (n : Notifier.t) : option (list message * list string) :=
  let r := and_then (Some ([], [])) true "notifier: error sending cronitor telemetry "
    (cronitorTelemetry "complete" n) in
  let r := and_then r (mail_on n) "notifier: error sending email: " (sendExecutionEmail n) in
  and_then r (webhook_on n) "notifier: error posting notification: " (callExecutionWebhook n).

(** ** Lemmas *)

(** A header that can be read: it is empty, or it has a colon. *)
Definition header_ok (h : string) : Prop := h = "" ∨ ContainsChar h ":" = true.

(** The headers that are read, and the last value among those of a kind. *)
Definition header_settings (hs : list string) : list (string * string) := omap header_parts hs.
Definition last_value (P : string → bool) (l : list (string * string)) : option string :=
  last ((filter (λ p, P p.1 = true) l).*2).

Lemma last_value_cons P k v l :
  last_value P ((k, v) :: l) =
  if P k then Some (default v (last_value P l)) else last_value P l.
Proof.
  unfold last_value. rewrite filter_cons. cbn [fst].
  destruct (P k); [rewrite decide_True, fmap_cons, last_cons by done; by destruct (last _)|by rewrite decide_False].
Qed.

Definition is_host (k : string) : bool := EqualFoldWord k "host".
Definition sets_header (key k : string) : bool :=
  negb (is_host k) && String.eqb (CanonicalHeaderKey k) key.

(** The last setting of a header wins; the host is none of them. *)
Lemma webhook_headers_last hs : ∀ host header, Forall header_ok hs →
  ∃ host' header', webhook_headers hs host header = Some (host', header') ∧
    host' = (match last_value is_host (header_settings hs) with Some v => Some v | None => host end) ∧
    ∀ key, header' !! key =
      match last_value (sets_header key) (header_settings hs) with Some v => Some v | None => header !! key end.
Proof.
  induction hs as [|h hs IH]; intros host header Hok; [by exists host, header|].
  apply Forall_cons in Hok as [Hh Hok]. cbn [webhook_headers]. destruct (String.eqb_spec h "") as [->|Hne].
  { apply (IH host header Hok). }
  destruct Hh as [|Hh]; [done|].
  destruct (header_parts h) as [[k v]|] eqn:Ep; [|apply header_parts_panics in Ep; congruence].
  assert (header_settings (h :: hs) = (k, v) :: header_settings hs) as -> by (cbn; by rewrite Ep).
  rewrite last_value_cons. change (EqualFoldWord k "host") with (is_host k). destruct (is_host k) eqn:Ek.
  - destruct (IH (Some v) header Hok) as (host' & header' & E & Hhost & Hkeys).
    exists host', header'. split; [done|]. split; [rewrite Hhost; by destruct (last_value is_host _)|].
    intros key. rewrite Hkeys, last_value_cons. unfold sets_header at 2. by rewrite Ek.
  - destruct (IH host (Header_Set k v header) Hok) as (host' & header' & E & Hhost & Hkeys).
    exists host', header'. split; [done|]. split; [done|]. intros key.
    rewrite Hkeys, last_value_cons. unfold sets_header at 2. rewrite Ek. cbn [negb andb].
    destruct (String.eqb_spec (CanonicalHeaderKey k) key) as [<-|Hk].
    + destruct (last_value (sets_header _) (header_settings hs)); [done|]. apply lookup_insert_eq.
    + destruct (last_value (sets_header key) (header_settings hs)); [done|]. by apply lookup_insert_ne.
Qed.

(** The order of the messages. *)
Definition rank (m : message) : nat := match m with Get _ => 0 | Mail _ _ _ _ _ _ => 1 | Post _ _ _ _ => 2 end.

(** What belongs into the messages after an execution. *)
Definition configured (n : Notifier.t) (m : message) : Prop :=
  let c := Notifier.Config n in
  match m with
  | Get _ => Config.CronitorEndpoint c ≠ ""
  | Mail server _ to _ subject _ =>
      mail_on n = true ∧ server = Config.MailHost c +:+ ":" +:+ pretty (Config.MailPort c) ∧
      to = Job.OwnerEmail (Notifier.Job n) ∧
      subject = Config.MailSubjectPrefix c +:+ (if Exec.Success (Notifier.Execution n) then "Success" else "Failed")
        +:+ " " +:+ Exec.JobName (Notifier.Execution n) +:+ " execution report"
  | Post endpoint host header _ =>
      webhook_on n = true ∧ endpoint = Config.WebhookEndpoint c ∧ NewRequest_error endpoint = None ∧
      host = last_value is_host (header_settings (Config.WebhookHeaders c)) ∧
      ∀ key, header !! key = last_value (sets_header key) (header_settings (Config.WebhookHeaders c))
  end.

Definition has (k : nat) (sent : list message) : bool := existsb (λ m, Nat.eqb (rank m) k) sent.

(** How a message of a kind is sent. *)
Definition sends (n : Notifier.t) (k : nat) (o : outcome) : Prop :=
  ∃ what m, o = send what m ∧ rank m = k ∧ configured n m.

Lemma telemetry_cases n :
  cronitorTelemetry "complete" n = Some ([], None) ∧ Config.CronitorEndpoint (Notifier.Config n) = "" ∨
  Config.CronitorEndpoint (Notifier.Config n) ≠ "" ∧ sends n 0 (cronitorTelemetry "complete" n).
Proof.
  unfold cronitorTelemetry. destruct (String.eqb_spec (Config.CronitorEndpoint (Notifier.Config n)) ""); cbn [negb].
  - by left.
  - right. split; [done|]. by eexists _, _.
Qed.

Lemma mail_cases n : mail_on n = true → sends n 1 (sendExecutionEmail n).
Proof. intros Hm. by eexists _, _. Qed.

Lemma webhook_cases n : Forall header_ok (Config.WebhookHeaders (Notifier.Config n)) → webhook_on n = true →
  (∃ err, NewRequest_error (Config.WebhookEndpoint (Notifier.Config n)) = Some err ∧
     callExecutionWebhook n = Some ([], Some err)) ∨
  NewRequest_error (Config.WebhookEndpoint (Notifier.Config n)) = None ∧ sends n 2 (callExecutionWebhook n).
Proof.
  intros Hok Hon. unfold callExecutionWebhook, callWebhook.
  destruct (NewRequest_error _) as [err|] eqn:E; [left; by exists err|]. right. split; [done|].
  destruct (webhook_headers_last _ None ∅ Hok) as (host & header & -> & Hhost & Hkeys).
  eexists _, _. split; [done|]. split; [done|]. split; [done|]. split; [done|]. split; [done|]. split.
  - rewrite Hhost. by case_match.
  - intros key. rewrite Hkeys. destruct (last_value (sets_header key) _); [reflexivity|]. apply lookup_empty.
Qed.

(** ** Theorem *)

(** After an execution, when every header in the settings has a colon or is
    empty, no header makes the server panic; the messages are telemetry, a mail
    and a web hook, each exactly when it is configured, at most once and in this
    order, the mail with the result and to the owner, the web hook with the last
    value of each header and of the host; and no error is returned exactly when
    all of them were delivered and the request of the web hook could be made. *)
Lemma post_notifications n :
  let c := Notifier.Config n in
  Forall header_ok (Config.WebhookHeaders c) →
  ∃ sent errs, SendPostNotifications n = Some (sent, errs) ∧
    StronglySorted (λ m m', (rank m < rank m')%nat) sent ∧ Forall (configured n) sent ∧
    (has 0 sent = true ↔ Config.CronitorEndpoint c ≠ "") ∧
    (has 1 sent = true ↔ mail_on n = true) ∧
    (has 2 sent = true ↔ webhook_on n = true ∧ NewRequest_error (Config.WebhookEndpoint c) = None) ∧
    (errs = [] ↔ Forall (λ m, deliver m = None) sent ∧
      (webhook_on n = true → NewRequest_error (Config.WebhookEndpoint c) = None)).
Proof.
  intros c Hok. unfold SendPostNotifications.
  destruct (telemetry_cases n) as [[-> Hc]|(Hc & w0 & m0 & -> & R0 & C0)];
    destruct (mail_on n) eqn:Em; try destruct (mail_cases n Em) as (w1 & m1 & -> & R1 & C1);
    destruct (webhook_on n) eqn:Ew;
    try destruct (webhook_cases n Hok Ew) as [(err & Er & ->)|(Er & w2 & m2 & -> & R2 & C2)];
    unfold send; rewrite ?and_then_on, ?and_then_off; cbn [app];
    eexists _, _; (split; [reflexivity|]); subst c; cbn [app].
  all: rewrite ?Forall_cons, ?Forall_nil; unfold has; cbn [existsb]; rewrite ?R0, ?R1, ?R2, ?Er; cbn [Nat.eqb orb].
  all: split; [repeat constructor; lia|].
  all: repeat match goal with |- context [deliver ?m] => destruct (deliver m) end; cbn [fmap option_fmap option_map app].
  all: repeat split; intuition congruence.
Qed.

(** A header without a colon ends the server once the request can be made; nothing
    that was sent before is reported. *)
Lemma header_without_colon_ends n h hs :
  webhook_on n = true → NewRequest_error (Config.WebhookEndpoint (Notifier.Config n)) = None →
  Config.WebhookHeaders (Notifier.Config n) = h :: hs → h ≠ "" → ContainsChar h ":" = false →
  SendPostNotifications n = None.
Proof.
  intros Hon Hreq Hhs Hh%String.eqb_neq Hc%header_parts_panics.
  assert (callExecutionWebhook n = None) as E.
  { unfold callExecutionWebhook, callWebhook. rewrite Hreq, Hhs. cbn [webhook_headers]. by rewrite Hh, Hc. }
  unfold SendPostNotifications. rewrite Hon, E. unfold and_then. by repeat case_match.
Qed.

(** The error of the web hook before an execution is called one of a mail. *)
Lemma pre_webhook_error_is_mail n err :
  Config.CronitorEndpoint (Notifier.Config n) = "" → pre_webhook_on n = true →
  NewRequest_error (Config.PreWebhookEndpoint (Notifier.Config n)) = Some err →
  SendPreNotifications n = Some ([], ["notifier: error sending email: " +:+ err]).
Proof.
  intros Hc Hon Hreq. unfold SendPreNotifications, cronitorTelemetry, callPreExecutionWebhook, callWebhook.
  by rewrite Hc, Hon, Hreq.
Qed.
End notifier.

(** ** Examples *)

Section demo.
Definition demo_config : Config.t :=
  Config.mk "n1" "mail.local" 25 "" "" "dkron@local" "" "[dkron] " "" "" []
    "http://hook.local" "{}" ["Content-Type: a"; ""; "host: h"; "content-type: application/json"]
    "https://cronitor.link/key".
Definition demo_owned : Job.t :=
  Job.mk "a" "a" "" "" "@daily" "o" "o@local" 0 0 None None false ∅ ∅ 0 [] "" ∅ "allow" "shell" ∅ "" 0 false
    None None.
Definition demo_notifier : Notifier.t :=
  Notifier.mk demo_config demo_owned (Exec.mk "a" 1 2 true "out" "n1" 3 1) [].
Definition demo_deliver (m : message) : option string :=
  match m with Mail _ _ _ _ _ _ => Some "refused" | _ => None end.
Definition demo_send : Notifier.t → option (list message * list string) :=
  SendPostNotifications (λ _, "t") (λ _, None) (λ templ _, inl templ) (λ _, None) demo_deliver.

(** The mail server refuses: the others are told, and the error is reported. *)
Example demo_sent :
  demo_send demo_notifier = Some
    ([Get "https://cronitor.link/key/a?host=n1&message=Job+complete+by+Dkron&series=1-n1&state=complete";
      Mail "mail.local:25" None "o@local" "dkron@local" "[dkron] Success a execution report" "out";
      Post "http://hook.local" (Some "h") {[ "Content-Type" := "application/json" ]} "{}"],
     ["notifier: error sending email: notifier: Error sending email refused"]).
Proof. vm_compute. reflexivity. Qed.

Lemma post_notifications_witness :
  ∃ sent errs, demo_send demo_notifier = Some (sent, errs) ∧ has 2 sent = true ∧ errs ≠ [].
Proof.
  destruct (post_notifications (λ _, "t") (λ _, None) (λ templ _, inl templ) (λ _, None) demo_deliver demo_notifier)
    as (sent & errs & E & _ & _ & _ & Hmail & Hhook & Herrs).
  - constructor; [by right|]. constructor; [by left|]. constructor; [by right|]. constructor; [by right|]. constructor.
  - exists sent, errs. split; [exact E|]. split; [apply Hhook; done|].
    change (demo_send demo_notifier = Some (sent, errs)) in E. rewrite demo_sent in E. injection E as <- <-. discriminate.
Defined.
End demo.
