(* ===== verification/HttpExecutor.v ===== *)
(** * HttpExecutor: jobs that send a request

    src/plugin/http/http.go: the executor builds a request from the settings of
    the job, sends it through a client of its pool, and checks the response.
    Requests, certificates, regular expressions, JSON, the hash and the network
    are parameters; the pool (golang-lru) is an interface, [Pool], with the laws
    of a cache.  The theorems: when an execution succeeds; the check of the status
    is membership in the list of codes; the client it uses was made for settings
    with the same key, and when these are the same settings. *)

From S2P Require Import Prelude GoCore GoText.

(** ** Settings *)

Definition Config : Type := gmap string string.

(** [config[key]] *)
Definition cfg (config : Config) (key : string) : string := default "" (config !! key).

Definition timeout : Z := 30.
Definition maxBufSize : Z := 256000.
Definition maxClientPoolSize : nat := 100.

(** ** Clients *)

Module Client.
(** What the settings decide of a client: the files are those it was created
    with, [None] where they could not be used. *)
Record t := mk {
  Timeout : Z;
  InsecureSkipVerify : bool;
  Certificate : option string;
  RootCAs : option string;
}.
End Client.

(** Files at some time: the certificate and the roots read from them, or the error. *)
Record files := mk_files {
  LoadX509KeyPair : string → string → string + string;
  loadCertPool : string → string + string;
}.

Definition second : Z := 1000000000.

(** The integer of [s] or the default, and whether there was an error. *)
Definition atoiOrDefault (s : string) (default : Z) : Z * bool :=
  let (i, ok) := Atoi s in if ok then (i, true) else (default, false).

(** The messages of the errors, up to the text of the cause. *)
Definition createClient (fs : files) (config : Config) : Client.t * list string :=
  let (timeout_, timeout_ok) := atoiOrDefault (cfg config "timeout") timeout in
  let errs := if negb (String.eqb (cfg config "timeout") "") && negb timeout_ok
    then ["invalid timeout value"] else [] in
  let skip := ParseBool (cfg config "tlsNoVerifyPeer") in
  let errs := if negb (String.eqb (cfg config "tlsNoVerifyPeer") "") && bool_decide (skip = None)
    then errs ++ ["not disabling certificate validation"] else errs in
  let (cert, errs) :=
    if negb (String.eqb (cfg config "tlsCertificateFile") "") then
      match LoadX509KeyPair fs (cfg config "tlsCertificateFile") (cfg config "tlsCertificateKeyFile") with
      | inl cert => (Some cert, errs)
      | inr _ => (None, errs ++ ["not using client certificate"])
      end
    else (None, errs) in
  let (roots, errs) :=
    if negb (String.eqb (cfg config "tlsRootCAsFile") "") then
      match loadCertPool fs (cfg config "tlsRootCAsFile") with
      | inl roots => (Some roots, errs)
      | inr _ => (None, errs ++ ["using system root CAs instead of configured CAs"])
      end
    else (None, errs) in
  (Client.mk (int64 (timeout_ * second)) (default false skip) cert roots, errs).

(** ** The pool *)

Definition relevantKeys : list string :=
  ["timeout"; "tlsNoVerifyPeer"; "tlsRootCAsFile"; "tlsCertificateFile"; "tlsCertificateKeyFile"].

Definition keyParts (config : Config) : list string :=
  omap (λ key, let value := cfg config key in
    if negb (String.eqb value "") then Some (key +:+ "=" +:+ value) else None) relevantKeys.

(** [sort.Strings] *)
Fixpoint insert_string (x : string) (l : list string) : list string :=
  match l with
  | [] => [x]
  | y :: l => if String.leb x y then x :: y :: l else y :: insert_string x l
  end.
Definition sort_Strings (l : list string) : list string := foldr insert_string [] l.

(** The text that is hashed. *)
Definition clientKey_text (config : Config) : string := Join "|" (sort_Strings (keyParts config)).

(** A cache of clients by keys. Reading may change the order of eviction only. *)
Class Pool (P : Type) := {
  pool_new : nat → P;
  pool_Get : string → P → option Client.t * P;
  pool_Add : string → Client.t → P → P;
}.

(** What is found was added under its key, and nothing else appears. *)
Class PoolLaws P `{Pool P} : Prop := {
  pool_Get_new n k : (pool_Get k (pool_new n)).1 = None;
  pool_Get_Add k k' c p c' : (pool_Get k (pool_Add k' c p)).1 = Some c' →
    (k = k' ∧ c' = c) ∨ (pool_Get k p).1 = Some c';
  pool_Get_Get k k' p c : (pool_Get k (pool_Get k' p).2).1 = Some c → (pool_Get k p).1 = Some c;
}.

(** ** The executor *)

Module Request.
Record t := mk { Method : string; URL : string; Body : string; Headers : Header }.
End Request.

(** A response: its status, and its body unless reading it fails. *)
Record response := mk_response { StatusCode : Z; resp_body : string + string }.

(** What an execution finds. *)
Record http_env := mk_http {
  env_files : files;
  Do : Client.t → Request.t → response + string;
}.

Section executor.
(** The hash of the key, the buffer that keeps the last bytes written (circbuf),
    [%#v] of the settings, [http.NewRequest] (its error), [json.Unmarshal] of the
    headers (what it fills in, and whether there was no error) and
    [regexp.MatchString] (false on error). *)
Variable hash : string → string.
Variable circbuf : Z → list string → string.
Variable show_config : Config → string.
Variable NewRequest_error : string → string → option string.
Variable Unmarshal_headers : string → list string * bool.
Variable MatchString : string → string → bool.
Context {P : Type} `{Pool P}.

Definition generateClientKey (config : Config) : string := hash (clientKey_text config).

(** The loop over the headers; [None] is a panic. *)
Fixpoint set_headers (hs : list string) (header : Header) : option Header :=
  match hs with
  | [] => Some header
  | h :: hs =>
      if String.eqb h "" then set_headers hs header else
      match header_parts h with
      | None => None
      | Some (k, v) => set_headers hs (Header_Set k v header)
      end
  end.

(** The client of the pool, or a new one with what is written about it. *)
Definition getClient (fs : files) (config : Config) (pool : P) : Client.t * list string * P :=
  let clientKey := generateClientKey config in
  match pool_Get clientKey pool with
  | (Some client, pool) => (client, [], pool)
  | (None, pool) =>
      let (client, warns) := createClient fs config in
      (client, (λ w, "Warning: " +:+ w +:+ "." +:+ bytes [10%nat]) <$> warns, pool_Add clientKey client pool)
  end.

(** [strings.Contains(expectCode + ",", fmt.Sprintf("%d,", status))] *)
Definition code_matches (expectCode : string) (status : Z) : bool :=
  Contains (expectCode +:+ ",") (pretty status +:+ ",").

Definition ErrURL : string := "url is empty".
Definition ErrMethod : string := "method is empty".
Definition ErrCode : string := "received response code does not match the expected code".
Definition ErrBody : string := "received response body did not match the expected body".

(** What is written, the error, and the pool; [None] is a panic. *)
Definition ExecuteImpl_writes (env : http_env) (config : Config) (pool : P)
    : option (list string * option string * P) :=
  let output := if negb (String.eqb (cfg config "debug") "") then ["Config: " +:+ show_config config +:+ bytes [10%nat]] else [] in
  if String.eqb (cfg config "url") "" then Some (output, Some ErrURL, pool) else
  if String.eqb (cfg config "method") "" then Some (output, Some ErrMethod, pool) else
  match NewRequest_error (cfg config "method") (cfg config "url") with
  | Some err => Some (output, Some err, pool)
  | None =>
      let (headers, headers_ok) :=
        if negb (String.eqb (cfg config "headers") "") then Unmarshal_headers (cfg config "headers") else ([], true) in
      let output := if headers_ok then output else output ++ ["Error: parsing headers failed" +:+ bytes [10%nat]] in
      match set_headers headers ∅ with
      | None => None
      | Some header =>
          let req := Request.mk (cfg config "method") (cfg config "url") (cfg config "body") header in
          let '(client, warnings, pool) := getClient (env_files env) config pool in
          let output := output ++ warnings in
          match Do env client req with
          | inr err => Some (output, Some err, pool)
          | inl resp =>
              match resp_body resp with
              | inr err => Some (output, Some err, pool)
              | inl out =>
                  let output := output ++ [out] in
                  if negb (String.eqb (cfg config "expectCode") "")
                     && negb (code_matches (cfg config "expectCode") (StatusCode resp))
                  then Some (output, Some ErrCode, pool)
                  else if negb (String.eqb (cfg config "expectBody") "")
                     && negb (MatchString (cfg config "expectBody") out)
                  then Some (output, Some ErrBody, pool)
                  else Some (output, None, pool)
              end
          end
      end
  end.

Definition ExecuteImpl (env : http_env) (config : Config) (pool : P) : option (string * option string * P) :=
  match ExecuteImpl_writes env config pool with
  | Some (output, err, pool) => Some (circbuf maxBufSize output, err, pool)
  | None => None
  end.

End executor.

(** ** The check of the status *)

Section codes.
(** No comma, and not empty. *)
Definition code_text (s : string) : Prop := ContainsChar s "," = false ∧ s ≠ "".

(** The end of [s] is [p]. *)
Definition is_suffix (p s : string) : Prop := ∃ a, s = a +:+ p.

Lemma HasPrefix_comma s c rest : ContainsChar s "," = false → ContainsChar c "," = false →
  HasPrefix (c +:+ String "," rest) (s +:+ ",") = true ↔ c = s.
Proof.
  intros Hs Hc. rewrite HasPrefix_spec. split.
  - intros [b E]. revert s Hs E. induction c as [|d c IH]; intros s Hs E.
    + destruct s as [|x s]; [done|]. change ("" +:+ String "," rest) with (String "," rest) in E.
      change ((String x s +:+ ",") +:+ b) with (String x ((s +:+ ",") +:+ b)) in E. injection E as <- _.
      by cbn in Hs.
    + cbn in Hc. apply orb_false_elim in Hc as [Hd Hc].
      change (String d c +:+ String "," rest) with (String d (c +:+ String "," rest)) in E.
      destruct s as [|x s].
      * change (("" +:+ ",") +:+ b) with (String "," b) in E. injection E as -> _. done.
      * change ((String x s +:+ ",") +:+ b) with (String x ((s +:+ ",") +:+ b)) in E. injection E as -> E.
        cbn in Hs. apply orb_false_elim in Hs as [_ Hs]. by rewrite (IH Hc s Hs E).
  - intros ->. exists rest. by rewrite string_app_assoc.
Qed.

(** Within one code, or in the rest. *)
Lemma Contains_code c rest s : code_text s → ContainsChar c "," = false →
  Contains (c +:+ String "," rest) (s +:+ ",") = true ↔ is_suffix s c ∨ Contains rest (s +:+ ",") = true.
Proof.
  intros [Hs Hne] Hc. induction c as [|d c IH].
  - change ("" +:+ String "," rest) with (String "," rest). cbn [Contains]. rewrite orb_true_iff.
    change (String "," rest) with ("" +:+ String "," rest) at 1. rewrite HasPrefix_comma by done.
    split; [intros [E|?]; [by destruct Hne|by right]|].
    intros [[a E]|?]; [|by right]. destruct a; [by destruct s|done].
  - pose proof Hc as Hc'. cbn in Hc. apply orb_false_elim in Hc as [_ Hc].
    change (String d c +:+ String "," rest) with (String d (c +:+ String "," rest)). cbn [Contains].
    rewrite orb_true_iff, (IH Hc). change (String d (c +:+ String "," rest)) with (String d c +:+ String "," rest).
    rewrite HasPrefix_comma by done. split.
    + intros [E|[[a ->]|?]]; [left; by exists ""|left; by exists (String d a)|by right].
    + intros [[a E]|?]; [|by right; right]. destruct a as [|x a]; [by left|]. right. left.
      exists a. by injection E.
Qed.

Lemma Contains_codes codes s : code_text s → codes ≠ [] → Forall (λ c, ContainsChar c "," = false) codes →
  Contains (Join "," codes +:+ ",") (s +:+ ",") = true ↔ Exists (is_suffix s) codes.
Proof.
  intros Hs Hne Hc. assert (Contains "" (s +:+ ",") = true ↔ False) as Hend.
  { destruct Hs as [_ Hs]. split; [|done]. destruct s as [|x s]; [done|].
    change (String x s +:+ ",") with (String x (s +:+ ",")). by cbn. }
  induction Hc as [|c [|d codes] Hc _ IH]; [done| |].
  - change (Join "," [c]) with c. rewrite Contains_code by done. rewrite Hend, Exists_cons, Exists_nil. tauto.
  - rewrite Join_cons, string_app_assoc.
    change (String "," (Join "," (d :: codes)) +:+ ",") with (String "," (Join "," (d :: codes) +:+ ",")).
    rewrite Contains_code by done. rewrite IH by done. rewrite (Exists_cons _ c). tauto.
Qed.
End codes.

Definition three_digits (s : string) : Prop := all_digits s = true ∧ String.length s = 3%nat.

Lemma all_digits_no_comma s : all_digits s = true → ContainsChar s "," = false.
Proof.
  induction s as [|c s IH]; [done|]. cbn. intros [Hc Hs]%andb_prop. rewrite (IH Hs).
  assert (Ascii.eqb c "," = false) as ->; [|done]. apply Ascii.eqb_neq. by intros ->.
Qed.

Lemma length_app_string (a b : string) : String.length (a +:+ b) = (String.length a + String.length b)%nat.
Proof.
  induction a as [|c a IH]; [done|]. change (String c a +:+ b) with (String c (a +:+ b)). cbn. by rewrite IH.
Qed.

Lemma status_digits status : 100 ≤ status ≤ 999 → three_digits (pretty status).
Proof.
  intros Hs. assert (Forall (λ n, three_digits (pretty n)) (seqZ 100 900)) as Hall.
  { apply (bool_decide_unpack _). unfold three_digits. vm_compute. exact I. }
  rewrite Forall_forall in Hall. apply Hall. apply elem_of_seqZ. lia.
Qed.

(** The status an execution is satisfied with: for settings that list codes of
    three digits, separated by commas, exactly the statuses in the list. *)
Lemma expected_codes codes status :
  codes ≠ [] → Forall three_digits codes → 100 ≤ status ≤ 999 →
  code_matches (Join "," codes) status = true ↔ pretty status ∈ codes.
Proof.
  intros Hne Hc Hs. destruct (status_digits status Hs) as [Hd Hl]. unfold code_matches.
  rewrite Contains_codes; [|split; [by apply all_digits_no_comma|by intros E; rewrite E in Hl]|done|].
  2: { eapply Forall_impl; [exact Hc|]. intros c [? _]. by apply all_digits_no_comma. }
  rewrite Exists_exists. split; [|intros Hin; exists (pretty status); split; [done|by exists ""]].
  intros (c & Hin & a & ->). rewrite Forall_forall in Hc. destruct (Hc _ Hin) as [_ Hlen].
  rewrite length_app_string, Hl in Hlen. destruct a as [|x a]; [done|]. cbn in Hlen. lia.
Qed.

Lemma expected_codes_witness : code_matches "200,206" 206 = true ∧ code_matches "200,206" 404 ≠ true.
Proof.
  split.
  - apply (expected_codes ["200"; "206"] 206); [discriminate|repeat constructor|lia|].
    right. left.
  - intros E. apply (expected_codes ["200"; "206"] 404) in E; [|discriminate|repeat constructor|lia].
    repeat (apply elem_of_cons in E as [E|E]; [discriminate|]). by apply elem_of_nil in E.
Defined.

(** ** The client of an execution *)

(** The settings of clients have no bar. *)
Definition plain_settings (config : Config) : Prop :=
  ∀ key, key ∈ relevantKeys → ContainsChar (cfg config key) "|" = false.

Definition same_settings (c c' : Config) : Prop := ∀ key, key ∈ relevantKeys → cfg c key = cfg c' key.

Lemma createClient_same fs c c' : same_settings c c' → createClient fs c = createClient fs c'.
Proof.
  intros Hs. unfold same_settings, relevantKeys in Hs. unfold createClient.
  by rewrite !(Hs "timeout"), !(Hs "tlsNoVerifyPeer"), !(Hs "tlsRootCAsFile"), !(Hs "tlsCertificateFile"),
    !(Hs "tlsCertificateKeyFile") by set_solver.
Qed.

Lemma insert_string_Permutation x l : insert_string x l ≡ₚ x :: l.
Proof.
  induction l as [|y l IH]; [done|]. cbn. destruct (String.leb x y); [done|]. rewrite IH. apply Permutation_swap.
Qed.

Lemma sort_Strings_Permutation l : sort_Strings l ≡ₚ l.
Proof. induction l as [|x l IH]; [done|]. cbn. by rewrite insert_string_Permutation, IH. Qed.

Lemma keyParts_elem config p : p ∈ keyParts config ↔
  ∃ key, key ∈ relevantKeys ∧ cfg config key ≠ "" ∧ p = key +:+ "=" +:+ cfg config key.
Proof.
  unfold keyParts. rewrite list_elem_of_omap. split.
  - intros (key & Hk & E). exists key. destruct (String.eqb_spec (cfg config key) ""); [done|].
    by injection E as <-.
  - intros (key & Hk & Hne & ->). exists key. split; [done|]. apply String.eqb_neq in Hne. by rewrite Hne.
Qed.

Lemma relevantKeys_plain key : key ∈ relevantKeys →
  ContainsChar key "=" = false ∧ ContainsChar key "|" = false.
Proof.
  intros Hk. unfold relevantKeys in Hk.
  by repeat (apply elem_of_cons in Hk as [->|Hk]); [..|apply elem_of_nil in Hk].
Qed.

Lemma Join_inj c ps qs :
  Forall (λ p, ContainsChar p c = false ∧ p ≠ "") ps → Forall (λ p, ContainsChar p c = false ∧ p ≠ "") qs →
  Join c ps = Join c qs → ps = qs.
Proof.
  assert (∀ ps, Forall (λ p, ContainsChar p c = false ∧ p ≠ "") ps → Join c ps = "" → ps = []) as H0.
  { intros l Hl E. destruct Hl as [|p l [Hp Hne] Hl]; [done|]. exfalso.
    destruct l as [|q l]; [done|]. rewrite Join_cons in E. by destruct p. }
  intros Hp Hq E. destruct (decide (ps = [])) as [->|Hps]; [symmetry; by apply H0|].
  destruct (decide (qs = [])) as [->|Hqs]; [by apply H0|].
  rewrite <- (Split_Join c ps), <- (Split_Join c qs), E; try done.
  all: eapply Forall_impl; [eassumption|by intros ? []].
Qed.

(** Settings with one text are the same. *)
Lemma clientKey_text_inj c c' : plain_settings c → plain_settings c' →
  clientKey_text c = clientKey_text c' → same_settings c c'.
Proof.
  intros Hc Hc' E.
  assert (∀ config, plain_settings config →
    Forall (λ p, ContainsChar p "|" = false ∧ p ≠ "") (sort_Strings (keyParts config))) as Hparts.
  { intros config Hp. rewrite sort_Strings_Permutation. apply Forall_forall. intros p.
    rewrite keyParts_elem. intros (key & Hk & _ & ->). rewrite !ContainsChar_app, (Hp key Hk).
    destruct (relevantKeys_plain key Hk) as [_ ->]. split; [done|]. by destruct key. }
  apply Join_inj in E; [|by apply Hparts..].
  assert (∀ p, p ∈ keyParts c ↔ p ∈ keyParts c') as Hin.
  { intros p. by rewrite <- (sort_Strings_Permutation (keyParts c)), E, sort_Strings_Permutation. }
  assert (∀ c c' key, (∀ p, p ∈ keyParts c → p ∈ keyParts c') → key ∈ relevantKeys → cfg c key ≠ "" →
    cfg c key = cfg c' key) as Hhalf.
  { intros a b key Hab Hk Hne. specialize (Hab (key +:+ "=" +:+ cfg a key)). rewrite !keyParts_elem in Hab.
    destruct Hab as (key' & Hk' & _ & Ek); [by exists key|].
    assert (cut "=" (key +:+ "=" +:+ cfg a key) = Some (key, cfg a key)) as E1 by (apply cut_app, relevantKeys_plain, Hk).
    rewrite Ek in E1. change (key' +:+ "=" +:+ cfg b key') with (key' +:+ String "=" (cfg b key')) in E1.
    rewrite (cut_app "=" key' (cfg b key')) in E1 by apply relevantKeys_plain, Hk'.
    by injection E1 as -> ->. }
  intros key Hk. destruct (decide (cfg c key = "")) as [E0|Hne]; [|apply Hhalf; [apply Hin|done..]].
  destruct (decide (cfg c' key = "")) as [E1|Hne]; [congruence|]. symmetry. apply Hhalf; [apply Hin|done..].
Qed.

Section pool.
Variable hash : string → string.
Variable circbuf : Z → list string → string.
Variable show_config : Config → string.
Variable NewRequest_error : string → string → option string.
Variable Unmarshal_headers : string → list string * bool.
Variable MatchString : string → string → bool.
Context {P : Type} `{Pool P, !PoolLaws P}.

(** The jobs that are run, and the pools their executions lead to. *)
Inductive pool_reachable (used : Config → Prop) : P → Prop :=
  | pool_start : pool_reachable used (pool_new maxClientPoolSize)
  | pool_executed env config pool output err pool' : pool_reachable used pool → used config →
      ExecuteImpl hash circbuf show_config NewRequest_error Unmarshal_headers MatchString env config pool
        = Some (output, err, pool') →
      pool_reachable used pool'.

(** Every client of the pool was created for settings with its key. *)
Definition pool_ok (used : Config → Prop) (pool : P) : Prop :=
  ∀ k client, (pool_Get k pool).1 = Some client →
    ∃ fs config, used config ∧ k = generateClientKey hash config ∧ client = (createClient fs config).1.

Lemma getClient_ok used fs config pool client warns pool' : pool_ok used pool → used config →
  getClient hash fs config pool = (client, warns, pool') →
  pool_ok used pool' ∧
  ∃ fs config', used config' ∧ generateClientKey hash config = generateClientKey hash config' ∧
    client = (createClient fs config').1.
Proof.
  intros Hok Hu. unfold getClient.
  pose proof (pool_Get_Get (P := P)) as Hget. specialize (Hok (generateClientKey hash config)) as Hk.
  destruct (pool_Get (generateClientKey hash config) pool) as [[cl|] pool1] eqn:E.
  - intros [= <- <- <-]. split; [|by apply Hk].
    intros k c Hc. apply (Hok k). apply (Hget k (generateClientKey hash config)). by rewrite E.
  - destruct (createClient fs config) as [cl ws] eqn:Ec. intros [= <- <- <-].
    split; [|by exists fs, config; rewrite Ec].
    intros k c [[-> ->]|Hc]%pool_Get_Add; [by exists fs, config; rewrite Ec|].
    apply (Hok k). apply (Hget k (generateClientKey hash config)). by rewrite E.
Qed.

(** An execution leaves the pool as it is, or as [getClient] does. *)
Lemma ExecuteImpl_pool env config pool output err pool' :
  ExecuteImpl_writes hash show_config NewRequest_error Unmarshal_headers MatchString env config pool
    = Some (output, err, pool') →
  pool' = pool ∨ ∃ client warns, getClient hash (env_files env) config pool = (client, warns, pool').
Proof.
  unfold ExecuteImpl_writes.
  destruct (String.eqb (cfg config "url") ""); [intros [= _ _ ->]; by left|].
  destruct (String.eqb (cfg config "method") ""); [intros [= _ _ ->]; by left|].
  destruct (NewRequest_error _ _); [intros [= _ _ ->]; by left|].
  destruct (if negb (String.eqb (cfg config "headers") "") then _ else _) as [headers ok].
  destruct (set_headers headers ∅) as [header|]; [|done].
  destruct (getClient hash (env_files env) config pool) as [[client warns] pool1]. intros E. right. exists client, warns.
  f_equal. destruct (Do _ _ _) as [resp|]; [|by injection E].
  destruct (resp_body resp); [|by injection E]. by repeat (destruct (_ && _); [by injection E|]); injection E.
Qed.

Lemma pool_reachable_ok used pool : pool_reachable used pool → pool_ok used pool.
Proof.
  induction 1 as [|env config pool output err pool' _ IH Hu He]; [intros k c Hc; by rewrite pool_Get_new in Hc|].
  unfold ExecuteImpl in He. destruct (ExecuteImpl_writes _ _ _ _ _ env config pool) as [[[ws e] p]|] eqn:Ew; [|done].
  injection He as _ _ <-. apply ExecuteImpl_pool in Ew as [->|(client & warns & Hg)]; [done|].
  by apply (getClient_ok used) in Hg as [? _].
Qed.

(** C28. Whatever was executed before with the settings of [used], the client an
    execution sends its request with was created by [createClient] for settings of
    [used] that have the same key as those of the job.  They are the same settings as
    those of the job, and it is the client [createClient] makes of the settings of the
    job, under two conditions, which are needed: no setting of either that goes into
    the key contains a bar, and the hash tells their two texts apart if they differ.
    The files are those at the time it was created. *)
Theorem pooled_client_configured used pool fs config client warns pool' :
  pool_reachable used pool → used config →
  getClient hash fs config pool = (client, warns, pool') →
  ∃ fs' config', used config' ∧ generateClientKey hash config = generateClientKey hash config' ∧
    client = (createClient fs' config').1 ∧
    (plain_settings config → plain_settings config' →
     (hash (clientKey_text config) = hash (clientKey_text config') → clientKey_text config = clientKey_text config') →
     same_settings config config' ∧ client = (createClient fs' config).1).
Proof.
  intros Hr Hu Hg.
  destruct (getClient_ok used fs config pool client warns pool' (pool_reachable_ok used pool Hr) Hu Hg)
    as (_ & fs' & config' & Hu' & Hk & ->).
  exists fs', config'. split_and!; [done..|]. intros Hp Hp' Hh.
  assert (same_settings config config') as Hs by (apply clientKey_text_inj; auto).
  split; [done|]. by rewrite (createClient_same fs' _ _ Hs).
Qed.
End pool.

(** ** A pool that obeys the laws *)

(** The most recently used client first. *)
Record lru := mk_lru { lru_size : nat; lru_entries : list (string * Client.t) }.

Definition lru_find (k : string) (l : list (string * Client.t)) : option Client.t :=
  snd <$> (snd <$> list_find (λ e, e.1 = k) l).
Definition lru_without (k : string) (l : list (string * Client.t)) : list (string * Client.t) :=
  List.filter (λ e, negb (String.eqb e.1 k)) l.

#[global] Instance lru_pool : Pool lru := {|
  pool_new n := mk_lru n [];
  pool_Get k p :=
    match lru_find k (lru_entries p) with
    | Some c => (Some c, mk_lru (lru_size p) ((k, c) :: lru_without k (lru_entries p)))
    | None => (None, p)
    end;
  pool_Add k c p := mk_lru (lru_size p) (take (lru_size p) ((k, c) :: lru_without k (lru_entries p)));
|}.

Lemma lru_find_cons k k' c l : lru_find k ((k', c) :: l) = if decide (k' = k) then Some c else lru_find k l.
Proof.
  unfold lru_find. cbn. case_decide; [done|]. destruct (list_find _ l) as [[i x]|]; done.
Qed.

Lemma lru_without_cons k x d l :
  lru_without k ((x, d) :: l) = if decide (x = k) then lru_without k l else (x, d) :: lru_without k l.
Proof. unfold lru_without. cbn. destruct (String.eqb_spec x k); by case_decide. Qed.

Lemma lru_find_without_same k l : lru_find k (lru_without k l) = None.
Proof.
  induction l as [|[x d] l IH]; [done|]. rewrite lru_without_cons. case_decide; [done|].
  rewrite lru_find_cons. by case_decide.
Qed.

Lemma lru_find_without k k' l c : lru_find k (lru_without k' l) = Some c → lru_find k l = Some c.
Proof.
  destruct (decide (k = k')) as [->|Hk]; [by rewrite lru_find_without_same|].
  induction l as [|[x d] l IH]; [done|]. rewrite lru_without_cons, lru_find_cons. case_decide as E.
  - intros Hf. rewrite decide_False by congruence. auto.
  - rewrite lru_find_cons. case_decide; auto.
Qed.

Lemma lru_find_take k n l c : lru_find k (take n l) = Some c → lru_find k l = Some c.
Proof.
  revert n. induction l as [|[x d] l IH]; intros [|n]; [done..|]. cbn [take].
  rewrite !lru_find_cons. case_decide; [done|apply IH].
Qed.

Lemma lru_Get k (p : lru) : (pool_Get k p).1 = lru_find k (lru_entries p).
Proof. unfold pool_Get, lru_pool. by destruct (lru_find k (lru_entries p)). Qed.

#[global] Instance lru_pool_laws : PoolLaws lru.
Proof.
  split.
  - done.
  - intros k k' c p c'. rewrite !lru_Get. unfold pool_Add, lru_pool. cbn [lru_entries].
    intros Hf%lru_find_take. rewrite lru_find_cons in Hf. case_decide as E.
    + left. by injection Hf as ->.
    + right. by apply lru_find_without in Hf.
  - intros k k' p c. rewrite !lru_Get. unfold pool_Get, lru_pool.
    destruct (lru_find k' (lru_entries p)) as [c'|] eqn:E; [|done]. cbn [snd lru_entries].
    rewrite lru_find_cons. case_decide as Ek; [by intros [= ->]; subst|apply lru_find_without].
Qed.

(** ** Examples *)

Section demo.
Definition demo_files : files := mk_files (λ c _, inl c) inl.
Definition demo_env : http_env := mk_http demo_files (λ _ _, inl (mk_response 200 (inl "ok"))).
Definition run_demo (config : Config) (pool : lru) : option (string * option string * lru) :=
  ExecuteImpl (λ s, s) (λ _, foldr String.append "") (λ _, "") (λ _ _, None) (λ h, ([h], true)) (λ _ _, true)
    demo_env config pool.
Definition slow : Config := {[ "url" := "http://a"; "method" := "GET"; "timeout" := "60" ]}.

Lemma pooled_client_configured_witness :
  ∃ pool, run_demo slow (pool_new maxClientPoolSize) = Some ("ok", None, pool) ∧
    ∃ fs', ∃ pool', getClient (λ s, s) demo_files slow pool = ((createClient fs' slow).1, [], pool').
Proof.
  set (pool := mk_lru 100 [("timeout=60", (createClient demo_files slow).1)]).
  assert (run_demo slow (pool_new maxClientPoolSize) = Some ("ok", None, pool)) as E by (vm_compute; reflexivity).
  exists pool. split; [exact E|].
  destruct (pooled_client_configured (λ s, s) (λ _, foldr String.append "") (λ _, "") (λ _ _, None) (λ h, ([h], true))
    (λ _ _, true) (λ c, c = slow) pool demo_files slow (createClient demo_files slow).1 [] pool)
    as (fs' & config' & Hu & _ & _ & Hfs).
  - eapply pool_executed; [apply pool_start|reflexivity|exact E].
  - reflexivity.
  - vm_compute. reflexivity.
  - assert (plain_settings slow) as Hp.
    { intros key Hk. unfold relevantKeys in Hk.
      repeat (apply elem_of_cons in Hk as [->|Hk]; [vm_compute; reflexivity|]). by apply elem_of_nil in Hk. }
    exists fs', pool. subst config'. destruct (Hfs Hp Hp (λ _, eq_refl)) as [_ <-]. vm_compute. reflexivity.
Defined.

(** A bar in a setting makes two keys one: the request of the second job is sent
    without the verification it asks for. *)
Lemma client_keys_collide :
  let unsafe := {[ "timeout" := "30"; "tlsNoVerifyPeer" := "true" ]} : Config in
  let safe := {[ "timeout" := "30|tlsNoVerifyPeer=true"; "tlsNoVerifyPeer" := "" ]} : Config in
  clientKey_text unsafe = clientKey_text safe ∧
  Client.InsecureSkipVerify (createClient demo_files unsafe).1 = true ∧
  Client.InsecureSkipVerify (createClient demo_files safe).1 = false.
Proof. by vm_compute. Qed.

(** A code that ends in a status is taken for it; a header without a colon ends the
    plugin. *)
Lemma longer_code_matches : code_matches "1200" 200 = true.
Proof. by vm_compute. Qed.
Lemma header_without_colon_panics :
  run_demo {[ "url" := "http://a"; "method" := "GET"; "headers" := "Accept" ]} (pool_new maxClientPoolSize) = None.
Proof. by vm_compute. Qed.
End demo.
