(* ===== verification/Executors.v ===== *)
(** * Executors: jobs that send a message

    The executors of src/builtin/bins that hand the settings of a job to a
    service: rabbitmq.go, kafka.go, nats.go, gcppubsub.go and grpc.go.  Each is a
    function from the settings and the answers of the service to the calls it
    makes, its output and its error.  The clients of the services and JSON are
    parameters; base64 and numbers are written out.  The lemmas: what is sent,
    that nothing is left open, and what the caller is told. *)

From S2P Require Import Prelude GoCore GoText.

Definition Config : Type := gmap string string.

(** [args.Config[key]] *)
Definition setting (config : Config) (key : string) : string := default "" (config !! key).

(** The response of [Execute]. *)
Module ExecuteResponse.
Record t := mk { Output : string; Error : string }.
End ExecuteResponse.

(** [Execute] around [ExecuteImpl]. *)
Definition Execute (r : string * option string) : ExecuteResponse.t :=
  ExecuteResponse.mk r.1 (default "" r.2).

(** ** Package encoding/base64 *)

Definition base64_value (c : ascii) : option Z :=
  let b := byte_of c in
  if within 65 90 b then Some (b - 65)
  else if within 97 122 b then Some (b - 71)
  else if within 48 57 b then Some (b + 4)
  else if Ascii.eqb c "+" then Some 62
  else if Ascii.eqb c "/" then Some 63
  else None.

Definition char_of (z : Z) : ascii := ascii_of_N (Z.to_N (z mod 256)).

(** Groups of four characters; the last one may be filled up. *)
Fixpoint decode_groups (s : string) : option string :=
  match s with
  | EmptyString => Some ""
  | String a (String b (String c (String d r))) =>
      let? x := base64_value a in
      let? y := base64_value b in
      let first := char_of (Z.lor (Z.shiftl x 2) (Z.shiftr y 4)) in
      if Ascii.eqb c "=" then
        if Ascii.eqb d "=" && String.eqb r "" then Some (String first "") else None
      else
        let? z := base64_value c in
        let second := char_of (Z.lor (Z.shiftl y 4) (Z.shiftr z 2)) in
        if Ascii.eqb d "=" then
          if String.eqb r "" then Some (String first (String second "")) else None
        else
          let? w := base64_value d in
          let? rest := decode_groups r in
          Some (String first (String second (String (char_of (Z.lor (Z.shiftl z 6) w)) rest)))
  | _ => None
  end.

Definition is_newline (c : ascii) : bool := (byte_of c =? 10) || (byte_of c =? 13).

(** [base64.StdEncoding.DecodeString]: ends of lines are left out. *)
Definition DecodeString (s : string) : option string :=
  decode_groups (String.string_of_list_ascii
    (List.filter (λ c, negb (is_newline c)) (String.list_ascii_of_string s))).

(** [strconv.ParseUint] in base 10. *)
Definition ParseUint (bits : Z) (s : string) : option Z :=
  if String.eqb s "" || negb (all_digits s) then None
  else let n := digits_value 0 s in if n <? 2 ^ bits then Some n else None.

(** ** RabbitMQ *)

Module Publishing.
Record t := mk { ContentType : string; Body : string; MessageId : string; DeliveryMode : Z }.
End Publishing.

Module RabbitMQ.

Inductive call : Type :=
  | Dial (url : string)
  | Channel
  | QueueDeclare (queue : string) (durable autoDelete exclusive : bool)
  | Publish (exchange key : string) (message : Publishing.t)
  | CloseChannel
  | CloseConnection.

Section rabbitmq.
(** The error the broker answers a call with. *)
Variable answer : call → option string.

Definition createQueueIfNecessary (cfg : Config) (queue : string) : list call * option string :=
  match cfg !! "queue.create" with
  | None => ([], None)
  | Some val =>
      if String.eqb val "false" then ([], None) else
      let flag key := default false (ParseBool (setting cfg key)) in
      let c := QueueDeclare queue (flag "queue.durable") (flag "queue.auto_delete") (flag "queue.exclusive") in
      ([c], answer c)
  end.

(** The body, or an error. *)
Definition message_body (cfg : Config) : string + string :=
  match cfg !! "message.base64Body" with
  | Some b64 => match DecodeString b64 with Some body => inl body | None => inr "illegal base64 data" end
  | None => inl (setting cfg "message.body")
  end.

Definition or_default (s d : string) : string := if String.eqb s "" then d else s.

Definition publish (cfg : Config) : list call * option string :=
  match message_body cfg with
  | inr err => ([], Some err)
  | inl body =>
      match ParseUint 8 (or_default (setting cfg "message.delivery_mode") "0") with
      | None => ([], Some "strconv.ParseUint")
      | Some deliveryMode =>
          let c := Publish (setting cfg "exchange") (setting cfg "queue.name")
            (Publishing.mk (or_default (setting cfg "message.content_type") "text/plain") body
               (setting cfg "message.messageId") deliveryMode) in
          ([c], answer c)
      end
  end.

(** The calls in their order, deferred ones included, and the error. *)
Definition ExecuteImpl (config : option Config) : list call * option string :=
  match config with
  | None => ([], Some "RabbitMQ config is empty")
  | Some cfg =>
      let url := setting cfg "url" in
      if String.eqb url "" then ([], Some "RabbitMQ url is empty") else
      let queueName := setting cfg "queue.name" in
      if String.eqb queueName "" then ([], Some "RabbitMQ queue name is empty") else
      if negb (String.eqb (setting cfg "message.body") "") && negb (String.eqb (setting cfg "message.base64Body") "")
      then ([], Some "RabbitMQ message.body and message.base64Body are both set") else
      match answer (Dial url) with
      | Some err => ([Dial url], Some err)
      | None =>
          match answer Channel with
          | Some err => ([Dial url; Channel; CloseConnection], Some err)
          | None =>
              let (created, err) := createQueueIfNecessary cfg queueName in
              let (sent, err) :=
                match err with Some err => ([], Some err) | None => publish cfg end in
              ([Dial url; Channel] ++ created ++ sent ++ [CloseChannel; CloseConnection], err)
          end
      end
  end.

Definition run (config : option Config) : ExecuteResponse.t := Execute ("", (ExecuteImpl config).2).
End rabbitmq.
End RabbitMQ.

(** ** Kafka *)

Module Kafka.

Inductive mechanism : Type := SCRAMSHA512 | SCRAMSHA256.

(** What the settings decide of a producer: [tls] tells whether certificates are
    not checked. *)
Record producer := mk_producer { tls : option bool; sasl : option (string * string * mechanism) }.

Inductive call : Type :=
  | NewSyncProducer (brokers : list string) (config : producer)
  | SendMessage (topic key value : string)
  | Close.

Section kafka.
Variable answer : call → option string.

Definition ExecuteImpl (config : Config) : list call * (string * option string) :=
  let get := setting config in
  if String.eqb (get "brokerAddress") "" then ([], ("", Some "brokerAddress is empty")) else
  if String.eqb (get "topic") "" then ([], ("", Some "topic is empty")) else
  let tls := if String.eqb (get "tlsEnable") "true"
    then Some (String.eqb (get "tlsInsecureSkipVerify") "true") else None in
  let wanted := negb (String.eqb (get "saslUsername") "") && negb (String.eqb (get "saslPassword") "") in
  let sasl m := Some (Some (get "saslUsername", get "saslPassword", m)) in
  match
    (if wanted then
       if String.eqb (get "saslMechanism") "sha512" then sasl SCRAMSHA512
       else if String.eqb (get "saslMechanism") "sha256" then sasl SCRAMSHA256
       else None
     else Some None)
  with
  | None => ([], ("", Some "invalid SASL mechanism, must be 'sha256' or 'sha512'"))
  | Some sasl =>
      let new := NewSyncProducer (Split "," (get "brokerAddress")) (mk_producer tls sasl) in
      match answer new with
      | Some err => ([new], ("", Some err))
      | None =>
          let send := SendMessage (get "topic") (get "key") (get "message") in
          ([new; send; Close],
            match answer send with
            | Some err => ("", Some err)
            | None => ("Result: successfully produced the message on Kafka broker" +:+ String "010" "", None)
            end)
      end
  end.
End kafka.
End Kafka.

(** ** NATS *)

Module Nats.

Inductive call : Type :=
  | Connect (url userName password : string)
  | Publish (subject message : string)
  | Close
  | Flush.

Section nats.
Variable answer : call → option string.
(** Whether the connection stands after the message was handed over. *)
Variable IsConnected : bool.

Definition ExecuteImpl (config : Config) : list call * (string * option string) :=
  let get := setting config in
  if String.eqb (get "url") "" then ([], ("", Some "url is empty")) else
  if String.eqb (get "subject") "" then ([], ("", Some "subject is empty")) else
  let connect := Connect (get "url") (get "userName") (get "password") in
  match answer connect with
  | Some _ => ([connect], ("", Some "error connecting to NATS"))
  | None =>
      ([connect; Publish (get "subject") (get "message")] ++ (if IsConnected then [Close; Flush] else []),
        ("Result: Message successfully sent" +:+ String "010" "", None))
  end.
End nats.
End Nats.

(** ** Google Cloud Pub/Sub *)

Module PubSub.

Record Message := mk_message { Data : option string; Attributes : option Config }.

Inductive call : Type :=
  | NewClient (projectID : string)
  | PublishGet (topic : string) (message : Message)
  | Close.

Section pubsub.
(** The error of a new client; the identifier of a message, or its error. *)
Variable new_client : string → option string.
Variable publish : string → Message → string + string.
(** [json.Unmarshal] into a map: [None] is its error, no map is [null]. *)
Variable unmarshal_map : string → option (option Config).

Definition configToPubSubMessage (config : option Config) : Message + string :=
  match config with
  | None => inr "invalid config"
  | Some config =>
      let encodedData := setting config "data" in
      let attributesJSON := setting config "attributes" in
      if String.eqb attributesJSON "" && String.eqb encodedData ""
      then inr "at least one of these fields should be set 'attributes, data'" else
      match (if String.eqb attributesJSON "" then Some None else unmarshal_map attributesJSON) with
      | None => inr "invalid attributes JSON: "
      | Some attributes =>
          if String.eqb encodedData "" then inl (mk_message None attributes) else
          match DecodeString encodedData with
          | Some data => inl (mk_message (Some data) attributes)
          | None => inr "invalid encoded data: "
          end
      end
  end.

Definition ExecuteImpl (config : option Config) : list call * (string * option string) :=
  let get := setting (default ∅ config) in
  if String.eqb (get "project") "" then ([], ("", Some "missing project")) else
  if String.eqb (get "topic") "" then ([], ("", Some "missing topic")) else
  match configToPubSubMessage config with
  | inr err => ([], ("", Some ("convert config to pubsub message: " +:+ err)))
  | inl msg =>
      match new_client (get "project") with
      | Some err => ([NewClient (get "project")], ("", Some ("create client for project: " +:+ err)))
      | None =>
          ([NewClient (get "project"); PublishGet (get "topic") msg; Close],
            match publish (get "topic") msg with
            | inl serverID => (serverID, None)
            | inr err => ("", Some ("publish message to topic: " +:+ err))
            end)
      end
  end.
End pubsub.
End PubSub.

(** ** gRPC *)

Module GRPC.

Definition defaultTimeout : Z := 30.

Inductive call : Type :=
  | BlockingDial (address : string) (timeout : Z)
  | Reflect (body : string)
  | InvokeRPC (method : string) (headers : list string) (body : string)
  | Close.

Section grpc.
Variable answer : call → option string.
(** The status of the call, and the text of what it returned. *)
Variable status : Z.
Variable returned : string.
(** [json.Unmarshal] into a list of texts. *)
Variable unmarshal_strings : string → option (list string).

(** The settings that are numbers and headers, or the error. *)
Definition parse_config (config : Config) : (Z * Z * list string) + string :=
  let get := setting config in
  let number (s : string) (d : Z) (parse : string → option Z) : option Z :=
    if String.eqb s "" then Some d else parse s in
  match number (get "timeout") defaultTimeout (λ s, let (n, ok) := Atoi s in if ok then Some n else None) with
  | None => inr "Invalid timeout"
  | Some timeout =>
      match number (get "expectCode") 0 (ParseUint 32) with
      | None => inr "Invalid timeout"
      | Some expected =>
          match (if String.eqb (get "headers") "" then Some [] else unmarshal_strings (get "headers")) with
          | None => inr "Parsing headers failed"
          | Some headers => inl (timeout, expected, headers)
          end
      end
  end.

(** The buffer [output] is made, and nothing is written to it. *)
Definition ExecuteImpl (config : Config) : list call * (string * option string) :=
  let get := setting config in
  let output := "" in
  if String.eqb (get "url") "" then ([], (output, Some "url is empty")) else
  match Split "/" (get "url") with
  | address :: ((_ :: _) as path) =>
      match parse_config config with
      | inr err => ([], (output, Some err))
      | inl (timeout, expectedStatusCode, headers) =>
          let dial := BlockingDial address (int64 (timeout * 1000000000)) in
          match answer dial with
          | Some err => ([dial], (output, Some err))
          | None =>
              let reflect := Reflect (get "body") in
              match answer reflect with
              | Some err => ([dial; reflect; Close], (output, Some ("Failed querying reflection server: " +:+ err)))
              | None =>
                  let invoke := InvokeRPC (Join "/" path) headers (get "body") in
                  let out := returned in
                  ([dial; reflect; invoke; Close],
                    match answer invoke with
                    | Some err => (output, Some ("Failed querying reflection server: " +:+ err))
                    | None =>
                        if status =? expectedStatusCode then (output, None)
                        else (output, Some ("server returned " +:+ pretty status +:+ " code, expected "
                                            +:+ pretty expectedStatusCode))
                    end)
              end
          end
      end
  | _ => ([], (output, Some "we require at least a url and a path to do a proto request"))
  end.
End grpc.
End GRPC.

(** ** Lemmas *)

Example base64_examples :
  DecodeString "aGVsbG8gd29ybGQ=" = Some "hello world" ∧ DecodeString "aGk" = None ∧
  DecodeString "" = Some "" ∧ DecodeString "YWI=YWI=" = None ∧ ParseUint 8 "256" = None ∧ ParseUint 8 "02" = Some 2.
Proof. by vm_compute. Qed.

(** *** RabbitMQ *)

Section rabbitmq_lemmas.
Import RabbitMQ.
Variable answer : call → option string.

Definition messages (calls : list call) : list (string * string * Publishing.t) :=
  omap (λ c, match c with Publish exchange key m => Some (exchange, key, m) | _ => None end) calls.

Lemma publish_spec cfg : let (calls, err) := publish answer cfg in
  (messages calls = [] ∧ is_Some err) ∨
  ∃ m, messages calls = [(setting cfg "exchange", setting cfg "queue.name", m)] ∧
    err = answer (Publish (setting cfg "exchange") (setting cfg "queue.name") m) ∧
    inl (Publishing.Body m) = message_body cfg ∧ Publishing.MessageId m = setting cfg "message.messageId" ∧
    0 ≤ Publishing.DeliveryMode m < 256.
Proof.
  unfold publish. destruct (message_body cfg) as [body|err]; [|by left; eauto].
  destruct (ParseUint 8 _) as [mode|] eqn:Hm; [|by left; eauto].
  right. eexists. repeat (split; [done|]). cbn. revert Hm. unfold ParseUint.
  destruct (String.eqb _ ""); [done|]. cbn [orb]. destruct (all_digits _) eqn:Hd; [|done]. cbn [negb].
  case_match eqn:Hlt; [|done]. intros [= <-]. apply Z.ltb_lt in Hlt. split; [|exact Hlt].
  by apply digits_value_nonneg.
Qed.

Lemma created_spec cfg queue : let (calls, err) := createQueueIfNecessary answer cfg queue in
  messages calls = [] ∧ (err = None ∨ ∃ c, calls = [c] ∧ err = answer c).
Proof.
  unfold createQueueIfNecessary. destruct (cfg !! "queue.create") as [val|]; [|by auto].
  destruct (String.eqb val "false"); [by auto|]. split; [done|]. right. by eexists.
Qed.

Lemma messages_app l1 l2 : messages (l1 ++ l2) = messages l1 ++ messages l2.
Proof. apply omap_app. Qed.

(** At most one message is sent, with the body of the settings to the queue of
    the settings, and the execution succeeds exactly when the broker takes it; a
    connection that was made is closed. *)
Lemma rabbitmq_spec cfg :
  let (calls, err) := ExecuteImpl answer (Some cfg) in
  (match messages calls with
   | [] => is_Some err
   | [(exchange, key, m)] =>
       err = answer (Publish exchange key m) ∧ exchange = setting cfg "exchange" ∧
       key = setting cfg "queue.name" ∧ inl (Publishing.Body m) = message_body cfg
   | _ => False
   end) ∧
  (calls ≠ [] → answer (Dial (setting cfg "url")) = None → last calls = Some CloseConnection).
Proof.
  cbn [ExecuteImpl].
  destruct (String.eqb (setting cfg "url") ""); [by cbn; eauto|].
  destruct (String.eqb (setting cfg "queue.name") ""); [by cbn; eauto|].
  destruct (_ && _); [by cbn; eauto|].
  destruct (answer (Dial _)) as [err|]; [by cbn; eauto|]. destruct (answer Channel) as [err|]; [by cbn; eauto|].
  pose proof (created_spec cfg (setting cfg "queue.name")) as Hc.
  destruct (createQueueIfNecessary _ _ _) as [created err]. destruct Hc as [Hc Herr].
  destruct err as [err|].
  - split; [rewrite !messages_app, Hc; cbn; eauto|]. intros _ _. by rewrite !app_assoc, last_app.
  - pose proof (publish_spec cfg) as Hp. destruct (publish answer cfg) as [sent err].
    split; [|intros _ _; by rewrite !app_assoc, last_app]. rewrite !messages_app, Hc. cbn [messages omap app].
    destruct Hp as [[-> He]|(m & -> & He & Hb & _)]; [done|]. by cbn.
Qed.
End rabbitmq_lemmas.

(** A key for the encoded body, even without a text, hides the body: an empty
    message is sent. *)
Example empty_base64_hides_body :
  RabbitMQ.message_body {["message.body" := "hello"; "message.base64Body" := ""]} = inl "".
Proof. by vm_compute. Qed.

(** *** Kafka *)

(** Passwords are sent by a SCRAM mechanism only; what is not refused is sent
    once, and a producer that was made is closed. *)
Lemma kafka_spec answer cfg :
  let (calls, result) := Kafka.ExecuteImpl answer cfg in
  match calls with
  | [] => is_Some result.2
  | [Kafka.NewSyncProducer brokers config] => result.2 = answer (Kafka.NewSyncProducer brokers config) ∧ is_Some result.2
  | [Kafka.NewSyncProducer brokers config; Kafka.SendMessage topic key value; Kafka.Close] =>
      result.2 = answer (Kafka.SendMessage topic key value) ∧
      topic = setting cfg "topic" ∧ value = setting cfg "message" ∧ Join "," brokers = setting cfg "brokerAddress" ∧
      (Kafka.sasl config = None ↔ setting cfg "saslUsername" = "" ∨ setting cfg "saslPassword" = "")
  | _ => False
  end.
Proof.
  unfold Kafka.ExecuteImpl.
  destruct (String.eqb (setting cfg "brokerAddress") ""); [by cbn; eauto|].
  destruct (String.eqb (setting cfg "topic") ""); [by cbn; eauto|].
  destruct (String.eqb_spec (setting cfg "saslUsername") "") as [Hu|Hu],
    (String.eqb_spec (setting cfg "saslPassword") "") as [Hp|Hp]; cbn [negb andb];
    repeat (destruct (String.eqb (setting cfg "saslMechanism") _); cbn [negb andb]); try (by cbn; eauto).
  all: destruct (answer (Kafka.NewSyncProducer _ _)) as [err|] eqn:Hn; [by rewrite ?Hn; eauto|].
  all: destruct (answer (Kafka.SendMessage _ _ _)) as [err|] eqn:Hs; rewrite ?Hs; cbn -[Split Join];
    rewrite Join_Split; intuition congruence.
Qed.

(** *** NATS *)

(** Once it is connected the execution succeeds, whatever becomes of the message. *)
Lemma nats_unchecked answer connected cfg :
  setting cfg "url" ≠ "" → setting cfg "subject" ≠ "" →
  answer (Nats.Connect (setting cfg "url") (setting cfg "userName") (setting cfg "password")) = None →
  ExecuteResponse.Error (Execute (Nats.ExecuteImpl answer connected cfg).2) = "".
Proof.
  intros Hu Hs Ha. unfold Nats.ExecuteImpl.
  by rewrite (proj2 (String.eqb_neq _ _) Hu), (proj2 (String.eqb_neq _ _) Hs), Ha.
Qed.

(** *** Pub/Sub *)

(** An execution that succeeds has sent one message, with data or attributes set. *)
Lemma pubsub_spec new_client publish unmarshal config :
  let (calls, result) := PubSub.ExecuteImpl new_client publish unmarshal config in
  result.2 = None →
  ∃ project topic msg, calls = [PubSub.NewClient project; PubSub.PublishGet topic msg; PubSub.Close] ∧
    publish topic msg = inl result.1 ∧ PubSub.configToPubSubMessage unmarshal config = inl msg.
Proof.
  unfold PubSub.ExecuteImpl. set (cfg := default ∅ config).
  destruct (String.eqb (setting cfg "project") ""); [done|].
  destruct (String.eqb (setting cfg "topic") ""); [done|].
  destruct (PubSub.configToPubSubMessage _ _) as [msg|err]; [|done].
  destruct (new_client _); [done|]. destruct (publish _ msg) as [i|] eqn:Hp; [|done].
  intros _. by do 3 eexists.
Qed.

(** *** gRPC *)

(** What the service returns is never in the output of the execution. *)
Lemma grpc_no_output answer status returned unmarshal cfg :
  (GRPC.ExecuteImpl answer status returned unmarshal cfg).2.1 = "".
Proof.
  unfold GRPC.ExecuteImpl. repeat (case_match; cbn; try done).
Qed.

(** It succeeds exactly when the call was made and ended with the expected status. *)
Lemma grpc_succeeds answer status returned unmarshal cfg :
  (GRPC.ExecuteImpl answer status returned unmarshal cfg).2.2 = None ↔
  ∃ address service segments timeout headers,
    Split "/" (setting cfg "url") = address :: service :: segments ∧ setting cfg "url" ≠ "" ∧
    GRPC.parse_config unmarshal cfg = inl (timeout, status, headers) ∧
    answer (GRPC.BlockingDial address (int64 (timeout * 1000000000))) = None ∧
    answer (GRPC.Reflect (setting cfg "body")) = None ∧
    answer (GRPC.InvokeRPC (Join "/" (service :: segments)) headers (setting cfg "body")) = None.
Proof.
  unfold GRPC.ExecuteImpl. split.
  - destruct (String.eqb_spec (setting cfg "url") "") as [E|Hu]; [done|].
    destruct (Split "/" (setting cfg "url")) as [|address [|service segments]] eqn:Hs; [done..|].
    destruct (GRPC.parse_config _ _) as [[[timeout expected] headers]|err]; [|done].
    destruct (answer (GRPC.BlockingDial _ _)) eqn:Hd; [done|].
    destruct (answer (GRPC.Reflect _)) eqn:Hr; [done|].
    destruct (answer (GRPC.InvokeRPC _ _ _)) eqn:Hi; [done|].
    destruct (Z.eqb_spec status expected) as [->|Hne]; [|done]. intros _.
    exists address, service, segments, timeout, headers. split_and!; done || exact Hd || exact Hi.
  - intros (address & service & segments & timeout & headers & -> & Hu & -> & Hd & Hr & Hi).
    rewrite (proj2 (String.eqb_neq _ _) Hu), Hd, Hr. by rewrite Hi, Z.eqb_refl.
Qed.
