(* ===== verification/Keys.v ===== *)
(** * Keys: the key of the cluster

    The command of src/cmd/keygen.go that makes a key, and [EncryptBytes] of
    src/dkron/config.go, which an agent reads it with.  Random bytes are an
    argument; base64 is written out, its decoder in file Executors.  What is shown:
    what the command prints is read back as the bytes that were made. *)

From S2P Require Import Prelude GoCore GoText Executors.

(** ** Package encoding/base64 *)

Definition base64_char (v : Z) : ascii :=
  char_of (if v <? 26 then v + 65 else if v <? 52 then v + 71 else if v <? 62 then v - 4
           else if v =? 62 then 43 else 47).

(** [base64.StdEncoding.EncodeToString] *)
Fixpoint EncodeToString (s : string) : string :=
  match s with
  | EmptyString => ""
  | String a EmptyString =>
      let a := byte_of a in
      String (base64_char (a / 4)) (String (base64_char (a mod 4 * 16)) "==")
  | String a (String b EmptyString) =>
      let a := byte_of a in let b := byte_of b in
      String (base64_char (a / 4)) (String (base64_char (a mod 4 * 16 + b / 16))
        (String (base64_char (b mod 16 * 4)) "="))
  | String a (String b (String c r)) =>
      let a := byte_of a in let b := byte_of b in let c := byte_of c in
      String (base64_char (a / 4)) (String (base64_char (a mod 4 * 16 + b / 16))
        (String (base64_char (b mod 16 * 4 + c / 64)) (String (base64_char (c mod 64)) (EncodeToString r))))
  end.

(** ** Keys *)

Inductive keygen_error : Type := ErrRandom (err : string) | ErrEntropy.

(** What reading 16 random bytes gives: the buffer and how many were read, or an
    error. *)
Definition keygen (Read : (string * Z) + string) : string + keygen_error :=
  match Read with
  | inr err => inr (ErrRandom err)
  | inl (key, n) => if negb (n =? 16) then inr ErrEntropy else inl (EncodeToString key)
  end.

(** [None] is an error: the agent does not start. *)
Definition EncryptBytes (EncryptKey : string) : option string := DecodeString EncryptKey.

(** ** Lemmas *)

(** The 64 characters have their values, and are neither padding nor the end of a
    line. *)
Lemma base64_chars : Forall (λ v, base64_value (base64_char v) = Some v ∧
  Ascii.eqb (base64_char v) "=" = false ∧ is_newline (base64_char v) = false) (seqZ 0 64).
Proof. apply (bool_decide_unpack _). by vm_compute. Qed.

Lemma base64_char_ok v : 0 ≤ v < 64 → base64_value (base64_char v) = Some v ∧
  Ascii.eqb (base64_char v) "=" = false ∧ is_newline (base64_char v) = false.
Proof. intros Hv. apply (proj1 (Forall_forall _ _) base64_chars). apply elem_of_seqZ. lia. Qed.

Lemma char_of_byte c z : z mod 256 = byte_of c → char_of z = c.
Proof.
  unfold char_of. intros ->. unfold byte_of. rewrite N2Z.id.
  apply ascii_N_embedding.
Qed.

(** Bits that do not overlap are added. *)
Lemma lor_shiftl hi lo n : 0 ≤ n → 0 ≤ lo < 2 ^ n → Z.lor (Z.shiftl hi n) lo = hi * 2 ^ n + lo.
Proof.
  intros Hn Hlo. rewrite <- Z.shiftl_mul_pow2 by done. symmetry. apply Z.add_nocarry_lor, Z.bits_inj'.
  intros i Hi. rewrite Z.land_spec, Z.bits_0. destruct (Z.ltb_spec i n).
  - by rewrite Z.shiftl_spec_low.
  - destruct (decide (lo = 0)) as [->|]; [by rewrite Z.bits_0, andb_false_r|].
    rewrite (Z.bits_above_log2 lo i); [apply andb_false_r|lia|]. apply Z.log2_lt_pow2; [lia|].
    apply Z.lt_le_trans with (2 ^ n); [lia|]. by apply Z.pow_le_mono_r.
Qed.

#[local] Ltac Zify.zify_post_hook ::= Z.to_euclidean_division_equations.

Lemma decode_first a y : 0 ≤ byte_of a < 256 → y / 16 = byte_of a mod 4 →
  char_of (Z.lor (Z.shiftl (byte_of a / 4) 2) (Z.shiftr y 4)) = a.
Proof.
  intros Ha Hy. rewrite Z.shiftr_div_pow2, lor_shiftl by (change (2 ^ 4) with 16; lia).
  apply char_of_byte. change (2 ^ 4) with 16. change (2 ^ 2) with 4. lia.
Qed.

Lemma decode_second b hi z : 0 ≤ byte_of b < 256 → z / 4 = byte_of b mod 16 →
  char_of (Z.lor (Z.shiftl (hi * 16 + byte_of b / 16) 4) (Z.shiftr z 2)) = b.
Proof.
  intros Hb Hz. rewrite Z.shiftr_div_pow2, lor_shiftl by (change (2 ^ 2) with 4; lia).
  apply char_of_byte. change (2 ^ 4) with 16. change (2 ^ 2) with 4. lia.
Qed.

Lemma decode_third c hi : 0 ≤ byte_of c < 256 →
  char_of (Z.lor (Z.shiftl (hi * 4 + byte_of c / 64) 6) (byte_of c mod 64)) = c.
Proof. intros Hc. rewrite lor_shiftl by lia. apply char_of_byte. change (2 ^ 6) with 64. lia. Qed.

(** Induction on a string in groups of three. *)
Lemma string_ind3 (P : string → Prop) :
  P "" → (∀ a, P (String a "")) → (∀ a b, P (String a (String b ""))) →
  (∀ a b c r, P r → P (String a (String b (String c r)))) → ∀ s, P s.
Proof.
  intros H0 H1 H2 H3. fix IH 1. intros [|a [|b [|c r]]]; [exact H0|apply H1|apply H2|apply H3, IH].
Qed.

(** The ranges of the values that are encoded. *)
Lemma base64_ranges a b c :
  0 ≤ byte_of a / 4 < 64 ∧ 0 ≤ byte_of a mod 4 * 16 < 64 ∧ 0 ≤ byte_of a mod 4 * 16 + byte_of b / 16 < 64 ∧
  0 ≤ byte_of b mod 16 * 4 < 64 ∧ 0 ≤ byte_of b mod 16 * 4 + byte_of c / 64 < 64 ∧ 0 ≤ byte_of c mod 64 < 64.
Proof. pose proof (byte_of_range a). pose proof (byte_of_range b). pose proof (byte_of_range c). lia. Qed.

(** No character of an encoded string is left out when it is decoded. *)
Lemma EncodeToString_no_newline s :
  List.filter (λ c, negb (is_newline c)) (String.list_ascii_of_string (EncodeToString s)) =
    String.list_ascii_of_string (EncodeToString s).
Proof.
  pose proof (λ v H, proj2 (proj2 (base64_char_ok v H))) as Hn.
  induction s as [|a|a b|a b c r IH] using string_ind3; [done|..].
  - destruct (base64_ranges a a a) as (? & ? & _).
    cbn [EncodeToString String.list_ascii_of_string List.filter]. by rewrite !Hn by done.
  - destruct (base64_ranges a b a) as (? & ? & ? & ? & _).
    cbn [EncodeToString String.list_ascii_of_string List.filter]. by rewrite !Hn by done.
  - destruct (base64_ranges a b c) as (? & ? & ? & ? & ? & ?).
    cbn [EncodeToString String.list_ascii_of_string List.filter]. rewrite !Hn by done. cbn [negb]. by rewrite IH.
Qed.

Lemma decode_groups_EncodeToString s : decode_groups (EncodeToString s) = Some s.
Proof.
  pose proof (λ v H, proj1 (base64_char_ok v H)) as Hv.
  pose proof (λ v H, proj1 (proj2 (base64_char_ok v H))) as He.
  induction s as [|a|a b|a b c r IH] using string_ind3; [done|..]; pose proof (byte_of_range a) as Ha.
  - destruct (base64_ranges a a a) as (? & ? & _). cbn [EncodeToString decode_groups]. rewrite !Hv by done.
    cbn. by rewrite decode_first by lia.
  - destruct (base64_ranges a b a) as (? & ? & ? & ? & _). pose proof (byte_of_range b).
    cbn [EncodeToString decode_groups]. rewrite !Hv, !He by done.
    cbn [Ascii.eqb Bool.eqb String.eqb]. by rewrite decode_first, decode_second by lia.
  - destruct (base64_ranges a b c) as (? & ? & ? & ? & ? & ?). pose proof (byte_of_range b). pose proof (byte_of_range c).
    cbn [EncodeToString decode_groups]. rewrite !Hv, !He, IH by done.
    by rewrite decode_first, decode_second, decode_third by lia.
Qed.

(** What is encoded is read back, whatever its bytes. *)
Lemma base64_roundtrip s : DecodeString (EncodeToString s) = Some s.
Proof.
  unfold DecodeString. by rewrite EncodeToString_no_newline, String.string_of_list_ascii_of_string,
    decode_groups_EncodeToString.
Qed.

(** A key the command prints is read back as the bytes that were made; a short read
    is refused. *)
Lemma keygen_accepted key n :
  match keygen (inl (key, n)) with
  | inl text => n = 16 ∧ EncryptBytes text = Some key
  | inr err => n ≠ 16 ∧ err = ErrEntropy
  end.
Proof.
  unfold keygen. destruct (Z.eqb_spec n 16); cbn [negb]; [|done]. split; [done|]. apply base64_roundtrip.
Qed.

Example keygen_demo : keygen (inl ("0123456789abcdef", 16)) = inl "MDEyMzQ1Njc4OWFiY2RlZg==".
Proof. vm_compute. reflexivity. Qed.
