(* ===== verification/ShellExecutor.v ===== *)
(** * ShellExecutor: jobs that run a command

    src/plugin/shell/shell.go and shell_unix.go: how the command is put together,
    and what watches it while it runs: a timer that kills it, and a monitor of its
    memory.  The operating system is parameters and events: words of a command,
    users, starting, what the process writes, how much memory it is seen to use,
    and when it exits.  The timer and the monitor first kill and then set a message,
    each a step of its own, and the exit is noticed between any two steps.  Memory is
    a number of bytes below 2^53.  The theorem: a limit is enforced exactly for jobs
    that run in a process group of their own, and reported exactly when the message
    is set in time. *)

From S2P Require Import Prelude GoCore GoText MemoryLimit Jobs.

(** ** The command *)

Module Cmd.
Record t := mk {
  Args : list string;
  Env : list string;
  Dir : string;
  Setpgid : bool;
  Credential : option (Z * Z);
  Stdin : string;
}.
End Cmd.

Inductive shell_error : Type :=
  | ErrWords | ErrCommandMissing | ErrUser | ErrGroup | ErrPayload | ErrJobTimeout | ErrStart
  | ErrLimit (e : limit_error).

Section shell.
(** go-shellwords, os/user, encoding/base64, [time.ParseDuration], [os.Environ],
    the start of a process, and [int64] of a number that is too large. *)
Variable shellwords_Parse : string → option (list string).
Variable Lookup : string → option (Z * Z).
Variable LookupGroup : string → option Z.
Variable DecodeString : string → option string.
Variable ParseDuration : string → option Z.
Variable Environ : list string.
Variable Start : Cmd.t → bool.
Variable int64_overflow : Z.

Abbreviation cfg config key := (config_get key config).

Definition buildCmd (command : string) (useShell : bool) (env : list string) (cwd : string) : Cmd.t + shell_error :=
  let cmd args := inl (Cmd.mk args (Environ ++ env) cwd false None "") in
  if useShell then cmd ["/bin/sh"; "-c"; command] else
  match shellwords_Parse command with
  | None => inr ErrWords
  | Some [] => inr ErrCommandMissing
  | Some args => cmd args
  end.

(** Not on Windows. *)
Definition setCmdAttr (cmd : Cmd.t) (config : Config) : Cmd.t + shell_error :=
  let with_attr setpgid credential :=
    Cmd.mk (Cmd.Args cmd) (Cmd.Env cmd) (Cmd.Dir cmd) setpgid credential (Cmd.Stdin cmd) in
  let su := cfg config "su" in
  let has_timeout := negb (String.eqb (cfg config "timeout") "") in
  if String.eqb su "" then inl (with_attr has_timeout None) else
  match Split ":" su with
  | [] => inr ErrUser
  | name :: group =>
      match Lookup name with
      | None => inr ErrUser
      | Some (uid, gid) =>
          match group with
          | [] => inl (with_attr true (Some (uint32 uid, uint32 gid)))
          | g :: _ =>
              match LookupGroup g with
              | None => inr ErrGroup
              | Some gid => inl (with_attr true (Some (uint32 uid, uint32 gid)))
              end
          end
      end
  end.

(** Everything up to the start: the command, and the time it has (0 for none). *)
Definition prepare (job_name : string) (config : Config) : Cmd.t * Z + shell_error :=
  let shell := default false (ParseBool (cfg config "shell")) in
  let env := Split "," (cfg config "env") ++ Split "," ("ENV_JOB_NAME=" +:+ job_name) in
  match buildCmd (cfg config "command") shell env (cfg config "cwd") with
  | inr err => inr err
  | inl cmd =>
      match setCmdAttr cmd config with
      | inr err => inr err
      | inl cmd =>
          match DecodeString (cfg config "payload") with
          | None => inr ErrPayload
          | Some payload =>
              let cmd := Cmd.mk (Cmd.Args cmd) (Cmd.Env cmd) (Cmd.Dir cmd) (Cmd.Setpgid cmd) (Cmd.Credential cmd) payload in
              if String.eqb (cfg config "timeout") "" then inl (cmd, 0) else
              match ParseDuration (cfg config "timeout") with
              | None => inr ErrJobTimeout
              | Some jt => inl (cmd, jt)
              end
          end
      end
  end.

(** ** The run *)

(** What is written to the output: by the command, or by the executor about it;
    [killed] is whether the signal could be sent. *)
Inductive shell_write : Type :=
  | FromCommand (data : string) (is_error : bool)
  | TimeoutMessage (killed : bool)
  | MemLimitMessage (killed : bool).

(** What happens while the executor waits for the process.  The timer kills first and
    then sets its message; the monitor looks ([MemTick None] is an error of the look),
    kills, and then sets its message: each is a step of another goroutine, and [Wait]
    may return between any two of them. *)
Inductive process_event : Type :=
  | Wrote (data : string) (is_error : bool)
  | TimerFires
  | TimerReports
  | MemTick (mem : option Z)
  | MonitorKills
  | MonitorReports.

#[global] Instance process_event_eq_dec : EqDecision process_event.
Proof. solve_decision. Defined.

Inductive timer_state : Type := TimerOff | TimerSet | TimerKilled | TimerDone.
Inductive monitor_state : Type := MonitorOff | Watching | Exceeded | MonitorKilled | MonitorDone.

Record watch := mk_watch {
  written : list shell_write;
  killed : bool;                      (** the signal reached the process *)
  timer : timer_state;
  monitor : monitor_state;
  jobTimedOut : option shell_write;
  memLimitExceeded : option shell_write;
}.

(** [processKill]: the signal goes to the group of that number, which there is when
    the process was started in a group of its own. *)
Definition processKill (cmd : Cmd.t) : bool := Cmd.Setpgid cmd.

Definition watch_step (cmd : Cmd.t) (memLimit : Z) (w : watch) (e : process_event) : watch :=
  match e with
  | Wrote data is_error =>
      mk_watch (written w ++ [FromCommand data is_error]) (killed w) (timer w) (monitor w) (jobTimedOut w) (memLimitExceeded w)
  | TimerFires =>
      match timer w with
      | TimerSet =>
          mk_watch (written w) (killed w || processKill cmd) TimerKilled (monitor w) (jobTimedOut w) (memLimitExceeded w)
      | _ => w
      end
  | TimerReports =>
      match timer w with
      | TimerKilled =>
          mk_watch (written w) (killed w) TimerDone (monitor w) (Some (TimeoutMessage (processKill cmd))) (memLimitExceeded w)
      | _ => w
      end
  | MemTick mem =>
      match monitor w, mem with
      | Watching, Some m =>
          if memLimit <? m then
            mk_watch (written w) (killed w) (timer w) Exceeded (jobTimedOut w) (memLimitExceeded w)
          else w
      | _, _ => w
      end
  | MonitorKills =>
      match monitor w with
      | Exceeded =>
          mk_watch (written w) (killed w || processKill cmd) (timer w) MonitorKilled (jobTimedOut w) (memLimitExceeded w)
      | _ => w
      end
  | MonitorReports =>
      match monitor w with
      | MonitorKilled =>
          mk_watch (written w) (killed w) (timer w) MonitorDone (jobTimedOut w) (Some (MemLimitMessage (processKill cmd)))
      | _ => w
      end
  end.

Definition watch_run (cmd : Cmd.t) (jt memLimit : Z) (es : list process_event) : watch :=
  fold_left (watch_step cmd memLimit) es
    (mk_watch [] false (if jt =? 0 then TimerOff else TimerSet) (if 0 <? memLimit then Watching else MonitorOff) None None).

(** How an execution ends: an error, maybe with the process still running, or the
    exit of the process with what was written and the error of [Wait]. *)
Inductive shell_result : Type :=
  | ShellFailed (err : shell_error) (left_running : bool)
  | ShellDone (output : list shell_write) (err : option string).

Definition shell_ExecuteImpl (job_name : string) (config : Config) (es : list process_event) (exit : option string)
    : shell_result :=
  match prepare job_name config with
  | inr err => ShellFailed err false
  | inl (cmd, jt) =>
      if negb (Start cmd) then ShellFailed ErrStart false else
      match parseMemoryLimit int64_overflow (cfg config "mem_limit") with
      | inr err => ShellFailed (ErrLimit err) true
      | inl memLimit =>
          let w := watch_run cmd jt memLimit es in
          let message o := match o with Some m => [m] | None => [] end in
          ShellDone (written w ++ message (jobTimedOut w) ++ message (memLimitExceeded w)) exit
      end
  end.

(** ** Lemmas *)

(** A group of its own comes with a user or a timeout. *)
Lemma prepare_Setpgid job_name config cmd jt : prepare job_name config = inl (cmd, jt) →
  Cmd.Setpgid cmd = true ↔ cfg config "su" ≠ "" ∨ cfg config "timeout" ≠ "".
Proof.
  unfold prepare. destruct (buildCmd _ _ _ _) as [cmd0|]; [|done].
  destruct (setCmdAttr cmd0 config) as [cmd1|] eqn:E; [|done].
  destruct (DecodeString _) as [payload|]; [|done]. intros Hp.
  assert (Cmd.Setpgid cmd = Cmd.Setpgid cmd1) as ->.
  { destruct (String.eqb _ ""); [by injection Hp as <- _|]. destruct (ParseDuration _); [by injection Hp as <- _|done]. }
  clear Hp. revert E. unfold setCmdAttr. destruct (String.eqb_spec (cfg config "su") "") as [Hsu|Hsu].
  - intros [= <-]. cbn. rewrite negb_true_iff, String.eqb_neq. tauto.
  - destruct (Split ":" _) as [|name group]; [done|]. destruct (Lookup name) as [[uid gid]|]; [|done].
    destruct group as [|g group]; [|destruct (LookupGroup g); [|done]]; intros [= <-]; cbn; tauto.
Qed.

Lemma watch_run_snoc cmd jt memLimit es e :
  watch_run cmd jt memLimit (es ++ [e]) = watch_step cmd memLimit (watch_run cmd jt memLimit es) e.
Proof. unfold watch_run. by rewrite fold_left_app. Qed.

(** What has happened in some events: the step [e] was taken when [P] held already. *)
Definition after (P : list process_event → Prop) (e : process_event) (es : list process_event) : Prop :=
  ∃ es1 es2, es = es1 ++ e :: es2 ∧ P es1.

(** A look found more than the limit; the monitor went on to the signal, and to its message. *)
Definition exceeds (memLimit : Z) (es : list process_event) : Prop := ∃ m, MemTick (Some m) ∈ es ∧ memLimit < m.
Definition signalled (memLimit : Z) : list process_event → Prop := after (exceeds memLimit) MonitorKills.
Definition reported (memLimit : Z) : list process_event → Prop := after (signalled memLimit) MonitorReports.
Definition timed_out (jt : Z) (es : list process_event) : Prop := jt ≠ 0 ∧ TimerFires ∈ es.

Lemma after_snoc P e es e' : after P e (es ++ [e']) ↔ after P e es ∨ (e' = e ∧ P es).
Proof.
  split.
  - intros (es1 & es2 & E & HP). induction es2 as [|x es2 _] using rev_ind.
    + apply app_inj_tail in E as [-> ->]. by right.
    + rewrite app_comm_cons, app_assoc in E. apply app_inj_tail in E as [-> ->]. left. by exists es1, es2.
  - intros [(es1 & es2 & -> & HP)|[-> HP]]; [exists es1, (es2 ++ [e'])|by exists es, []].
    by rewrite <- app_assoc.
Qed.

Lemma exceeds_snoc memLimit es e : exceeds memLimit (es ++ [e]) ↔
  exceeds memLimit es ∨ ∃ m, e = MemTick (Some m) ∧ memLimit < m.
Proof.
  unfold exceeds. setoid_rewrite elem_of_app. setoid_rewrite list_elem_of_singleton. naive_solver.
Qed.

Lemma timed_out_snoc jt es e : timed_out jt (es ++ [e]) ↔ timed_out jt es ∨ (jt ≠ 0 ∧ e = TimerFires).
Proof. unfold timed_out. rewrite elem_of_app, list_elem_of_singleton. naive_solver. Qed.

(** Where the timer and the monitor are. *)
Definition timer_at (jt : Z) (es : list process_event) (t : timer_state) : Prop :=
  match t with
  | TimerOff => jt = 0
  | TimerSet => jt ≠ 0 ∧ ¬ timed_out jt es
  | TimerKilled | TimerDone => timed_out jt es
  end.

Definition monitor_at (memLimit : Z) (es : list process_event) (m : monitor_state) : Prop :=
  match m with
  | MonitorOff => False
  | Watching => ¬ exceeds memLimit es ∧ ¬ signalled memLimit es ∧ ¬ reported memLimit es
  | Exceeded => exceeds memLimit es ∧ ¬ signalled memLimit es ∧ ¬ reported memLimit es
  | MonitorKilled => exceeds memLimit es ∧ signalled memLimit es ∧ ¬ reported memLimit es
  | MonitorDone => exceeds memLimit es ∧ signalled memLimit es ∧ reported memLimit es
  end.

Lemma watch_run_timer cmd jt memLimit es : timer_at jt es (timer (watch_run cmd jt memLimit es)).
Proof.
  induction es as [|e es IH] using rev_ind.
  - unfold watch_run. cbn. destruct (Z.eqb_spec jt 0); cbn; [done|]. split; [done|]. intros [_ ?]; set_solver.
  - rewrite watch_run_snoc. set (w := watch_run cmd jt memLimit es) in *.
    assert (∀ t, e ≠ TimerFires → timer_at jt es t → timer_at jt (es ++ [e]) t) as Hother.
    { intros []; cbn; rewrite ?timed_out_snoc; naive_solver. }
    destruct e as [data er| | |mem| |]; cbn [watch_step].
    + by apply Hother.
    + destruct (timer w) eqn:E; cbn; rewrite ?E; cbn in IH |- *; rewrite ?timed_out_snoc; naive_solver.
    + destruct (timer w) eqn:E; cbn [timer]; rewrite ?E; by apply (Hother _ ltac:(done)).
    + destruct (monitor w); try by apply Hother. destruct mem as [m|]; [|by apply Hother].
      destruct (memLimit <? m); by apply Hother.
    + destruct (monitor w); by apply Hother.
    + destruct (monitor w); by apply Hother.
Qed.

Lemma watch_run_monitor cmd jt memLimit es : 0 < memLimit →
  monitor_at memLimit es (monitor (watch_run cmd jt memLimit es)).
Proof.
  intros Hl. induction es as [|e es IH] using rev_ind.
  - unfold watch_run. cbn. rewrite (proj2 (Z.ltb_lt _ _) Hl). cbn.
    split; [|split]; [intros (m & Hin & _); set_solver|intros ([] & ? & ? & ?); done|intros ([] & ? & ? & ?); done].
  - rewrite watch_run_snoc. set (w := watch_run cmd jt memLimit es) in *.
    destruct e as [data er| | |mem| |]; cbn [watch_step].
    5-6: destruct (monitor w) eqn:E; cbn; rewrite ?E; cbn in IH |- *;
      unfold reported, signalled in *; rewrite ?after_snoc, ?exceeds_snoc; naive_solver.
    4: { destruct (monitor w) eqn:E; cbn; rewrite ?E; destruct mem as [m|]; cbn; rewrite ?E;
         try (destruct (Z.ltb_spec memLimit m)); cbn; rewrite ?E; cbn in IH |- *; unfold reported, signalled in *;
         rewrite ?after_snoc, ?exceeds_snoc; try assert (∀ m', MemTick (Some m) = MemTick (Some m') → m = m')
           by congruence; naive_solver lia. }
    all: try destruct (timer w); cbn; destruct (monitor w); cbn in IH |- *; unfold reported, signalled in *;
      rewrite ?after_snoc, ?exceeds_snoc; naive_solver.
Qed.

Lemma watch_run_killed cmd jt memLimit es : 0 < memLimit →
  killed (watch_run cmd jt memLimit es) = true ↔
  processKill cmd = true ∧ (signalled memLimit es ∨ timed_out jt es).
Proof.
  intros Hl. induction es as [|e es IH] using rev_ind.
  - unfold watch_run, timed_out. cbn. split; [done|]. intros [_ [([] & ? & ? & ?)|[_ ?]]]; [done|done|set_solver].
  - pose proof (watch_run_timer cmd jt memLimit es) as Ht. pose proof (watch_run_monitor cmd jt memLimit es Hl) as Hm.
    rewrite watch_run_snoc, timed_out_snoc. unfold signalled in *. rewrite after_snoc.
    set (w := watch_run cmd jt memLimit es) in *. destruct e as [data er| | |mem| |]; cbn [watch_step].
    + cbn. naive_solver.
    + destruct (timer w) eqn:E; cbn in Ht |- *; rewrite ?orb_true_iff; naive_solver.
    + destruct (timer w) eqn:E; cbn; naive_solver.
    + destruct (monitor w), mem as [m|]; try destruct (memLimit <? m); cbn; naive_solver.
    + destruct (monitor w) eqn:E; cbn in Hm |- *; rewrite ?orb_true_iff; unfold signalled in *; intuition congruence.
    + destruct (monitor w) eqn:E; cbn; naive_solver.
Qed.

(** What is in the output besides the message of the monitor, and that message. *)
Lemma watch_run_messages cmd jt memLimit es : 0 < memLimit →
  let w := watch_run cmd jt memLimit es in
  (∀ b, MemLimitMessage b ∉ written w) ∧ (∀ b, jobTimedOut w ≠ Some (MemLimitMessage b)) ∧
  (∀ x, memLimitExceeded w = Some x ↔ x = MemLimitMessage (processKill cmd) ∧ reported memLimit es).
Proof.
  intros Hl. cbv zeta. induction es as [|e es (Hw & Ht & Hx)] using rev_ind.
  - unfold watch_run. cbn. split; [set_solver|]. split; [done|]. intros x. split; [done|]. intros [_ ([] & ? & ? & ?)]; done.
  - pose proof (watch_run_monitor cmd jt memLimit es Hl) as Hm. rewrite watch_run_snoc. unfold reported in *.
    setoid_rewrite after_snoc. set (w := watch_run cmd jt memLimit es) in *.
    destruct e as [data er| | |mem| |]; cbn [watch_step].
    + cbn. split; [intros b [?|?%list_elem_of_singleton]%elem_of_app; [by eapply Hw|done]|]. split; [done|naive_solver].
    + destruct (timer w); cbn; naive_solver.
    + destruct (timer w); cbn; naive_solver.
    + destruct (monitor w), mem as [m|]; try destruct (memLimit <? m); cbn; naive_solver.
    + destruct (monitor w); cbn; naive_solver.
    + destruct (monitor w) eqn:E; cbn in Hm |- *; unfold reported in *; naive_solver.
Qed.

(** C27. What becomes of a job with a memory limit, once its command has started.  The
    server accepted it, on a machine where a number too large for 64 bits does not
    become a positive one.  Then it is never left running because the limit cannot be
    read.  The process is sent a signal that reaches it if and only if it runs in a
    group of its own, that is if the job also has a timeout or a user, and the monitor
    went on to kill it after it had seen more than the limit, or the timeout passed;
    so without a timeout or a user nothing is ever killed, and no process within its
    limit and its time is.  The output says that the limit was exceeded exactly when
    the monitor came to set its message before the end of the process was noticed; the
    monitor does that after the signal, so a killed process may end without it. *)
Theorem memory_limit_enforced `{Env} j es exit cmd jt :
  Validate j = None → Job.Executor j = "shell" → Jobs.int64_overflow ≤ 0 →
  prepare (Job.Name j) (Job.ExecutorConfig j) = inl (cmd, jt) → Start cmd = true →
  ∃ limit output,
    parseMemoryLimit int64_overflow (cfg (Job.ExecutorConfig j) "mem_limit") = inl limit ∧
    shell_ExecuteImpl (Job.Name j) (Job.ExecutorConfig j) es exit = ShellDone output exit ∧
    (0 < limit →
      let grouped := cfg (Job.ExecutorConfig j) "su" ≠ "" ∨ cfg (Job.ExecutorConfig j) "timeout" ≠ "" in
      (killed (watch_run cmd jt limit es) = true ↔ grouped ∧ (signalled limit es ∨ timed_out jt es)) ∧
      (∀ b, MemLimitMessage b ∈ output ↔ reported limit es ∧ (b = true ↔ grouped))).
Proof.
  intros (_ & _ & _ & _ & _ & _ & Hlim)%Validate_None Hsh Ho Hp Hstart. destruct (Hlim Hsh) as [_ Hv].
  destruct (valid_limit_read _ int64_overflow _ Ho Hv) as (limit & Hl0 & Hl).
  set (w := watch_run cmd jt limit es).
  exists limit, (written w ++ (match jobTimedOut w with Some m => [m] | None => [] end)
    ++ match memLimitExceeded w with Some m => [m] | None => [] end).
  split; [done|]. split; [unfold shell_ExecuteImpl; by rewrite Hp, Hstart, Hl|].
  intros Hpos grouped. pose proof (prepare_Setpgid _ _ _ _ Hp) as Hg. change (processKill cmd = true ↔ grouped) in Hg.
  split; [rewrite watch_run_killed by done; tauto|].
  destruct (watch_run_messages cmd jt limit es Hpos) as (Hw & Ht & Hx). fold w in Hw, Ht, Hx.
  intros b. rewrite !elem_of_app. transitivity (memLimitExceeded w = Some (MemLimitMessage b)).
  - destruct (jobTimedOut w), (memLimitExceeded w); set_solver.
  - rewrite Hx. split.
    + intros [[= ->] Hr]. tauto.
    + intros [Hr Hb]. split; [|done]. f_equal. destruct b, (processKill cmd); naive_solver.
Qed.
End shell.

(** ** Examples *)

Section demo.
(** A command of the shell with a limit of 1 KB, with and without a timeout. *)
Definition demo_config (timeout : string) : Config :=
  <["timeout" := timeout]> {[ "shell" := "true"; "command" := "make"; "mem_limit" := "1KB" ]}.
Definition demo_shell_job (timeout : string) : Job.t :=
  Job.mk "" "build" "" "" "0 * * * * *" "" "" 0 0 None None false ∅ ∅ 0 [] "" ∅ "allow" "shell" (demo_config timeout)
    "" 0 false None None.
Definition demo_ParseDuration (s : string) : option Z := if String.eqb s "1h" then Some 3600000000000 else None.
Definition demo_cmd (setpgid : bool) : Cmd.t := Cmd.mk ["/bin/sh"; "-c"; "make"] [""; "ENV_JOB_NAME=build"] "" setpgid None "".
(** It uses more and more, and the monitor gets to the end of what it does. *)
Definition demo_process : list process_event :=
  [Wrote "ok" false; MemTick (Some 1000); MemTick None; MemTick (Some 2000); MonitorKills; MonitorReports].

Lemma demo_process_reported : reported 1024 demo_process.
Proof.
  exists (take 5 demo_process), []. split; [reflexivity|]. exists (take 4 demo_process), []. split; [reflexivity|].
  exists 2000. split; [do 3 right; left|reflexivity].
Defined.

Lemma demo_process_signalled : signalled 1024 demo_process.
Proof.
  exists (take 4 demo_process), [MonitorReports]. split; [reflexivity|].
  exists 2000. split; [do 3 right; left|reflexivity].
Defined.

(** With a timeout it is killed; without one it is not, and the output says that it may not have been. *)
Lemma memory_limit_enforced_witness :
  (∃ limit output, parseMemoryLimit 0 "1KB" = inl limit ∧
    shell_ExecuteImpl (λ _, None) (λ _, None) (λ _, None) Some demo_ParseDuration [] (λ _, true) 0
      "build" (demo_config "1h") demo_process (Some "signal: killed") = ShellDone output (Some "signal: killed") ∧
    killed (watch_run (demo_cmd true) 3600000000000 limit demo_process) = true ∧ MemLimitMessage true ∈ output) ∧
  (∃ limit output, parseMemoryLimit 0 "1KB" = inl limit ∧
    shell_ExecuteImpl (λ _, None) (λ _, None) (λ _, None) Some demo_ParseDuration [] (λ _, true) 0
      "build" (demo_config "") demo_process None = ShellDone output None ∧
    killed (watch_run (demo_cmd false) 0 limit demo_process) ≠ true ∧ MemLimitMessage false ∈ output).
Proof.
  split.
  - destruct (memory_limit_enforced (λ _, None) (λ _, None) (λ _, None) Some demo_ParseDuration [] (λ _, true) 0
      (H := Jobs.demo_env) (demo_shell_job "1h") demo_process (Some "signal: killed") (demo_cmd true) 3600000000000)
      as (limit & output & Hl & Hd & Hk); [vm_compute; reflexivity|reflexivity|vm_compute; discriminate
        |vm_compute; reflexivity|reflexivity|].
    exists limit, output. split; [exact Hl|]. split; [exact Hd|].
    assert (limit = 1024) as -> by (vm_compute in Hl; congruence).
    destruct (Hk eq_refl) as [Hkill Hm]. split.
    + apply Hkill. split; [right; vm_compute; discriminate|left; exact demo_process_signalled].
    + apply Hm. split; [exact demo_process_reported|]. split; [|reflexivity]. intros _. right. vm_compute. discriminate.
  - destruct (memory_limit_enforced (λ _, None) (λ _, None) (λ _, None) Some demo_ParseDuration [] (λ _, true) 0
      (H := Jobs.demo_env) (demo_shell_job "") demo_process None (demo_cmd false) 0)
      as (limit & output & Hl & Hd & Hk); [vm_compute; reflexivity|reflexivity|vm_compute; discriminate
        |vm_compute; reflexivity|reflexivity|].
    exists limit, output. split; [exact Hl|]. split; [exact Hd|].
    assert (limit = 1024) as -> by (vm_compute in Hl; congruence).
    destruct (Hk eq_refl) as [Hkill Hm]. split.
    + intros [[Hg|Hg] _]%Hkill; apply Hg; vm_compute; reflexivity.
    + apply Hm. split; [exact demo_process_reported|]. split; [discriminate|].
      intros [Hg|Hg]; destruct Hg; vm_compute; reflexivity.
Defined.

(** The process ends on the signal before the monitor has set its message: it was
    killed for its memory and its output does not say so. *)
Lemma killed_without_report :
  let es := [MemTick (Some 2000); MonitorKills] in
  killed (watch_run (demo_cmd true) 3600000000000 1024 es) = true ∧
  shell_ExecuteImpl (λ _, None) (λ _, None) (λ _, None) Some demo_ParseDuration [] (λ _, true) 0
    "build" (demo_config "1h") es (Some "signal: killed") = ShellDone [] (Some "signal: killed").
Proof. by vm_compute. Qed.

(** The limit on a server whose conversions overflow to the largest number, read on
    a node where they overflow to the smallest: the command is left running. *)
Lemma limit_of_another_machine :
  validateMemoryLimit (2 ^ 63 - 1) "9000000TB" = None ∧
  shell_ExecuteImpl (λ _, None) (λ _, None) (λ _, None) Some demo_ParseDuration [] (λ _, true) (- 2 ^ 63)
    "build" (<["mem_limit" := "9000000TB"]> (demo_config "")) [] None = ShellFailed (ErrLimit ErrOverflow) true.
Proof. by vm_compute. Qed.

(** A comma in the value of a variable ends it. *)
Lemma env_comma_splits :
  match prepare (λ _, None) (λ _, None) (λ _, None) Some demo_ParseDuration [] "build"
    (<["env" := "ARGS=a,b"]> (demo_config "")) with
  | inl (cmd, _) => Cmd.Env cmd = ["ARGS=a"; "b"; "ENV_JOB_NAME=build"]
  | inr _ => False
  end.
Proof. by vm_compute. Qed.
End demo.
