(* ===== verification/View.v ===== *)
(** * View: React elements and how they are rendered

    The operations on element trees the view files share: what a JSX expression
    evaluates to (spreads, [map], arithmetic on values), the expansion of the
    program's own components, and queries on the resulting tree.  The elements
    of libraries stay as they are. *)

From S2P Require Import Prelude JsCore.

(** ** What JSX expressions evaluate to *)

(** The own enumerable properties an object spread copies. *)
Definition fields (v : jsval) : list (string * jsval) :=
  match v with JObj fs => fs | _ => [] end.

(** The elements an array spread copies. *)
Definition elems (v : jsval) : list jsval :=
  match v with JArr l => l | _ => [] end.

(** [v.map(f)], with and without the index. *)
Definition jmap (f : jsval → jsval) (v : jsval) : jsval := JArr (f <$> elems v).
Definition jmapi (f : jsval → jsval → jsval) (v : jsval) : jsval :=
  JArr (imap (λ i x, f x (JNum (Z.of_nat i))) (elems v)).

(** [v.slice(a, b)] for [0 <= a <= b]. *)
Definition js_slice (a b : nat) (v : jsval) : jsval :=
  JArr (take (b - a) (drop a (elems v))).

(** [a ?? b], and the default of a destructured property. *)
Definition js_nullish (a b : jsval) : jsval :=
  match a with JUndef | JNull => b | _ => a end.
Definition js_default (a b : jsval) : jsval :=
  match a with JUndef => b | _ => a end.

(** [a + b] on numbers and strings. *)
Definition js_plus (a b : jsval) : jsval :=
  match a, b with
  | JNum x, JNum y => JNum (x + y)
  | JStr x, _ => JStr (x +:+ js_String b)
  | _, JStr y => JStr (js_String a +:+ y)
  | _, _ => JNaN
  end.

(** Arithmetic and comparison of numbers; half of an odd number is a decimal. *)
Definition js_num2 (f : Z → Z → Z) (a b : jsval) : jsval :=
  match a, b with JNum x, JNum y => JNum (f x y) | _, _ => JNaN end.
Abbreviation js_minus := (js_num2 Z.sub).
Abbreviation js_times := (js_num2 Z.mul).
Definition js_half (a : jsval) : jsval :=
  match a with JNum x => if Z.even x then JNum (x / 2) else JDec (x * 5) 1 | _ => JNaN end.
Definition js_le (a b : jsval) : bool :=
  match a, b with JNum x, JNum y => x <=? y | _, _ => false end.
Definition js_gt (a b : jsval) : bool :=
  match a, b with JNum x, JNum y => y <? x | _, _ => false end.

(** [Math.max(...l)] of a non-empty list. *)
Definition js_max (l : list jsval) : jsval :=
  match l with
  | [] => JNaN
  | x :: l => fold_left (js_num2 Z.max) l x
  end.

(** [v.length] and [v.substring(0, n)]. *)
Definition js_len (v : jsval) : jsval :=
  match v with
  | JStr s => JNum (js_length s)
  | JArr l => JNum (Z.of_nat (length l))
  | _ => JUndef
  end.
Definition js_substring (n : nat) (v : jsval) : jsval :=
  match v with JStr s => JStr (js_prefix n s) | _ => JUndef end.

(** [v.reduce((sum, d) => sum + d.k, 0)] *)
Definition js_sum (k : string) (v : jsval) : jsval :=
  fold_left (λ sum d, js_plus sum (jget k d)) (elems v) (JNum 0).

Definition is_undef (v : jsval) : bool := match v with JUndef => true | _ => false end.
Definition is_null (v : jsval) : bool := match v with JNull => true | _ => false end.
Definition is_false (v : jsval) : bool := match v with JBool b => negb b | _ => false end.

(** The double quote, which no literal below holds. *)
Definition dquote : string := String (ascii_of_nat 34) EmptyString.

(** The name of a component that is a value. *)
Definition fname (v : jsval) : string := match v with JFun n | JStr n => n | _ => "" end.

(** A React child that renders nothing. *)
Definition renders_nothing (v : jsval) : bool :=
  match v with JUndef | JNull | JBool _ => true | JStr s => String.eqb s "" | _ => false end.

(** ** Rendering *)

(** The components of the program, by tag; each maps its [props] to an element.
    A component the environment does not hold is a library's and is left. *)
Abbreviation components := (list (string * (jsval → jsval))).

(** Functional components are called, children are passed as [props.children].
    Elements in properties are rendered by the component they are given to, so
    they are expanded in place.  The fuel bounds the nesting. *)
Fixpoint expand (fuel : nat) (env : components) (v : jsval) : jsval :=
  match fuel with
  | O => v
  | S n =>
      match v with
      | JEl tag ps ch =>
          match jm_get tag env with
          | Some f =>
              expand n env (f (JObj (ps ++ if bool_decide (ch = []) then [] else
                [("children", JArr ch)])))
          | None => JEl tag (prod_map id (expand n env) <$> ps) (expand n env <$> ch)
          end
      | JArr l => JArr (expand n env <$> l)
      | JObj fs => JObj (prod_map id (expand n env) <$> fs)
      | _ => v
      end
  end.

#[global] Arguments expand : simpl never.

(** ** Queries *)

(** Every element of a tree with its properties, in document order, those of
    the properties included. *)
Fixpoint elements (v : jsval) : list (string * jsval) :=
  match v with
  | JEl tag ps ch =>
      (tag, JObj ps) :: flat_map (λ p, elements p.2) ps ++ flat_map elements ch
  | JArr l => flat_map elements l
  | JObj fs => flat_map (λ p, elements p.2) fs
  | _ => []
  end.

(** The properties of the elements with a tag. *)
Fixpoint tagged (tag : string) (v : jsval) : list jsval :=
  match v with
  | JEl t ps ch =>
      (if String.eqb t tag then [JObj ps] else []) ++
      flat_map (λ p, tagged tag p.2) ps ++ flat_map (tagged tag) ch
  | JArr l => flat_map (tagged tag) l
  | JObj fs => flat_map (λ p, tagged tag p.2) fs
  | _ => []
  end.

(** The elements with a tag, as subtrees. *)
Fixpoint subtrees (tag : string) (v : jsval) : list jsval :=
  match v with
  | JEl t ps ch =>
      (if String.eqb t tag then [v] else []) ++
      flat_map (λ p, subtrees tag p.2) ps ++ flat_map (subtrees tag) ch
  | JArr l => flat_map (subtrees tag) l
  | JObj fs => flat_map (λ p, subtrees tag p.2) fs
  | _ => []
  end.

(** The values of one property over a tree, [undefined] left out. *)
Definition prop_values (k : string) (v : jsval) : list jsval :=
  List.filter (λ w, negb (is_undef w)) (jget k <$> (snd <$> elements v)).

(** The text a tree shows, in document order. *)
Fixpoint texts (v : jsval) : list string :=
  match v with
  | JStr s => if String.eqb s "" then [] else [s]
  | JNum z => [pretty z]
  | JDec m e => [dec_String m e]
  | JArr l => flat_map texts l
  | JEl _ _ ch => flat_map texts ch
  | _ => []
  end.

(** The elements of one tree level: arrays are flattened. *)
Fixpoint flatten (v : jsval) : list jsval :=
  match v with
  | JArr l => flat_map flatten l
  | _ => if renders_nothing v then [] else [v]
  end.

(** The keys React tells the members of an array apart by. *)
Definition key_of (v : jsval) : option string :=
  match v with JEl _ ps _ => js_String <$> own "key" ps | _ => None end.

Definition keys_distinct (l : list jsval) : bool :=
  bool_decide (Forall is_Some (key_of <$> l)) && bool_decide (NoDup (key_of <$> l)).

(** ** Lemmas *)

Lemma elems_jmap f v : elems (jmap f v) = f <$> elems v.
Proof. done. Qed.

Lemma texts_js_or a b :
  texts (js_or a b) = if truthy a then texts a else texts b.
Proof. unfold js_or. by destruct (truthy a). Qed.

(** The equations of [expand]; it is never unfolded on a value that is not
    known, where its cases would multiply. *)
Lemma expand_own n env tag f ps ch :
  jm_get tag env = Some f →
  expand (S n) env (JEl tag ps ch) =
    expand n env (f (JObj (ps ++ if bool_decide (ch = []) then [] else [("children", JArr ch)]))).
Proof. intros Hf. unfold expand at 1; fold expand. by rewrite Hf. Qed.

Lemma expand_other n env tag ps ch :
  jm_get tag env = None →
  expand (S n) env (JEl tag ps ch) = JEl tag (prod_map id (expand n env) <$> ps) (expand n env <$> ch).
Proof. intros Hf. unfold expand at 1; fold expand. by rewrite Hf. Qed.

Lemma expand_JStr n env s : expand n env (JStr s) = JStr s.
Proof. by destruct n. Qed.

Lemma js_sum_nums {A} (f : A → Z) (g : A → jsval) k (l : list A) :
  (∀ x, jget k (g x) = JNum (f x)) → js_sum k (JArr (g <$> l)) = JNum (sum_by f l).
Proof.
  intros Hg. unfold js_sum. cbn [elems].
  assert (∀ z, fold_left (λ sum d, js_plus sum (jget k d)) (g <$> l) (JNum z) =
    JNum (z + sum_by f l)) as H; [|by rewrite H].
  induction l as [|x l IH]; intros z; csimpl.
  - rewrite sum_by_nil, Z.add_0_r. done.
  - rewrite Hg. cbn [js_plus]. rewrite IH, sum_by_cons. f_equal. lia.
Qed.

Lemma js_max_by {A} (f : A → Z) m (l : list A) :
  js_max (((λ x, JNum (f x)) <$> l) ++ [JNum m]) = JNum (max_by f m l).
Proof.
  destruct l as [|x l]; [done|].
  change (fold_left (js_num2 Z.max) (((λ x, JNum (f x)) <$> l) ++ [JNum m]) (JNum (f x)) =
    JNum (Z.max (f x) (max_by f m l))).
  generalize (f x) as a. induction l as [|y l IH]; intros a; [done|].
  change (fold_left (js_num2 Z.max) (((λ x, JNum (f x)) <$> l) ++ [JNum m])
    (JNum (Z.max a (f y))) = JNum (Z.max a (max_by f m (y :: l)))).
  rewrite IH. unfold max_by; cbn [foldr]. f_equal. lia.
Qed.

Lemma own_app k fs gs :
  own k (fs ++ gs) = match own k gs with Some w => Some w | None => own k fs end.
Proof.
  unfold own. rewrite fold_left_app. generalize (fold_left
    (λ acc kv, if String.eqb kv.1 k then Some kv.2 else acc) fs None) as a.
  induction gs as [|[k' w] gs IH] using rev_ind; intros a; [done|].
  rewrite !fold_left_app. cbn. destruct (String.eqb k' k); [done|]. apply IH.
Qed.

Lemma own_single k k' w : own k [(k', w)] = if String.eqb k' k then Some w else None.
Proof. done. Qed.

Lemma own_single_ne k k' w : k ≠ k' → own k [(k', w)] = None.
Proof. intros Hk. rewrite own_single. by rewrite (proj2 (String.eqb_neq k' k)). Qed.

Lemma js_length_app s t : js_length (s +:+ t) = js_length s + js_length t.
Proof.
  unfold js_length. induction s as [|c s IH]; [done|].
  change (Z.of_nat (S (String.length (s +:+ t))) =
    Z.of_nat (S (String.length s)) + Z.of_nat (String.length t)). lia.
Qed.

Lemma flat_map_nil {A B} (f : A → list B) l : (∀ x, x ∈ l → f x = []) → flat_map f l = [].
Proof.
  induction l as [|x l IH]; intros Hf; [done|]. cbn. rewrite Hf by by left.
  apply IH. intros. apply Hf. by right.
Qed.

Lemma elements_app_children tag ps ch :
  elements (JEl tag ps ch) =
    (tag, JObj ps) :: flat_map (λ p, elements p.2) ps ++ flat_map elements ch.
Proof. done. Qed.

Lemma keys_distinct_keys l ks :
  key_of <$> l = Some <$> ks → NoDup ks → keys_distinct l = true.
Proof.
  intros Hl Hks. unfold keys_distinct. rewrite Hl, andb_true_iff, !bool_decide_eq_true. split.
  - apply Forall_fmap, Forall_true. intros k. by eexists.
  - by apply (NoDup_fmap_2 Some).
Qed.

#[export] Hint Rewrite elems_jmap texts_js_or : dkron_simpl.
