(* ===== verification/DepGraph.v ===== *)
(** * DepGraph: the traversals behind the job dependency diagram

    [buildDependencyGraph] of src/ui/src/jobs/JobDependencyDiagram.tsx first
    collects the ancestors and the descendants of the current job.  This file
    models the two recursive closures [findAncestors] and [findDescendants]
    with the maps and sets they mutate, and proves that they terminate on every
    job list (cycles included), that they return exactly the jobs reachable
    through the edges of the job list, and that on a graded job list the level
    of each job is its distance from the current one. *)

From S2P Require Import Prelude JsCore.

(** ** Data *)

(** [None] is a field that is [undefined] or [null]. *)
Module Job.
Record t := mk {
  id : string;
  name : string;
  displayname : option string;
  parent_job : option string;
  dependent_jobs : option (list string);
  status : option string;
}.
End Job.

(** [o || d] for an optional string [o]. *)
Definition str_or (o : option string) (d : string) : string :=
  match o with
  | Some s => if String.eqb s "" then d else s
  | None => d
  end.

(** The operand of [if (job.parent_job && ...)]: a non-empty string. *)
Definition truthy_str (o : option string) : option string :=
  match o with
  | Some s => if String.eqb s "" then None else Some s
  | None => None
  end.

(** [job.dependent_jobs || []] *)
Definition children_of (job : Job.t) : list string := default [] (Job.dependent_jobs job).

(** [new Map(allJobs.map((j) => [j.name, j]))]: the last job of a name wins. *)
Definition make_jobMap (allJobs : list Job.t) : gmap string Job.t :=
  fold_left (λ m j, <[Job.name j := j]> m) allJobs ∅.

(** ** The traversals *)

(** What a traversal mutates: its processed set and the shared [jobLevels]. *)
Record walk := Walk {
  processed : gset string;
  jobLevels : gmap string Z;
}.

Definition mark (x : string) (st : walk) : walk :=
  Walk ({[x]} ∪ processed st) (jobLevels st).
Definition set_level (x : string) (l : Z) (st : walk) : walk :=
  Walk (processed st) (<[x := l]> (jobLevels st)).

Section traversals.
Variable jobMap : gmap string Job.t.

Definition has (x : string) : bool := bool_decide (is_Some (jobMap !! x)).

(** The fuel bounds the depth of the recursion; [None] is out of fuel. *)
Fixpoint findAncestors (fuel : nat) (jobName : string) (level : Z) (st : walk)
    : option (list string * walk) :=
  match fuel with
  | O => None
  | S fuel =>
      if decide (jobName ∈ processed st) then Some ([], st) else
      let st := mark jobName st in
      match jobMap !! jobName with
      | None => Some ([], st)
      | Some job =>
          match truthy_str (Job.parent_job job) with
          | Some parent =>
              if has parent then
                let st := set_level parent (level - 1) st in
                let? (rest, st) := findAncestors fuel parent (level - 1) st in
                Some (parent :: rest, st)
              else Some ([], st)
          | None => Some ([], st)
          end
      end
  end.

(** [children.forEach(...)] of [findDescendants], over the recursive call. *)
Fixpoint forEachChild (rec : string → Z → walk → option (list string * walk))
    (children : list string) (level : Z) (descendants : list string) (st : walk)
    : option (list string * walk) :=
  match children with
  | [] => Some (descendants, st)
  | childName :: children =>
      if has childName then
        let st := set_level childName (level + 1) st in
        let? (ds, st) := rec childName (level + 1) st in
        forEachChild rec children level (descendants ++ childName :: ds) st
      else forEachChild rec children level descendants st
  end.

Fixpoint findDescendants (fuel : nat) (jobName : string) (level : Z) (st : walk)
    : option (list string * walk) :=
  match fuel with
  | O => None
  | S fuel =>
      if decide (jobName ∈ processed st) then Some ([], st) else
      let st := mark jobName st in
      match jobMap !! jobName with
      | None => Some ([], st)
      | Some job =>
          forEachChild (findDescendants fuel) (children_of job) level [] st
      end
  end.

(** Enough fuel for both traversals from a state that has processed nothing. *)
Definition walk_fuel : nat := S (size jobMap).
End traversals.

(** The traversals of [buildDependencyGraph], in its order: ancestors first,
    then descendants with a processed set of their own, both from level 0 of
    the current job; [relatedJobs] is the set of all names in insertion order. *)
Definition relatedJobs (jobMap : gmap string Job.t) (current : string)
    : option (list string * gmap string Z) :=
  let levels0 := <[current := 0]> (∅ : gmap string Z) in
  let? (ancestors, st1) :=
    findAncestors jobMap (walk_fuel jobMap) current 0 (Walk ∅ levels0) in
  let? (descendants, st2) :=
    findDescendants jobMap (walk_fuel jobMap) current 0 (Walk ∅ (jobLevels st1)) in
  Some (set_of (current :: ancestors ++ descendants), jobLevels st2).

(** ** The job graph *)

Section graph.
Variable jobMap : gmap string Job.t.

(** [x]'s parent is [p], and both are listed. *)
Definition edge_up (x p : string) : Prop :=
  ∃ job, jobMap !! x = Some job ∧ truthy_str (Job.parent_job job) = Some p ∧
    has jobMap p.

(** [c] is a listed dependent job of [x]. *)
Definition edge_down (x c : string) : Prop :=
  ∃ job, jobMap !! x = Some job ∧ c ∈ children_of job ∧ has jobMap c.
End graph.

(** *** What one visit of a depth-first closure establishes

    [P] and [P'] are the processed sets before and after, [out] the names the
    visit returns. *)
Section closure.
Variable E : string → string → Prop.
Implicit Types (P : gset string) (out roots : list string) (x y z : string).

Record forest_ok roots P P' out : Prop := {
  fo_mono : P ⊆ P';
  fo_roots : ∀ c, c ∈ roots → c ∈ out;
  fo_sound : ∀ y, y ∈ out → (∃ c, c ∈ roots ∧ rtc E c y) ∧ y ∈ P';
  fo_closed : ∀ y z, y ∈ P' → y ∉ P → E y z → z ∈ out;
  fo_new : ∀ y, y ∈ P' → y ∈ P ∨ y ∈ out;
}.

Record visit_ok x P P' out : Prop := {
  vo_mono : P ⊆ P';
  vo_root : x ∈ P';
  vo_sound : ∀ y, y ∈ out → tc E x y ∧ y ∈ P';
  vo_closed : ∀ y z, y ∈ P' → y ∉ P → E y z → z ∈ out;
  vo_new : ∀ y, y ∈ P' → y ∈ P ∨ y = x ∨ y ∈ out;
}.

Lemma forest_nil P : forest_ok [] P P [].
Proof. split; set_solver. Qed.

Lemma forest_cons c cs P P1 P2 ds out :
  visit_ok c P P1 ds → forest_ok cs P1 P2 out →
  forest_ok (c :: cs) P P2 (c :: ds ++ out).
Proof.
  intros [Hm1 Hr1 Hs1 Hc1 Hn1] [Hm2 Hr2 Hs2 Hc2 Hn2]. split.
  - set_solver.
  - intros c'. rewrite !elem_of_cons, elem_of_app. naive_solver.
  - intros y. rewrite elem_of_cons, elem_of_app. intros [->|[Hy|Hy]].
    + split; [exists c; split; [by left|done]|set_solver].
    + destruct (Hs1 y Hy) as [Ht Hin].
      split; [exists c; split; [by left|by apply tc_rtc]|set_solver].
    + destruct (Hs2 y Hy) as [(c' & Hc' & Hr) Hin].
      split; [exists c'; split; [by right|done]|done].
  - intros y z Hy Hn HE. rewrite elem_of_cons, elem_of_app.
    destruct (decide (y ∈ P1)); naive_solver.
  - intros y Hy. rewrite elem_of_cons, elem_of_app.
    destruct (Hn2 y Hy) as [Hy1|]; [|naive_solver].
    destruct (Hn1 y Hy1); naive_solver.
Qed.

(** A visit of an unprocessed name: mark it, then visit its successors. *)
Lemma visit_forest x roots P P' out :
  x ∉ P → (∀ z, E x z ↔ z ∈ roots) →
  forest_ok roots ({[x]} ∪ P) P' out → visit_ok x P P' out.
Proof.
  intros Hx HE [Hm Hr Hs Hc Hn]. split.
  - set_solver.
  - set_solver.
  - intros y Hy. destruct (Hs y Hy) as [(c & Hcr & Hrt) Hin]. split; [|done].
    eapply tc_rtc_r; [|exact Hrt]. by apply tc_once, HE.
  - intros y z Hy Hn' HEyz. destruct (decide (y = x)) as [->|].
    + by apply Hr, HE.
    + apply (Hc y z Hy); [set_solver|done].
  - intros y Hy. destruct (Hn y Hy); set_solver.
Qed.

Lemma visit_processed x P : x ∈ P → visit_ok x P P [].
Proof. split; set_solver. Qed.

(** From an empty processed set, the names returned are the reachable ones. *)
Lemma visit_reach x P' out y : visit_ok x ∅ P' out → y ∈ out ↔ tc E x y.
Proof.
  intros [_ Hr Hs Hc _]. split; [by intros Hy; apply Hs|].
  intros Ht. assert (∀ a b, rtc E a b → a ∈ P' → a ≠ b → b ∈ out) as Hreach.
  { induction 1 as [|a b c HE Hrt IH]; [done|]. intros Ha Hne.
    assert (b ∈ out) as Hb by (by apply (Hc a); [|set_solver|]).
    destruct (decide (b = c)) as [->|]; [done|].
    apply IH; [by apply Hs|done]. }
  destruct Ht as [x y HE|x z y HE Ht].
  - apply (Hc x); set_solver.
  - assert (z ∈ out) as Hz by (apply (Hc x); set_solver).
    destruct (decide (z = y)) as [->|]; [done|].
    apply (Hreach z); [by apply tc_rtc|by apply Hs|done].
Qed.
End closure.

(** *** Levels

    [Q] is any relation between names and levels that the edges preserve; the
    level map then stays within [Q] and covers the names returned. *)
Section levels.
Variable Q : string → Z → Prop.

Record levels_ok (L L' : gmap string Z) (out : list string) : Prop := {
  lo_within : map_Forall Q L';
  lo_mono : dom L ⊆ dom L';
  lo_cover : ∀ y, y ∈ out → y ∈ dom L';
}.

Lemma levels_nil L : map_Forall Q L → levels_ok L L [].
Proof. split; set_solver. Qed.

Lemma levels_cons c l L L1 L2 ds out :
  levels_ok (<[c := l]> L) L1 ds → levels_ok L1 L2 out →
  levels_ok L L2 (c :: ds ++ out).
Proof.
  intros [_ Hm1 Hc1] [Hw Hm2 Hc2]. rewrite dom_insert_L in Hm1.
  split; [done|set_solver|]. intros y. rewrite elem_of_cons, elem_of_app.
  intros [->|[Hy|Hy]]; [set_solver| |by apply Hc2].
  by apply Hm2, Hc1.
Qed.
End levels.

Section specs.
Variable jobMap : gmap string Job.t.

Lemma has_spec x : has jobMap x ↔ is_Some (jobMap !! x).
Proof. unfold has. by rewrite bool_decide_spec. Qed.

Lemma edge_up_functional x p p' :
  edge_up jobMap x p → edge_up jobMap x p' → p = p'.
Proof. intros (j & ? & ? & _) (j' & ? & ? & _). by simplify_eq. Qed.

Lemma edge_has x y : edge_up jobMap x y ∨ edge_down jobMap x y → has jobMap y.
Proof. intros [(?&?&?&?)|(?&?&?&?)]; done. Qed.

(** **** Ancestors *)

Lemma findAncestors_visit fuel x l st out st' :
  findAncestors jobMap fuel x l st = Some (out, st') →
  visit_ok (edge_up jobMap) x (processed st) (processed st') out.
Proof.
  revert x l st out st'. induction fuel as [|fuel IH]; [done|].
  intros x l st out st'. cbn [findAncestors].
  case_decide as Hx; [intros [= <- <-]; by apply visit_processed|].
  assert (∀ q, (∀ z, ¬ edge_up jobMap x z) → Some ([], mark x st) = Some (out, q) →
    visit_ok (edge_up jobMap) x (processed st) (processed q) out) as Hstop.
  { intros q HE [= <- <-]. eapply (visit_forest _ _ []); [done| |apply forest_nil].
    intros z. split; [by intros ?%HE|set_solver]. }
  destruct (jobMap !! x) as [job|] eqn:Hj;
    [|by apply Hstop; intros z (?&?&?); simplify_eq].
  destruct (truthy_str (Job.parent_job job)) as [p|] eqn:Hp;
    [|by apply Hstop; intros z (?&?&?&?); simplify_eq].
  destruct (has jobMap p) eqn:Hhas;
    [|by apply Hstop; intros z (?&?&?&Hz); simplify_eq; rewrite Hhas in Hz].
  destruct (findAncestors _ _ _ _ _) as [[rest st1]|] eqn:Hrec; [|done].
  intros [= <- <-]. apply IH in Hrec. eapply (visit_forest _ _ [p]); [done| |].
  - intros z. rewrite list_elem_of_singleton. split.
    + intros (?&?&?&?); by simplify_eq.
    + intros ->. exists job. by rewrite Hhas.
  - rewrite <-(app_nil_r rest). eapply forest_cons; [exact Hrec|apply forest_nil].
Qed.

Lemma findAncestors_levels Q fuel x l st out st' :
  (∀ y k z, Q y k → edge_up jobMap y z → Q z (k - 1)) →
  findAncestors jobMap fuel x l st = Some (out, st') →
  Q x l → map_Forall Q (jobLevels st) →
  levels_ok Q (jobLevels st) (jobLevels st') out.
Proof.
  intros HQ. revert x l st out st'. induction fuel as [|fuel IH]; [done|].
  intros x l st out st'. cbn [findAncestors]. intros Hfa Hx Hst.
  case_decide; [by simplify_eq; apply levels_nil|].
  destruct (jobMap !! x) as [job|] eqn:Hj; [|by simplify_eq; apply levels_nil].
  destruct (truthy_str _) as [p|] eqn:Hp; [|by simplify_eq; apply levels_nil].
  destruct (has jobMap p) eqn:Hhas; [|by simplify_eq; apply levels_nil].
  destruct (findAncestors _ _ _ _ _) as [[rest st1]|] eqn:Hrec; [|done].
  simplify_eq. assert (Q p (l - 1)) as HQp.
  { eapply HQ; [done|]. exists job. by rewrite Hhas. }
  apply IH in Hrec; [|done|by apply map_Forall_insert_2].
  rewrite <-(app_nil_r rest). eapply levels_cons; [exact Hrec|].
  apply levels_nil, Hrec.
Qed.

(** **** Descendants *)

Lemma forEachChild_visit rec cs l acc st out st' :
  (∀ c k s ds s', rec c k s = Some (ds, s') →
     visit_ok (edge_down jobMap) c (processed s) (processed s') ds) →
  forEachChild jobMap rec cs l acc st = Some (out, st') →
  ∃ ds, out = acc ++ ds ∧
    forest_ok (edge_down jobMap) (List.filter (has jobMap) cs)
      (processed st) (processed st') ds.
Proof.
  intros Hrec. revert acc st. induction cs as [|c cs IH]; intros acc st; simpl.
  { intros [= <- <-]. exists []. rewrite app_nil_r. split; [done|apply forest_nil]. }
  destruct (has jobMap c); [|by apply IH].
  destruct (rec _ _ _) as [[ds s1]|] eqn:Hc; [|done].
  intros (ds' & -> & Hf)%IH. exists (c :: ds ++ ds'). split.
  - by rewrite <-app_assoc.
  - eapply forest_cons; [|exact Hf]. by apply Hrec in Hc.
Qed.

Lemma forEachChild_levels Q rec cs l acc st out st' :
  (∀ c k s ds s', rec c k s = Some (ds, s') → Q c k →
     map_Forall Q (jobLevels s) → levels_ok Q (jobLevels s) (jobLevels s') ds) →
  (∀ c, c ∈ cs → has jobMap c → Q c (l + 1)) →
  map_Forall Q (jobLevels st) →
  forEachChild jobMap rec cs l acc st = Some (out, st') →
  ∃ ds, out = acc ++ ds ∧ levels_ok Q (jobLevels st) (jobLevels st') ds.
Proof.
  intros Hrec. revert acc st. induction cs as [|c cs IH]; intros acc st HQ Hst; simpl.
  { intros [= <- <-]. exists []. rewrite app_nil_r. split; [done|by apply levels_nil]. }
  destruct (has jobMap c) eqn:Hhas; [|by apply IH; [set_solver|]].
  destruct (rec _ _ _) as [[ds s1]|] eqn:Hc; [|done].
  assert (Q c (l + 1)) as HQc by (by apply HQ; [left|rewrite Hhas]).
  apply Hrec in Hc as Hlv; [|done|by apply map_Forall_insert_2].
  intros (ds' & -> & Hf)%IH; [|set_solver|apply Hlv].
  exists (c :: ds ++ ds'). split; [by rewrite <-app_assoc|].
  eapply levels_cons; [exact Hlv|exact Hf].
Qed.

Lemma findDescendants_visit fuel x l st out st' :
  findDescendants jobMap fuel x l st = Some (out, st') →
  visit_ok (edge_down jobMap) x (processed st) (processed st') out.
Proof.
  revert x l st out st'. induction fuel as [|fuel IH]; [done|].
  intros x l st out st'. cbn [findDescendants].
  case_decide as Hx; [intros [= <- <-]; by apply visit_processed|].
  destruct (jobMap !! x) as [job|] eqn:Hj.
  - intros (ds & -> & Hf)%forEachChild_visit; [|exact IH].
    eapply visit_forest; [done| |exact Hf]. intros z.
    rewrite list_elem_of_In, filter_In, <-list_elem_of_In. split.
    + intros (j & ? & ? & ?). simplify_eq. split; [done|by apply Is_true_true].
    + intros [? ?]. exists job. split_and!; [done..|by apply Is_true_true].
  - intros [= <- <-]. eapply (visit_forest _ _ []); [done| |apply forest_nil].
    intros z. split; [intros (?&?&?); simplify_eq|set_solver].
Qed.

Lemma findDescendants_levels Q fuel x l st out st' :
  (∀ y k z, Q y k → edge_down jobMap y z → Q z (k + 1)) →
  findDescendants jobMap fuel x l st = Some (out, st') →
  Q x l → map_Forall Q (jobLevels st) →
  levels_ok Q (jobLevels st) (jobLevels st') out.
Proof.
  intros HQ. revert x l st out st'. induction fuel as [|fuel IH]; [done|].
  intros x l st out st'. cbn [findDescendants]. intros Hfd Hx Hst.
  case_decide; [by simplify_eq; apply levels_nil|].
  destruct (jobMap !! x) as [job|] eqn:Hj; [|by simplify_eq; apply levels_nil].
  eapply forEachChild_levels in Hfd as (ds & -> & Hlv); [exact Hlv| | |exact Hst].
  - intros. by eapply IH.
  - intros c Hc Hhas. eapply HQ; [exact Hx|]. by exists job.
Qed.

(** **** Termination: each recursive call below the first marks a listed job *)

Definition budget (P : gset string) : nat := size (dom jobMap ∖ P).

Lemma budget_mark x P :
  is_Some (jobMap !! x) → x ∉ P → (budget ({[x]} ∪ P) < budget P)%nat.
Proof.
  intros Hx HP. unfold budget. apply subset_size. apply elem_of_dom in Hx. set_solver.
Qed.

Lemma budget_mono P P' : P ⊆ P' → (budget P' ≤ budget P)%nat.
Proof. intros. unfold budget. apply subseteq_size. set_solver. Qed.

Lemma findAncestors_total fuel x l st :
  (budget (processed st) < fuel)%nat →
  is_Some (findAncestors jobMap fuel x l st).
Proof.
  revert x l st. induction fuel as [|fuel IH]; intros x l st Hb; [lia|].
  cbn [findAncestors]. case_decide as Hx; [done|].
  destruct (jobMap !! x) as [job|] eqn:Hj; [|done].
  destruct (truthy_str _); [|done]. destruct (has jobMap _); [|done].
  edestruct IH as [[rest st1] ->]; [|done].
  cbn. pose proof (budget_mark x (processed st) (mk_is_Some _ _ Hj) Hx). lia.
Qed.

Lemma forEachChild_total rec cs l acc st b :
  (∀ c k s, (budget (processed s) < b)%nat →
     ∃ ds s', rec c k s = Some (ds, s') ∧ processed s ⊆ processed s') →
  (budget (processed st) < b)%nat →
  is_Some (forEachChild jobMap rec cs l acc st).
Proof.
  intros Hrec. revert acc st. induction cs as [|c cs IH]; intros acc st Hb; simpl; [done|].
  destruct (has jobMap c); [|by apply IH].
  edestruct (Hrec c (l + 1) (set_level c (l + 1) st)) as (ds & s' & -> & Hm); [done|].
  apply IH. cbn in Hm. pose proof (budget_mono _ _ Hm). lia.
Qed.

Lemma findDescendants_total fuel x l st :
  (budget (processed st) < fuel)%nat →
  is_Some (findDescendants jobMap fuel x l st).
Proof.
  revert x l st. induction fuel as [|fuel IH]; intros x l st Hb; [lia|].
  cbn [findDescendants]. case_decide as Hx; [done|].
  destruct (jobMap !! x) as [job|] eqn:Hj; [|done].
  apply forEachChild_total with (b := fuel).
  - intros c k s Hs. destruct (IH c k s Hs) as [[ds s'] Hr].
    exists ds, s'. split; [done|]. apply findDescendants_visit in Hr. apply Hr.
  - cbn. pose proof (budget_mark x (processed st) (mk_is_Some _ _ Hj) Hx). lia.
Qed.

Lemma walk_fuel_enough : (budget ∅ < walk_fuel jobMap)%nat.
Proof.
  unfold budget, walk_fuel. rewrite difference_empty_L, size_dom. lia.
Qed.

(** **** The related jobs *)

(** What the two traversals return and leave behind; [Q] as in [levels_ok]. *)
Lemma relatedJobs_run Q current :
  (∀ y k z, Q y k → edge_up jobMap y z → Q z (k - 1)) →
  (∀ y k z, Q y k → edge_down jobMap y z → Q z (k + 1)) →
  Q current 0 →
  ∃ ancestors descendants levels,
    relatedJobs jobMap current =
      Some (set_of (current :: ancestors ++ descendants), levels) ∧
    (∀ y, y ∈ ancestors ↔ tc (edge_up jobMap) current y) ∧
    (∀ y, y ∈ descendants ↔ tc (edge_down jobMap) current y) ∧
    map_Forall Q levels ∧
    (∀ y, y ∈ current :: ancestors ++ descendants → y ∈ dom levels).
Proof.
  intros Hup Hdown Hcur. unfold relatedJobs.
  destruct (findAncestors_total (walk_fuel jobMap) current 0
    (Walk ∅ (<[current := 0]> ∅)) walk_fuel_enough) as [[anc st1] Ha].
  destruct (findDescendants_total (walk_fuel jobMap) current 0
    (Walk ∅ (jobLevels st1)) walk_fuel_enough) as [[desc st2] Hd].
  rewrite Ha, Hd. exists anc, desc, (jobLevels st2). split; [done|].
  apply findAncestors_visit in Ha as Hva. apply findDescendants_visit in Hd as Hvd.
  apply findAncestors_levels with (Q := Q) in Ha as [Hw1 Hm1 Hc1];
    [|done|done|by apply map_Forall_insert_2; [|apply map_Forall_empty]].
  apply findDescendants_levels with (Q := Q) in Hd as [Hw2 Hm2 Hc2]; [|done..].
  split_and!; [intros; by eapply visit_reach..|done|].
  cbn in Hm1, Hm2. rewrite dom_insert_L in Hm1. set_solver.
Qed.
End specs.

#[export] Hint Resolve has_spec edge_has : dkron.

(** ** Graded and tree-like job lists *)

(** A rank every edge respects: one less to the parent, one more to a child. *)
Definition graded (jobMap : gmap string Job.t) (rank : string → Z) : Prop :=
  (∀ x p, edge_up jobMap x p → rank p = rank x - 1) ∧
  (∀ x c, edge_down jobMap x c → rank c = rank x + 1).

(** What the server keeps of its jobs: no job is its own ancestor, and the
    dependent jobs of a job are those that name it as parent. *)
Definition tree_like (jobMap : gmap string Job.t) : Prop :=
  (∀ x, ¬ tc (edge_up jobMap) x x) ∧
  (∀ x c, edge_down jobMap x c → edge_up jobMap c x).

Section tree.
Variable jobMap : gmap string Job.t.

Definition parent_of (x : string) : option string :=
  match jobMap !! x with
  | Some job =>
      match truthy_str (Job.parent_job job) with
      | Some p => if has jobMap p then Some p else None
      | None => None
      end
  | None => None
  end.

Lemma parent_of_spec x p : parent_of x = Some p ↔ edge_up jobMap x p.
Proof.
  unfold parent_of, edge_up. split.
  - intros Hp. repeat case_match; simplify_eq. eexists. split_and!; [done..|].
    by apply Is_true_true.
  - intros (j & -> & -> & Hhas). by apply Is_true_true in Hhas as ->.
Qed.

Fixpoint chain_length (fuel : nat) (x : string) : Z :=
  match fuel with
  | O => 0
  | S fuel =>
      match parent_of x with
      | Some p => 1 + chain_length fuel p
      | None => 0
      end
  end.

Definition stable_from (n : nat) (x : string) : Prop :=
  ∀ m, (n ≤ m)%nat → chain_length m x = chain_length n x.

Lemma stable_mono n n' x : (n ≤ n')%nat → stable_from n x → stable_from n' x.
Proof. intros Hn Hs m Hm. rewrite (Hs m), (Hs n'); [done|lia..]. Qed.

Lemma stable_parent n x p :
  parent_of x = Some p → stable_from n p → stable_from (S n) x.
Proof.
  intros Hp Hs [|m] Hm; [lia|]. cbn. rewrite Hp, Hs; [done|lia].
Qed.

Lemma stable_root x : parent_of x = None → stable_from 0 x.
Proof. intros Hp [|m] _; cbn; by rewrite ?Hp. Qed.

Lemma chain_stable x : sn (edge_up jobMap) x → ∃ n, stable_from n x.
Proof.
  induction 1 as [x _ IH]. destruct (parent_of x) as [p|] eqn:Hp.
  - destruct (IH p) as [n Hn]; [by apply parent_of_spec|].
    exists (S n). by eapply stable_parent.
  - exists 0%nat. by apply stable_root.
Qed.

Lemma chain_stable_all (l : list string) :
  (∀ x, sn (edge_up jobMap) x) → ∃ n, ∀ x, x ∈ l → stable_from n x.
Proof.
  intros Hsn. induction l as [|y l [n IH]]; [exists 0%nat; set_solver|].
  destruct (chain_stable y (Hsn y)) as [k Hk]. exists (n `max` k)%nat.
  intros x. rewrite elem_of_cons. intros [->|Hx].
  - eapply stable_mono; [|exact Hk]. lia.
  - eapply stable_mono; [|by apply IH]. lia.
Qed.

Lemma edge_up_acyclic_sn :
  (∀ x, ¬ tc (edge_up jobMap) x x) → ∀ x, sn (edge_up jobMap) x.
Proof.
  intros Hac x. apply tc_finite_sn; [exact Hac|].
  exists (elements (dom jobMap)). intros y Hy. apply elem_of_elements, elem_of_dom.
  apply has_spec. induction Hy as [x y HE|]; [|done]. apply edge_has with x. by left.
Qed.

Lemma tree_like_graded : tree_like jobMap → ∃ rank, graded jobMap rank.
Proof.
  intros [Hac Hcons].
  destruct (chain_stable_all (elements (dom jobMap))) as [n Hn];
    [by apply edge_up_acyclic_sn|].
  assert (∀ x p, edge_up jobMap x p → chain_length n p = chain_length n x - 1) as Hup.
  { intros x p HE. assert (x ∈ dom jobMap) as Hx.
    { destruct HE as (j & Hj & _). apply elem_of_dom. by exists j. }
    rewrite <-(Hn x) with (m := S n); [|by apply elem_of_elements|lia].
    cbn. apply parent_of_spec in HE as ->. lia. }
  exists (chain_length n). split; [exact Hup|].
  intros x c HE%Hcons. apply Hup in HE. lia.
Qed.

Lemma graded_up rank n x y :
  graded jobMap rank → nsteps (edge_up jobMap) n x y → rank y = rank x - Z.of_nat n.
Proof.
  intros [Hup _]. induction 1 as [|n x y z HE _ IH]; [lia|].
  apply Hup in HE. lia.
Qed.

Lemma graded_down rank n x y :
  graded jobMap rank → nsteps (edge_down jobMap) n x y → rank y = rank x + Z.of_nat n.
Proof.
  intros [_ Hdn]. induction 1 as [|n x y z HE _ IH]; [lia|].
  apply Hdn in HE. lia.
Qed.

Lemma relatedJobs_graded rank current related levels y :
  graded jobMap rank →
  relatedJobs jobMap current = Some (related, levels) →
  y ∈ related → levels !! y = Some (rank y - rank current).
Proof.
  intros [Hup Hdn] Hr Hy.
  destruct (relatedJobs_run jobMap (λ z k, k = rank z - rank current) current)
    as (anc & desc & L & Hr' & _ & _ & HQ & Hdom).
  - intros x k z -> HE%Hup. lia.
  - intros x k z -> HE%Hdn. lia.
  - lia.
  - simplify_eq. rewrite elem_of_set_of in Hy. apply Hdom, elem_of_dom in Hy as [l Hl].
    rewrite Hl. f_equal. by apply HQ.
Qed.

(** A certificate that a concrete job list is tree-like: ranks that decrease
    towards the parent, and dependent jobs that name their parent. *)
Definition tree_certificate (rank : string → Z) : bool :=
  forallb (λ xj : string * Job.t,
    match parent_of xj.1 with Some p => rank p <? rank xj.1 | None => true end &&
    forallb (λ c, negb (has jobMap c) || bool_decide (parent_of c = Some xj.1))
      (children_of xj.2)) (map_to_list jobMap).

Lemma tree_certificate_sound rank : tree_certificate rank = true → tree_like jobMap.
Proof.
  unfold tree_certificate. rewrite forallb_forall. intros Hcert.
  assert (∀ x job, jobMap !! x = Some job → In (x, job) (map_to_list jobMap)) as Hin.
  { intros x job Hx. by apply list_elem_of_In, elem_of_map_to_list. }
  assert (∀ x p, edge_up jobMap x p → rank p < rank x) as Hup.
  { intros x p HE. apply parent_of_spec in HE as Hp. destruct HE as (job & Hx & _).
    apply Hin, Hcert in Hx. cbn in Hx. rewrite Hp in Hx.
    apply andb_prop in Hx as [Hlt _]. by apply Z.ltb_lt. }
  split.
  - assert (∀ x y, tc (edge_up jobMap) x y → rank y < rank x) as Htc.
    { induction 1 as [x y HE|x y z HE _ IH]; apply Hup in HE; lia. }
    intros x Hx%Htc. lia.
  - intros x c (job & Hx & Hc & Hhas). apply Hin, Hcert in Hx. cbn in Hx.
    apply andb_prop in Hx as [_ Hch]. rewrite forallb_forall in Hch.
    apply list_elem_of_In, Hch in Hc. apply Is_true_true in Hhas. rewrite Hhas in Hc.
    cbn in Hc. apply parent_of_spec. by apply bool_decide_eq_true_1 in Hc.
Qed.
End tree.

(** ** Properties *)

Lemma relatedJobs_elem jobMap current related levels y :
  relatedJobs jobMap current = Some (related, levels) →
  y ∈ related ↔
    y = current ∨ tc (edge_up jobMap) current y ∨ tc (edge_down jobMap) current y.
Proof.
  destruct (relatedJobs_run jobMap (λ _ _, True) current)
    as (anc & desc & L & Hr & Ha & Hd & _ & _); [done..|].
  intros. simplify_eq. by rewrite elem_of_set_of, elem_of_cons, elem_of_app, Ha, Hd.
Qed.

Lemma nsteps_self_or_tc {A} (R : relation A) n x y : nsteps R n x y → y = x ∨ tc R x y.
Proof.
  intros Hn. assert (rtc R x y) as [->|]%rtc_tc by (by apply rtc_nsteps; exists n); auto.
Qed.

(** C33. The two traversals terminate on every job list, whatever cycles it has,
    and the related jobs they collect are, once each, the current job, every
    job on its parent chain and every job its dependent-job lists reach; each
    of them has a level. *)
Theorem relatedJobs_reachable (jobMap : gmap string Job.t) (current : string) :
  ∃ related levels,
    relatedJobs jobMap current = Some (related, levels) ∧ NoDup related ∧
    (∀ y, y ∈ related ↔
       y = current ∨ tc (edge_up jobMap) current y ∨ tc (edge_down jobMap) current y) ∧
    (∀ y, y ∈ related → is_Some (levels !! y)).
Proof.
  destruct (relatedJobs_run jobMap (λ _ _, True) current)
    as (anc & desc & L & Hr & Ha & Hd & _ & Hdom); [done..|].
  eexists _, L. split; [exact Hr|]. split_and!; [dk| |].
  - intros y. rewrite elem_of_set_of, elem_of_cons, elem_of_app, Ha, Hd. done.
  - intros y. rewrite elem_of_set_of. intros Hy. apply elem_of_dom. by apply Hdom.
Qed.

(** On a tree-like job list the level of a related job is its signed
    distance from the current job: [-n] for the [n]-th ancestor, [n] for a
    descendant [n] steps below. *)
Lemma relatedJobs_levels jobMap current related levels :
  tree_like jobMap →
  relatedJobs jobMap current = Some (related, levels) →
  (∀ n y, nsteps (edge_up jobMap) n current y → levels !! y = Some (- Z.of_nat n)) ∧
  (∀ n y, nsteps (edge_down jobMap) n current y → levels !! y = Some (Z.of_nat n)).
Proof.
  intros (rank & Hg)%tree_like_graded Hr.
  assert (∀ y, y ∈ related ↔ y = current ∨ tc (edge_up jobMap) current y ∨
    tc (edge_down jobMap) current y) as Hin by (intros y; exact (relatedJobs_elem _ _ _ _ y Hr)).
  split; intros n y Hn.
  - rewrite (relatedJobs_graded jobMap rank current related levels y); [|done|done|].
    + f_equal. pose proof (graded_up _ _ _ _ _ Hg Hn). lia.
    + apply Hin. apply nsteps_self_or_tc in Hn. naive_solver.
  - rewrite (relatedJobs_graded jobMap rank current related levels y); [|done|done|].
    + f_equal. pose proof (graded_down _ _ _ _ _ Hg Hn). lia.
    + apply Hin. apply nsteps_self_or_tc in Hn. naive_solver.
Qed.

(** The chain [a -> b -> c], seen from [b]. *)
Definition sample_jobs : list Job.t :=
  [Job.mk "a" "a" None None (Some ["b"]) (Some "success");
   Job.mk "b" "b" (Some "Job B") (Some "a") (Some ["c"; "gone"]) (Some "failed");
   Job.mk "c" "c" None (Some "b") None None].

Definition sample_rank (x : string) : Z :=
  if String.eqb x "a" then 0 else if String.eqb x "b" then 1 else 2.

Lemma relatedJobs_levels_witness :
  ∃ related levels,
    relatedJobs (make_jobMap sample_jobs) "b" = Some (related, levels) ∧
    related = ["b"; "a"; "c"] ∧ levels !! "a" = Some (-1) ∧ levels !! "c" = Some 1.
Proof.
  eexists _, _. split; [vm_compute; reflexivity|]. split; [reflexivity|].
  eassert (_ ∧ _) as [Hup Hdn].
  { eapply (relatedJobs_levels (make_jobMap sample_jobs) "b").
    - apply (tree_certificate_sound _ sample_rank). vm_compute. reflexivity.
    - vm_compute. reflexivity. }
  split.
  - apply (Hup 1%nat). apply nsteps_once, parent_of_spec. vm_compute. reflexivity.
  - apply (Hdn 1%nat). apply nsteps_once. eexists. split; [vm_compute; reflexivity|].
    split; [vm_compute; left|vm_compute; exact I].
Defined.
