(* ===== verification/Hierarchy.v ===== *)
(** * Hierarchy: the stored jobs as the dependency diagram sees them

    The diagram of src/ui/src/jobs/JobDependencyDiagram.tsx (file DepGraph)
    walks up the field [parent_job] and down the field [dependent_jobs] of the
    jobs it fetched, the first thousand.  The server maintains both (file Fsm).
    Here the two meet: on the jobs of a store that a log leads to whose commands
    make up no dependent jobs, both walks follow the same relation among the jobs
    fetched, and without a cycle of parents the list is tree-like, which is what the
    theorems on the levels and arrows of the diagram ask for. *)

From S2P Require Import Prelude GoCore Jobs Store Fsm DepGraph.

(** ** What the interface receives *)

(** The fields of the JSON of a stored job that the diagram reads; a list
    without elements is stored as no list and sent as [null]. *)
Definition ui_job (p : PbJob.t) : DepGraph.Job.t :=
  DepGraph.Job.mk (PbJob.Name p) (PbJob.Name p) (Some (PbJob.Displayname p))
    (Some (PbJob.ParentJob p))
    (match PbJob.DependentJobs p with [] => None | deps => Some deps end)
    (Some (PbJob.Status p)).

(** The page the diagram asks for. *)
Definition perPage : nat := 1000.

(** The first page of the jobs of a store, in any order. *)
Definition serves (db : DB.t) (allJobs : list DepGraph.Job.t) : Prop :=
  ∃ jobs, jobs ≡ₚ ui_job <$> (map_to_list (DB.jobs db)).*2 ∧ allJobs = take perPage jobs.

(** The job is on the page. *)
Definition fetched (allJobs : list DepGraph.Job.t) (n : string) : Prop :=
  n ∈ DepGraph.Job.name <$> allJobs.

#[global] Instance fetched_dec allJobs n : Decision (fetched allJobs n).
Proof. unfold fetched. apply _. Defined.

(** No job is its own ancestor. *)
Definition acyclic (db : DB.t) : Prop :=
  ∀ x, ¬ tc (λ c p, parent_in db c = Some p) x x.

(** ** Lemmas *)

Lemma lookup_make_jobMap_aux l (m : gmap string DepGraph.Job.t) n :
  NoDup (DepGraph.Job.name <$> l) →
  fold_left (λ m j, <[DepGraph.Job.name j := j]> m) l m !! n =
    match List.find (λ j, bool_decide (DepGraph.Job.name j = n)) l with
    | Some j => Some j
    | None => m !! n
    end.
Proof.
  revert m. induction l as [|j l IH]; intros m; [done|].
  rewrite fmap_cons, NoDup_cons. intros [Hj Hl]. cbn. rewrite IH by done.
  case_bool_decide as E; [subst n|].
  - destruct (List.find _ l) as [j'|] eqn:F; [|by rewrite lookup_insert_eq].
    apply find_some in F as [Hin E%bool_decide_eq_true]. exfalso. apply Hj.
    rewrite <- E. apply list_elem_of_fmap_2. by apply list_elem_of_In.
  - destruct (List.find _ l); [done|]. by rewrite lookup_insert_ne.
Qed.

Lemma find_elem_of {A} (f : A → bool) l x : List.find f l = Some x → x ∈ l ∧ f x = true.
Proof. intros [Hin Hf]%find_some. split; [by apply list_elem_of_In|done]. Qed.

(** The jobs of the page: each stored, with a name of its own. *)
Lemma serves_jobs db allJobs : keyed db → serves db allJobs →
  (∀ j, j ∈ allJobs → ∃ p, DB.jobs db !! DepGraph.Job.name j = Some p ∧ j = ui_job p) ∧
  NoDup (DepGraph.Job.name <$> allJobs) ∧
  ((size (DB.jobs db) ≤ perPage)%nat → ∀ n, is_Some (DB.jobs db !! n) → fetched allJobs n).
Proof.
  intros Hk (jobs & Hs & ->). rewrite fmap_take.
  assert (∀ j, j ∈ jobs ↔ ∃ p, DB.jobs db !! DepGraph.Job.name j = Some p ∧ j = ui_job p) as Hin.
  { intros j. rewrite Hs, list_elem_of_fmap. split.
    - intros (p & -> & ([k q] & -> & Hp%elem_of_map_to_list)%list_elem_of_fmap). exists q. cbn in *.
      by rewrite (Hk _ _ Hp).
    - intros (p & Hp & ->). exists p. split; [done|]. apply list_elem_of_fmap.
      exists (DepGraph.Job.name (ui_job p), p). split; [done|by apply elem_of_map_to_list]. }
  split; [|split].
  - intros j Hj. apply Hin. rewrite <- (take_drop perPage jobs). apply elem_of_app. by left.
  - apply (sublist_NoDup _ (DepGraph.Job.name <$> jobs)); [|apply sublist_take].
    rewrite Hs, <- list_fmap_compose.
    assert (DepGraph.Job.name ∘ ui_job <$> (map_to_list (DB.jobs db)).*2 = (map_to_list (DB.jobs db)).*1) as ->.
    { rewrite <- list_fmap_compose. apply list_fmap_ext. intros i [k p] Hi. cbn.
      apply (Hk k p), elem_of_map_to_list. by eapply list_elem_of_lookup_2. }
    apply NoDup_fst_map_to_list.
  - intros Hsz n [p Hp]. unfold fetched. rewrite take_ge.
    + apply list_elem_of_fmap. exists (ui_job p). split; [cbn; by rewrite (Hk _ _ Hp)|].
      apply Hin. exists p. cbn. by rewrite (Hk _ _ Hp).
    + by rewrite Hs, !length_fmap, length_map_to_list.
Qed.

Lemma lookup_serves db allJobs n : keyed db → serves db allJobs →
  make_jobMap allJobs !! n = if bool_decide (fetched allJobs n) then ui_job <$> DB.jobs db !! n else None.
Proof.
  intros Hk (Hin & Hnd & _)%serves_jobs; [|done].
  unfold make_jobMap. rewrite lookup_make_jobMap_aux, lookup_empty by done.
  destruct (List.find _ allJobs) as [j|] eqn:F.
  - apply find_elem_of in F as [Hj E%bool_decide_eq_true]. subst n.
    rewrite bool_decide_true by by apply list_elem_of_fmap_2.
    destruct (Hin j Hj) as (p & -> & E). by rewrite E at 1.
  - rewrite bool_decide_false; [done|]. intros (j & -> & Hj)%list_elem_of_fmap.
    apply list_elem_of_In in Hj. pose proof (find_none _ _ F j Hj) as Hf. cbn in Hf.
    by rewrite bool_decide_true in Hf.
Qed.

Section hierarchy.
Context `{Env}.

Lemma fetched_stored db allJobs n : db_ok db → serves db allJobs →
  fetched allJobs n → is_Some (DB.jobs db !! n).
Proof.
  intros Hdb Hs (j & -> & Hj)%list_elem_of_fmap.
  apply (serves_jobs _ _ (ok_keyed db Hdb)) in Hs as (Hin & _). destruct (Hin j Hj) as (p & -> & _). eauto.
Qed.

Lemma has_fetched db allJobs n : db_ok db → serves db allJobs →
  has (make_jobMap allJobs) n ↔ fetched allJobs n.
Proof.
  intros Hdb Hs. unfold has. rewrite (lookup_serves _ _ n (ok_keyed db Hdb) Hs), Is_true_true, bool_decide_eq_true.
  case_bool_decide as Hf; [|split; [by intros []|done]].
  split; [done|]. intros _. apply fmap_is_Some. by eapply fetched_stored.
Qed.

Lemma edge_up_parent db allJobs x p : db_ok db → serves db allJobs →
  edge_up (make_jobMap allJobs) x p ↔
    fetched allJobs x ∧ fetched allJobs p ∧ parent_in db x = Some p ∧ p ≠ "".
Proof.
  intros Hdb Hs. unfold edge_up, parent_in. setoid_rewrite (has_fetched db); [|done..].
  rewrite (lookup_serves _ _ x (ok_keyed db Hdb) Hs). split.
  - intros (j & Hj & Ht & Hh). case_bool_decide as Hx; [|done]. apply fmap_Some in Hj as (q & -> & ->). cbn in *.
    destruct (String.eqb_spec (PbJob.ParentJob q) ""); by simplify_eq.
  - intros (Hx & Hf & (q & Hq & ->)%fmap_Some & Hp). exists (ui_job q).
    rewrite bool_decide_true, Hq by done. split; [done|]. cbn.
    by destruct (String.eqb_spec (PbJob.ParentJob q) "").
Qed.

Lemma edge_down_deps db allJobs x c : db_ok db → serves db allJobs →
  edge_down (make_jobMap allJobs) x c ↔ fetched allJobs x ∧ fetched allJobs c ∧ c ∈ deps_in db x.
Proof.
  intros Hdb Hs. unfold edge_down, deps_in. setoid_rewrite (has_fetched db); [|done..].
  rewrite (lookup_serves _ _ x (ok_keyed db Hdb) Hs).
  assert (∀ q, children_of (ui_job q) = PbJob.DependentJobs q) as Hc.
  { intros q. unfold children_of, ui_job. cbn. by destruct (PbJob.DependentJobs q). }
  split.
  - intros (j & Hj & Ht & Hh). case_bool_decide as Hx; [|done].
    apply fmap_Some in Hj as (q & -> & ->). by rewrite Hc in Ht.
  - intros (Hx & Hf & Hin). destruct (fetched_stored _ _ _ Hdb Hs Hx) as [q Hq].
    exists (ui_job q). rewrite bool_decide_true, Hq by done. rewrite Hq in Hin. split; [done|]. by rewrite Hc.
Qed.

(** C23. The diagram shows the hierarchy of the store: it fetches the first
    thousand jobs; on those of any state a log leads to whose commands made up no
    dependent jobs, in whatever order they come, walking up follows the parents of
    the store and walking down its lists of dependent jobs, from a job fetched to a
    job fetched, and the two are converse; so the jobs below a job are those whose
    chain of parents passes it. When no job is its own ancestor, the list is
    tree-like, as the theorems on levels and arrows ask. When at most a thousand
    jobs are stored, all are fetched, and the walks miss none. *)
Theorem diagram_follows_store sort db allJobs :
  honest_log sort db → serves db allJobs →
  (∀ x p, edge_up (make_jobMap allJobs) x p ↔
     fetched allJobs x ∧ fetched allJobs p ∧ parent_in db x = Some p ∧ p ≠ "") ∧
  (∀ x c, edge_down (make_jobMap allJobs) x c ↔ edge_up (make_jobMap allJobs) c x) ∧
  (∀ x c, tc (edge_down (make_jobMap allJobs)) x c ↔ tc (edge_up (make_jobMap allJobs)) c x) ∧
  (acyclic db → tree_like (make_jobMap allJobs)) ∧
  ((size (DB.jobs db) ≤ perPage)%nat →
     ∀ x p, edge_up (make_jobMap allJobs) x p ↔ parent_in db x = Some p ∧ p ≠ "").
Proof.
  intros Hlog Hs. pose proof (honest_log_linked _ _ Hlog) as Hl.
  apply honest_log_reachable, reachable_ok in Hlog as [Hdb _].
  assert (∀ x p, edge_up (make_jobMap allJobs) x p ↔
     fetched allJobs x ∧ fetched allJobs p ∧ parent_in db x = Some p ∧ p ≠ "") as Hup
    by (intros; by apply edge_up_parent).
  assert (∀ x c, edge_down (make_jobMap allJobs) x c ↔ edge_up (make_jobMap allJobs) c x) as Hdown.
  { intros x c. rewrite Hup, (edge_down_deps db) by done.
    destruct (decide (x = "")) as [->|Hx]; [|rewrite (proj1 Hl x c Hx); naive_solver].
    rewrite deps_in_empty, elem_of_nil by done. naive_solver. }
  split; [done|]. split; [done|]. split; [|split].
  - intros x c. split; induction 1 as [x y Hxy|x y z Hxy _ IH].
    + apply tc_once. by apply Hdown.
    + eapply tc_r; [exact IH|]. by apply Hdown.
    + apply tc_once. by apply Hdown.
    + eapply tc_r; [exact IH|]. by apply Hdown.
  - intros Hac. split; [|intros x c; apply Hdown]. intros x Hx. apply (Hac x).
    revert Hx. generalize x at 2 4. intros y.
    induction 1 as [a b Hab|a b d Hab _ IH]; [apply tc_once|eapply tc_l; [|exact IH]]; by apply Hup.
  - intros Hsz x p. rewrite Hup. split; [tauto|]. intros [Hx Hp].
    destruct (serves_jobs _ _ (ok_keyed db Hdb) Hs) as (_ & _ & Hall). specialize (Hall Hsz).
    split_and!; [..|done|done]; apply Hall.
    + unfold parent_in in Hx. apply fmap_Some in Hx as (q & -> & _). eauto.
    + apply fmap_Some in Hx as (q & Hq & ->).
      by eapply children_listed_parents_stored; [apply linked_children_listed|..].
Qed.
End hierarchy.

(** ** Example *)

Lemma acyclic_by_rank rank db :
  forallb (λ kv, (rank (PbJob.ParentJob kv.2) <? rank kv.1)%nat) (map_to_list (DB.jobs db)) = true →
  acyclic db.
Proof.
  intros Hr. assert (∀ c p, parent_in db c = Some p → (rank p < rank c)%nat) as Hlt.
  { intros c p (q & Hq & ->)%fmap_Some. rewrite forallb_forall in Hr.
    apply Nat.ltb_lt, (Hr (c, q)), list_elem_of_In. by apply elem_of_map_to_list. }
  assert (∀ c p, tc (λ c p, parent_in db c = Some p) c p → (rank p < rank c)%nat) as Htc.
  { induction 1 as [a b Hab|a b d Hab _ IH]; apply Hlt in Hab; lia. }
  intros x Hx%Htc. lia.
Qed.

Section demo.
#[local] Existing Instance demo_env.

Lemma diagram_follows_store_witness :
  edge_up (make_jobMap (ui_job <$> (map_to_list (DB.jobs demo_ab)).*2)) "b" "a" ∧
  tree_like (make_jobMap (ui_job <$> (map_to_list (DB.jobs demo_ab)).*2)).
Proof.
  assert (serves demo_ab (ui_job <$> (map_to_list (DB.jobs demo_ab)).*2)) as Hs.
  { eexists. split; [reflexivity|]. vm_compute. reflexivity. }
  destruct (diagram_follows_store demo_sort demo_ab (ui_job <$> (map_to_list (DB.jobs demo_ab)).*2)
    honest_demo_ab Hs) as (_ & _ & _ & Ht & Hup).
  split.
  - apply Hup; [apply Nat.leb_le; vm_compute; reflexivity|].
    split; [vm_compute; reflexivity|discriminate].
  - apply Ht, (acyclic_by_rank (λ s, if String.eqb s "b" then 2 else String.length s)%nat). vm_compute. reflexivity.
Defined.
End demo.
