(* ===== verification/DepLayout.v ===== *)
(** * DepLayout: the geometry of the job dependency diagram

    The second half of [buildDependencyGraph] of
    src/ui/src/jobs/JobDependencyDiagram.tsx: grouping the related jobs by
    level, placing one box per job, one row per level, and joining every job to
    its parent.  The theorems say that every related job of the list is drawn
    exactly once, that boxes never overlap and stay on the canvas, that edges
    start and end on the boxes they join, and that on a tree-like job list each
    edge goes exactly one row down. *)

From S2P Require Import Prelude JsCore DepGraph.

(** ** Data and constants *)

Definition NODE_WIDTH : Z := 160.
Definition NODE_HEIGHT : Z := 60.
Definition LEVEL_HEIGHT : Z := 100.
Definition NODE_SPACING : Z := 20.

Module DependencyNode.
Record t := mk {
  id : string;
  name : string;
  displayName : string;
  status : string;
  x : Z;
  y : Z;
  level : Z;
  isCurrent : bool;
}.
End DependencyNode.

Module DependencyEdge.
Record t := mk {
  from : string;
  to : string;
  fromX : Z;
  fromY : Z;
  toX : Z;
  toY : Z;
}.
End DependencyEdge.

(** ** Grouping *)

(** [jobLevels.get(jobName) || 0] *)
Definition level_of (levels : gmap string Z) (jobName : string) : Z :=
  default 0 (levels !! jobName).

(** The body of [relatedJobs.forEach]: an empty group if there is none, then
    the push. *)
Definition pushLevel (levels : gmap string Z) (groups : list (Z * list string))
    (jobName : string) : list (Z * list string) :=
  let level := level_of levels jobName in
  let groups := if jm_has level groups then groups else jm_set level [] groups in
  jm_set level (default [] (jm_get level groups) ++ [jobName]) groups.

Definition levelGroups (levels : gmap string Z) (related : list string)
    : list (Z * list string) :=
  fold_left (pushLevel levels) related [].

Definition sortedLevels (groups : list (Z * list string)) : list Z :=
  js_sort num_cmp groups.*1.

(** [sortedLevels[0] || 0] *)
Definition minLevel (sorted : list Z) : Z :=
  match sorted with l :: _ => l | [] => 0 end.

(** [levelGroups.get(level) || []] *)
Definition jobsAtLevel (groups : list (Z * list string)) (level : Z) : list string :=
  default [] (jm_get level groups).

(** ** Placing *)

Definition levelWidth (jobs : list string) : Z :=
  Z.of_nat (length jobs) * (NODE_WIDTH + NODE_SPACING) - NODE_SPACING.

Definition maxWidth (groups : list (Z * list string)) (sorted : list Z) : Z :=
  fold_left (λ w level, Z.max w (levelWidth (jobsAtLevel groups level))) sorted 0.

Record placement := Placement {
  nodePositions : gmap string (Z * Z);
  nodes : list DependencyNode.t;
}.

Section layout.
Variables (jobMap : gmap string Job.t) (currentName : string).

Definition node_of (level : Z) (jobName : string) (x y : Z) (job : Job.t)
    : DependencyNode.t :=
  DependencyNode.mk jobName jobName
    (str_or (Job.displayname job) jobName)
    (str_or (Job.status job) "untriggered")
    x y level (bool_decide (jobName = currentName)).

(** [jobsAtLevel.forEach((jobName, index) => ...)] *)
Fixpoint placeJobs (startX y level : Z) (index : Z) (jobs : list string)
    (st : placement) : placement :=
  match jobs with
  | [] => st
  | jobName :: jobs =>
      let x := startX + index * (NODE_WIDTH + NODE_SPACING) in
      let st := Placement (<[jobName := (x, y)]> (nodePositions st)) (nodes st) in
      let st :=
        match jobMap !! jobName with
        | Some job =>
            Placement (nodePositions st) (nodes st ++ [node_of level jobName x y job])
        | None => st
        end in
      placeJobs startX y level (index + 1) jobs st
  end.

(** [(maxWidth - levelWidth) / 2] is a division of an even number, see
    [startX_exact]. *)
Definition startX_of (groups : list (Z * list string)) (sorted : list Z) (level : Z) : Z :=
  (maxWidth groups sorted - levelWidth (jobsAtLevel groups level)) / 2.

Definition y_of (sorted : list Z) (level : Z) : Z :=
  (level - minLevel sorted) * LEVEL_HEIGHT + 30.

Definition placeLevels (groups : list (Z * list string)) (sorted : list Z) : placement :=
  fold_left (λ st level,
    placeJobs (startX_of groups sorted level) (y_of sorted level)
      (level - minLevel sorted) 0 (jobsAtLevel groups level) st)
    sorted (Placement ∅ []).

(** The body of the last [relatedJobs.forEach]. *)
Definition edge_of (related : list string) (pos : gmap string (Z * Z)) (jobName : string)
    : list DependencyEdge.t :=
  match jobMap !! jobName with
  | Some job =>
      match truthy_str (Job.parent_job job) with
      | Some parent =>
          if decide (parent ∈ related) then
            match pos !! parent, pos !! jobName with
            | Some fromPos, Some toPos =>
                [DependencyEdge.mk parent jobName fromPos.1 fromPos.2 toPos.1 toPos.2]
            | _, _ => []
            end
          else []
      | None => []
      end
  | None => []
  end.

Definition createEdges (related : list string) (pos : gmap string (Z * Z))
    : list DependencyEdge.t :=
  fold_left (λ edges jobName, edges ++ edge_of related pos jobName) related [].
End layout.

Definition buildDependencyGraph (currentJob : Job.t) (allJobs : list Job.t)
    : option (list DependencyNode.t * list DependencyEdge.t) :=
  let jobMap := make_jobMap allJobs in
  let? (related, levels) := relatedJobs jobMap (Job.name currentJob) in
  let groups := levelGroups levels related in
  let sorted := sortedLevels groups in
  let placed := placeLevels jobMap (Job.name currentJob) groups sorted in
  let edges := createEdges jobMap related (nodePositions placed) in
  Some (nodes placed, edges).

Example buildDependencyGraph_sample :
  match buildDependencyGraph (Job.mk "b" "b" (Some "Job B") (Some "a") (Some ["c"; "gone"]) None)
    sample_jobs with
  | Some (ns, es) =>
      ((λ n, (DependencyNode.id n, (DependencyNode.x n, DependencyNode.y n))) <$> ns,
       (λ e, (DependencyEdge.from e, DependencyEdge.to e)) <$> es)
      = ([("a", (0, 30)); ("b", (0, 130)); ("c", (0, 230))], [("a", "b"); ("b", "c")])
  | None => False
  end.
Proof. vm_compute. reflexivity. Qed.

(** ** The groups *)

Section groups.
Variable levels : gmap string Z.
Implicit Types (related : list string) (l : Z).

Definition at_level l related : list string :=
  filter (λ n, level_of levels n = l) related.

Lemma pushLevel_keys groups n :
  (pushLevel levels groups n).*1 =
    if decide (level_of levels n ∈ groups.*1) then groups.*1
    else groups.*1 ++ [level_of levels n].
Proof.
  unfold pushLevel, jm_has.
  destruct (jm_get (level_of levels n) groups) as [l|] eqn:Hg; cbn.
  - apply jm_get_Some_key in Hg. by rewrite jm_keys_set, !decide_True.
  - apply jm_get_None in Hg. rewrite !jm_keys_set, (decide_False (P := _ ∈ groups.*1)) by done.
    rewrite decide_True; [done|set_solver].
Qed.

Lemma pushLevel_jobs groups n l :
  jobsAtLevel (pushLevel levels groups n) l =
    jobsAtLevel groups l ++ (if decide (level_of levels n = l) then [n] else []).
Proof.
  unfold pushLevel, jobsAtLevel, jm_has. case_decide as Hl.
  - subst l. rewrite jm_get_set_eq. cbn. f_equal.
    destruct (jm_get _ groups) as [g|] eqn:Hg; cbn; [by rewrite Hg|].
    by rewrite jm_get_set_eq.
  - rewrite jm_get_set_ne, app_nil_r by congruence. case_match; [done|].
    by rewrite jm_get_set_ne by congruence.
Qed.

Lemma levelGroups_run related groups l :
  jobsAtLevel (fold_left (pushLevel levels) related groups) l =
    jobsAtLevel groups l ++ at_level l related.
Proof.
  revert groups. unfold at_level. induction related as [|n related IH]; intros groups; cbn [fold_left].
  - by rewrite app_nil_r.
  - rewrite IH, pushLevel_jobs, <-app_assoc, filter_cons. by case_decide.
Qed.

(** A group holds the related jobs of its level, in their order. *)
Lemma jobsAtLevel_groups related l :
  jobsAtLevel (levelGroups levels related) l = at_level l related.
Proof. unfold levelGroups. by rewrite levelGroups_run. Qed.

Lemma levelGroups_keys related :
  NoDup (levelGroups levels related).*1 ∧
  ∀ l, l ∈ (levelGroups levels related).*1 ↔ ∃ n, n ∈ related ∧ level_of levels n = l.
Proof.
  unfold levelGroups.
  cut (∀ groups, NoDup groups.*1 →
    NoDup (fold_left (pushLevel levels) related groups).*1 ∧
    ∀ l, l ∈ (fold_left (pushLevel levels) related groups).*1 ↔
      l ∈ groups.*1 ∨ ∃ n, n ∈ related ∧ level_of levels n = l).
  { intros H. destruct (H [] (NoDup_nil_2)) as [Hn Hk]. split; [done|].
    intros l. rewrite Hk. set_solver. }
  induction related as [|n related IH]; intros groups Hg; [set_solver|]. cbn [fold_left].
  destruct (IH (pushLevel levels groups n)) as [Hn Hk].
  { rewrite pushLevel_keys. case_decide; [done|].
    apply NoDup_app; split_and!; [done|set_solver|apply NoDup_singleton]. }
  split; [done|]. intros l. rewrite Hk, pushLevel_keys. case_decide; set_solver.
Qed.

Lemma elem_of_sortedLevels related l :
  l ∈ sortedLevels (levelGroups levels related) ↔
    ∃ n, n ∈ related ∧ level_of levels n = l.
Proof.
  unfold sortedLevels. rewrite (js_sort_Permutation num_cmp). apply levelGroups_keys.
Qed.

Lemma NoDup_sortedLevels related : NoDup (sortedLevels (levelGroups levels related)).
Proof.
  unfold sortedLevels. rewrite (js_sort_Permutation num_cmp). apply levelGroups_keys.
Qed.

Lemma minLevel_le related l :
  l ∈ sortedLevels (levelGroups levels related) →
  minLevel (sortedLevels (levelGroups levels related)) ≤ l.
Proof.
  unfold sortedLevels. pose proof (js_sort_sorted num_cmp (levelGroups levels related).*1) as Hs.
  destruct Hs as [|m sorted _ Hm]; cbn; [set_solver|].
  rewrite elem_of_cons. intros [->|Hl]; [done|].
  rewrite Forall_forall in Hm. specialize (Hm l Hl).
  unfold cmp_le, num_cmp in Hm. lia.
Qed.
End groups.

(** Buckets of a function with distinct keys cover the list they bucket. *)
Lemma buckets_Permutation {A} (f : A → Z) (ks : list Z) (l : list A) :
  NoDup ks → (∀ x, x ∈ l → f x ∈ ks) →
  concat ((λ k, filter (λ x, f x = k) l) <$> ks) ≡ₚ l.
Proof.
  intros Hks Hl.
  trans (filter (λ x, f x ∈ ks) l); last first.
  { clear Hks. induction l as [|x l IH]; [done|]. rewrite filter_cons, decide_True by set_solver.
    f_equiv. apply IH. set_solver. }
  clear Hl. induction Hks as [|k ks Hk Hks IH]; cbn.
  - induction l as [|x l IH]; [done|]. rewrite filter_cons, decide_False by set_solver. done.
  - rewrite IH. clear IH. induction l as [|x l IH]; [done|].
    rewrite !filter_cons. repeat case_decide; try set_solver;
      rewrite <-?Permutation_middle; by apply perm_skip.
Qed.

(** ** Slots: what the nested loops write *)

Record slot := Slot { s_name : string; s_level : Z; s_x : Z; s_y : Z }.

Section slots.
Variables (jobMap : gmap string Job.t) (currentName : string).

Definition slots_from (startX y level index : Z) (jobs : list string) : list slot :=
  imap (λ i n, Slot n level
    (startX + (index + Z.of_nat i) * (NODE_WIDTH + NODE_SPACING)) y) jobs.

Definition slot_node (s : slot) : option DependencyNode.t :=
  node_of currentName (s_level s) (s_name s) (s_x s) (s_y s) <$> jobMap !! s_name s.

Definition put (pos : gmap string (Z * Z)) (s : slot) : gmap string (Z * Z) :=
  <[s_name s := (s_x s, s_y s)]> pos.

Lemma placeJobs_slots startX y level index jobs st :
  placeJobs jobMap currentName startX y level index jobs st =
    Placement (fold_left put (slots_from startX y level index jobs) (nodePositions st))
      (nodes st ++ omap slot_node (slots_from startX y level index jobs)).
Proof.
  revert index st. induction jobs as [|n jobs IH]; intros index [pos ns]; cbn [placeJobs].
  { cbn. by rewrite app_nil_r. }
  assert (slots_from startX y level index (n :: jobs) =
    Slot n level (startX + index * (NODE_WIDTH + NODE_SPACING)) y ::
      slots_from startX y level (index + 1) jobs) as ->.
  { unfold slots_from. cbn [imap]. f_equal; [f_equal; lia|].
    apply imap_ext. intros i m _. cbn. f_equal. lia. }
  rewrite IH. cbn [nodePositions nodes omap list_omap fold_left].
  unfold slot_node at 2. cbn [s_name s_level s_x s_y].
  destruct (jobMap !! n) as [job|]; cbn; [|done]. by rewrite <-app_assoc.
Qed.

Definition all_slots (groups : list (Z * list string)) (sorted : list Z) : list slot :=
  concat ((λ level, slots_from (startX_of groups sorted level) (y_of sorted level)
    (level - minLevel sorted) 0 (jobsAtLevel groups level)) <$> sorted).

Lemma placeLevels_slots groups sorted :
  placeLevels jobMap currentName groups sorted =
    Placement (fold_left put (all_slots groups sorted) ∅)
      (omap slot_node (all_slots groups sorted)).
Proof.
  unfold placeLevels, all_slots.
  cut (∀ st f, (∀ level st, f st level = placeJobs jobMap currentName
      (startX_of groups sorted level) (y_of sorted level)
      (level - minLevel sorted) 0 (jobsAtLevel groups level) st) →
    ∀ ls, fold_left f ls st =
      let all := concat ((λ level, slots_from (startX_of groups sorted level)
        (y_of sorted level) (level - minLevel sorted) 0 (jobsAtLevel groups level)) <$> ls) in
      Placement (fold_left put all (nodePositions st)) (nodes st ++ omap slot_node all)).
  { intros H. by rewrite H. }
  intros st f Hf ls. revert st. induction ls as [|l ls IH]; intros [pos ns]; cbn.
  { by rewrite app_nil_r. }
  rewrite IH, Hf, placeJobs_slots. cbn. by rewrite fold_left_app, omap_app, app_assoc.
Qed.

Lemma put_all_other n (ss : list slot) pos :
  n ∉ s_name <$> ss → fold_left put ss pos !! n = pos !! n.
Proof.
  revert pos. induction ss as [|s ss IH]; intros pos Hn; [done|]. cbn in Hn |- *.
  rewrite IH by set_solver. unfold put. rewrite lookup_insert_ne; set_solver.
Qed.

Lemma put_all_lookup (ss : list slot) pos s :
  NoDup (s_name <$> ss) → s ∈ ss →
  fold_left put ss pos !! s_name s = Some (s_x s, s_y s).
Proof.
  revert pos. induction ss as [|t ss IH]; intros pos; [set_solver|].
  cbn. rewrite NoDup_cons, elem_of_cons. intros [Hn Hnd] [->|Hs]; [|by apply IH].
  rewrite put_all_other by done. apply lookup_insert_eq.
Qed.

Lemma slots_from_names startX y level index jobs :
  s_name <$> slots_from startX y level index jobs = jobs.
Proof.
  unfold slots_from. rewrite fmap_imap.
  etrans; [apply (imap_const id)|apply list_fmap_id].
Qed.

Lemma slot_names groups sorted :
  s_name <$> all_slots groups sorted = concat (jobsAtLevel groups <$> sorted).
Proof.
  unfold all_slots. set (F := λ level, slots_from _ _ _ _ _).
  assert (∀ l, s_name <$> F l = jobsAtLevel groups l) as HF
    by (intros l; apply slots_from_names).
  clearbody F. induction sorted as [|l ls IH]; [done|]. cbn.
  by rewrite fmap_app, IH, HF.
Qed.

(** A slot is the [i]-th place of the row of one level. *)
Lemma elem_of_all_slots groups sorted s :
  s ∈ all_slots groups sorted ↔ ∃ level i,
    level ∈ sorted ∧ jobsAtLevel groups level !! i = Some (s_name s) ∧
    s_level s = level - minLevel sorted ∧
    s_x s = startX_of groups sorted level + Z.of_nat i * (NODE_WIDTH + NODE_SPACING) ∧
    s_y s = y_of sorted level.
Proof.
  unfold all_slots. rewrite list_elem_of_In, in_concat. split.
  - intros (ss & Hss & Hs). apply list_elem_of_In, list_elem_of_fmap in Hss as (l & -> & Hl).
    apply list_elem_of_In, elem_of_lookup_imap in Hs as (i & n & -> & Hi).
    exists l, i. split_and!; [done..|]. done.
  - intros (l & i & Hl & Hi & Hlev & Hx & Hy). eexists. split.
    + apply list_elem_of_In, list_elem_of_fmap. by exists l.
    + apply list_elem_of_In, elem_of_lookup_imap. exists i, (s_name s).
      split; [|done]. destruct s; cbn in *. by subst.
Qed.

Lemma elem_of_slot_nodes (ss : list slot) n :
  n ∈ omap slot_node ss ↔ ∃ s job, s ∈ ss ∧ jobMap !! s_name s = Some job ∧
    n = node_of currentName (s_level s) (s_name s) (s_x s) (s_y s) job.
Proof.
  rewrite list_elem_of_omap. unfold slot_node. split.
  - intros (s & Hs & (job & Hj & ->)%fmap_Some). by exists s, job.
  - intros (s & job & Hs & Hj & ->). exists s. by rewrite Hj.
Qed.

(** The drawn names are the listed names of the slots, in order. *)
Lemma slot_node_ids (ss : list slot) :
  DependencyNode.id <$> omap slot_node ss =
    filter (λ n, has jobMap n) (s_name <$> ss).
Proof.
  induction ss as [|s ss IH]; [done|]. rewrite fmap_cons, filter_cons.
  cbn [omap list_omap]. unfold slot_node at 1. destruct (jobMap !! s_name s) as [job|] eqn:Hj; cbn.
  - rewrite decide_True by (apply has_spec; by rewrite Hj). by f_equal.
  - rewrite decide_False by (rewrite has_spec, Hj; by intros [? [=]]). done.
Qed.
End slots.

(** ** The graph as a whole *)

Lemma tc_both {A} (E : relation A) (P : A → Prop) x y :
  (∀ x y, E x y → P x ∧ P y) → tc E x y → P x ∧ P y.
Proof.
  intros HE. induction 1 as [x y Hxy|x y z Hxy _ [_ IH]]; [by apply HE|].
  split; [by apply HE in Hxy as []|done].
Qed.

Lemma edge_listed jobMap x y :
  (edge_up jobMap x y → has jobMap x ∧ has jobMap y) ∧
  (edge_down jobMap x y → has jobMap x ∧ has jobMap y).
Proof.
  split; intros (j & Hj & _ & Hy); (split; [apply has_spec; by rewrite Hj|done]).
Qed.

Section built.
Variables (currentJob : Job.t) (allJobs : list Job.t).
Let jobMap := make_jobMap allJobs.
Let cur := Job.name currentJob.

(** Names, levels and slots behind a built graph. *)
Record layout_of (ns : list DependencyNode.t) (es : list DependencyEdge.t)
    (related : list string) (levels : gmap string Z) (groups : list (Z * list string))
    (ss : list slot) : Prop := {
  la_related : relatedJobs jobMap cur = Some (related, levels);
  la_NoDup : NoDup related;
  la_reach : ∀ y, y ∈ related ↔
    y = cur ∨ tc (edge_up jobMap) cur y ∨ tc (edge_down jobMap) cur y;
  la_levels : ∀ y, y ∈ related → is_Some (levels !! y);
  la_groups : groups = levelGroups levels related;
  la_slots : ss = all_slots groups (sortedLevels groups);
  la_names : s_name <$> ss ≡ₚ related;
  la_nodes : ns = omap (slot_node jobMap cur) ss;
  la_edges : es = createEdges jobMap related (fold_left put ss ∅);
}.

Lemma build_layout :
  ∃ ns es related levels groups ss,
    buildDependencyGraph currentJob allJobs = Some (ns, es) ∧
    layout_of ns es related levels groups ss.
Proof.
  destruct (relatedJobs_run jobMap (λ _ _, True) cur)
    as (anc & desc & L & Hr & Ha & Hd & _ & Hdom); [done..|].
  unfold buildDependencyGraph. fold jobMap cur. rewrite Hr.
  eexists _, _, _, _, _, _. split; [reflexivity|].
  rewrite placeLevels_slots. cbn [nodes nodePositions].
  split; [exact Hr|dk| | |reflexivity|reflexivity| |reflexivity|reflexivity].
  - intros y. by rewrite elem_of_set_of, elem_of_cons, elem_of_app, Ha, Hd.
  - intros y. rewrite elem_of_set_of. intros Hy. apply elem_of_dom. by apply Hdom.
  - rewrite slot_names. set (related := set_of _).
    rewrite (list_fmap_ext (jobsAtLevel _) (λ l, at_level L l related))
      by (intros; apply jobsAtLevel_groups).
    apply (buckets_Permutation (level_of L)); [apply NoDup_sortedLevels|].
    intros n Hn. apply elem_of_sortedLevels. by exists n.
Qed.

Lemma build_layout_inv ns es :
  buildDependencyGraph currentJob allJobs = Some (ns, es) →
  ∃ related levels groups ss, layout_of ns es related levels groups ss.
Proof.
  destruct build_layout as (? & ? & related & levels & groups & ss & Hb & Hl).
  intros. simplify_eq. by exists related, levels, groups, ss.
Qed.

Section laid_out.
Context {ns es related levels groups ss}
  (HL : layout_of ns es related levels groups ss).

Lemma slots_NoDup : NoDup (s_name <$> ss).
Proof. rewrite (la_names _ _ _ _ _ _ HL). apply HL. Qed.

Lemma slot_unique s t : s ∈ ss → t ∈ ss → s_name s = s_name t → s = t.
Proof.
  intros Hs Ht Hst. pose proof (put_all_lookup ss ∅ s slots_NoDup Hs) as Hls.
  apply list_elem_of_lookup in Hs as [i Hi]. apply list_elem_of_lookup in Ht as [j Hj].
  assert (i = j) as ->; [|congruence].
  eapply (NoDup_lookup _ i j (s_name s) slots_NoDup);
    rewrite list_lookup_fmap; [by rewrite Hi|by rewrite Hj, Hst].
Qed.

(** Every slot has the level of its job. *)
Lemma slot_place s :
  s ∈ ss → ∃ i,
    at_level levels (level_of levels (s_name s)) related !! i = Some (s_name s) ∧
    s_level s = level_of levels (s_name s) - minLevel (sortedLevels groups) ∧
    s_x s = startX_of groups (sortedLevels groups) (level_of levels (s_name s)) +
      Z.of_nat i * (NODE_WIDTH + NODE_SPACING) ∧
    s_y s = s_level s * LEVEL_HEIGHT + 30 ∧ 0 ≤ s_level s.
Proof.
  rewrite (la_slots _ _ _ _ _ _ HL), elem_of_all_slots.
  intros (l & i & Hl & Hi & Hlev & Hx & Hy).
  rewrite (la_groups _ _ _ _ _ _ HL) in *. rewrite jobsAtLevel_groups in Hi.
  assert (level_of levels (s_name s) = l) as Hlvl.
  { apply list_elem_of_lookup_2, list_elem_of_filter in Hi. apply Hi. }
  rewrite Hlvl. exists i. split_and!; try done.
  - unfold y_of in Hy. congruence.
  - apply minLevel_le in Hl. lia.
Qed.

Lemma node_slot n :
  n ∈ ns ↔ ∃ s job, s ∈ ss ∧ jobMap !! s_name s = Some job ∧
    n = node_of cur (s_level s) (s_name s) (s_x s) (s_y s) job.
Proof. rewrite (la_nodes _ _ _ _ _ _ HL). apply elem_of_slot_nodes. Qed.

Lemma nodes_ids : DependencyNode.id <$> ns ≡ₚ filter (λ n, has jobMap n) related.
Proof.
  rewrite (la_nodes _ _ _ _ _ _ HL), slot_node_ids.
  by rewrite (la_names _ _ _ _ _ _ HL).
Qed.

Lemma slot_exists n : n ∈ related → ∃ s, s ∈ ss ∧ s_name s = n.
Proof.
  rewrite <-(la_names _ _ _ _ _ _ HL). intros (s & -> & Hs)%list_elem_of_fmap. eauto.
Qed.

Lemma slot_related s : s ∈ ss → s_name s ∈ related.
Proof.
  intros Hs. rewrite <-(la_names _ _ _ _ _ _ HL). apply list_elem_of_fmap. by exists s.
Qed.

(** A related job other than the current one is listed; without the
    current job in the list there is no other related job. *)
Lemma related_listed n : n ∈ related → n ≠ cur → has jobMap n ∧ has jobMap cur.
Proof.
  intros Hn Hne. apply (la_reach _ _ _ _ _ _ HL) in Hn as [?|Hn]; [done|].
  destruct Hn as [Hn|Hn].
  - apply (tc_both _ (λ x, has jobMap x)) in Hn as [??]; [done|].
    intros x y. apply edge_listed.
  - apply (tc_both _ (λ x, has jobMap x)) in Hn as [??]; [done|].
    intros x y. apply edge_listed.
Qed.

(** As soon as one related job is listed, all of them are. *)
Lemma related_all_listed m n :
  m ∈ related → has jobMap m → n ∈ related → has jobMap n.
Proof.
  intros Hm Hhas Hn. destruct (decide (n = cur)) as [->|Hne].
  - destruct (decide (m = cur)) as [->|Hne']; [done|]. by apply (related_listed m).
  - by apply related_listed.
Qed.
End laid_out.
End built.

(** ** Geometry *)

Lemma fold_left_max_ub {A} (f : A → Z) (l : list A) (a : Z) :
  a ≤ fold_left (λ w x, Z.max w (f x)) l a ∧
  ∀ x, x ∈ l → f x ≤ fold_left (λ w x, Z.max w (f x)) l a.
Proof.
  revert a. induction l as [|y l IH]; intros a; cbn; [set_solver by lia|].
  destruct (IH (Z.max a (f y))) as [Ha Hx]. split; [lia|].
  intros x. rewrite elem_of_cons. intros [->|Hin]; [lia|by apply Hx].
Qed.

Lemma fold_left_max_even {A} (f : A → Z) (l : list A) (a : Z) :
  Z.Even a → (∀ x, Z.Even (f x)) → Z.Even (fold_left (λ w x, Z.max w (f x)) l a).
Proof.
  revert a. induction l as [|y l IH]; intros a Ha Hf; cbn; [done|].
  apply IH; [|done]. destruct (Z.max_spec a (f y)) as [[_ ->]|[_ ->]]; auto.
Qed.

Lemma levelWidth_even jobs : Z.Even (levelWidth jobs).
Proof.
  unfold levelWidth, NODE_WIDTH, NODE_SPACING.
  exists (Z.of_nat (length jobs) * 90 - 10). lia.
Qed.

(** The halving of [startX] is exact. *)
Lemma startX_exact groups sorted level :
  2 * startX_of groups sorted level =
    maxWidth groups sorted - levelWidth (jobsAtLevel groups level).
Proof.
  unfold startX_of.
  destruct (fold_left_max_even (λ l, levelWidth (jobsAtLevel groups l)) sorted 0) as [m Hm];
    [by exists 0|intros; apply levelWidth_even|].
  destruct (levelWidth_even (jobsAtLevel groups level)) as [k Hk].
  unfold maxWidth. rewrite Hm, Hk. replace (2 * m - 2 * k) with ((m - k) * 2) by lia.
  rewrite Z.div_mul by lia. lia.
Qed.

Lemma row_bounds groups sorted level (i : nat) :
  level ∈ sorted → (i < length (jobsAtLevel groups level))%nat →
  let x := startX_of groups sorted level + Z.of_nat i * (NODE_WIDTH + NODE_SPACING) in
  0 ≤ x ∧ x + NODE_WIDTH ≤ maxWidth groups sorted.
Proof.
  intros Hl Hi. pose proof (startX_exact groups sorted level) as Hx.
  destruct (fold_left_max_ub (λ l, levelWidth (jobsAtLevel groups l)) sorted 0) as [_ Hub].
  specialize (Hub level Hl). fold (maxWidth groups sorted) in Hub.
  unfold levelWidth, NODE_WIDTH, NODE_SPACING in *. lia.
Qed.

(** [svgWidth] and [svgHeight] of the component, and the padding of the group
    the boxes are drawn in. *)
Definition svgPadding : Z := 40.
Definition maxX (ns : list DependencyNode.t) : Z :=
  max_by (λ n, DependencyNode.x n + NODE_WIDTH) 300 ns.
Definition maxY (ns : list DependencyNode.t) : Z :=
  max_by (λ n, DependencyNode.y n + NODE_HEIGHT + 30) 150 ns.
Definition svgWidth (ns : list DependencyNode.t) : Z := maxX ns + svgPadding * 2.
Definition svgHeight (ns : list DependencyNode.t) : Z := maxY ns + svgPadding.

(** The boxes of two nodes share no point of their interiors. *)
Definition boxes_disjoint (a b : DependencyNode.t) : Prop :=
  DependencyNode.x a + NODE_WIDTH ≤ DependencyNode.x b ∨
  DependencyNode.x b + NODE_WIDTH ≤ DependencyNode.x a ∨
  DependencyNode.y a + NODE_HEIGHT ≤ DependencyNode.y b ∨
  DependencyNode.y b + NODE_HEIGHT ≤ DependencyNode.y a.

Section geometry.
Context {currentJob : Job.t} {allJobs : list Job.t} {ns es related levels groups ss}
  (HL : layout_of currentJob allJobs ns es related levels groups ss).

Lemma slots_disjoint s t :
  s ∈ ss → t ∈ ss → s_name s ≠ s_name t →
  (s_y s = s_y t ∧ (s_x s + NODE_WIDTH + NODE_SPACING ≤ s_x t ∨
                    s_x t + NODE_WIDTH + NODE_SPACING ≤ s_x s)) ∨
  s_y s + LEVEL_HEIGHT ≤ s_y t ∨ s_y t + LEVEL_HEIGHT ≤ s_y s.
Proof.
  intros Hs Ht Hne.
  apply (slot_place _ _ HL) in Hs as (i & Hi & Hls & Hxs & Hys & _).
  apply (slot_place _ _ HL) in Ht as (j & Hj & Hlt & Hxt & Hyt & _).
  destruct (decide (level_of levels (s_name s) = level_of levels (s_name t))) as [He|He].
  - left. rewrite He in *. split; [lia|]. assert (i ≠ j) by (intros ->; congruence).
    unfold NODE_WIDTH, NODE_SPACING in *. lia.
  - right. unfold LEVEL_HEIGHT in *. lia.
Qed.

Lemma slot_bounds s :
  s ∈ ss → 0 ≤ s_x s ∧ s_x s + NODE_WIDTH ≤ maxWidth groups (sortedLevels groups) ∧
    30 ≤ s_y s.
Proof.
  intros Hs. apply (slot_place _ _ HL) in Hs as (i & Hi & Hl & Hx & Hy & Hpos).
  destruct (row_bounds groups (sortedLevels groups) (level_of levels (s_name s)) i)
    as [Hlo Hhi].
  - rewrite (la_groups _ _ _ _ _ _ _ _ HL). apply elem_of_sortedLevels.
    exists (s_name s). split; [|done]. apply list_elem_of_lookup_2, list_elem_of_filter in Hi.
    apply Hi.
  - rewrite (la_groups _ _ _ _ _ _ _ _ HL), jobsAtLevel_groups. by eapply lookup_lt_Some.
  - unfold LEVEL_HEIGHT in *. lia.
Qed.
End geometry.

(** ** Properties *)

(** Building the graph always succeeds, and draws, exactly once each, the
    current job, the jobs on its parent chain and the jobs its dependent-job
    lists reach, as far as they are in the fetched list. *)
Lemma buildDependencyGraph_nodes (currentJob : Job.t) (allJobs : list Job.t) :
  let jobMap := make_jobMap allJobs in
  let cur := Job.name currentJob in
  ∃ ns es,
    buildDependencyGraph currentJob allJobs = Some (ns, es) ∧
    NoDup (DependencyNode.id <$> ns) ∧
    ∀ n, n ∈ DependencyNode.id <$> ns ↔
      has jobMap n ∧
      (n = cur ∨ tc (edge_up jobMap) cur n ∨ tc (edge_down jobMap) cur n).
Proof.
  cbn zeta. destruct (build_layout currentJob allJobs)
    as (ns & es & related & levels & groups & ss & Hb & HL).
  exists ns, es. split; [exact Hb|]. split.
  - rewrite (nodes_ids _ _ HL). apply NoDup_filter, HL.
  - intros n. by rewrite (nodes_ids _ _ HL), list_elem_of_filter, (la_reach _ _ _ _ _ _ _ _ HL).
Qed.

(** C35. The boxes of two different jobs never overlap, whatever the job list:
    in a row they are at least [NODE_SPACING] apart, and rows do not touch. *)
Theorem buildDependencyGraph_no_overlap currentJob allJobs ns es a b :
  buildDependencyGraph currentJob allJobs = Some (ns, es) →
  a ∈ ns → b ∈ ns → DependencyNode.id a ≠ DependencyNode.id b →
  boxes_disjoint a b.
Proof.
  intros (? & ? & ? & ss & HL)%build_layout_inv.
  intros (s & j & Hs & _ & ->)%(node_slot _ _ HL) (t & k & Ht & _ & ->)%(node_slot _ _ HL).
  cbn. intros Hne. pose proof (slots_disjoint HL s t Hs Ht Hne) as Hd.
  unfold boxes_disjoint, LEVEL_HEIGHT, NODE_HEIGHT, NODE_WIDTH, NODE_SPACING in *. cbn. lia.
Qed.

(** Every box, with the margin below it for the "(current job)" caption,
    lies on the SVG canvas the component sizes for it. *)
Lemma buildDependencyGraph_on_canvas currentJob allJobs ns es n :
  buildDependencyGraph currentJob allJobs = Some (ns, es) → n ∈ ns →
  let left := svgPadding + DependencyNode.x n in
  let top := DependencyNode.y n in
  svgPadding ≤ left ∧ left + NODE_WIDTH + svgPadding ≤ svgWidth ns ∧
  30 ≤ top ∧ top + NODE_HEIGHT + 30 + svgPadding ≤ svgHeight ns.
Proof.
  intros (? & ? & ? & ss & HL)%build_layout_inv Hn. cbn zeta.
  pose proof (max_by_ub (λ n, DependencyNode.x n + NODE_WIDTH) 300 ns n Hn) as Hx.
  pose proof (max_by_ub (λ n, DependencyNode.y n + NODE_HEIGHT + 30) 150 ns n Hn) as Hy.
  apply (node_slot _ _ HL) in Hn as (s & j & Hs & _ & ->).
  apply (slot_bounds HL) in Hs.
  unfold svgWidth, svgHeight, maxX, maxY, svgPadding in *. cbn in *. lia.
Qed.

Section edges.
Context {currentJob : Job.t} {allJobs : list Job.t} {ns es related levels groups ss}
  (HL : layout_of currentJob allJobs ns es related levels groups ss).
Let jobMap := make_jobMap allJobs.

Lemma elem_of_createEdges e pos :
  e ∈ createEdges jobMap related pos ↔ ∃ n, n ∈ related ∧ e ∈ edge_of jobMap related pos n.
Proof.
  unfold createEdges. cut (∀ l acc,
    e ∈ fold_left (λ es n, es ++ edge_of jobMap related pos n) l acc ↔
      e ∈ acc ∨ ∃ n, n ∈ l ∧ e ∈ edge_of jobMap related pos n).
  { intros H. rewrite H. set_solver. }
  induction l as [|n l IH]; intros acc; cbn [fold_left]; [set_solver|].
  rewrite IH, elem_of_app. setoid_rewrite elem_of_cons. naive_solver.
Qed.

(** An edge joins the slots of a related job and of its related parent. *)
Lemma edge_slots e :
  e ∈ es ↔ ∃ s t job, s ∈ ss ∧ t ∈ ss ∧ jobMap !! s_name t = Some job ∧
    truthy_str (Job.parent_job job) = Some (s_name s) ∧
    e = DependencyEdge.mk (s_name s) (s_name t) (s_x s) (s_y s) (s_x t) (s_y t).
Proof.
  rewrite (la_edges _ _ _ _ _ _ _ _ HL). fold jobMap.
  rewrite elem_of_createEdges. unfold edge_of. split.
  - intros (n & Hn & He). destruct (jobMap !! n) as [job|] eqn:Hj; [|set_solver].
    destruct (truthy_str _) as [p|] eqn:Hp; [|set_solver]. case_decide as Hrel; [|set_solver].
    destruct (slot_exists _ _ HL p Hrel) as (s & Hs & <-).
    destruct (slot_exists _ _ HL n Hn) as (t & Ht & <-).
    rewrite !put_all_lookup in He by (done || apply (slots_NoDup _ _ HL)).
    apply list_elem_of_singleton in He. exists s, t, job. done.
  - intros (s & t & job & Hs & Ht & Hj & Hp & ->).
    exists (s_name t). split; [by apply (slot_related _ _ HL)|].
    rewrite Hj, Hp, decide_True by (by apply (slot_related _ _ HL)).
    rewrite !put_all_lookup by (done || apply (slots_NoDup _ _ HL)).
    by apply list_elem_of_singleton.
Qed.
End edges.

(** The edges are exactly the parent relations between drawn jobs, and
    each runs from the position of the parent's box to that of the child's. *)
Lemma buildDependencyGraph_edges currentJob allJobs ns es e :
  buildDependencyGraph currentJob allJobs = Some (ns, es) →
  e ∈ es ↔ ∃ a b,
    a ∈ ns ∧ b ∈ ns ∧
    edge_up (make_jobMap allJobs) (DependencyNode.id b) (DependencyNode.id a) ∧
    e = DependencyEdge.mk (DependencyNode.id a) (DependencyNode.id b)
      (DependencyNode.x a) (DependencyNode.y a) (DependencyNode.x b) (DependencyNode.y b).
Proof.
  intros (? & ? & ? & ss & HL)%build_layout_inv. rewrite (edge_slots HL). split.
  - intros (s & t & job & Hs & Ht & Hj & Hp & ->).
    assert (has (make_jobMap allJobs) (s_name s)) as Hhas.
    { apply (related_all_listed _ _ HL (s_name t)); [by apply (slot_related _ _ HL)| |
        by apply (slot_related _ _ HL)]. apply has_spec. by rewrite Hj. }
    apply has_spec in Hhas as Hhas'. destruct Hhas' as [pj Hpj].
    eexists _, _. split; [apply (node_slot _ _ HL); by exists s, pj|].
    split; [apply (node_slot _ _ HL); by exists t, job|]. cbn. split; [|done].
    by exists job.
  - intros (a & b & (s & pj & Hs & _ & ->)%(node_slot _ _ HL) &
      (t & job & Ht & Hj & ->)%(node_slot _ _ HL) & (job' & Hj' & Hp & _) & ->).
    cbn in *. simplify_eq. by exists s, t, job.
Qed.

(** On a tree-like job list every edge goes down exactly one row: arrows
    leave the bottom of the parent's box and arrive strictly below it. *)
Lemma buildDependencyGraph_edge_down currentJob allJobs ns es e :
  tree_like (make_jobMap allJobs) →
  buildDependencyGraph currentJob allJobs = Some (ns, es) → e ∈ es →
  DependencyEdge.toY e = DependencyEdge.fromY e + LEVEL_HEIGHT ∧
  DependencyEdge.fromY e + NODE_HEIGHT < DependencyEdge.toY e.
Proof.
  intros (rank & Hg)%tree_like_graded (rel & lv & ? & ss & HL)%build_layout_inv.
  intros (s & t & job & Hs & Ht & Hj & Hp & ->)%(edge_slots HL). cbn.
  pose proof (relatedJobs_graded _ _ _ _ _ (s_name s) Hg (la_related _ _ _ _ _ _ _ _ HL)
    (slot_related _ _ HL s Hs)) as Hls.
  pose proof (relatedJobs_graded _ _ _ _ _ (s_name t) Hg (la_related _ _ _ _ _ _ _ _ HL)
    (slot_related _ _ HL t Ht)) as Hlt.
  assert (rank (s_name s) = rank (s_name t) - 1) as Hrank.
  { destruct Hg as [Hup _]. apply Hup. exists job. split_and!; [done..|].
    apply (related_all_listed _ _ HL (s_name t)); [by apply (slot_related _ _ HL)| |
      by apply (slot_related _ _ HL)]. apply has_spec. by rewrite Hj. }
  apply (slot_place _ _ HL) in Hs as (i & _ & Hs & _ & Hsy & _).
  apply (slot_place _ _ HL) in Ht as (j & _ & Ht & _ & Hty & _).
  unfold level_of in *. rewrite Hls in Hs. rewrite Hlt in Ht. cbn in Hs, Ht.
  unfold LEVEL_HEIGHT, NODE_HEIGHT in *. lia.
Qed.

Lemma current_ids {currentJob allJobs ns es related levels groups ss}
    (HL : layout_of currentJob allJobs ns es related levels groups ss) :
  DependencyNode.id <$> filter (λ n, DependencyNode.isCurrent n) ns =
    filter (λ x, x = Job.name currentJob) (DependencyNode.id <$> ns).
Proof.
  assert (∀ n, n ∈ ns → DependencyNode.isCurrent n ↔
    DependencyNode.id n = Job.name currentJob) as Hid.
  { intros n (s & j & _ & _ & ->)%(node_slot _ _ HL). cbn. apply bool_decide_spec. }
  clear -Hid. induction ns as [|n ns IH]; [done|]. rewrite fmap_cons, !filter_cons.
  assert (DependencyNode.isCurrent n ↔ DependencyNode.id n = Job.name currentJob) as Hn
    by (apply Hid; by left).
  rewrite <-IH by set_solver. repeat case_decide; naive_solver.
Qed.

(** When the current job is in the fetched list exactly one box is marked
    as current, and it is its own; when it is not (the component fetches the
    first 1000 jobs only) nothing is drawn, whatever its dependencies. *)
Lemma buildDependencyGraph_current (currentJob : Job.t) (allJobs : list Job.t) :
  let jobMap := make_jobMap allJobs in
  ∃ ns es,
    buildDependencyGraph currentJob allJobs = Some (ns, es) ∧
    if has jobMap (Job.name currentJob) then
      DependencyNode.id <$> filter (λ n, DependencyNode.isCurrent n) ns =
        [Job.name currentJob]
    else ns = [] ∧ es = [].
Proof.
  cbn zeta. destruct (build_layout currentJob allJobs)
    as (ns & es & related & levels & groups & ss & Hb & HL).
  exists ns, es. split; [exact Hb|].
  assert (Job.name currentJob ∈ related) as Hcur.
  { apply (la_reach _ _ _ _ _ _ _ _ HL). by left. }
  destruct (has (make_jobMap allJobs) (Job.name currentJob)) eqn:Hhas.
  - apply Permutation_singleton_r. 
    rewrite (current_ids HL).
    rewrite (nodes_ids _ _ HL). apply NoDup_Permutation.
    + do 2 apply NoDup_filter. apply HL.
    + apply NoDup_singleton.
    + intros x. rewrite !list_elem_of_filter, list_elem_of_singleton. split; [naive_solver|].
      intros ->. by rewrite Hhas.
  - assert (∀ n, n ∈ related → ¬ has (make_jobMap allJobs) n) as Hno.
    { intros n Hn Hl. pose proof (related_all_listed _ _ HL n _ Hn Hl Hcur) as Hc.
      by rewrite Hhas in Hc. }
    assert (ns = []) as ->.
    { apply fmap_nil_inv with (f := DependencyNode.id), Permutation_nil_r.
      rewrite (nodes_ids _ _ HL).
      apply NoDup_Permutation; [apply NoDup_filter, HL|apply NoDup_nil_2|].
      intros x. rewrite list_elem_of_filter. set_solver. }
    split; [done|]. apply elem_of_nil_inv. intros e He.
    apply (edge_slots HL) in He as (? & t & job & _ & Ht & Hj & _).
    apply (Hno (s_name t)); [by apply (slot_related _ _ HL)|]. apply has_spec. by rewrite Hj.
Qed.

Definition sample_current : Job.t :=
  Job.mk "b" "b" (Some "Job B") (Some "a") (Some ["c"; "gone"]) (Some "failed").

(** The three boxes and two edges drawn for [sample_jobs]. *)
Definition sample_drawing : list DependencyNode.t * list DependencyEdge.t :=
  ([DependencyNode.mk "a" "a" "a" "success" 0 30 0 false;
    DependencyNode.mk "b" "b" "Job B" "failed" 0 130 1 true;
    DependencyNode.mk "c" "c" "c" "untriggered" 0 230 2 false],
   [DependencyEdge.mk "a" "b" 0 30 0 130; DependencyEdge.mk "b" "c" 0 130 0 230]).

Lemma buildDependencyGraph_no_overlap_witness :
  buildDependencyGraph sample_current sample_jobs = Some sample_drawing ∧
  boxes_disjoint (DependencyNode.mk "a" "a" "a" "success" 0 30 0 false)
    (DependencyNode.mk "b" "b" "Job B" "failed" 0 130 1 true).
Proof.
  split; [vm_compute; reflexivity|].
  apply (buildDependencyGraph_no_overlap sample_current sample_jobs
    (fst sample_drawing) (snd sample_drawing)).
  - vm_compute. reflexivity.
  - left.
  - right. left.
  - intros [=].
Defined.

Lemma buildDependencyGraph_on_canvas_witness :
  svgWidth (fst sample_drawing) = 380 ∧ svgHeight (fst sample_drawing) = 360 ∧
  230 + NODE_HEIGHT + 30 + svgPadding ≤ svgHeight (fst sample_drawing).
Proof.
  split; [reflexivity|]. split; [reflexivity|].
  refine (proj2 (proj2 (proj2 (buildDependencyGraph_on_canvas sample_current sample_jobs
    (fst sample_drawing) (snd sample_drawing)
    (DependencyNode.mk "c" "c" "c" "untriggered" 0 230 2 false) _ _)))).
  - vm_compute. reflexivity.
  - right. right. left.
Defined.

Lemma buildDependencyGraph_edges_witness :
  ∃ a b, a ∈ fst sample_drawing ∧ b ∈ fst sample_drawing ∧
    DependencyEdge.mk "b" "c" 0 130 0 230 =
      DependencyEdge.mk (DependencyNode.id a) (DependencyNode.id b)
        (DependencyNode.x a) (DependencyNode.y a) (DependencyNode.x b) (DependencyNode.y b).
Proof.
  destruct (proj1 (buildDependencyGraph_edges sample_current sample_jobs
    (fst sample_drawing) (snd sample_drawing) (DependencyEdge.mk "b" "c" 0 130 0 230)
    ltac:(vm_compute; reflexivity))) as (a & b & Ha & Hb & _ & He).
  - right. left.
  - exists a, b. done.
Defined.

Lemma buildDependencyGraph_edge_down_witness :
  In (DependencyEdge.mk "a" "b" 0 30 0 130) (snd sample_drawing) ∧ 130 = 30 + LEVEL_HEIGHT.
Proof.
  split; [left; reflexivity|].
  refine (proj1 (buildDependencyGraph_edge_down sample_current sample_jobs
    (fst sample_drawing) (snd sample_drawing) (DependencyEdge.mk "a" "b" 0 30 0 130) _ _ _)).
  - apply (tree_certificate_sound _ sample_rank). vm_compute. reflexivity.
  - vm_compute. reflexivity.
  - left.
Defined.
