(* ===== verification/DataProvider.v ===== *)
(** * DataProvider: authentication state and HTTP requests of the interface

    src/ui/src/authProvider.ts as a state machine on [localStorage], and
    src/ui/src/dataProvider.ts: the headers [httpClient] sends, the URL
    [getManyReference] asks for and the total it reads off the response.
    [fetchUtils.fetchJson], [fetchUtils.flattenObject] and [stringify] are
    library code, hence variables. *)

From S2P Require Import Prelude JsCore.

(** ** authProvider *)

(** The strings [localStorage] holds, by key. *)
Abbreviation storage := (gmap string string).

(** A settled promise. *)
Inductive outcome (A : Type) : Type :=
  | Resolved (a : A)
  | Rejected.
Arguments Resolved {A} a.
Arguments Rejected {A}.

Module Auth.

(** The methods react-admin calls on the provider. [login] is given the value
    of the [token] field of its argument, [checkError] the error object. *)
Inductive call : Type :=
  | login (token : jsval)
  | logout
  | checkAuth
  | checkError (error : jsval)
  | getIdentity
  | getPermissions.

Definition identity : jsval := JObj [("id", JStr "user"); ("fullName", JStr "User")].

(** [localStorage.getItem('token')], [null] when there is none. *)
Definition getToken (ls : storage) : jsval :=
  match ls !! "token" with Some t => JStr t | None => JNull end.

(** The status codes that end a session. *)
Definition unauthorized (error : jsval) : bool :=
  is_num 401 (jget "status" error) || is_num 403 (jget "status" error).

Definition authProvider (c : call) (ls : storage) : storage * outcome jsval :=
  match c with
  | login token => (<["token" := js_String token]> ls, Resolved JUndef)
  | logout => (delete "token" ls, Resolved JUndef)
  | checkAuth => (ls, if truthy (getToken ls) then Resolved JUndef else Rejected)
  | checkError error =>
      if unauthorized error then (delete "token" ls, Rejected) else (ls, Resolved JUndef)
  | getIdentity => (ls, Resolved identity)
  | getPermissions => (ls, Resolved JUndef)
  end.

(** A session: the calls in the order react-admin makes them. *)
Definition session (cs : list call) (ls : storage) : storage :=
  fold_left (λ ls c, (authProvider c ls).1) cs ls.

(** Specification: what a call does to "is the user signed in", where the
    other calls have no say. *)
Definition signs_in (c : call) : option bool :=
  match c with
  | login token => Some (negb (String.eqb (js_String token) ""))
  | logout => Some false
  | checkError error => if unauthorized error then Some false else None
  | _ => None
  end.

Definition signed_in (cs : list call) (start : bool) : bool :=
  fold_left (λ b c, default b (signs_in c)) cs start.

End Auth.

(** ** httpClient *)

(** A [Headers] object: names are case-insensitive, kept in lower case. *)
Abbreviation Headers := (gmap string string).

Record Options := mkOptions {
  method : option string;
  headers : option Headers;
  body : option string;
}.

(** [new Headers({ Accept: 'application/json' })] *)
Definition defaultHeaders : Headers := {[ "accept" := "application/json" ]}.

(** The options [fetchJson] is called with. The [Headers] object of the caller
    is the one [set] changes: the result is also what the caller's object
    holds afterwards. *)
Definition requestOptions (ls : storage) (options : Options) : Options :=
  let hs := default defaultHeaders (headers options) in
  let hs :=
    match ls !! "token" with
    | Some token => if String.eqb token "" then hs
                    else <["authorization" := "Bearer " +:+ token]> hs
    | None => hs
    end in
  mkOptions (method options) (Some hs) (body options).

Record Response := mkResponse {
  status : Z;
  resp_headers : Headers;
  json : jsval;
}.

Section http.
Variable fetchJson : string → Options → outcome Response.

Definition httpClient (ls : storage) (url : string) (options : Options) : outcome Response :=
  fetchJson url (requestOptions ls options).

(** ** getManyReference *)

Variables (flattenObject : jsval → list (string * jsval))
  (stringify : list (string * jsval) → string)
  (apiUrl : string).

Record ManyReference := mkParams {
  page : Z;
  perPage : Z;
  field : string;
  order : string;
  filter_ : jsval;
  target : string;
  id : jsval;
}.

(** The object literal: the spread filter first, later keys overwrite. *)
Definition manyReferenceQuery (params : ManyReference) : list (string * jsval) :=
  fold_left (λ q kv, jm_set kv.1 kv.2 q)
    [(target params, id params);
     ("_sort", JStr (field params));
     ("_order", JStr (order params));
     ("_start", JNum ((page params - 1) * perPage params));
     ("_end", JNum (page params * perPage params));
     ("output_size_limit", JNum 200)]
    (flattenObject (filter_ params)).

Definition manyReferenceUrl (resource : string) (params : ManyReference) : string :=
  apiUrl +:+ "/" +:+ target params +:+ "/" +:+ js_String (id params) +:+ "/" +:+
    resource +:+ "?" +:+ stringify (manyReferenceQuery params).

(** [parseInt(h.split('/').pop() || '', 10)]; [None] is [NaN]. *)
Definition totalOf (h : string) : option Z := parseInt (split_pop "/" h).

Inductive listResult : Type :=
  | Page (data : jsval) (total : option Z)
  | MissingTotal
  | RequestFailed.

Definition readList (response : outcome Response) : listResult :=
  match response with
  | Rejected => RequestFailed
  | Resolved r =>
      match resp_headers r !! "x-total-count" with
      | None => MissingTotal
      | Some h => Page (json r) (totalOf h)
      end
  end.

Definition getManyReference (ls : storage) (resource : string) (params : ManyReference)
    : listResult :=
  readList (httpClient ls (manyReferenceUrl resource params) (mkOptions None None None)).

End http.

(** ** Lemmas *)

Section auth_lemmas.
Import Auth.

Lemma getToken_insert t ls : getToken (<["token" := t]> ls) = JStr t.
Proof. unfold getToken. by rewrite lookup_insert_eq. Qed.

Lemma getToken_delete ls : getToken (delete "token" ls) = JNull.
Proof. unfold getToken. by rewrite lookup_delete_eq. Qed.

(** One call acts on "there is a token" as the specification says. *)
Lemma authProvider_signs_in c ls :
  truthy (getToken (authProvider c ls).1) = default (truthy (getToken ls)) (signs_in c).
Proof.
  destruct c; cbn; rewrite ?getToken_insert, ?getToken_delete; try done.
  destruct (unauthorized error); cbn; by rewrite ?getToken_delete.
Qed.

Lemma session_signed_in cs ls :
  truthy (getToken (session cs ls)) = signed_in cs (truthy (getToken ls)).
Proof.
  revert ls. unfold session, signed_in. induction cs as [|c cs IH]; intros ls; [done|].
  cbn. by rewrite IH, authProvider_signs_in.
Qed.

Lemma requestOptions_lookup ls o k :
  default ∅ (headers (requestOptions ls o)) !! k =
    if decide (k = "authorization" ∧ truthy (getToken ls) = true)
    then (λ t, "Bearer " +:+ t) <$> ls !! "token"
    else default defaultHeaders (headers o) !! k.
Proof.
  unfold requestOptions, getToken. cbn.
  destruct (ls !! "token") as [t|]; cbn; [|by rewrite decide_False by naive_solver].
  destruct (String.eqb t "") eqn:Ht; cbn; [by rewrite decide_False by naive_solver|].
  destruct (decide (k = "authorization")) as [->|Hk].
  - by rewrite lookup_insert_eq, decide_True.
  - by rewrite lookup_insert_ne, decide_False by naive_solver.
Qed.

End auth_lemmas.

(** ** Properties *)

(** C36. Over any sequence of provider calls, [checkAuth] lets the user in
    exactly when the specification has a session open: since the last login
    with a non-empty token there was no logout and no 401 or 403 answer; and a
    request that brings no headers of its own carries an Authorization header
    exactly then. *)
Theorem session_refines_signed_in (cs : list Auth.call) (ls : storage) (m b : option string) :
  let ls' := Auth.session cs ls in
  let open := Auth.signed_in cs (truthy (Auth.getToken ls)) in
  (Auth.authProvider Auth.checkAuth ls').2 = (if open then Resolved JUndef else Rejected) ∧
  (is_Some (default ∅ (headers (requestOptions ls' (mkOptions m None b))) !! "authorization")
   ↔ open = true).
Proof.
  cbn zeta. cbn [Auth.authProvider snd]. rewrite session_signed_in. split; [done|].
  rewrite requestOptions_lookup, session_signed_in. cbn [headers from_option default].
  destruct (Auth.signed_in _ _) eqn:Hs.
  - rewrite decide_True by done. split; [done|]. intros _.
    rewrite <-session_signed_in in Hs. unfold Auth.getToken in Hs.
    by destruct (Auth.session cs ls !! "token").
  - rewrite decide_False by naive_solver. split; [by intros [? ?]|done].
Qed.

(** [httpClient] passes the caller's headers through (or asks for JSON when
    there are none), and adds or replaces one header only: Authorization, with
    the stored token as bearer, when a non-empty token is stored. *)
Lemma requestOptions_headers (ls : storage) (o : Options) (k : string) :
  method (requestOptions ls o) = method o ∧ body (requestOptions ls o) = body o ∧
  default ∅ (headers (requestOptions ls o)) !! k =
    match ls !! "token" with
    | Some t =>
        if decide (k = "authorization" ∧ t ≠ "") then Some ("Bearer " +:+ t)
        else default defaultHeaders (headers o) !! k
    | None => default defaultHeaders (headers o) !! k
    end.
Proof.
  split; [done|]. split; [done|]. rewrite requestOptions_lookup. unfold Auth.getToken.
  destruct (ls !! "token") as [t|]; cbn; [|by rewrite decide_False by naive_solver].
  apply decide_ext. destruct (String.eqb_spec t ""); cbn; naive_solver.
Qed.

(** Whatever filter the list has, the query of a reference page asks for
    the rows from [(page - 1) * perPage] to [page * perPage], in the list's
    sort order, with outputs cut at 200; the parent key is the target's. *)
Lemma manyReferenceQuery_reserved flattenObject (params : ManyReference) :
  let q := manyReferenceQuery flattenObject params in
  jm_get "_start" q = Some (JNum ((page params - 1) * perPage params)) ∧
  jm_get "_end" q = Some (JNum (page params * perPage params)) ∧
  jm_get "_sort" q = Some (JStr (field params)) ∧
  jm_get "_order" q = Some (JStr (order params)) ∧
  jm_get "output_size_limit" q = Some (JNum 200) ∧
  (target params ∉ ["_sort"; "_order"; "_start"; "_end"; "output_size_limit"] →
   jm_get (target params) q = Some (id params)).
Proof.
  cbn zeta. unfold manyReferenceQuery. cbn [fold_left fst snd].
  split_and!; try (rewrite ?jm_get_set_ne by done; apply jm_get_set_eq).
  intros Ht. rewrite !jm_get_set_ne by set_solver. apply jm_get_set_eq.
Qed.

(** The total shown for a reference list is the number the server printed
    in X-Total-Count, alone or after a range ([0-9/57]); without the header
    the call throws, and a failed request fails the call. *)
Lemma getManyReference_total fetchJson flattenObject stringify apiUrl ls resource params :
  let answer := httpClient fetchJson ls
    (manyReferenceUrl flattenObject stringify apiUrl resource params) (mkOptions None None None) in
  let result := getManyReference fetchJson flattenObject stringify apiUrl ls resource params in
  match answer with
  | Rejected => result = RequestFailed
  | Resolved r =>
      (resp_headers r !! "x-total-count" = None → result = MissingTotal) ∧
      ∀ n, 0 ≤ n →
        (resp_headers r !! "x-total-count" = Some (pretty n) ∨
         ∃ range, resp_headers r !! "x-total-count" = Some (range +:+ String "/" (pretty n))) →
        result = Page (json r) (Some n)
  end.
Proof.
  cbn zeta. unfold getManyReference. destruct (httpClient _ _ _ _) as [r|]; [|done]. cbn.
  split; [by intros ->|]. intros n Hn [->|[range ->]]; f_equal; unfold totalOf.
  - rewrite split_pop_absent by (done || by apply pretty_digits). by apply parseInt_pretty.
  - rewrite split_pop_last by (done || by apply pretty_digits). by apply parseInt_pretty.
Qed.
