(* ===== verification/JobList.v ===== *)
(** * JobList: grouping and ordering of the job table

    src/ui/src/jobs/JobList.tsx: the group of a job, the options of the group
    filter, and the rows [JobDatagrid] puts in the list context.  The order of
    [localeCompare] belongs to the browser's locale, hence a variable that is
    only assumed to be a consistent comparator. *)

From S2P Require Import Prelude JsCore.

(** The fields of a listed job that this component reads; [None] is a field
    that is [undefined] or [null].  Metadata values are strings. *)
Module ListedJob.
Record t := mk {
  id : option string;
  name : option string;
  metadata : option (list (string * string));
}.
End ListedJob.

(** [o || ''] *)
Definition or_empty (o : option string) : string := default "" o.

(** [a || b] on optional strings *)
Definition or_else (a b : option string) : option string :=
  match a with
  | Some s => if String.eqb s "" then b else a
  | None => b
  end.

(** [record?.metadata?.group || ''] *)
Definition getJobGroupValue (record : option ListedJob.t) : string :=
  match record with
  | Some r =>
      match ListedJob.metadata r with
      | Some m => or_empty (jm_get "group" m)
      | None => ""
      end
  | None => ""
  end.

Definition getJobGroup (record : option ListedJob.t) : string :=
  let g := getJobGroupValue record in if String.eqb g "" then "-" else g.

Definition group_of (job : ListedJob.t) : string := getJobGroupValue (Some job).

(** ** JobGroupFilter *)

(** [if (group) loadedGroups.add(group)] *)
Definition addGroup (loadedGroups : list string) (group : string) : list string :=
  if String.eqb group "" then loadedGroups else set_add loadedGroups group.

(** The [useMemo] of the filter: the options of the select, in order. *)
Definition groupOptions (data : list ListedJob.t) (selectedGroup : string) : list string :=
  let loadedGroups := fold_left (λ s job, addGroup s (group_of job)) data [] in
  let loadedGroups := addGroup loadedGroups selectedGroup in
  js_sort str_cmp loadedGroups.

(** ** JobDatagrid *)

Section datagrid.
Variable localeCompare : string → string → Z.

(** [job.name || job.id || ''] *)
Definition sortName (job : ListedJob.t) : string :=
  or_empty (or_else (ListedJob.name job) (ListedJob.id job)).

Definition compareJobs (jobA jobB : ListedJob.t) : Z :=
  let groupCompare := localeCompare (group_of jobA) (group_of jobB) in
  if negb (groupCompare =? 0) then groupCompare
  else localeCompare (sortName jobA) (sortName jobB).

Definition visibleJobs (data : list ListedJob.t) (selectedGroup : string) : list ListedJob.t :=
  if String.eqb selectedGroup "" then data
  else List.filter (λ job, String.eqb (group_of job) selectedGroup) data.

(** [undefined] while the list has no data. *)
Definition groupedData (data : option (list ListedJob.t)) (selectedGroup : string)
    : option (list ListedJob.t) :=
  match data with
  | None => None
  | Some data => Some (js_sort compareJobs (visibleJobs data selectedGroup))
  end.

Record ListContext := mkListContext {
  data : option (list ListedJob.t);
  total : option Z;
}.

(** The context the rows are rendered in: the one of the list while there is no
    data, otherwise the same with the rows and the total replaced. *)
Definition groupedContext (listContext : ListContext) (selectedGroup : string) : ListContext :=
  match groupedData (data listContext) selectedGroup with
  | None => listContext
  | Some rows =>
      mkListContext (Some rows)
        (if String.eqb selectedGroup "" then total listContext
         else Some (Z.of_nat (length rows)))
  end.

End datagrid.

(** ** Lemmas *)

Lemma elem_of_addGroup s g x : x ∈ addGroup s g ↔ x ∈ s ∨ (x = g ∧ g ≠ "").
Proof.
  unfold addGroup. destruct (String.eqb_spec g ""); [naive_solver|].
  rewrite elem_of_set_add. naive_solver.
Qed.

Lemma NoDup_addGroup s g : NoDup s → NoDup (addGroup s g).
Proof. unfold addGroup. destruct (String.eqb g ""); [done|apply NoDup_set_add]. Qed.

Lemma elem_of_loadedGroups jobs s x :
  x ∈ fold_left (λ s job, addGroup s (group_of job)) jobs s ↔
    x ∈ s ∨ (x ≠ "" ∧ ∃ job, job ∈ jobs ∧ group_of job = x).
Proof.
  revert s. induction jobs as [|j jobs IH]; intros s; cbn [fold_left]; [set_solver|].
  rewrite IH, elem_of_addGroup. setoid_rewrite elem_of_cons. naive_solver.
Qed.

Lemma NoDup_loadedGroups jobs s :
  NoDup s → NoDup (fold_left (λ s job, addGroup s (group_of job)) jobs s).
Proof. revert s. induction jobs; intros s Hs; [done|]. by apply IHjobs, NoDup_addGroup. Qed.

#[export] Instance compareJobs_Comparator localeCompare :
  Comparator localeCompare → Comparator (compareJobs localeCompare).
Proof.
  intros Hc.
  assert (Comparator (then_cmp (λ x y, localeCompare (group_of x) (group_of y))
    (λ x y, localeCompare (sortName x) (sortName y)))) as [Ho Ht] by apply _.
  assert (∀ x y, compareJobs localeCompare x y =
    then_cmp (λ x y, localeCompare (group_of x) (group_of y))
      (λ x y, localeCompare (sortName x) (sortName y)) x y) as He.
  { intros x y. unfold compareJobs, then_cmp. by destruct (_ =? 0). }
  split; intros *; rewrite !He; [apply Ho|apply Ht].
Qed.

Lemma compareJobs_group localeCompare {Hc : Comparator localeCompare} x y :
  compareJobs localeCompare x y ≤ 0 → localeCompare (group_of x) (group_of y) ≤ 0.
Proof.
  unfold compareJobs. intros Hle.
  destruct (Z.eqb_spec (localeCompare (group_of x) (group_of y)) 0) as [He|]; [lia|].
  exact Hle.
Qed.

Lemma elem_of_visibleJobs jobs g job :
  job ∈ visibleJobs jobs g ↔ job ∈ jobs ∧ (g = "" ∨ group_of job = g).
Proof.
  unfold visibleJobs. destruct (String.eqb_spec g "") as [->|Hg]; [naive_solver|].
  rewrite list_elem_of_In, filter_In, <-list_elem_of_In, String.eqb_eq. naive_solver.
Qed.

(** ** Properties *)

(** The group filter offers, sorted and once each, the non-empty groups of
    the loaded jobs and the selected group; so the selected value is always
    among the options. *)
Lemma groupOptions_spec (jobs : list ListedJob.t) (selected : string) :
  let options := groupOptions jobs selected in
  StronglySorted (cmp_le str_cmp) options ∧ NoDup options ∧
  ∀ g, g ∈ options ↔
    g ≠ "" ∧ (g = selected ∨ ∃ job, job ∈ jobs ∧ group_of job = g).
Proof.
  cbn zeta. unfold groupOptions. split_and!.
  - apply js_sort_sorted, _.
  - rewrite (js_sort_Permutation str_cmp). apply NoDup_addGroup, NoDup_loadedGroups, NoDup_nil_2.
  - intros g. rewrite (js_sort_Permutation str_cmp), elem_of_addGroup, elem_of_loadedGroups.
    set_solver.
Qed.

(** The rows of the table are the jobs of the selected group (all of them
    when none is selected), each as often as it was loaded, ordered by group
    and within a group by name or id; jobs the order does not tell apart keep
    the order the server sent them in. *)
Lemma groupedData_spec localeCompare `{!Comparator localeCompare} jobs selected :
  ∃ rows, groupedData localeCompare (Some jobs) selected = Some rows ∧
    rows ≡ₚ visibleJobs jobs selected ∧
    (∀ job, job ∈ rows ↔ job ∈ jobs ∧ (selected = "" ∨ group_of job = selected)) ∧
    StronglySorted (λ a b, localeCompare (group_of a) (group_of b) ≤ 0) rows ∧
    StronglySorted (cmp_le (compareJobs localeCompare)) rows ∧
    (∀ P : ListedJob.t → bool,
       (∀ a b, P a → P b → compareJobs localeCompare a b ≤ 0) →
       List.filter P rows = List.filter P (visibleJobs jobs selected)).
Proof.
  eexists. split; [reflexivity|]. split_and!.
  - apply js_sort_Permutation.
  - intros job. rewrite (js_sort_Permutation (compareJobs localeCompare)).
    apply elem_of_visibleJobs.
  - eapply StronglySorted_weaken; [|apply (js_sort_sorted (compareJobs localeCompare))].
    intros x y. by apply compareJobs_group.
  - apply js_sort_sorted, _.
  - intros P. by apply js_sort_stable.
Qed.

(** With a group selected the total shown is the number of rows left, never
    more than the loaded page holds; without one, the table keeps the server's
    total and all loaded rows; and while nothing is loaded the context is
    untouched. *)
Lemma groupedContext_total localeCompare (ctx : ListContext) (selected : string) :
  match data ctx with
  | None => groupedContext localeCompare ctx selected = ctx
  | Some jobs =>
      ∃ rows, data (groupedContext localeCompare ctx selected) = Some rows ∧
        (selected = "" → total (groupedContext localeCompare ctx selected) = total ctx ∧
           length rows = length jobs) ∧
        (selected ≠ "" →
           total (groupedContext localeCompare ctx selected) = Some (Z.of_nat (length rows)) ∧
           (length rows ≤ length jobs)%nat)
  end.
Proof.
  destruct (data ctx) as [jobs|] eqn:Hd; unfold groupedContext; rewrite Hd; cbn; [|done].
  eexists. split; [reflexivity|].
  rewrite (Permutation_length (js_sort_Permutation _ _)). unfold visibleJobs.
  destruct (String.eqb_spec selected "") as [->|Hne]; [done|].
  split; [done|]. intros _. split; [done|]. apply filter_length_le.
Qed.

Lemma groupedData_spec_witness :
  ∃ rows, groupedData str_cmp
      (Some [ListedJob.mk (Some "b") (Some "b") None;
             ListedJob.mk (Some "a") (Some "a") (Some [("group", "demo")]);
             ListedJob.mk (Some "c") None None]) "" = Some rows ∧
    StronglySorted (cmp_le (compareJobs str_cmp)) rows ∧
    map sortName rows = ["b"; "c"; "a"].
Proof.
  destruct (groupedData_spec str_cmp
    [ListedJob.mk (Some "b") (Some "b") None;
     ListedJob.mk (Some "a") (Some "a") (Some [("group", "demo")]);
     ListedJob.mk (Some "c") None None] "") as (rows & Hr & _ & _ & _ & Hs & _).
  exists rows. split; [exact Hr|]. split; [exact Hs|].
  injection Hr as <-. vm_compute. reflexivity.
Defined.
