(* ===== verification/Requests.v ===== *)
(** * Requests: the buttons that act on jobs

    RunButton, ToggleButton, BulkRunButton and BulkToggleButton of
    src/ui/src/jobs, each as a transition system: a click starts requests, and
    every request settles later, in any order, with a success or a failure. *)

From S2P Require Import Prelude JsCore.

(** What the buttons do to the outside: a request to the server, a
    notification (a warning or not), a refresh of the view. *)
Inductive effect : Type :=
  | Request (meth url : string)
  | Notify (message : string) (warning : bool)
  | Refresh.

Definition is_request (e : effect) : bool := match e with Request _ _ => true | _ => false end.
Definition is_notify (e : effect) : bool := match e with Notify _ _ => true | _ => false end.
Definition is_success (e : effect) : bool := match e with Notify _ w => negb w | _ => false end.
Definition is_refresh (e : effect) : bool := match e with Refresh => true | _ => false end.

Definition count (P : effect → bool) (l : list effect) : nat := length (List.filter P l).
#[global] Arguments count : simpl never.

(** The [loading] state of the component, the ids whose request is pending and
    the effects so far. *)
Record button := mkButton {
  loading : bool;
  pending : list string;
  log : list effect;
}.

Definition idle : button := mkButton false [] [].

(** What tells the four buttons apart. *)
Record action := mkAction {
  path : string → string;
  done_message : string;
  error_message : string;
}.

Section buttons.
Variable apiUrl : string.

Definition RunAction : action :=
  mkAction (λ id, apiUrl +:+ "/jobs/" +:+ id)
    "Success running job" "Error on running job".
Definition ToggleAction : action :=
  mkAction (λ id, apiUrl +:+ "/jobs/" +:+ id +:+ "/toggle")
    "Job toggled" "Error on toggle job".
Definition BulkToggleAction : action :=
  mkAction (λ id, apiUrl +:+ "/jobs/" +:+ id +:+ "/toggle")
    "Job toggled" "Error on job toggle".
End buttons.

Section transitions.
Variable a : action.

Definition emit (es : list effect) (b : button) : button :=
  mkButton (loading b) (pending b) (log b ++ es).

(** [setLoading(true); httpClient(url, { method: 'POST' })] *)
Definition start (id : string) (b : button) : button :=
  emit [Request "POST" (path a id)] (mkButton true (pending b ++ [id]) (log b)).

(** [handleClick] of the single buttons; [record] is the id of the record in
    the context. *)
Definition handleClick (record : option string) (b : button) : button :=
  match record with
  | None => b
  | Some id => start id b
  end.

(** [runMany] and [toggleMany], up to the call of [unselectAll]. *)
Definition handleMany (selectedIds : list string) (b : button) : button :=
  fold_left (λ b id, start id b) selectedIds b.

(** The promise chain of a single button once its request settles. *)
Definition settleOne (id : string) (ok : bool) (b : button) : button :=
  mkButton false (list_remove_one id (pending b))
    (log b ++ if ok then [Notify (done_message a) false; Refresh]
              else [Notify (error_message a) true]).

(** The same for one request of a bulk button: the refresh is in [finally]. *)
Definition settleMany (id : string) (ok : bool) (b : button) : button :=
  mkButton false (list_remove_one id (pending b))
    (log b ++ [if ok then Notify (done_message a) false
               else Notify (error_message a) true; Refresh]).

(** A disabled button has no clicks. *)
Inductive step_one (record : option string) : button → button → Prop :=
  | one_click b : loading b = false → step_one record b (handleClick record b)
  | one_settle b id ok :
      id ∈ pending b → step_one record b (settleOne id ok b).

(** The selection may change between clicks. *)
Inductive step_many : button → button → Prop :=
  | many_click b ids : loading b = false → step_many b (handleMany ids b)
  | many_settle b id ok : id ∈ pending b → step_many b (settleMany id ok b).
End transitions.

(** ** Lemmas *)

Section lemmas.
Variable a : action.

Lemma count_app P l1 l2 : count P (l1 ++ l2) = (count P l1 + count P l2)%nat.
Proof. unfold count. by rewrite List.filter_app, length_app. Qed.

Lemma count_nil P : count P [] = 0%nat.
Proof. done. Qed.

Lemma count_cons P e l : count P (e :: l) = (Nat.b2n (P e) + count P l)%nat.
Proof. unfold count. cbn. by destruct (P e). Qed.

Record one_inv (b : button) : Prop := {
  oi_pending : (length (pending b) ≤ 1)%nat;
  oi_loading : loading b = negb (bool_decide (pending b = []));
  oi_settled : count is_request (log b) = (count is_notify (log b) + length (pending b))%nat;
  oi_refresh : count is_refresh (log b) = count is_success (log b);
}.

Lemma one_inv_idle : one_inv idle.
Proof. split; cbn; done || lia. Qed.

Lemma one_inv_step record b b' : step_one a record b b' → one_inv b → one_inv b'.
Proof.
  intros [c Hl|c id ok Hid] [Hp Hload Hs Hr].
  - destruct record as [id|]; [|done]. rewrite Hl in Hload.
    destruct (pending c) as [|x l] eqn:Hpc; [|done].
    cbn in Hs. split; cbn [handleClick start emit pending loading log];
      rewrite ?Hpc, ?count_app; [cbn; lia|done| |].
    + rewrite !count_cons, !count_nil. cbn. lia.
    + rewrite !count_cons, !count_nil. cbn. lia.
  - pose proof (length_list_remove_one id (pending c) Hid) as Hlen.
    destruct (list_remove_one id (pending c)) as [|y l] eqn:Hrem; cbn in Hlen; [|lia].
    split; cbn; rewrite ?Hrem, ?count_app; [cbn; lia|done| |];
      destruct ok; rewrite ?count_cons, ?count_nil; cbn; lia.
Qed.

Record many_inv (b : button) : Prop := {
  mi_settled : count is_request (log b) = (count is_notify (log b) + length (pending b))%nat;
  mi_refresh : count is_refresh (log b) = count is_notify (log b);
  mi_enabled : pending b = [] → loading b = false;
}.

Lemma start_counts id b :
  pending (start a id b) = pending b ++ [id] ∧
  count is_request (log (start a id b)) = S (count is_request (log b)) ∧
  count is_notify (log (start a id b)) = count is_notify (log b) ∧
  count is_refresh (log (start a id b)) = count is_refresh (log b).
Proof. unfold start, emit. cbn. rewrite !count_app, !count_cons, !count_nil. cbn. split_and!; (done || lia). Qed.

Lemma many_inv_start id b : many_inv b → many_inv (start a id b).
Proof.
  intros [Hs Hr He]. destruct (start_counts id b) as (Hp & Hq & Hn & Hf).
  split; rewrite ?Hp, ?Hq, ?Hn, ?Hf, ?length_app; cbn; [lia|lia|].
  intros Habs. by destruct (pending b).
Qed.

Lemma many_inv_click ids b : many_inv b → many_inv (handleMany a ids b).
Proof. revert b. induction ids as [|id ids IH]; intros b Hb; [done|]. by apply IH, many_inv_start. Qed.

Lemma many_inv_step b b' : step_many a b b' → many_inv b → many_inv b'.
Proof.
  intros [c ids Hl|c id ok Hid] Hinv; [by apply many_inv_click|].
  destruct Hinv as [Hs Hr He].
  pose proof (length_list_remove_one id (pending c) Hid) as Hlen.
  split; cbn; rewrite ?count_app; destruct ok; rewrite ?count_cons, ?count_nil; cbn; (lia || done).
Qed.

Lemma handleMany_pending ids b : pending (handleMany a ids b) = pending b ++ ids.
Proof.
  revert b. induction ids as [|id ids IH]; intros b; [symmetry; apply app_nil_r|].
  change (handleMany a (id :: ids) b) with (handleMany a ids (start a id b)).
  rewrite IH. cbn. by rewrite <-app_assoc.
Qed.

Lemma rtc_invariant {A} (R : A → A → Prop) (I : A → Prop) x y :
  (∀ x y, R x y → I x → I y) → I x → rtc R x y → I y.
Proof. intros HR HI. induction 1; eauto. Qed.

End lemmas.

(** ** Properties *)

(** C37. Run and Toggle buttons: in every reachable state at most one request is
    in flight, the button is disabled exactly while it is, every settled
    request has produced one notification, and the view was refreshed once per
    success. *)
Theorem single_button_safe (a : action) (record : option string) (b : button) :
  rtc (step_one a record) idle b →
  (length (pending b) ≤ 1)%nat ∧
  (loading b = true ↔ pending b ≠ []) ∧
  count is_request (log b) = (count is_notify (log b) + length (pending b))%nat ∧
  count is_refresh (log b) = count is_success (log b).
Proof.
  intros Hb. apply (rtc_invariant _ one_inv) in Hb as [Hp Hl Hs Hr];
    [|apply one_inv_step|apply one_inv_idle].
  rewrite Hl. split_and!; try done. by case_bool_decide.
Qed.

(** Bulk buttons: in every reachable state, whatever the selections and the
    order in which the requests settle, each settled request has produced one
    notification and one refresh, and once nothing is in flight the button is
    enabled again. *)
Lemma bulk_button_settles (a : action) (b : button) :
  rtc (step_many a) idle b →
  count is_request (log b) = (count is_notify (log b) + length (pending b))%nat ∧
  count is_refresh (log b) = count is_notify (log b) ∧
  (pending b = [] → loading b = false).
Proof.
  intros Hb. apply (rtc_invariant _ many_inv) in Hb as [Hs Hr He];
    [|apply many_inv_step|by split].
  done.
Qed.

(** The bulk buttons are enabled again by the first request that settles,
    not the last: with two jobs selected a second click can run (or toggle) a
    job whose first request is still in flight. *)
Lemma bulk_button_reenabled_early (a : action) (id1 id2 : string) (ids : list string) (ok : bool) :
  let clicked := handleMany a (id1 :: id2 :: ids) idle in
  let settled := settleMany a id1 ok clicked in
  let again := handleMany a (id1 :: id2 :: ids) settled in
  rtc (step_many a) idle again ∧
  loading settled = false ∧ pending settled = id2 :: ids ∧
  pending again = id2 :: ids ++ id1 :: id2 :: ids.
Proof.
  cbn zeta. set (clicked := handleMany a _ idle).
  assert (pending clicked = id1 :: id2 :: ids) as Hp by (apply handleMany_pending).
  assert (pending (settleMany a id1 ok clicked) = id2 :: ids) as Hs.
  { cbn [pending settleMany]. rewrite Hp. cbn. by rewrite decide_True. }
  split_and!; [|done|done|by rewrite handleMany_pending, Hs].
  eapply rtc_l; [by apply (many_click a idle (id1 :: id2 :: ids))|].
  eapply rtc_l; [apply (many_settle a clicked id1 ok); rewrite Hp; by left|].
  apply rtc_once. by apply many_click.
Qed.

Lemma single_button_safe_witness :
  let a := RunAction "/v1" in
  let b := settleOne a "job1" true (handleClick a (Some "job1") idle) in
  log b = [Request "POST" "/v1/jobs/job1"; Notify "Success running job" false; Refresh] ∧
  count is_refresh (log b) = count is_success (log b).
Proof.
  split; [reflexivity|].
  refine (proj2 (proj2 (proj2 (single_button_safe (RunAction "/v1") (Some "job1") _ _)))).
  eapply rtc_l; [apply one_click; reflexivity|].
  apply rtc_once. apply one_settle. left.
Defined.

Lemma bulk_button_settles_witness :
  let a := ToggleAction "/v1" in
  let b := settleMany a "j2" false (handleMany a ["j1"; "j2"] idle) in
  pending b = ["j1"] ∧ count is_refresh (log b) = count is_notify (log b).
Proof.
  split; [reflexivity|].
  refine (proj1 (proj2 (bulk_button_settles (ToggleAction "/v1") _ _))).
  eapply rtc_l; [apply (many_click _ idle ["j1"; "j2"]); reflexivity|].
  apply rtc_once. apply many_settle. right. left.
Defined.
