(* ===== verification/Fields.v ===== *)
(** * Fields: how one record is shown

    The fields of src/ui/src that read the record of the row or page they stand
    in: status chips, tags, output panels.  [record] is what [useRecordContext]
    returns.  [ZeroDateField] and [FullButton] write to that record, which the
    whole row shares, so they are state transformers on it. *)

From S2P Require Import Prelude JsCore View DataProvider.

(** ** Read-only fields *)

(** [Object.keys(v)] as an array. *)
Definition js_keys (v : jsval) : jsval := JArr (JStr <$> object_keys v).

Definition StatusField (record : jsval) : jsval :=
  if negb (truthy record) then
    JNull
  else
  let getStatusConfig :=
    if is_str "success" (jget "status" record) then
      JObj
        [("icon", JEl "SuccessIcon" [("sx", JObj [("fontSize", JNum 16)])] []);
         ("label", JStr "Success");
         ("color", JStr "#38a169");
         ("bgColor", JStr "rgba(56, 161, 105, 0.1)")]
    else if is_str "failed" (jget "status" record) then
      JObj
        [("icon", JEl "FailedIcon" [("sx", JObj [("fontSize", JNum 16)])] []);
         ("label", JStr "Failed");
         ("color", JStr "#e53e3e");
         ("bgColor", JStr "rgba(229, 62, 62, 0.1)")]
    else JObj
      [("icon", JEl "UntriggeredIcon" [("sx", JObj [("fontSize", JNum 16)])] []);
       ("label", JStr "Pending");
       ("color", JStr "#d69e2e");
       ("bgColor", JStr "rgba(214, 158, 46, 0.1)")] in
  let config := getStatusConfig in
  JEl "Tooltip" [("title", jget "label" config)]
    [JEl "Chip"
       [("icon", jget "icon" config);
        ("label", jget "label" config);
        ("size", JStr "small");
        ("sx", JObj
            [("backgroundColor", jget "bgColor" config);
             ("color", jget "color" config);
             ("fontWeight", JNum 500);
             ("fontSize", JStr "0.75rem");
             ("height", JNum 24);
             ("& .MuiChip-icon", JObj [("color", jget "color" config)])])]
       []].

Definition EnabledField (record : jsval) : jsval :=
  if negb (truthy record) then
    JNull
  else
  if truthy (jget "disabled" record) then
    JEl "Tooltip" [("title", JStr "Disabled")]
      [JEl "Chip"
         [("icon", JEl "CancelIcon" [("sx", JObj [("fontSize", JNum 16)])] []);
          ("label", JStr "Disabled");
          ("size", JStr "small");
          ("sx", JObj
              [("backgroundColor", JStr "rgba(229, 62, 62, 0.1)");
               ("color", JStr "#e53e3e");
               ("fontWeight", JNum 500);
               ("fontSize", JStr "0.75rem");
               ("height", JNum 24);
               ("& .MuiChip-icon", JObj [("color", JStr "#e53e3e")])])]
         []]
  else
    JEl "Tooltip" [("title", JStr "Enabled")]
      [JEl "Chip"
         [("icon", JEl "CheckCircleIcon" [("sx", JObj [("fontSize", JNum 16)])] []);
          ("label", JStr "Enabled");
          ("size", JStr "small");
          ("sx", JObj
              [("backgroundColor", JStr "rgba(56, 161, 105, 0.1)");
               ("color", JStr "#38a169");
               ("fontWeight", JNum 500);
               ("fontSize", JStr "0.75rem");
               ("height", JNum 24);
               ("& .MuiChip-icon", JObj [("color", JStr "#38a169")])])]
         []].

Definition TagsField (record : jsval) : jsval :=
  if (is_undef record) || (negb (truthy (jget "Tags" record))) then
    JNull
  else
    JEl "Box"
      [("sx", JObj [("display", JStr "flex"); ("flexWrap", JStr "wrap"); ("gap", JDec 5 1)])]
      [jmap (λ key,
           JEl "Chip"
             [("key", key);
              ("label", JStr (js_String key +:+ ": " +:+ js_String (jindex (js_String key) (jget "Tags" record))));
              ("size", JStr "small");
              ("sx", JObj
                  [("backgroundColor", JStr "rgba(49, 130, 206, 0.1)");
                   ("color", JStr "#2c5282");
                   ("fontWeight", JNum 500);
                   ("fontSize", JStr "0.7rem");
                   ("height", JNum 22)])]
             [])
         (js_keys (jget "Tags" record))].

Definition renderStatusChip (record : jsval) : jsval :=
  let isAlive := JBool (is_num 1 (jget_opt "Status" record)) in
  if truthy isAlive
  then JEl "Chip"
         [("label", JStr "Alive");
          ("size", JStr "small");
          ("sx", JObj
              [("backgroundColor", JStr "#e6f4ea");
               ("color", JStr "#137333");
               ("fontWeight", JNum 600)])]
         []
  else JEl "Chip"
         [("label", JStr "Dead");
          ("size", JStr "small");
          ("sx", JObj
              [("backgroundColor", JStr "#fce8e6");
               ("color", JStr "#c5221f");
               ("fontWeight", JNum 600)])]
         [].

Definition SuccessField (record : jsval) : jsval :=
  if (truthy record) && (is_str "0001-01-01T00:00:00Z" (jget "finished_at" record)) then
    JEl "Tooltip" [("title", JStr "Running")]
      [JEl "HourglassEmptyIcon" [("color", JStr "info")] []]
  else
    if (truthy record) && (truthy (jget "success" record)) then
      JEl "Tooltip" [("title", JStr "Success")]
        [JEl "CheckCircleIcon" [("color", JStr "success")] []]
    else
      JEl "Tooltip" [("title", JStr "Failed")]
        [JEl "ErrorIcon" [("color", JStr "error")] []].

Definition StatusChip (record : jsval) : jsval :=
  if negb (truthy record) then
    JNull
  else
  let status := jget "status" record in
  let colorMap :=
    JObj
      [("success", JStr "success");
       ("failed", JStr "error");
       ("running", JStr "warning");
       ("untriggered", JStr "default")] in
  JEl "Chip"
    [("label", js_or status (JStr "unknown"));
     ("color", js_or (jindex (js_String status) colorMap) (JStr "default"));
     ("size", JStr "small");
     ("sx", JObj [("fontWeight", JNum 500)])]
    [].

Definition OutputPanel (record : jsval) : jsval :=
  JEl "div" [("className", JStr "execution-output")]
    [js_or (jget_opt "output" record) (JStr "Empty output")].

Definition SpecialOutputPanel (record : jsval) : jsval :=
  if negb (truthy record) then
    JNull
  else
  JEl "Box"
    [("sx", JObj
         [("p", JNum 2);
          ("backgroundColor", JStr "#1a202c");
          ("borderRadius", JNum 1);
          ("fontFamily", JStr "monospace");
          ("fontSize", JStr "0.875rem");
          ("color", JStr "#e2e8f0");
          ("whiteSpace", JStr "pre-wrap");
          ("wordBreak", JStr "break-word");
          ("maxHeight", JNum 400);
          ("overflow", JStr "auto")])]
    [js_and
       (jget "output_truncated" record)
       (JEl "Box" [("sx", JObj [("mb", JNum 2)])] [JEl "FullButton" [("record", record)] []]);
     js_or (jget "output" record) (JStr "Nothing to show")].

Definition getStatusColor (status : jsval) : jsval :=
  if is_str "success" status then
    JStr "#22c55e"
  else if is_str "failed" status then
    JStr "#ef4444"
  else if is_str "running" status then
    JStr "#f59e0b"
  else JStr "#94a3b8".

(** ** Fields that write to the record *)

(** The record whose [finished_at] is Go's zero time. *)
Definition zero_date : string := "0001-01-01T00:00:00Z".

(** [v.k = w] on an object: of the writes to a property the last one counts. *)
Definition jset (k : string) (w v : jsval) : jsval :=
  match v with JObj fs => JObj (fs ++ [(k, w)]) | _ => v end.

(** The record afterwards and the element. [passed] tells whether the parent
    hands the row's record over as the [record] property; it is the same object
    the other columns of the row read. *)
Definition ZeroDateField (passed : bool) (source : string) (record : jsval) : jsval * jsval :=
  let record :=
    if passed && is_str zero_date (jindex source record) then jset source JNull record
    else record in
  (record, JEl "DateField"
     ((if passed then [("record", record)] else []) ++ [("source", JStr source)]) []).

(** The columns of a row render in order, each on the record as the columns
    before it left it. *)
Fixpoint renderRow (columns : list (jsval → jsval * jsval)) (record : jsval)
    : jsval * list jsval :=
  match columns with
  | [] => (record, [])
  | c :: cs =>
      let (record, el) := c record in
      let (record, els) := renderRow cs record in
      (record, el :: els)
  end.

Definition column (f : jsval → jsval) (record : jsval) : jsval * jsval := (record, f record).
Definition field_column (tag source : string) : jsval → jsval * jsval :=
  column (λ record, JEl tag [("source", JStr source)] [jget source record]).

(** The columns of the executions tab. *)
Definition executionColumns (passed : bool) : list (jsval → jsval * jsval) :=
  [field_column "TextField" "id";
   field_column "TextField" "group";
   field_column "DateField" "started_at";
   ZeroDateField passed "finished_at";
   field_column "TextField" "node_name";
   column SuccessField;
   field_column "NumberField" "attempt"].

(** ** FullButton *)

Section full_button.

Definition FullButton (loading : bool) (record : jsval) : jsval :=
  if is_false (jget "output_truncated" record) then jget "output" record
  else JEl "Button" [("label", JStr "Load full output"); ("disabled", JBool loading)]
         [JEl "FullIcon" [] []].

(** An expanded execution: the record object, the [loading] state of the
    button, the requests in flight, the tree [SpecialOutputPanel] returned when
    it last rendered, and the notifications (message, is a warning). *)
Record OutputView := mkOutputView {
  ov_record : jsval;
  ov_loading : bool;
  ov_pending : nat;
  ov_panel : jsval;
  ov_notes : list (string * bool);
}.

(** The panel when the row is expanded. *)
Definition expandRow (record : jsval) : OutputView :=
  mkOutputView record false 0 (SpecialOutputPanel record) [].

(** [handleClick]: a disabled button has no clicks. *)
Definition clickFull (v : OutputView) : OutputView :=
  if ov_loading v then v
  else mkOutputView (ov_record v) true (S (ov_pending v)) (ov_panel v) (ov_notes v).

(** The promise chain once the request settles. [data.output] throws when the
    body was empty, after [output_truncated] has been cleared. *)
Definition settleFull (answer : outcome Response) (v : OutputView) : OutputView :=
  let ok := ("Success loading full output", false) in
  let failed := ("Error on loading full output", true) in
  let (record, notes) :=
    match answer with
    | Resolved r =>
        if status r =? 200 then
          let record := jset "output_truncated" (JBool false) (ov_record v) in
          match json r with
          | JUndef | JNull => (record, [ok; failed])
          | data => (jset "output" (jget "output" data) record, [ok])
          end
        else (ov_record v, [failed])
    | Rejected => (ov_record v, [failed])
    end in
  mkOutputView record false (pred (ov_pending v)) (ov_panel v) (ov_notes v ++ notes).

(** The panel renders again, for instance when the list refreshes with the
    record unchanged. *)
Definition rerender (v : OutputView) : OutputView :=
  mkOutputView (ov_record v) (ov_loading v) (ov_pending v)
    (SpecialOutputPanel (ov_record v)) (ov_notes v).

(** The text on screen: [setLoading] renders the button again, in the panel as
    it was; the button's [record] property is the record object itself. *)
Definition screen (v : OutputView) : list string :=
  texts (expand 8 [("FullButton", λ _, FullButton (ov_loading v) (ov_record v))] (ov_panel v)).

End full_button.

(** ** Lemmas *)

Lemma jget_jset k w fs : jget k (jset k w (JObj fs)) = w.
Proof. cbn. rewrite own_app. cbn. by rewrite String.eqb_refl. Qed.

Lemma jget_jset_ne k k' w v : k ≠ k' → jget k (jset k' w v) = jget k v.
Proof.
  intros Hne. destruct v; cbn; try done. rewrite own_app. cbn.
  by rewrite (proj2 (String.eqb_neq k' k)) by done.
Qed.

(** Only objects have properties. *)
Lemma jget_truthy_obj k v : truthy (jget k v) = true → ∃ fs, v = JObj fs.
Proof. destruct v; cbn; try done. by eexists. Qed.

Lemma is_str_eq s v : is_str s v = true ↔ v = JStr s.
Proof.
  destruct v; cbn; try (split; [done|intros [=]]).
  rewrite String.eqb_eq. naive_solver.
Qed.

Lemma is_str_obj s k v : is_str s (jget k v) = true → ∃ fs, v = JObj fs.
Proof. destruct v; cbn; try done. by eexists. Qed.

Lemma truthy_obj fs : truthy (JObj fs) = true.
Proof. done. Qed.

(** The chip a field shows, and one of its properties. *)
Definition chip_prop (k : string) (v : jsval) : jsval :=
  match tagged "Chip" v with ps :: _ => jget k ps | [] => JUndef end.

(** What the icon column of an execution says. *)
Definition success_title (v : jsval) : jsval :=
  match tagged "Tooltip" v with ps :: _ => jget "title" ps | [] => JUndef end.

Lemma success_title_SuccessField record :
  success_title (SuccessField record) =
    JStr (if truthy record && is_str zero_date (jget "finished_at" record) then "Running"
          else if truthy record && truthy (jget "success" record) then "Success" else "Failed").
Proof.
  unfold SuccessField. fold zero_date. do 2 (destruct (_ && _); [done|]). done.
Qed.

Lemma StatusField_label record :
  truthy record = true →
  chip_prop "label" (StatusField record) =
    JStr (if is_str "success" (jget "status" record) then "Success"
          else if is_str "failed" (jget "status" record) then "Failed" else "Pending").
Proof.
  intros Hr. unfold StatusField. rewrite Hr. cbn zeta.
  destruct (is_str "success" _); [done|]. by destruct (is_str "failed" _).
Qed.

(** The panel with the output [s], when its button renders the string [full]. *)
Lemma screen_panel (r : jsval) (full s : string) :
  truthy r = true → jget "output" r = JStr s → s ≠ "" → full ≠ "" →
  texts (expand 8 [("FullButton", λ _, JStr full)] (SpecialOutputPanel r)) =
    (if truthy (jget "output_truncated" r) then [full] else
     texts (expand 7 [("FullButton", λ _, JStr full)] (jget "output_truncated" r))) ++ [s].
Proof.
  intros Hr Ho Hs Hf. apply String.eqb_neq in Hs, Hf.
  unfold SpecialOutputPanel. rewrite Hr, Ho. unfold js_and, js_or. cbn [negb truthy].
  rewrite Hs. cbn [negb]. rewrite expand_other by done. cbn [fmap list_fmap].
  rewrite expand_JStr. destruct (truthy (jget "output_truncated" r)).
  - rewrite expand_other by done. cbn [fmap list_fmap]. erewrite expand_own by done.
    cbn beta. rewrite expand_JStr. cbn. by rewrite Hs, Hf.
  - cbn. by rewrite Hs.
Qed.

(** ** Properties *)

(** The status of a job is shown three times, by the chip of the job list,
    by the chip of the job page and by the colour of its box in the diagram.
    All three tell success and failure from everything else, and agree on
    which is which; a running job is told from a waiting one by the page and
    the diagram only, and a partially failed job (and any other status) shows
    like one that never ran. *)
Lemma status_displays_agree (record : jsval) :
  truthy record = true →
  let status := jget "status" record in
  let list_label := chip_prop "label" (StatusField record) in
  let page_color := chip_prop "color" (StatusChip record) in
  let box_color := getStatusColor status in
  list_label ∈ [JStr "Success"; JStr "Failed"; JStr "Pending"] ∧
  (list_label = JStr "Success" ↔ status = JStr "success") ∧
  (list_label = JStr "Failed" ↔ status = JStr "failed") ∧
  (box_color = JStr "#22c55e" ↔ list_label = JStr "Success") ∧
  (box_color = JStr "#ef4444" ↔ list_label = JStr "Failed") ∧
  (box_color = JStr "#f59e0b" ↔ status = JStr "running") ∧
  (status ∈ JStr <$> ["success"; "failed"; "running"; "partially_failed"; "untriggered"; ""] →
   (page_color = JStr "success" ↔ list_label = JStr "Success") ∧
   (page_color = JStr "error" ↔ list_label = JStr "Failed") ∧
   (page_color = JStr "warning" ↔ box_color = JStr "#f59e0b")).
Proof.
  intros Hr. cbn zeta. rewrite StatusField_label by done.
  assert (∀ s, is_str s (jget "status" record) = true ↔ jget "status" record = JStr s) as He
    by (intros; apply is_str_eq).
  unfold getStatusColor, StatusChip. rewrite Hr. cbn zeta.
  revert He. generalize (jget "status" record) as st. intros st He.
  split_and!.
  - destruct (is_str "success" st); [set_solver|]. destruct (is_str "failed" st); set_solver.
  - rewrite <-He. destruct (is_str "success" st); [done|]. by destruct (is_str "failed" st).
  - rewrite <-He. destruct (is_str "success" st) eqn:Hs; [by apply He in Hs as ->|].
    by destruct (is_str "failed" st).
  - destruct (is_str "success" st); [done|]. destruct (is_str "failed" st); [done|].
    by destruct (is_str "running" st).
  - destruct (is_str "success" st); [done|]. destruct (is_str "failed" st); [done|].
    by destruct (is_str "running" st).
  - rewrite <-He. destruct (is_str "success" st) eqn:Hs; [by apply He in Hs as ->|].
    destruct (is_str "failed" st) eqn:Hf; [by apply He in Hf as ->|].
    by destruct (is_str "running" st).
  - clear He. intros Hin.
    repeat (apply elem_of_cons in Hin as [->|Hin]; [vm_compute; naive_solver|]).
    by apply elem_of_nil in Hin.
Qed.

(** A member's tags show as one chip per tag, labelled "key: value", with
    distinct React keys; without tags nothing shows. *)
Lemma TagsField_chips (record : jsval) :
  match jget "Tags" record with
  | JObj tags =>
      ∃ chips, TagsField record = JEl "Box"
          [("sx", JObj [("display", JStr "flex"); ("flexWrap", JStr "wrap"); ("gap", JDec 5 1)])]
          [JArr chips] ∧
        keys_distinct chips = true ∧
        (key_of <$> chips) = Some <$> object_keys (JObj tags) ∧
        (chip_prop "label" <$> chips) =
          (λ k, JStr (k +:+ ": " +:+ js_String (default JUndef (own k tags)))) <$>
            object_keys (JObj tags)
  | v => truthy v = false → TagsField record = JNull
  end.
Proof.
  destruct (jget "Tags" record) as [| | b| z| m e| | s| l|tags|n|t ps ch] eqn:Htags;
    try (intros Hf; unfold TagsField; rewrite Htags, Hf, orb_true_r; reflexivity).
  assert (is_undef record = false) as Hu by (by destruct record).
  unfold TagsField. rewrite Hu, Htags. cbn -[object_keys jindex js_String].
  eexists. split; [reflexivity|].
  change (elems (js_keys (JObj tags))) with (JStr <$> object_keys (JObj tags)).
  assert (∀ k, k ∈ object_keys (JObj tags) → is_Some (own k tags)) as Hown.
  { intros k. cbn. rewrite elem_of_remove_dups. intros Hk.
    destruct (own k tags) eqn:Hn; [done|]. exfalso. revert Hk Hn. clear.
    induction tags as [|[k' w] tags IH] using rev_ind; [set_solver|].
    rewrite fmap_app, elem_of_app, own_app. cbn.
    destruct (String.eqb_spec k' k); [done|]. set_solver. }
  split_and!.
  - apply (keys_distinct_keys _ (object_keys (JObj tags))); [|apply NoDup_remove_dups].
    rewrite <-!list_fmap_compose. by apply list_fmap_ext.
  - rewrite <-!list_fmap_compose. by apply list_fmap_ext.
  - rewrite <-!list_fmap_compose. apply list_fmap_ext. intros i k Hk. apply list_elem_of_lookup_2, Hown in Hk as [w Hw].
    cbn -[js_String jindex]. f_equal. f_equal. f_equal. cbn. by rewrite Hw.
Qed.

(** An execution row whose [finished_at] is Go's zero time: as long as the
    parent does not hand the record over, the row is left alone, says "Running"
    and passes the zero date on to the date column; once it does, the date
    column erases [finished_at] in the record the row shares, and the status
    column to its right then says whether it succeeded: a running execution
    shows as failed. Any other row is rendered the same either way, unchanged. *)
Lemma executionRow_status (passed : bool) (record : jsval) :
  let (record', cells) := renderRow (executionColumns passed) record in
  let title := success_title <$> cells !! 5%nat in
  if is_str zero_date (jget "finished_at" record) then
    if passed then
      jget "finished_at" record' = JNull ∧
      (∀ k, k ≠ "finished_at" → jget k record' = jget k record) ∧
      title = Some (JStr (if truthy (jget "success" record) then "Success" else "Failed"))
    else record' = record ∧ title = Some (JStr "Running")
  else record' = record ∧
       title = Some (JStr (if truthy (jget "success" record) then "Success" else "Failed")).
Proof.
  assert (∀ r, truthy r && truthy (jget "success" r) = truthy (jget "success" r)) as Ht.
  { intros r. destruct (truthy (jget "success" r)) eqn:Hs; [|by rewrite andb_false_r].
    by apply jget_truthy_obj in Hs as [fs ->]. }
  assert (∀ r, truthy r && is_str zero_date (jget "finished_at" r) =
               is_str zero_date (jget "finished_at" r)) as Hz.
  { intros r. destruct (is_str zero_date (jget "finished_at" r)) eqn:Hs;
      [|by rewrite andb_false_r].
    by apply is_str_obj in Hs as [fs ->]. }
  unfold executionColumns, renderRow, field_column, column.
  destruct (ZeroDateField passed "finished_at" record) as [record' el] eqn:Hf.
  cbn -[success_title SuccessField zero_date jget].
  rewrite success_title_SuccessField, Hz, Ht. unfold ZeroDateField in Hf.
  assert (jindex "finished_at" record = jget "finished_at" record) as Hi.
  { destruct record; done. }
  rewrite Hi in Hf. injection Hf as <- _.
  destruct (is_str zero_date (jget "finished_at" record)) eqn:Hs; cbn -[zero_date jget].
  - apply is_str_obj in Hs as Hfs. destruct Hfs as [fs ->].
    destruct passed; cbn -[zero_date jget jset]; [|by rewrite Hs].
    rewrite jget_jset. split; [done|]. split; [intros k Hk; by apply jget_jset_ne|].
    cbn [is_str]. by rewrite jget_jset_ne.
  - rewrite andb_false_r, Hs. done.
Qed.

(** "Load full output" on an execution whose output was cut: once the
    server has answered with the execution, the record holds the full output,
    the button is enabled, and whenever the panel renders again it shows the
    full output and nothing else. Until then the panel shows the full output
    (in the place of the button) followed by the cut one. *)
Lemma fullOutput_loaded (record : jsval) (r : Response) (full cut : string) :
  truthy (jget "output_truncated" record) = true →
  jget "output" record = JStr cut → cut ≠ "" →
  status r = 200 → jget "output" (json r) = JStr full → full ≠ "" →
  let v := settleFull (Resolved r) (clickFull (expandRow record)) in
  ov_loading v = false ∧ ov_notes v = [("Success loading full output", false)] ∧
  jget "output" (ov_record v) = JStr full ∧
  (∀ k, k ∉ ["output"; "output_truncated"] → jget k (ov_record v) = jget k record) ∧
  screen v = [full; cut] ∧ screen (rerender v) = [full].
Proof.
  intros Ht Hcut Hcut0 Hr Hfull Hfull0. cbn zeta.
  apply jget_truthy_obj in Ht as Hfs. destruct Hfs as [fs ->].
  apply String.eqb_neq in Hcut0 as Hc. apply String.eqb_neq in Hfull0 as Hf.
  set (fs' := JObj fs) in *.
  assert (settleFull (Resolved r) (clickFull (expandRow fs')) =
    mkOutputView (jset "output" (JStr full) (jset "output_truncated" (JBool false) fs'))
      false 0 (SpecialOutputPanel fs') [("Success loading full output", false)]) as ->.
  { unfold settleFull. cbn -[jset jget fs']. rewrite Hr. cbn -[jset jget fs'].
    rewrite <-Hfull. by destruct (json r). }
  cbn -[jset jget screen rerender fs' SpecialOutputPanel].
  assert (∃ gs, jset "output_truncated" (JBool false) fs' = JObj gs) as [gs Hgs] by (by eexists).
  assert (jget "output" (jset "output" (JStr full) (jset "output_truncated" (JBool false) fs')) =
    JStr full) as Ho by (rewrite Hgs; apply jget_jset).
  assert (jget "output_truncated"
    (jset "output" (JStr full) (jset "output_truncated" (JBool false) fs')) = JBool false) as Htr.
  { rewrite jget_jset_ne by done. apply jget_jset. }
  split_and!; [done|done|done| | |].
  - intros k Hk. rewrite !jget_jset_ne by set_solver. done.
  - unfold screen. cbn [ov_loading ov_record ov_panel]. unfold FullButton. rewrite Htr, Ho.
    cbn [is_false negb]. by rewrite (screen_panel fs' full cut), Ht.
  - unfold screen, rerender. cbn [ov_loading ov_record ov_panel]. unfold FullButton at 1.
    rewrite Htr, Ho. cbn [is_false negb]. by rewrite (screen_panel _ full full), Htr.
Qed.

(** When loading the full output fails (the request is rejected or answered
    with another status), the record is untouched, the user is warned once and
    can try again. An empty body with status 200 is the exception: the user is
    told both that it worked and that it failed, and the record is marked as
    complete although the output is the cut one, so the button is gone. *)
Lemma fullOutput_failed (record : jsval) (answer : outcome Response) :
  let v := settleFull answer (clickFull (expandRow record)) in
  ov_loading v = false ∧ ov_pending v = 0%nat ∧
  match answer with
  | Rejected =>
      ov_record v = record ∧ ov_notes v = [("Error on loading full output", true)]
  | Resolved r =>
      if status r =? 200 then
        json r ∈ [JUndef; JNull] → is_str "" (jget "output" record) = false →
        truthy (jget "output_truncated" record) = true →
        jget "output_truncated" (ov_record v) = JBool false ∧
        jget "output" (ov_record v) = jget "output" record ∧
        (snd <$> ov_notes v) = [false; true] ∧
        FullButton false (ov_record v) = jget "output" record
      else ov_record v = record ∧ ov_notes v = [("Error on loading full output", true)]
  end.
Proof.
  cbn zeta. destruct answer as [r|]; [|done].
  unfold settleFull. cbn -[jset jget]. destruct (status r =? 200); [|done].
  assert (∀ x : jsval * list (string * bool), ov_loading (let (record, notes) := x in
     mkOutputView record false 0 (SpecialOutputPanel record) notes) = false ∧
     ov_pending (let (record, notes) := x in
     mkOutputView record false 0 (SpecialOutputPanel record) notes) = 0%nat) as Hx by (by intros []).
  split_and!; [by destruct (json r)|by destruct (json r)|].
  intros Hj _ Ht. apply jget_truthy_obj in Ht as [fs ->].
  assert (∀ j, j ∈ [JUndef; JNull] → j = JUndef ∨ j = JNull) as Hj' by set_solver.
  destruct (Hj' _ Hj) as [-> | ->]; cbn -[jset jget]; unfold FullButton;
    rewrite !jget_jset, !jget_jset_ne by done; done.
Qed.

Lemma status_displays_agree_witness :
  chip_prop "label" (StatusField (JObj [("status", JStr "partially_failed")])) ∈
    [JStr "Success"; JStr "Failed"; JStr "Pending"].
Proof.
  exact (proj1 (status_displays_agree (JObj [("status", JStr "partially_failed")]) eq_refl)).
Defined.

Lemma fullOutput_loaded_witness :
  let record := JObj [("id", JStr "e1"); ("output", JStr "tail"); ("output_truncated", JBool true)] in
  let r := mkResponse 200 ∅ (JObj [("output", JStr "head and tail")]) in
  let v := settleFull (Resolved r) (clickFull (expandRow record)) in
  screen v = ["head and tail"; "tail"] ∧ screen (rerender v) = ["head and tail"].
Proof.
  refine (proj2 (proj2 (proj2 (proj2 (fullOutput_loaded
    (JObj [("id", JStr "e1"); ("output", JStr "tail"); ("output_truncated", JBool true)])
    (mkResponse 200 ∅ (JObj [("output", JStr "head and tail")])) "head and tail" "tail"
    _ _ _ _ _ _))))); done.
Defined.
