(* ===== verification/Stats.v ===== *)
(** * Stats: the execution statistics of the dashboard

    The data flow of src/ui/src/dashboard/ExecutionStatsChart.tsx, from the
    request to the chart, and the aggregation of JobChart.tsx.  The life of a
    fetch (loading, error, data) is the one the dependency diagram has too. *)

From S2P Require Import Prelude JsCore View DataProvider.

(** ** The life of a fetch *)

Section fetch.
Context {R D : Type}.

(** The three [useState]s of a component that loads its data. *)
Record fetchState := mkFetch {
  f_data : D;
  f_loading : bool;
  f_error : option string;
}.

(** What happens to them: the effect runs and sends a request, or a request
    settles. *)
Inductive fetchEvent : Type :=
  | Started
  | Settled (answer : outcome R).

Variables (process : R → option D) (message : string).

(** [try { setLoading(true); await ...; setData; setError(null) } catch
    { setError } finally { setLoading(false) }]; [process] is [None] when
    reading the answer throws. *)
Definition fetchStep (s : fetchState) (e : fetchEvent) : fetchState :=
  match e with
  | Started => mkFetch (f_data s) true (f_error s)
  | Settled (Resolved r) =>
      match process r with
      | Some d => mkFetch d false None
      | None => mkFetch (f_data s) false (Some message)
      end
  | Settled Rejected => mkFetch (f_data s) false (Some message)
  end.

Definition fetchRun (es : list fetchEvent) (s : fetchState) : fetchState :=
  fold_left fetchStep es s.

(** The data a settled request brings. *)
Definition brings (e : fetchEvent) : option D :=
  match e with Settled (Resolved r) => process r | _ => None end.

End fetch.
Arguments fetchState : clear implicits.
Arguments fetchEvent : clear implicits.

(** ** ExecutionStatsChart *)

(** One day of the answer. *)
Module ExecutionStat.
Record t := mk { date : string; success_count : Z; failed_count : Z }.
End ExecutionStat.

Section chart.
Variable dateFormatter : string → string.

Definition chartPoint (stat : ExecutionStat.t) : jsval :=
  JObj [("date", JStr (ExecutionStat.date stat));
        ("dateFormatted", JStr (dateFormatter (ExecutionStat.date stat)));
        ("success", JNum (ExecutionStat.success_count stat));
        ("failed", JNum (ExecutionStat.failed_count stat));
        ("total", JNum (ExecutionStat.success_count stat + ExecutionStat.failed_count stat))].

(** [None] when the body has no [stats] array: [map] throws. *)
Definition chartData (stats : option (list ExecutionStat.t)) : option jsval :=
  l ← stats; Some (JArr (chartPoint <$> l)).

Definition chartStart : fetchState jsval := mkFetch (JArr []) true None.

Definition chartRun (es : list (fetchEvent (option (list ExecutionStat.t)))) : fetchState jsval :=
  fetchRun chartData "Failed to load statistics" es chartStart.

End chart.

(** The component, from the values of its three states. *)
Definition ExecutionStatsChart (data_ loading error : jsval) : jsval :=
  if truthy loading then
    JEl "Card" []
      [JEl "CardHeader" [("title", JStr "Execution Statistics (Last 30 Days)")] [];
       JEl "CardContent" []
         [JEl "Box"
            [("display", JStr "flex");
             ("justifyContent", JStr "center");
             ("alignItems", JStr "center");
             ("height", JNum 300)]
            [JEl "CircularProgress" [] []]]]
  else
  if truthy error then
    JEl "Card" []
      [JEl "CardHeader" [("title", JStr "Execution Statistics (Last 30 Days)")] [];
       JEl "CardContent" []
         [JEl "Box"
            [("display", JStr "flex");
             ("justifyContent", JStr "center");
             ("alignItems", JStr "center");
             ("height", JNum 300)]
            [JEl "Typography" [("color", JStr "error")] [error]]]]
  else
  let totalSuccess := js_sum "success" data_ in
  let totalFailed := js_sum "failed" data_ in
  JEl "Card" []
    [JEl "CardHeader"
       [("title", JStr "Execution Statistics (Last 30 Days)");
        ("subheader", JStr ("Total: " +:+ js_String (js_plus totalSuccess totalFailed) +:+ " executions (" +:+ js_String totalSuccess +:+ " successful, " +:+ js_String totalFailed +:+ " failed)"))]
       [];
     JEl "CardContent" []
       [JEl "div" [("style", JObj [("width", JStr "100%"); ("height", JNum 300)])]
          [JEl "ResponsiveContainer" []
             [JEl "AreaChart" [("data", data_)]
                [JEl "defs" []
                   [JEl "linearGradient"
                      [("id", JStr "colorSuccess");
                       ("x1", JStr "0");
                       ("y1", JStr "0");
                       ("x2", JStr "0");
                       ("y2", JStr "1")]
                      [JEl "stop"
                         [("offset", JStr "5%"); ("stopColor", JStr "#4caf50"); ("stopOpacity", JDec 8 1)]
                         [];
                       JEl "stop"
                         [("offset", JStr "95%"); ("stopColor", JStr "#4caf50"); ("stopOpacity", JDec 1 1)]
                         []];
                    JEl "linearGradient"
                      [("id", JStr "colorFailed");
                       ("x1", JStr "0");
                       ("y1", JStr "0");
                       ("x2", JStr "0");
                       ("y2", JStr "1")]
                      [JEl "stop"
                         [("offset", JStr "5%"); ("stopColor", JStr "#f44336"); ("stopOpacity", JDec 8 1)]
                         [];
                       JEl "stop"
                         [("offset", JStr "95%"); ("stopColor", JStr "#f44336"); ("stopOpacity", JDec 1 1)]
                         []]];
                 JEl "CartesianGrid" [("strokeDasharray", JStr "3 3")] [];
                 JEl "XAxis"
                   [("dataKey", JStr "dateFormatted");
                    ("tick", JObj [("fontSize", JNum 12)]);
                    ("interval", JStr "preserveStartEnd")]
                   [];
                 JEl "YAxis" [("allowDecimals", JBool false); ("tick", JObj [("fontSize", JNum 12)])]
                   [];
                 JEl "Tooltip"
                   [("labelFormatter", JFun "(label) => { if (typeof label === 'string') { return label; } return String(label); }");
                    ("formatter", JFun "(value: number, name: string) => { const displayName = name === 'success' ? 'Successful' : 'Failed'; return [value, displayName]; }")]
                   [];
                 JEl "Legend"
                   [("formatter", JFun "(value) => value === 'success' ? 'Successful' : 'Failed'")]
                   [];
                 JEl "Area"
                   [("type", JStr "monotone");
                    ("dataKey", JStr "success");
                    ("stackId", JStr "1");
                    ("stroke", JStr "#4caf50");
                    ("strokeWidth", JNum 2);
                    ("fill", JStr "url(#colorSuccess)")]
                   [];
                 JEl "Area"
                   [("type", JStr "monotone");
                    ("dataKey", JStr "failed");
                    ("stackId", JStr "1");
                    ("stroke", JStr "#f44336");
                    ("strokeWidth", JNum 2);
                    ("fill", JStr "url(#colorFailed)")]
                   []]]]]].

Definition chartView (s : fetchState jsval) : jsval :=
  ExecutionStatsChart (f_data s) (JBool (f_loading s))
    (match f_error s with Some e => JStr e | None => JNull end).

(** ** JobChart *)

Module JobData.
Record t := mk { date : string; total : Z }.
End JobData.

Module TotalByDay.
Record t := mk { date : Z; total : Z }.
End TotalByDay.

Section aggregate.
(** [format(new Date(d), 'yyyy-MM-dd')] and [new Date(d).getTime()]. *)
Variables (day_of : string → string) (getTime : string → Z).

(** One step of the [reduce]: [acc[day]] starts at 0. *)
Definition addToDay (acc : list (string * Z)) (curr : JobData.t) : list (string * Z) :=
  let day := day_of (JobData.date curr) in
  let acc := match jm_get day acc with
             | Some n => if n =? 0 then jm_set day 0 acc else acc
             | None => jm_set day 0 acc
             end in
  jm_set day (default 0 (jm_get day acc) + JobData.total curr) acc.

Definition totalsByDay (jobs : list JobData.t) : list (string * Z) := fold_left addToDay jobs [].

Definition aggregateJobsByHour (jobs : list JobData.t) : list TotalByDay.t :=
  (λ e, TotalByDay.mk (getTime e.1) e.2) <$> totalsByDay jobs.

Definition jobChartView (points monthStart now : jsval) : jsval :=
  JEl "Card" []
    [JEl "CardHeader" [("title", JStr "Job Executions")] [];
     JEl "CardContent" []
       [JEl "div" [("style", JObj [("width", JStr "100%"); ("height", JNum 300)])]
          [JEl "ResponsiveContainer" []
             [JEl "AreaChart" [("data", points)]
                [JEl "defs" []
                   [JEl "linearGradient"
                      [("id", JStr "colorUv");
                       ("x1", JStr "0");
                       ("y1", JStr "0");
                       ("x2", JStr "0");
                       ("y2", JStr "1")]
                      [JEl "stop"
                         [("offset", JStr "5%"); ("stopColor", JStr "#8884d8"); ("stopOpacity", JDec 8 1)]
                         [];
                       JEl "stop"
                         [("offset", JStr "95%"); ("stopColor", JStr "#8884d8"); ("stopOpacity", JNum 0)]
                         []]];
                 JEl "XAxis"
                   [("dataKey", JStr "date");
                    ("name", JStr "Date");
                    ("type", JStr "number");
                    ("scale", JStr "time");
                    ("domain", JArr [monthStart; now]);
                    ("tickFormatter", JFun "dateFormatter")]
                   [];
                 JEl "YAxis" [("dataKey", JStr "total"); ("name", JStr "Revenue"); ("unit", JStr "€")]
                   [];
                 JEl "CartesianGrid" [("strokeDasharray", JStr "3 3")] [];
                 JEl "Tooltip"
                   [("cursor", JObj [("strokeDasharray", JStr "3 3")]);
                    ("formatter", JFun "(value: any) => new Intl.NumberFormat(undefined, { style: 'currency', currency: 'USD', }).format(value)");
                    ("labelFormatter", JFun "(label: any) => dateFormatter(label)")]
                   [];
                 JEl "Area"
                   [("type", JStr "monotone");
                    ("dataKey", JStr "total");
                    ("stroke", JStr "#8884d8");
                    ("strokeWidth", JNum 2);
                    ("fill", JStr "url(#colorUv)")]
                   []]]]]].

(** The component; the axis begins a day after the month before the page was
    loaded, and ends now. *)
Definition JobChart (monthStart now : Z) (jobs : option (list JobData.t)) : jsval :=
  match jobs with
  | None => JNull
  | Some jobs =>
      jobChartView
        (JArr ((λ p, JObj [("date", JNum (TotalByDay.date p)); ("total", JNum (TotalByDay.total p))])
           <$> aggregateJobsByHour jobs))
        (JNum monthStart) (JNum now)
  end.

End aggregate.

(** ** Lemmas *)

Section fetch_lemmas.
Context {R D : Type} (process : R → option D) (message : string).

Definition is_settled (e : fetchEvent R) : bool := match e with Settled _ => true | _ => false end.

Lemma fetchRun_snoc es e s :
  fetchRun process message (es ++ [e]) s = fetchStep process message (fetchRun process message es s) e.
Proof. unfold fetchRun. by rewrite fold_left_app. Qed.

Lemma fetchStep_data s e :
  f_data (fetchStep process message s e) = default (f_data s) (brings process e).
Proof. destruct e as [|[r|]]; cbn; [done| |done]. by destruct (process r). Qed.

Lemma fetchStep_loading s e : f_loading (fetchStep process message s e) = negb (is_settled e).
Proof. destruct e as [|[r|]]; cbn; [done| |done]. by destruct (process r). Qed.

Lemma fetchStep_error s e :
  f_error (fetchStep process message s e) =
    if is_settled e then match brings process e with Some _ => None | None => Some message end
    else f_error s.
Proof. destruct e as [|[r|]]; cbn; [done| |done]. by destruct (process r). Qed.
End fetch_lemmas.

Section aggregate_lemmas.
Variable day_of : string → string.

Lemma addToDay_set acc curr :
  addToDay day_of acc curr =
    jm_set (day_of (JobData.date curr))
      (default 0 (jm_get (day_of (JobData.date curr)) acc) + JobData.total curr)
      (if jm_get (day_of (JobData.date curr)) acc is Some _ then acc
       else jm_set (day_of (JobData.date curr)) 0 acc).
Proof.
  unfold addToDay. generalize (day_of (JobData.date curr)) as d. intros d.
  destruct (jm_get d acc) as [n|] eqn:Hd; cbn [default from_option].
  - destruct (Z.eqb_spec n 0) as [->|]; [|by rewrite Hd].
    rewrite jm_get_set_eq. cbn [default from_option]. f_equal. clear -Hd.
    induction acc as [|[k v] acc IH]; [done|]. cbn in *.
    case_decide; [by simplify_eq|]. f_equal. by apply IH.
  - by rewrite jm_get_set_eq.
Qed.

Lemma addToDay_get acc curr d :
  jm_get d (addToDay day_of acc curr) =
    if decide (day_of (JobData.date curr) = d)
    then Some (default 0 (jm_get d acc) + JobData.total curr) else jm_get d acc.
Proof.
  rewrite addToDay_set. case_decide as Hd; [subst d; apply jm_get_set_eq|].
  rewrite jm_get_set_ne by done. destruct (jm_get (day_of _) acc); [done|].
  by rewrite jm_get_set_ne.
Qed.

Lemma addToDay_keys acc curr :
  (addToDay day_of acc curr).*1 = set_add acc.*1 (day_of (JobData.date curr)).
Proof.
  rewrite addToDay_set, jm_keys_set. unfold set_add.
  destruct (jm_get (day_of _) acc) as [n|] eqn:Hd.
  - apply jm_get_Some_key in Hd. by rewrite !decide_True.
  - apply jm_get_None in Hd. revert Hd. generalize (day_of (JobData.date curr)) as d. intros d Hd.
    assert ((jm_set d 0 acc).*1 = acc.*1 ++ [d]) as -> by by rewrite jm_keys_set, decide_False.
    by rewrite decide_True, decide_False by set_solver.
Qed.

(** The total of a day, by definition. *)
Definition day_total (jobs : list JobData.t) (d : string) : Z :=
  sum_by JobData.total (List.filter (λ j, String.eqb (day_of (JobData.date j)) d) jobs).

Lemma day_total_snoc jobs j d :
  day_total (jobs ++ [j]) d =
    day_total jobs d + if decide (day_of (JobData.date j) = d) then JobData.total j else 0.
Proof.
  unfold day_total. rewrite List.filter_app, sum_by_app. cbn.
  destruct (String.eqb_spec (day_of (JobData.date j)) d).
  - rewrite decide_True, sum_by_cons, sum_by_nil by done. lia.
  - by rewrite decide_False.
Qed.

Lemma day_total_None jobs d : d ∉ day_of ∘ JobData.date <$> jobs → day_total jobs d = 0.
Proof.
  unfold day_total. induction jobs as [|i jobs IH]; [done|]. cbn. intros Hd.
  rewrite (proj2 (String.eqb_neq _ _)) by set_solver. apply IH. set_solver.
Qed.

Lemma totalsByDay_snoc jobs j :
  totalsByDay day_of (jobs ++ [j]) = addToDay day_of (totalsByDay day_of jobs) j.
Proof. unfold totalsByDay. by rewrite fold_left_app. Qed.

Lemma totalsByDay_get jobs d :
  jm_get d (totalsByDay day_of jobs) =
    if decide (d ∈ day_of ∘ JobData.date <$> jobs) then Some (day_total jobs d) else None.
Proof.
  induction jobs as [|j jobs IH] using rev_ind; [done|].
  rewrite totalsByDay_snoc, addToDay_get, IH, day_total_snoc, fmap_app. cbn [fmap list_fmap].
  destruct (decide (day_of (JobData.date j) = d)) as [Hj|Hj].
  - rewrite (decide_True (P := d ∈ _ ++ _)) by set_solver. f_equal.
    destruct (decide (d ∈ _ <$> jobs)) as [Hd|Hd]; cbn; [done|]. by rewrite day_total_None.
  - rewrite Z.add_0_r. apply decide_ext. cbn. set_solver.
Qed.

Lemma totalsByDay_keys jobs :
  (totalsByDay day_of jobs).*1 = set_of (day_of ∘ JobData.date <$> jobs).
Proof.
  induction jobs as [|j jobs IH] using rev_ind; [done|].
  rewrite totalsByDay_snoc, addToDay_keys, IH. unfold set_of.
  by rewrite fmap_app, fold_left_app.
Qed.

Lemma sum_jm_set (d : string) v m :
  sum_by snd (jm_set d v m) = sum_by snd m + v - default 0 (jm_get d m).
Proof.
  induction m as [|[k w] m IH]; cbn [jm_set jm_get default from_option].
  - rewrite sum_by_cons, sum_by_nil. cbn. lia.
  - case_decide; cbn [default from_option]; rewrite !sum_by_cons; cbn; lia.
Qed.

Lemma totalsByDay_sum jobs : sum_by snd (totalsByDay day_of jobs) = sum_by JobData.total jobs.
Proof.
  induction jobs as [|j jobs IH] using rev_ind; [done|].
  rewrite totalsByDay_snoc, addToDay_set, sum_jm_set, sum_by_app, sum_by_cons, sum_by_nil.
  destruct (jm_get (day_of (JobData.date j)) _) as [n|] eqn:Hd; cbn [default from_option].
  - rewrite Hd. cbn. lia.
  - rewrite jm_get_set_eq, sum_jm_set, Hd. cbn. lia.
Qed.
End aggregate_lemmas.

(** ** Properties *)

(** Over any sequence of loads, requests of several loads settling in any
    order: the component is loading exactly until the last thing that happened
    is an answer; the error shown is that of the last answer, and none when it
    could be read; the data is that of the last answer that could be read. *)
Lemma fetch_lifecycle {R D} (process : R → option D) (message : string) (d0 : D)
    (es : list (fetchEvent R)) :
  let s := fetchRun process message es (mkFetch d0 true None) in
  f_loading s = match last es with Some e => negb (is_settled e) | None => true end ∧
  f_error s = match last (List.filter is_settled es) with
              | Some e => if brings process e is Some _ then None else Some message
              | None => None
              end ∧
  f_data s = default d0 (last (omap (brings process) es)).
Proof.
  cbn zeta. induction es as [|e es IH] using rev_ind; [done|].
  destruct IH as (_ & He & Hd).
  rewrite fetchRun_snoc, fetchStep_loading, fetchStep_error, fetchStep_data, last_snoc.
  rewrite List.filter_app, omap_app. cbn [List.filter omap list_omap]. split_and!.
  - done.
  - destruct (is_settled e); [by rewrite last_snoc; destruct (brings process e)|].
    by rewrite app_nil_r.
  - destruct (brings process e); [by rewrite last_snoc|]. by rewrite app_nil_r.
Qed.

(** After an answer with statistics the dashboard shows the chart, without
    spinner or error, one point per day in the server's order; the subheader's
    successes and failures are the sums over the days, and their sum is the sum
    of the points' totals. *)
Lemma chart_shows_totals (dateFormatter : string → string) es (stats : list ExecutionStat.t) :
  let s := chartRun dateFormatter (es ++ [Settled (Resolved (Some stats))]) in
  let successes := sum_by ExecutionStat.success_count stats in
  let failures := sum_by ExecutionStat.failed_count stats in
  let points := chartPoint dateFormatter <$> stats in
  tagged "CircularProgress" (chartView s) = [] ∧ texts (chartView s) = [] ∧
  jget "data" <$> tagged "AreaChart" (chartView s) = [JArr points] ∧
  js_sum "total" (JArr points) = JNum (successes + failures) ∧
  prop_values "subheader" (chartView s) =
    [JStr ("Total: " +:+ pretty (successes + failures) +:+ " executions (" +:+
       pretty successes +:+ " successful, " +:+ pretty failures +:+ " failed)")].
Proof.
  cbn zeta. set (successes := sum_by _ _). set (failures := sum_by _ _).
  assert (chartRun dateFormatter (es ++ [Settled (Resolved (Some stats))]) =
    mkFetch (JArr (chartPoint dateFormatter <$> stats)) false None) as ->.
  { unfold chartRun. by rewrite fetchRun_snoc. }
  unfold chartView. cbn [f_data f_loading f_error].
  set (points := chartPoint dateFormatter <$> stats).
  assert (js_sum "success" (JArr points) = JNum successes) as Hs by by apply js_sum_nums.
  assert (js_sum "failed" (JArr points) = JNum failures) as Hf by by apply js_sum_nums.
  assert (flat_map elements points = []) as Hp by by (subst points; clear; induction stats).
  assert (∀ t, flat_map (tagged t) points = []) as Hg
    by by (intros t; subst points; clear; induction stats).
  unfold ExecutionStatsChart. cbn [truthy]. cbn zeta. rewrite Hs, Hf. cbn [js_plus].
  split_and!.
  - cbn. by rewrite Hg.
  - done.
  - cbn. by rewrite Hg.
  - subst points. rewrite (js_sum_nums (λ x, ExecutionStat.success_count x +
      ExecutionStat.failed_count x)) by done. by rewrite sum_by_plus.
  - unfold prop_values. cbn. by rewrite Hp.
Qed.

(** [aggregateJobsByHour] yields one point per day some job ran, in the
    order the days first appear, with the sum of the totals of that day; no
    total is lost. *)
Lemma aggregateJobsByHour_spec (day_of : string → string) (getTime : string → Z)
    (jobs : list JobData.t) :
  let points := aggregateJobsByHour day_of getTime jobs in
  let days := set_of (day_of ∘ JobData.date <$> jobs) in
  points = (λ d, TotalByDay.mk (getTime d) (day_total day_of jobs d)) <$> days ∧
  NoDup days ∧ (∀ d, d ∈ days ↔ ∃ j, j ∈ jobs ∧ day_of (JobData.date j) = d) ∧
  sum_by TotalByDay.total points = sum_by JobData.total jobs.
Proof.
  cbn zeta. split_and!.
  - unfold aggregateJobsByHour. rewrite <-totalsByDay_keys, <-list_fmap_compose.
    apply list_fmap_ext. intros i [d n] Hi. cbn. f_equal.
    apply list_elem_of_lookup_2 in Hi.
    assert (NoDup (totalsByDay day_of jobs).*1) as Hn
      by (rewrite totalsByDay_keys; apply NoDup_set_of).
    apply (jm_elem_get _ _ _ Hn) in Hi. rewrite totalsByDay_get in Hi.
    by case_decide; simplify_eq.
  - apply NoDup_set_of.
  - intros d. rewrite elem_of_set_of, list_elem_of_fmap. cbn. naive_solver.
  - unfold aggregateJobsByHour. rewrite sum_by_map. cbn. apply totalsByDay_sum.
Qed.
