(* ===== verification/DiagramView.v ===== *)
(** * DiagramView: what the dependency tab draws

    The components of src/ui/src/jobs/JobDependencyDiagram.tsx: the box of a
    job, the arrow of an edge, and the tab with its four panels (spinner, error,
    "no dependencies", diagram), on top of the graph of DepLayout and the fetch
    of Stats. *)

From S2P Require Import Prelude JsCore View DataProvider DepGraph DepLayout Fields Stats.

(** ** Components *)

Definition SectionHeader (props : jsval) : jsval :=
  let Icon := jget "icon" props in
  let title := jget "title" props in
  JEl "Box"
    [("sx", JObj
         [("display", JStr "flex");
          ("alignItems", JStr "center");
          ("gap", JDec 15 1);
          ("mb", JNum 2);
          ("pb", JNum 1);
          ("borderBottom", JStr "1px solid");
          ("borderColor", JStr "divider")])]
    [JEl "Box"
       [("sx", JObj
            [("width", JNum 36);
             ("height", JNum 36);
             ("borderRadius", JDec 15 1);
             ("background", JStr "linear-gradient(135deg, #3182ce 0%, #2c5282 100%)");
             ("display", JStr "flex");
             ("alignItems", JStr "center");
             ("justifyContent", JStr "center");
             ("color", JStr "white")])]
       [JEl (fname Icon) [("fontSize", JStr "small")] []];
     JEl "Typography"
       [("variant", JStr "h6");
        ("sx", JObj [("fontWeight", JNum 600); ("color", JStr "text.primary")])]
       [title]].

Definition DiagramNode (props : jsval) : jsval :=
  let node := jget "node" props in
  let onClick := jget "onClick" props in
  let statusColor := getStatusColor (jget "status" node) in
  let displayName := js_or (jget "displayName" node) (jget "name" node) in
  let truncatedName :=
    if js_gt (js_len displayName) (JNum 18)
    then js_plus (js_substring 15 displayName) (JStr "...")
    else displayName in
  JEl "g"
    [("transform", JStr ("translate(" +:+ js_String (jget "x" node) +:+ ", " +:+ js_String (jget "y" node) +:+ ")"));
     ("style", JObj
         [("cursor", if (truthy onClick) && (negb (truthy (jget "isCurrent" node)))
            then JStr "pointer"
            else JStr "default")]);
     ("onClick", JFun "() => onClick && !node.isCurrent && onClick(node.id)")]
    [JEl "rect"
       [("x", JNum 0);
        ("y", JNum 0);
        ("width", JNum NODE_WIDTH);
        ("height", JNum NODE_HEIGHT);
        ("rx", JNum 8);
        ("ry", JNum 8);
        ("fill", if truthy (jget "isCurrent" node) then JStr "#1a365d" else JStr "#ffffff");
        ("stroke", if truthy (jget "isCurrent" node) then JStr "#1a365d" else JStr "#e2e8f0");
        ("strokeWidth", if truthy (jget "isCurrent" node) then JNum 3 else JNum 2);
        ("style", JObj
            [("filter", if truthy (jget "isCurrent" node)
               then JStr "drop-shadow(0 4px 6px rgba(26, 54, 93, 0.3))"
               else JStr "drop-shadow(0 1px 3px rgba(0, 0, 0, 0.1))")])]
       [];
     JEl "rect"
       [("x", JNum 0);
        ("y", JNum 0);
        ("width", JNum 4);
        ("height", JNum NODE_HEIGHT);
        ("rx", JNum 8);
        ("fill", statusColor)]
       [];
     JEl "text"
       [("x", js_half (JNum NODE_WIDTH));
        ("y", js_minus (js_half (JNum NODE_HEIGHT)) (JNum 8));
        ("textAnchor", JStr "middle");
        ("fontSize", JStr "13");
        ("fontWeight", JStr "600");
        ("fill", if truthy (jget "isCurrent" node) then JStr "#ffffff" else JStr "#1a365d")]
       [JEl "title" [] [displayName]; truncatedName];
     JEl "text"
       [("x", js_half (JNum NODE_WIDTH));
        ("y", js_plus (js_half (JNum NODE_HEIGHT)) (JNum 12));
        ("textAnchor", JStr "middle");
        ("fontSize", JStr "11");
        ("fill", if truthy (jget "isCurrent" node) then JStr "#94a3b8" else JStr "#64748b")]
       [js_or (jget "status" node) (JStr "untriggered")];
     js_and
       (jget "isCurrent" node)
       (JEl "text"
          [("x", js_half (JNum NODE_WIDTH));
           ("y", js_plus (JNum NODE_HEIGHT) (JNum 18));
           ("textAnchor", JStr "middle");
           ("fontSize", JStr "10");
           ("fontWeight", JStr "500");
           ("fill", JStr "#3182ce")]
          [JStr "(current job)"])].

Definition DiagramEdge (props : jsval) : jsval :=
  let edge := jget "edge" props in
  let startX := js_plus (jget "fromX" edge) (js_half (JNum NODE_WIDTH)) in
  let startY := js_plus (jget "fromY" edge) (JNum NODE_HEIGHT) in
  let endX := js_plus (jget "toX" edge) (js_half (JNum NODE_WIDTH)) in
  let endY := jget "toY" edge in
  let midY := js_half (js_plus startY endY) in
  JEl "g" []
    [JEl "path"
       [("d", JStr ("M " +:+ js_String startX +:+ " " +:+ js_String startY +:+ " C " +:+ js_String startX +:+ " " +:+ js_String midY +:+ ", " +:+ js_String endX +:+ " " +:+ js_String midY +:+ ", " +:+ js_String endX +:+ " " +:+ js_String endY));
        ("fill", JStr "none");
        ("stroke", JStr "#94a3b8");
        ("strokeWidth", JNum 2);
        ("markerEnd", JStr "url(#arrowhead)")]
       []].

(** The tab, from the record and the values of its states and memo. *)
Definition DiagramTab (record nodes edges loading error : jsval) : jsval :=
  if negb (truthy record) then
    JNull
  else
  let hasNoDependencies := JBool (js_le (js_len nodes) (JNum 1)) in
  let hasDependencies := JBool (negb (truthy hasNoDependencies)) in
  let svgPadding := JNum 40 in
  let maxX :=
    js_max
      (elems (jmap (λ n, js_plus (jget "x" n) (JNum NODE_WIDTH)) nodes) ++ [JNum 300]) in
  let maxY :=
    js_max
      (elems (jmap (λ n, js_plus (js_plus (jget "y" n) (JNum NODE_HEIGHT)) (JNum 30)) nodes) ++ [JNum 150]) in
  let svgWidth := js_plus maxX (js_times svgPadding (JNum 2)) in
  let svgHeight := js_plus maxY svgPadding in
  JEl "Card" [("sx", JObj [("mb", JNum 3)])]
    [JEl "CardContent" []
       [JEl "SectionHeader"
          [("icon", JFun "AccountTreeIcon"); ("title", JStr "Job Dependencies")]
          [];
        js_and
          loading
          (JEl "Box"
             [("sx", JObj [("display", JStr "flex"); ("justifyContent", JStr "center"); ("py", JNum 4)])]
             [JEl "CircularProgress" [] []]);
        js_and
          error
          (JEl "Box" [("sx", JObj [("py", JNum 4); ("textAlign", JStr "center")])]
             [JEl "Typography" [("color", JStr "error")] [error]]);
        js_and
          (js_and
             (js_and (JBool (negb (truthy loading))) (JBool (negb (truthy error))))
             hasNoDependencies)
          (JEl "Box" [("sx", JObj [("py", JNum 4); ("textAlign", JStr "center")])]
             [JEl "AccountTreeIcon"
                [("sx", JObj [("fontSize", JNum 48); ("color", JStr "text.secondary"); ("mb", JNum 2)])]
                [];
              JEl "Typography" [("variant", JStr "body1"); ("color", JStr "text.secondary")]
                [JStr "This job has no parent or dependent jobs."];
              JEl "Typography"
                [("variant", JStr "body2");
                 ("color", JStr "text.secondary");
                 ("sx", JObj [("mt", JNum 1)])]
                [JStr "Set a ";
                 JEl "strong" [] [JStr "parent_job"];
                 JStr " to create a dependency relationship."]]);
        js_and
          (js_and
             (js_and (JBool (negb (truthy loading))) (JBool (negb (truthy error))))
             hasDependencies)
          (JEl "" []
             [JEl "Box"
                [("sx", JObj
                     [("mb", JNum 2);
                      ("display", JStr "flex");
                      ("gap", JNum 1);
                      ("flexWrap", JStr "wrap")])]
                [JEl "Chip"
                   [("size", JStr "small");
                    ("icon", JEl "CheckCircleIcon" [] []);
                    ("label", JStr "Success");
                    ("sx", JObj [("backgroundColor", JStr "#dcfce7"); ("color", JStr "#15803d")])]
                   [];
                 JEl "Chip"
                   [("size", JStr "small");
                    ("icon", JEl "ErrorIcon" [] []);
                    ("label", JStr "Failed");
                    ("sx", JObj [("backgroundColor", JStr "#fee2e2"); ("color", JStr "#b91c1c")])]
                   [];
                 JEl "Chip"
                   [("size", JStr "small");
                    ("icon", JEl "HourglassEmptyIcon" [] []);
                    ("label", JStr "Running");
                    ("sx", JObj [("backgroundColor", JStr "#fef3c7"); ("color", JStr "#b45309")])]
                   [];
                 JEl "Chip"
                   [("size", JStr "small");
                    ("icon", JEl "ScheduleIcon" [] []);
                    ("label", JStr "Untriggered");
                    ("sx", JObj [("backgroundColor", JStr "#f1f5f9"); ("color", JStr "#475569")])]
                   []];
              JEl "Box"
                [("sx", JObj
                     [("overflowX", JStr "auto");
                      ("backgroundColor", JStr "#f8fafc");
                      ("borderRadius", JNum 2);
                      ("border", JStr "1px solid #e2e8f0");
                      ("p", JNum 2)])]
                [JEl "svg"
                   [("width", svgWidth);
                    ("height", svgHeight);
                    ("style", JObj [("display", JStr "block"); ("margin", JStr "0 auto")])]
                   [JEl "defs" []
                      [JEl "marker"
                         [("id", JStr "arrowhead");
                          ("markerWidth", JStr "10");
                          ("markerHeight", JStr "7");
                          ("refX", JStr "9");
                          ("refY", JStr "3.5");
                          ("orient", JStr "auto")]
                         [JEl "polygon" [("points", JStr "0 0, 10 3.5, 0 7"); ("fill", JStr "#94a3b8")] []]];
                    JEl "g" [("transform", JStr ("translate(" +:+ js_String svgPadding +:+ ", 0)"))]
                      [jmapi (λ edge index,
                           JEl "DiagramEdge" [("key", JStr ("edge-" +:+ js_String index)); ("edge", edge)] [])
                         edges;
                       jmap (λ node,
                           JEl "DiagramNode"
                             [("key", jget "id" node); ("node", node); ("onClick", JFun "handleNodeClick")]
                             [])
                         nodes]]];
              JEl "Typography"
                [("variant", JStr "caption");
                 ("color", JStr "text.secondary");
                 ("sx", JObj [("display", JStr "block"); ("mt", JNum 2); ("textAlign", JStr "center")])]
                [JStr "Click on a node to navigate to that job. Arrows indicate execution order (parent → child)."]])]].

(** ** The state of the tab *)

(** A node and an edge as the objects the components receive. *)
Definition node_js (n : DependencyNode.t) : jsval :=
  JObj [("id", JStr (DependencyNode.id n)); ("name", JStr (DependencyNode.name n));
        ("displayName", JStr (DependencyNode.displayName n));
        ("status", JStr (DependencyNode.status n));
        ("x", JNum (DependencyNode.x n)); ("y", JNum (DependencyNode.y n));
        ("level", JNum (DependencyNode.level n));
        ("isCurrent", JBool (DependencyNode.isCurrent n))].

Definition edge_js (e : DependencyEdge.t) : jsval :=
  JObj [("from", JStr (DependencyEdge.from e)); ("to", JStr (DependencyEdge.to e));
        ("fromX", JNum (DependencyEdge.fromX e)); ("fromY", JNum (DependencyEdge.fromY e));
        ("toX", JNum (DependencyEdge.toX e)); ("toY", JNum (DependencyEdge.toY e))].

(** The memo: nothing is laid out without a record or before jobs are there. *)
Definition graph_memo (record : option Job.t) (allJobs : list Job.t)
    : option (list DependencyNode.t * list DependencyEdge.t) :=
  match record, allJobs with
  | None, _ | _, [] => Some ([], [])
  | Some currentJob, _ => buildDependencyGraph currentJob allJobs
  end.

Definition diagramStart : fetchState (list Job.t) := mkFetch [] true None.

(** [fetchJobs]: the answer of [getList] is its [data]. *)
Definition diagramRun (es : list (fetchEvent (list Job.t))) : fetchState (list Job.t) :=
  fetchRun Some "Failed to load job dependencies" es diagramStart.

Definition diagramView (record : option Job.t) (s : fetchState (list Job.t)) : option jsval :=
  let? (ns, es) := graph_memo record (f_data s) in
  Some (DiagramTab (if record is Some _ then JObj [] else JUndef)
    (JArr (node_js <$> ns)) (JArr (edge_js <$> es)) (JBool (f_loading s))
    (match f_error s with Some e => JStr e | None => JNull end)).

(** The job a click on a box redirects to: [onClick] of the box, then
    [redirect('show', 'jobs', jobId)]. *)
Definition nodeClick (n : DependencyNode.t) : option string :=
  if DependencyNode.isCurrent n then None else Some (DependencyNode.id n).

(** ** Lemmas *)

(** The arrays of arrows and boxes inside the drawing. *)
Definition arrow_els (es : list DependencyEdge.t) : list jsval :=
  imap (λ i edge, JEl "DiagramEdge"
    [("key", JStr ("edge-" +:+ js_String (JNum (Z.of_nat i)))); ("edge", edge)] []) (edge_js <$> es).

Definition box_els (ns : list DependencyNode.t) : list jsval :=
  (λ n, JEl "DiagramNode" [("key", JStr (DependencyNode.id n)); ("node", node_js n);
     ("onClick", JFun "handleNodeClick")] []) <$> ns.

Lemma box_els_jmap ns :
  jmap (λ node, JEl "DiagramNode"
    [("key", jget "id" node); ("node", node); ("onClick", JFun "handleNodeClick")] [])
    (JArr (node_js <$> ns)) = JArr (box_els ns).
Proof. unfold jmap, box_els. cbn [elems]. by rewrite <-list_fmap_compose. Qed.

Lemma tagged_box_els t ns :
  flat_map (tagged t) (box_els ns) = if String.eqb "DiagramNode" t
    then (λ n, JObj [("key", JStr (DependencyNode.id n)); ("node", node_js n);
     ("onClick", JFun "handleNodeClick")]) <$> ns else [].
Proof.
  unfold box_els. induction ns as [|n ns IH]; [by destruct (String.eqb _ _)|].
  cbn [fmap list_fmap flat_map]. rewrite IH. cbn [tagged]. by destruct (String.eqb _ _).
Qed.

Lemma tagged_arrow_els t es :
  length (flat_map (tagged t) (arrow_els es)) =
    if String.eqb "DiagramEdge" t then length es else 0%nat.
Proof.
  unfold arrow_els. induction es as [|e es IH] using rev_ind; [by destruct (String.eqb _ _)|].
  rewrite fmap_app, imap_app, flat_map_app, !length_app, IH.
  cbn [fmap list_fmap imap flat_map length app]. cbn [tagged].
  destruct (String.eqb _ _); cbn; lia.
Qed.

Lemma texts_box_els ns : flat_map texts (box_els ns) = [].
Proof. unfold box_els. by induction ns. Qed.

Lemma texts_arrow_els es : flat_map texts (arrow_els es) = [].
Proof.
  unfold arrow_els. induction es as [|e es IH] using rev_ind; [done|].
  by rewrite fmap_app, imap_app, flat_map_app, IH.
Qed.

Lemma key_box_els ns : key_of <$> box_els ns = Some <$> (DependencyNode.id <$> ns).
Proof. unfold box_els. rewrite <-!list_fmap_compose. by apply list_fmap_ext. Qed.

Lemma key_arrow_els es :
  key_of <$> arrow_els es =
    Some <$> imap (λ i (_ : DependencyEdge.t), "edge-" +:+ pretty (Z.of_nat i)) es.
Proof.
  unfold arrow_els. rewrite imap_fmap. rewrite !fmap_imap. by apply imap_ext.
Qed.

Lemma NoDup_imap_keys {A} (l : list A) :
  NoDup (imap (λ i (_ : A), "edge-" +:+ pretty (Z.of_nat i)) l).
Proof.
  apply NoDup_alt. intros i j x. rewrite !list_lookup_imap.
  destruct (l !! i); [|done]. destruct (l !! j); [|done]. cbn.
  intros Hi Hj. assert (pretty (Z.of_nat j) = pretty (Z.of_nat i)) as Hp.
  { apply (inj (String.append "edge-")). congruence. }
  apply (inj pretty) in Hp. lia.
Qed.

Lemma svg_size ns :
  js_max (elems (jmap (λ n, js_plus (jget "x" n) (JNum NODE_WIDTH)) (JArr (node_js <$> ns))) ++
    [JNum 300]) = JNum (maxX ns) ∧
  js_max (elems (jmap (λ n, js_plus (js_plus (jget "y" n) (JNum NODE_HEIGHT)) (JNum 30))
    (JArr (node_js <$> ns))) ++ [JNum 150]) = JNum (maxY ns).
Proof.
  unfold maxX, maxY. rewrite <-!js_max_by. cbn [elems jmap].
  by rewrite <-!list_fmap_compose.
Qed.

Lemma diagramRun_error es : f_error (diagramRun es) = None ∨
  f_error (diagramRun es) = Some "Failed to load job dependencies".
Proof.
  unfold diagramRun. induction es as [|e es IH] using rev_ind; [by left|].
  rewrite fetchRun_snoc, fetchStep_error. destruct (is_settled e); [|done].
  destruct (brings _ e); auto.
Qed.

Lemma graph_memo_total record jobs : ∃ ns es, graph_memo record jobs = Some (ns, es).
Proof.
  destruct record as [r|]; [|by eexists _, _]. destruct jobs as [|j jobs]; [by eexists _, _|].
  destruct (build_layout r (j :: jobs)) as (ns & es & ? & ? & ? & ? & Hb & _).
  by exists ns, es.
Qed.

Lemma graph_memo_NoDup record jobs ns es :
  graph_memo record jobs = Some (ns, es) → NoDup (DependencyNode.id <$> ns).
Proof.
  destruct record as [r|]; cbn; [|intros [= <- <-]; constructor].
  destruct jobs as [|j jobs]; [intros [= <- <-]; constructor|].
  intros (? & ? & ? & ? & HL)%build_layout_inv.
  rewrite (nodes_ids _ _ HL). apply NoDup_filter, HL.
Qed.

Lemma js_prefix_length n s : js_length (js_prefix n s) ≤ Z.of_nat n.
Proof.
  unfold js_length, js_prefix. revert s.
  induction n as [|n IH]; intros [|c s]; cbn -[Z.of_nat]; try lia. specialize (IH s). lia.
Qed.

Lemma prefix_app s t : String.prefix s (s +:+ t) = true.
Proof.
  induction s as [|c s IH]; [by destruct t|].
  change (String.prefix (String c s) (String c (s +:+ t)) = true). cbn.
  by destruct (ascii_dec c c).
Qed.

Lemma js_prefix_prefix n s : String.prefix (js_prefix n s) s = true.
Proof.
  unfold js_prefix. revert s. induction n as [|n IH]; intros [|c s]; try done. cbn.
  destruct (ascii_dec c c); [apply IH|done].
Qed.

(** The caption of a box with the name [s]. *)
Definition caption (s : string) : string :=
  if 18 <? js_length s then js_prefix 15 s +:+ "..." else s.

Lemma caption_nonempty s : s ≠ "" → String.eqb (caption s) "" = false.
Proof.
  intros Hs. apply String.eqb_neq. unfold caption. case_match; [|done].
  intros He%(f_equal js_length). rewrite js_length_app in He. unfold js_length in He.
  cbn -[Z.of_nat js_prefix] in He. lia.
Qed.

Lemma truncated_caption s :
  (if js_gt (js_len (JStr s)) (JNum 18)
   then js_plus (js_substring 15 (JStr s)) (JStr "...") else JStr s) = JStr (caption s).
Proof. unfold caption. cbn [js_gt js_len]. by destruct (18 <? js_length s). Qed.

(** ** Properties *)

(** Whatever the loads of the job list did so far, the tab shows the
    spinner while it loads, the error of a failed load, "no dependencies" when
    it is done and the graph has at most the job itself, and otherwise one
    drawing of the computed size, with a box per node and an arrow per edge.
    Two of the four show together only while a load follows a failed one. *)
Lemma diagram_panels (record : Job.t) (es : list (fetchEvent (list Job.t))) :
  let s := diagramRun es in
  ∃ ns eds v, graph_memo (Some record) (f_data s) = Some (ns, eds) ∧
    diagramView (Some record) s = Some v ∧
    let quiet := negb (f_loading s) && bool_decide (f_error s = None) in
    length (tagged "CircularProgress" v) = Nat.b2n (f_loading s) ∧
    ("Failed to load job dependencies" ∈ texts v ↔ f_error s ≠ None) ∧
    ("This job has no parent or dependent jobs." ∈ texts v ↔
      quiet = true ∧ (length ns ≤ 1)%nat) ∧
    tagged "svg" v = (if quiet && (1 <? length ns)%nat
      then [JObj [("width", JNum (svgWidth ns)); ("height", JNum (svgHeight ns));
              ("style", JObj [("display", JStr "block"); ("margin", JStr "0 auto")])]] else []) ∧
    (quiet = true → (1 < length ns)%nat →
      length (tagged "DiagramNode" v) = length ns ∧
      length (tagged "DiagramEdge" v) = length eds).
Proof.
  cbn zeta. destruct (graph_memo_total (Some record) (f_data (diagramRun es))) as (ns & eds & Hg).
  exists ns, eds. eexists. split; [exact Hg|]. unfold diagramView. rewrite Hg.
  split; [reflexivity|]. unfold DiagramTab. destruct (svg_size ns) as [-> ->].
  rewrite box_els_jmap. change (jmapi _ (JArr (edge_js <$> eds))) with (JArr (arrow_els eds)).
  assert (js_le (js_len (JArr (node_js <$> ns))) (JNum 1) = negb (1 <? length ns)%nat) as ->.
  { cbn [js_le js_len]. rewrite length_fmap.
    destruct (Nat.ltb_spec 1 (length ns)); cbn [negb]; [apply Z.leb_gt|apply Z.leb_le]; lia. }
  assert (length ns ≤ 1 ↔ negb (1 <? length ns) = true)%nat as ->.
  { destruct (Nat.ltb_spec 1 (length ns)); cbn; (split; [done || lia|lia || done]). }
  rewrite <-(Nat.ltb_lt 1 (length ns)).
  destruct (diagramRun_error es) as [-> | ->], (f_loading (diagramRun es)),
    (1 <? length ns)%nat; cbn; split_and!.
  all: try done. all: try set_solver.
  all: rewrite ?app_nil_r, ?texts_arrow_els, ?texts_box_els.
  - by rewrite length_app, tagged_arrow_els, tagged_box_els.
  - set_solver.
  - set_solver.
  - by rewrite (nil_length_inv _ (tagged_arrow_els "svg" eds)), tagged_box_els.
  - intros _ _. rewrite !length_app, !tagged_arrow_els, !tagged_box_els. cbn.
    rewrite length_fmap. lia.
Qed.

(** In the drawing, boxes have distinct React keys (the names of the jobs
    drawn), and so have the arrows. *)
Lemma diagram_keys (record : option Job.t) (jobs : list Job.t) :
  ∃ ns eds, graph_memo record jobs = Some (ns, eds) ∧
    keys_distinct (box_els ns) = true ∧ keys_distinct (arrow_els eds) = true ∧
    (key_of <$> box_els ns) = Some <$> (DependencyNode.id <$> ns).
Proof.
  destruct (graph_memo_total record jobs) as (ns & es & Hg). exists ns, es.
  split; [exact Hg|]. split_and!.
  - eapply keys_distinct_keys; [apply key_box_els|by eapply graph_memo_NoDup].
  - eapply keys_distinct_keys; [apply key_arrow_els|]. apply NoDup_imap_keys.
  - apply key_box_els.
Qed.

(** The box of a job shows its full display name as tooltip and, as
    caption, the same name, cut to 15 characters and "..." when it is longer
    than 18, so never more than 18 characters; then the status, and "(current
    job)" on the current box only. A click on any other box goes to its job. *)
Lemma DiagramNode_caption (n : DependencyNode.t) (onClick : jsval) :
  let name := if String.eqb (DependencyNode.displayName n) "" then DependencyNode.name n
              else DependencyNode.displayName n in
  let v := DiagramNode (JObj [("node", node_js n); ("onClick", onClick)]) in
  name ≠ "" →
  ∃ cap, texts v =
      [name; cap;
       if String.eqb (DependencyNode.status n) "" then "untriggered" else DependencyNode.status n]
      ++ (if DependencyNode.isCurrent n then ["(current job)"] else []) ∧
    js_length cap ≤ 18 ∧ (js_length name ≤ 18 → cap = name) ∧
    String.prefix (js_prefix 15 name) cap = true ∧
    (nodeClick n = None ↔ "(current job)" ∈ drop 3 (texts v)).
Proof.
  cbn zeta. set (name := if String.eqb _ _ then _ else _). intros Hname.
  exists (caption name).
  assert (texts (DiagramNode (JObj [("node", node_js n); ("onClick", onClick)])) =
    [name; caption name;
     if String.eqb (DependencyNode.status n) "" then "untriggered" else DependencyNode.status n]
    ++ (if DependencyNode.isCurrent n then ["(current job)"] else [])) as ->.
  { assert (js_or (jget "displayName" (node_js n)) (jget "name" (node_js n)) = JStr name) as Hn.
    { subst name. cbn. unfold js_or. cbn. by destruct (String.eqb _ ""). }
    unfold DiagramNode. change (jget "node" _) with (node_js n). cbn zeta.
    rewrite Hn, truncated_caption. apply String.eqb_neq in Hname as Hn'.
    unfold js_or. cbn -[caption]. rewrite caption_nonempty, Hn' by done.
    destruct (String.eqb (DependencyNode.status n) "") eqn:Hs, (DependencyNode.isCurrent n);
      cbn; by rewrite ?Hs. }
  split; [done|]. unfold caption. split_and!.
  - destruct (Z.ltb_spec 18 (js_length name)); [|lia]. rewrite js_length_app.
    pose proof (js_prefix_length 15 name). change (js_length "...") with 3. lia.
  - destruct (Z.ltb_spec 18 (js_length name)); [lia|done].
  - case_match; [apply prefix_app|apply js_prefix_prefix].
  - unfold nodeClick. cbn [drop app]. destruct (DependencyNode.isCurrent n); set_solver.
Qed.

Lemma DiagramNode_caption_witness :
  let n := DependencyNode.mk "a-job-with-a-long-name" "a-job-with-a-long-name"
    "a-job-with-a-long-name" "success" 0 30 0 false in
  ∃ cap, texts (DiagramNode (JObj [("node", node_js n); ("onClick", JUndef)])) =
      ["a-job-with-a-long-name"; cap; "success"] ∧ js_length cap ≤ 18.
Proof.
  destruct (DiagramNode_caption (DependencyNode.mk "a-job-with-a-long-name"
    "a-job-with-a-long-name" "a-job-with-a-long-name" "success" 0 30 0 false) JUndef)
    as (cap & Ht & Hl & _); [done|].
  exists cap. split; [exact Ht|exact Hl].
Defined.
