(* ===== verification/Api.v ===== *)
(** * Api: what the server answers the interface

    The data the Go server sends (src/dkron/job.go, src/dkron/execution.go), the
    selection of jobs of src/dkron/store.go, and the handlers of
    src/dkron/api.go and src/dkron/ui.go the interface depends on: the job list
    with its paging, the executions with their cut outputs, and the counters of
    the dashboard. A time is the text it is sent as. *)

From S2P Require Import Prelude GoCore JsCore View.

(** ** Jobs *)

Module GoJob.
(** [None] is a map, slice or nullable time without value; it is sent as
    [null]. [processors] and [executor_config] are sent as they are stored. *)
Record t := mk {
  id : string;
  name : string;
  displayname : string;
  timezone : string;
  schedule : string;
  owner : string;
  owner_email : string;
  success_count : Z;
  error_count : Z;
  last_success : option string;
  last_error : option string;
  disabled : bool;
  tags : option (list (string * string));
  metadata : option (list (string * string));
  retries : Z;
  dependent_jobs : option (list string);
  parent_job : string;
  processors : jsval;
  concurrency : string;
  executor : string;
  executor_config : jsval;
  status : string;
  next : string;
  ephemeral : bool;
  starts_at : option string;
  expires_at : option string;
}.
End GoJob.

Definition json_opt {A} (f : A → jsval) (o : option A) : jsval :=
  match o with Some a => f a | None => JNull end.
Definition json_strings (l : list string) : jsval := JArr (JStr <$> l).
Definition json_map (m : list (string * string)) : jsval := JObj (prod_map id JStr <$> m).

(** The JSON object of a job, by the [json] tags of the struct. *)
Definition job_json (j : GoJob.t) : jsval :=
  JObj
    [("id", JStr (GoJob.id j)); ("name", JStr (GoJob.name j));
     ("displayname", JStr (GoJob.displayname j)); ("timezone", JStr (GoJob.timezone j));
     ("schedule", JStr (GoJob.schedule j)); ("owner", JStr (GoJob.owner j));
     ("owner_email", JStr (GoJob.owner_email j));
     ("success_count", JNum (GoJob.success_count j));
     ("error_count", JNum (GoJob.error_count j));
     ("last_success", json_opt JStr (GoJob.last_success j));
     ("last_error", json_opt JStr (GoJob.last_error j));
     ("disabled", JBool (GoJob.disabled j));
     ("tags", json_opt json_map (GoJob.tags j));
     ("metadata", json_opt json_map (GoJob.metadata j));
     ("retries", JNum (GoJob.retries j));
     ("dependent_jobs", json_opt json_strings (GoJob.dependent_jobs j));
     ("parent_job", JStr (GoJob.parent_job j));
     ("processors", GoJob.processors j); ("concurrency", JStr (GoJob.concurrency j));
     ("executor", JStr (GoJob.executor j)); ("executor_config", GoJob.executor_config j);
     ("status", JStr (GoJob.status j)); ("next", JStr (GoJob.next j));
     ("ephemeral", JBool (GoJob.ephemeral j));
     ("starts_at", json_opt JStr (GoJob.starts_at j));
     ("expires_at", json_opt JStr (GoJob.expires_at j))].

(** ** Executions *)

Module Execution.
Record t := mk {
  id : string;
  job_name : string;
  started_at : string;
  finished_at : string;
  success : bool;
  output : string;
  node_name : string;
  group : Z;
  attempt : Z;
}.
End Execution.

(** A field tagged [omitempty]. *)
Definition omit_str (k s : string) : list (string * jsval) :=
  if String.eqb s "" then [] else [(k, JStr s)].
Definition omit_num (k : string) (z : Z) : list (string * jsval) :=
  if z =? 0 then [] else [(k, JNum z)].

Definition execution_json (e : Execution.t) : list (string * jsval) :=
  omit_str "id" (Execution.id e) ++ omit_str "job_name" (Execution.job_name e) ++
  [("started_at", JStr (Execution.started_at e)); ("finished_at", JStr (Execution.finished_at e));
   ("success", JBool (Execution.success e))] ++
  omit_str "output" (Execution.output e) ++ omit_str "node_name" (Execution.node_name e) ++
  omit_num "group" (Execution.group e) ++ omit_num "attempt" (Execution.attempt e).

Definition apiExecution (e : Execution.t) (truncated : bool) : jsval :=
  JObj (execution_json e ++ [("output_truncated", JBool truncated)]).

Definition with_output (o : string) (e : Execution.t) : Execution.t :=
  Execution.mk (Execution.id e) (Execution.job_name e) (Execution.started_at e)
    (Execution.finished_at e) (Execution.success e) o (Execution.node_name e)
    (Execution.group e) (Execution.attempt e).

(** One execution of the answer: with a limit, a longer output is cut to its
    last [limit] bytes. *)
Definition truncateOutput (limit : Z) (e : Execution.t) : jsval :=
  let size := js_length (Execution.output e) in
  if (-1 <? limit) && (limit <? size) then
    apiExecution (with_output
      (String.substring (Z.to_nat (size - limit)) (Z.to_nat limit) (Execution.output e)) e) true
  else apiExecution e false.

(** ** Selecting jobs *)

Module JobOptions.
Record t := mk {
  Metadata : list (string * string);
  Sort : string;
  Order : string;
  Query : string;
  Status : string;
  Disabled : string;
}.
End JobOptions.

(** [strings.Contains(s, q)] *)
Definition contains (s q : string) : bool :=
  match String.index 0 q s with Some _ => true | None => false end.

Definition jobHasMetadata (job : GoJob.t) (metadata : list (string * string)) : bool :=
  match GoJob.metadata job with
  | None | Some [] => false
  | Some m =>
      forallb (λ kv, match jm_get kv.1 m with Some v => String.eqb kv.2 v | None => false end)
        metadata
  end.

Definition jobMatches (o : JobOptions.t) (job : GoJob.t) : bool :=
  (bool_decide (JobOptions.Metadata o = []) || jobHasMetadata job (JobOptions.Metadata o)) &&
  (String.eqb (JobOptions.Query o) "" || contains (GoJob.name job) (JobOptions.Query o) ||
    contains (GoJob.displayname job) (JobOptions.Query o)) &&
  (String.eqb (JobOptions.Disabled o) "" ||
    String.eqb (FormatBool (GoJob.disabled job)) (JobOptions.Disabled o)) &&
  ((String.eqb (JobOptions.Status o) "untriggered" && String.eqb (GoJob.status job) "") ||
    (String.eqb (JobOptions.Status o) "" || String.eqb (GoJob.status job) (JobOptions.Status o))).

(** The fields the store keeps an index on, with the prefix of the keys the
    index holds. *)
Definition job_indexes : list (string * string) :=
  [("name", "jobs"); ("started_at", "executions"); ("finished_at", "executions");
   ("attempt", "executions"); ("displayname", "jobs"); ("schedule", "jobs");
   ("success_count", "jobs"); ("error_count", "jobs"); ("last_success", "jobs");
   ("last_error", "jobs"); ("next", "jobs")].

Definition has_index (field : string) : bool := bool_decide (field ∈ job_indexes.*1).

Section server.
(** What [tx.Ascend] and [tx.Descend] visit, in the order of an index, ascending
    or descending, each item decoded as a job: for an index on the jobs, the
    jobs of the store. *)
Variable scan : string → bool → list GoJob.t.

(** [None]: there is no such index, which is an error. The options of a [nil] argument are those
    of [default_options]. *)
Definition GetJobs (o : JobOptions.t) : option (list GoJob.t) :=
  if has_index (JobOptions.Sort o) then
    Some (List.filter (jobMatches o) (scan (JobOptions.Sort o) (String.eqb (JobOptions.Order o) "DESC")))
  else None.

Definition default_options : JobOptions.t := JobOptions.mk [] "name" "" "" "" "".

(** ** Handlers *)

Inductive answer : Type :=
  | Ok200 (total : Z) (body : list GoJob.t)
  | Status500
  | Panic.

(** [l[s:e]]; a bad range panics. *)
Definition go_slice {A} (s e : Z) (l : list A) : option (list A) :=
  if (0 <=? s) && (s <=? e) && (e <=? Z.of_nat (length l))
  then Some (take (Z.to_nat (e - s)) (drop (Z.to_nat s) l)) else None.

(** The query string of a request, [None] for a key that is not there. *)
Definition default_query (q : string → option string) (k d : string) : string := default d (q k).

Definition jobOptions_of (metadata : list (string * string)) (q : string → option string)
    : JobOptions.t :=
  let sort := default_query q "_sort" "id" in
  JobOptions.mk metadata (if String.eqb sort "id" then "name" else sort)
    (default_query q "_order" "ASC") (default_query q "q" "") (default_query q "status" "")
    (default_query q "disabled" "").

Definition jobsHandler (metadata : list (string * string)) (q : string → option string) : answer :=
  match GetJobs (jobOptions_of metadata q) with
  | None => Status500
  | Some jobs =>
      let n := Z.of_nat (length jobs) in
      let s := (Atoi (default_query q "_start" "0")).1 in
      let e := match q "_end" with
               | None => n
               | Some v => let e := (Atoi v).1 in if n <? e then n else e
               end in
      match go_slice s e jobs with
      | Some page => Ok200 n page
      | None => Panic
      end
  end.

(** The statuses the server gives a job: not set, success, running, failed and
    partially failed. *)
Definition statuses : list string := [""; "success"; "running"; "failed"; "partially_failed"].

(** The body of the loop over the jobs; the total, the successful, failed and
    untriggered ones. *)
Definition countStatus (c : Z * Z * Z * Z) (j : GoJob.t) : Z * Z * Z * Z :=
  let '(t, s, f, u) := c in
  if String.eqb (GoJob.status j) "success" then (t, s + 1, f, u)
  else if String.eqb (GoJob.status j) "failed" then (t, s, f + 1, u)
  else if String.eqb (GoJob.status j) "" then (t, s, f, u + 1) else (t, s, f, u).

Definition counters (jobs : list GoJob.t) : Z * Z * Z * Z :=
  fold_left countStatus jobs (Z.of_nat (length jobs), 0, 0, 0).

Definition uiCounters : Z * Z * Z * Z := counters (default [] (GetJobs default_options)).

End server.

(** ** Lemmas *)

Lemma jobOptions_of_ext metadata q q' :
  (∀ k, k ∈ ["_sort"; "_order"; "q"; "status"; "disabled"] → q k = q' k) →
  jobOptions_of metadata q = jobOptions_of metadata q'.
Proof. intros H. unfold jobOptions_of, default_query. rewrite !H; set_solver. Qed.

Lemma go_slice_Some {A} s e (l : list A) :
  0 ≤ s ≤ e → e ≤ Z.of_nat (length l) →
  go_slice s e l = Some (take (Z.to_nat (e - s)) (drop (Z.to_nat s) l)).
Proof. intros Hs He. unfold go_slice. by rewrite !(proj2 (Z.leb_le _ _)) by lia. Qed.

Lemma take_length_min {A} m (l : list A) : take (m `min` length l) l = take m l.
Proof.
  destruct (Nat.le_ge_cases m (length l)) as [Hm|Hm]; [by rewrite Nat.min_l|].
  by rewrite Nat.min_r, !take_ge by lia.
Qed.

(** Cutting a list in chunks loses nothing. *)
Lemma concat_chunks {A} (m k : nat) (l : list A) :
  (length l ≤ k * m)%nat →
  concat ((λ i, take m (drop (i * m) l)) <$> seq 0 k) = l.
Proof.
  revert l. induction k as [|k IH]; intros l Hl; [by destruct l; cbn in *; [|lia]|].
  change (seq 0 (S k)) with (0%nat :: seq 1 k). rewrite <-fmap_S_seq. cbn [fmap list_fmap concat].
  rewrite Nat.mul_0_l, drop_0. transitivity (take m l ++ drop m l); [|apply take_drop]. f_equal.
  rewrite <-list_fmap_compose. transitivity (concat ((λ i, take m (drop (i * m) (drop m l))) <$> seq 0 k));
    [|apply IH; rewrite length_drop; lia].
  f_equal. apply list_fmap_ext. intros _ i _. cbn. by rewrite drop_drop.
Qed.

Section requests.
Variables (scan : string → bool → list GoJob.t) (metadata : list (string * string))
  (q : string → option string).

(** The request for rows [s] to [e] of the list the other keys select. *)
Definition range_query (s e : Z) (k : string) : option string :=
  if String.eqb k "_start" then Some (pretty s)
  else if String.eqb k "_end" then Some (pretty e) else q k.

Lemma jobsHandler_range jobs s e :
  GetJobs scan (jobOptions_of metadata q) = Some jobs → Z.of_nat (length jobs) < 2 ^ 63 - 1 →
  0 ≤ s → 0 ≤ e →
  jobsHandler scan metadata (range_query s e) =
    match go_slice s (Z.min e (Z.of_nat (length jobs))) jobs with
    | Some page => Ok200 (Z.of_nat (length jobs)) page
    | None => Panic
    end.
Proof.
  intros Hj Hn Hs He. unfold jobsHandler.
  rewrite (jobOptions_of_ext metadata (range_query s e) q).
  2: { intros k Hk. unfold range_query.
       destruct (String.eqb_spec k "_start") as [->|]; [set_solver|].
       destruct (String.eqb_spec k "_end") as [->|]; [set_solver|done]. }
  rewrite Hj. unfold default_query, range_query. cbn -[pretty Atoi].
  unfold id. rewrite !Atoi_pretty by done. set (n := Z.of_nat (length jobs)) in *.
  assert ((if n <? Z.min e (2 ^ 63 - 1) then n else Z.min e (2 ^ 63 - 1)) = Z.min e n) as ->.
  { destruct (Z.ltb_spec n (Z.min e (2 ^ 63 - 1))); lia. }
  destruct (Z.leb_spec s (2 ^ 63 - 1)); [by rewrite Z.min_l|]. rewrite Z.min_r by lia.
  unfold go_slice. rewrite (proj2 (Z.leb_gt (2 ^ 63 - 1) _)), (proj2 (Z.leb_gt s _)) by lia.
  by rewrite !andb_false_r.
Qed.
End requests.

Lemma counters_run jobs t s f u :
  fold_left countStatus jobs (t, s, f, u) =
  (t, s + Z.of_nat (length (List.filter (λ j, String.eqb (GoJob.status j) "success") jobs)),
      f + Z.of_nat (length (List.filter (λ j, String.eqb (GoJob.status j) "failed") jobs)),
      u + Z.of_nat (length (List.filter (λ j, String.eqb (GoJob.status j) "") jobs))).
Proof.
  revert s f u. induction jobs as [|j jobs IH]; intros s f u; cbn -[Z.of_nat].
  - rewrite !Z.add_0_r. done.
  - destruct (String.eqb_spec (GoJob.status j) "success") as [He|Hne].
    { rewrite IH, He. cbn -[Z.of_nat]. rewrite !pair_equal_spec; lia. }
    destruct (String.eqb_spec (GoJob.status j) "failed") as [He|Hnf].
    { rewrite IH, He. cbn -[Z.of_nat]. rewrite !pair_equal_spec; lia. }
    destruct (String.eqb_spec (GoJob.status j) "") as [He|Hnu].
    { rewrite IH. cbn -[Z.of_nat]. rewrite !pair_equal_spec; lia. }
    apply IH.
Qed.

(** The jobs the status filter [st] lets through. *)
Definition listed_under (st : string) (j : GoJob.t) : bool :=
  (String.eqb st "untriggered" && String.eqb (GoJob.status j) "") ||
  (String.eqb st "" || String.eqb (GoJob.status j) st).

Lemma GetJobs_status scan o st :
  o = "" ∨ o = "ASC" →
  default [] (GetJobs scan (JobOptions.mk [] "name" o "" st "")) =
    List.filter (listed_under st) (scan "name" false).
Proof. by intros [-> | ->]. Qed.

(** The jobs the list shows with the status filter [st]. *)
Definition listed (scan : string → bool → list GoJob.t) (st : string) : list GoJob.t :=
  default [] (GetJobs scan (JobOptions.mk [] "name" "ASC" "" st "")).

Lemma listed_status scan st : listed scan st = List.filter (listed_under st) (scan "name" false).
Proof. by apply GetJobs_status; right. Qed.

Lemma listed_under_all jobs : List.filter (listed_under "") jobs = jobs.
Proof. unfold listed_under. cbn. induction jobs as [|j jobs IH]; [done|]. cbn. by rewrite IH. Qed.

Lemma listed_under_statuses st target jobs :
  Forall (λ j, GoJob.status j ∈ statuses) jobs →
  (st, target) ∈ [("success", "success"); ("failed", "failed"); ("untriggered", "")] →
  List.filter (λ j, String.eqb (GoJob.status j) target) jobs = List.filter (listed_under st) jobs.
Proof.
  intros Hst Ht. apply List.filter_ext_in. intros j Hj.
  rewrite <-list_elem_of_In in Hj. rewrite Forall_forall in Hst. specialize (Hst j Hj).
  unfold listed_under, statuses in *. rewrite !elem_of_cons, elem_of_nil in Ht.
  rewrite !elem_of_cons, elem_of_nil in Hst.
  destruct Ht as [[= -> ->]|[[= -> ->]|[[= -> ->]|[]]]];
    destruct Hst as [->|[->|[->|[->|[->|[]]]]]]; done.
Qed.

Lemma substring_all s : String.substring 0 (String.length s) s = s.
Proof. induction s as [|c s IH]; [done|]. cbn. by rewrite IH. Qed.

Lemma substring_suffix n s :
  (n ≤ String.length s)%nat →
  ∃ cut, s = cut +:+ String.substring n (String.length s - n) s ∧ String.length cut = n.
Proof.
  revert s. induction n as [|n IH]; intros s Hn.
  - exists "". rewrite Nat.sub_0_r, substring_all. done.
  - destruct s as [|c s]; cbn in Hn; [lia|]. destruct (IH s) as (cut & Hs & Hl); [lia|].
    exists (String c cut). cbn. split; [|by f_equal].
    change (String c cut +:+ ?x) with (String c (cut +:+ x)). by f_equal.
Qed.

Lemma execution_json_output e :
  own "output" (execution_json e) =
    if String.eqb (Execution.output e) "" then None else Some (JStr (Execution.output e)).
Proof.
  unfold execution_json, omit_str, omit_num. rewrite !own_app.
  by repeat (destruct (String.eqb _ ""); cbn); repeat (destruct (_ =? 0); cbn).
Qed.

Lemma execution_json_other o e k :
  k ≠ "output" → own k (execution_json (with_output o e)) = own k (execution_json e).
Proof.
  intros Hk. unfold execution_json, with_output. cbn [Execution.id Execution.job_name
    Execution.started_at Execution.finished_at Execution.success Execution.output
    Execution.node_name Execution.group Execution.attempt].
  rewrite !own_app.
  assert (∀ s, own k (omit_str "output" s) = None) as Ho.
  { intros s. unfold omit_str. destruct (String.eqb s ""); [done|].
    by apply own_single_ne. }
  by rewrite !Ho.
Qed.

Lemma apiExecution_output e b :
  match jget "output" (apiExecution e b) with JStr s => s | _ => "" end = Execution.output e.
Proof.
  unfold apiExecution. cbn [jget]. rewrite own_app. cbn -[execution_json].
  rewrite execution_json_output.
  by destruct (String.eqb_spec (Execution.output e) "") as [->|].
Qed.

Lemma apiExecution_truncated e b : jget "output_truncated" (apiExecution e b) = JBool b.
Proof. unfold apiExecution. cbn [jget]. by rewrite own_app. Qed.

Lemma uiCounters_lists scan :
  Forall (λ j, GoJob.status j ∈ statuses) (scan "name" false) →
  uiCounters scan =
    (Z.of_nat (length (listed scan "")), Z.of_nat (length (listed scan "success")),
     Z.of_nat (length (listed scan "failed")), Z.of_nat (length (listed scan "untriggered"))).
Proof.
  intros Hst. unfold uiCounters, default_options. rewrite GetJobs_status by auto.
  rewrite !listed_status, listed_under_all. unfold counters. rewrite counters_run, !Z.add_0_l.
  by rewrite (listed_under_statuses "success" "success" _ Hst),
    (listed_under_statuses "failed" "failed" _ Hst),
    (listed_under_statuses "untriggered" "" _ Hst) by set_solver.
Qed.

(** ** Properties *)

(** C39. Paging through the job list with any filter and page size the store
    can serve (and a list whose length is an integer): the pages, as the data provider asks for them, put together are
    the jobs selected, in order, each page carries their number as total, and
    none is longer than asked for. A page that starts beyond the last job (the
    list has shrunk meanwhile) makes the handler panic. *)
Theorem jobs_pages_tile scan metadata q (jobs : list GoJob.t) (perPage : Z) :
  GetJobs scan (jobOptions_of metadata q) = Some jobs → 0 < perPage →
  Z.of_nat (length jobs) < 2 ^ 63 - 1 →
  let n := Z.of_nat (length jobs) in
  let request p := jobsHandler scan metadata (range_query q ((p - 1) * perPage) (p * perPage)) in
  let pages := Z.to_nat ((n + perPage - 1) / perPage) in
  (∃ bodies, ((λ i, request (Z.of_nat i + 1)) <$> seq 0 pages) = Ok200 n <$> bodies ∧
     concat bodies = jobs ∧ Forall (λ b, Z.of_nat (length b) ≤ perPage) bodies) ∧
  (∀ p, 1 ≤ p → n < (p - 1) * perPage → request p = Panic).
Proof.
  intros Hj Hp Hb. cbn zeta. set (n := Z.of_nat (length jobs)) in *. split.
  - set (pages := Z.to_nat _).
    assert (∀ i, (i < pages)%nat → Z.of_nat i * perPage < n) as Hi.
    { intros i Hi. subst pages.
      assert (Z.of_nat i < (n + perPage - 1) / perPage) as Hlt by lia.
      apply Z.lt_le_pred in Hlt.
      pose proof (Z.mul_div_le (n + perPage - 1) perPage Hp). nia. }
    exists ((λ i, take (Z.to_nat perPage) (drop (i * Z.to_nat perPage) jobs)) <$> seq 0 pages).
    split_and!.
    + rewrite <-list_fmap_compose. apply list_fmap_ext. intros k i Hk.
      apply lookup_seq in Hk as [-> Hk]. cbn.
      specialize (Hi k Hk). rewrite (jobsHandler_range _ _ _ jobs) by (done || nia).
      fold n. rewrite go_slice_Some by nia. f_equal.
      replace (Z.to_nat ((Z.of_nat k + 1 - 1) * perPage)) with (k * Z.to_nat perPage)%nat by nia.
      rewrite <-(take_length_min (Z.to_nat perPage)). f_equal. rewrite length_drop. subst n. nia.
    + apply concat_chunks. subst pages.
      pose proof (Z.div_mod (n + perPage - 1) perPage ltac:(lia)).
      pose proof (Z.mod_pos_bound (n + perPage - 1) perPage Hp).
      pose proof (Z.div_pos (n + perPage - 1) perPage ltac:(lia) Hp). nia.
    + apply Forall_fmap, Forall_forall. intros i _. cbn. rewrite length_take. lia.
  - intros p Hp1 Hn. rewrite (jobsHandler_range _ _ _ jobs) by (done || nia). fold n.
    unfold go_slice. rewrite (proj2 (Z.leb_gt _ (Z.min _ n))) by lia. by rewrite andb_false_r.
Qed.

(** The counters the dashboard is served with: all jobs, and for each of
    the three statuses with a card the number of jobs the list selected by that
    card's filter holds. Jobs in any other status (running, partially failed)
    are in no card but the total. *)
Lemma counters_are_list_lengths scan :
  Forall (λ j, GoJob.status j ∈ statuses) (scan "name" false) →
  let jobs := scan "name" false in
  let '(total, successful, failed, untriggered) := uiCounters scan in
  total = Z.of_nat (length (listed scan "")) ∧
  successful = Z.of_nat (length (listed scan "success")) ∧
  failed = Z.of_nat (length (listed scan "failed")) ∧
  untriggered = Z.of_nat (length (listed scan "untriggered")) ∧
  total - (successful + failed + untriggered) =
    Z.of_nat (length (List.filter (λ j, negb (bool_decide
      (GoJob.status j ∈ ["success"; "failed"; ""]))) jobs)).
Proof.
  intros Hst. cbn zeta. rewrite (uiCounters_lists scan Hst). split_and!; [done..|].
  rewrite !listed_status, <-(listed_under_statuses "success" "success"),
    <-(listed_under_statuses "failed" "failed"), <-(listed_under_statuses "untriggered" "")
    by (done || set_solver).
  rewrite listed_under_all. generalize (scan "name" false) as jobs. intros jobs.
  induction jobs as [|j jobs IH]; [done|]. cbn -[Z.of_nat] in *.
  destruct (String.eqb_spec (GoJob.status j) "success") as [->|H1].
  { rewrite bool_decide_true by set_solver. cbn -[Z.of_nat]. lia. }
  destruct (String.eqb_spec (GoJob.status j) "failed") as [->|H2].
  { rewrite bool_decide_true by set_solver. cbn -[Z.of_nat]. lia. }
  destruct (String.eqb_spec (GoJob.status j) "") as [->|H3].
  { rewrite bool_decide_true by set_solver. cbn -[Z.of_nat]. lia. }
  rewrite bool_decide_false by set_solver. cbn -[Z.of_nat]. lia.
Qed.

(** With an output limit, each execution of the answer carries the end of
    its output, never more than the limit, and is flagged as truncated exactly
    when something was cut off; every other field is sent as it is. *)
Lemma truncateOutput_spec (limit : Z) (e : Execution.t) :
  0 ≤ limit →
  let v := truncateOutput limit e in
  let sent := match jget "output" v with JStr s => s | _ => "" end in
  js_length sent ≤ limit ∧
  (∃ cut, Execution.output e = cut +:+ sent ∧
     (jget "output_truncated" v = JBool true ↔ cut ≠ "")) ∧
  (∀ k, k ∉ ["output"; "output_truncated"] → jget k v = jget k (apiExecution e false)).
Proof.
  intros Hl. cbn zeta. unfold truncateOutput. set (size := js_length (Execution.output e)).
  destruct (Z.ltb_spec (-1) limit); [|lia].
  destruct (Z.ltb_spec limit size) as [Hlt|Hge]; cbn [andb].
  - destruct (substring_suffix (Z.to_nat (size - limit)) (Execution.output e))
      as (cut & Hcut & Hlen); [subst size; unfold js_length in *; lia|].
    replace (String.length (Execution.output e) - Z.to_nat (size - limit))%nat
      with (Z.to_nat limit) in Hcut by (subst size; unfold js_length in *; lia).
    rewrite apiExecution_output, apiExecution_truncated. cbn [Execution.output with_output].
    split_and!.
    + apply (f_equal js_length) in Hcut. fold size in Hcut. revert Hcut.
      generalize (String.substring (Z.to_nat (size - limit)) (Z.to_nat limit) (Execution.output e)).
      intros s Hs. rewrite js_length_app in Hs. unfold js_length in *. lia.
    + exists cut. split; [done|]. split; [|done]. intros _ ->. cbn in Hlen. lia.
    + intros k Hk. unfold apiExecution. cbn [jget]. rewrite !own_app.
      rewrite execution_json_other by set_solver. by rewrite !own_single_ne by set_solver.
  - rewrite apiExecution_output, apiExecution_truncated. split_and!; [done| |done].
    exists "". split; [done|]. split; [done|]. by intros [].
Qed.

Lemma jobs_pages_tile_witness :
  let job n := GoJob.mk n n "" "" "@hourly" "" "" 0 0 None None false None None 0 None "" JNull
    "allow" "shell" JNull "" "" false None None in
  let scan (_ : string) (_ : bool) := [job "a"; job "b"; job "c"] in
  ∃ bodies, ((λ i, jobsHandler scan [] (range_query (λ _, None) ((Z.of_nat i + 1 - 1) * 2)
      ((Z.of_nat i + 1) * 2))) <$> seq 0 2) = Ok200 3 <$> bodies ∧
    concat bodies = [job "a"; job "b"; job "c"] ∧ Forall (λ b, Z.of_nat (length b) ≤ 2) bodies.
Proof.
  intros job scan.
  exact (proj1 (jobs_pages_tile scan [] (λ _, None) [job "a"; job "b"; job "c"] 2 eq_refl eq_refl eq_refl)).
Defined.

Lemma counters_are_list_lengths_witness :
  let job n st := GoJob.mk n n "" "" "@hourly" "" "" 0 0 None None false None None 0 None "" JNull
    "allow" "shell" JNull st "" false None None in
  let scan (_ : string) (_ : bool) := [job "a" "success"; job "b" ""; job "c" "partially_failed"] in
  Forall (λ j, GoJob.status j ∈ statuses) (scan "name" false) ∧
  (let '(total, successful, failed, untriggered) := uiCounters scan in
   total - (successful + failed + untriggered) = 1).
Proof.
  intros job scan.
  assert (Forall (λ j, GoJob.status j ∈ statuses) (scan "name" false)) as Hst.
  { repeat constructor. }
  split; [exact Hst|].
  refine (proj2 (proj2 (proj2 (proj2 (counters_are_list_lengths scan Hst))))).
Defined.

Lemma truncateOutput_spec_witness :
  let e := Execution.mk "e1" "job" "" "" true "head tail" "node" 1 1 in
  jget "output" (truncateOutput 4 e) = JStr "tail" ∧
  jget "id" (truncateOutput 4 e) = JStr "e1".
Proof.
  split; [reflexivity|].
  refine (proj2 (proj2 (truncateOutput_spec 4
    (Execution.mk "e1" "job" "" "" true "head tail" "node" 1 1) _)) "id" _); [lia|].
  by vm_compute; intros H; repeat (apply elem_of_cons in H as [H|H]; [discriminate H|]);
    apply elem_of_nil in H.
Defined.
