(* ===== verification/JobJson.v ===== *)
(** * JobJson: a job on its way to the interface and back

    The JSON of the struct of src/dkron/job.go: what the server sends for a job of
    its store (Jobs, NullTime), as the object the pages are given (Api); and how
    jobCreateOrUpdateHandler of src/dkron/api.go reads the object a form sends
    (package encoding/json).  The theorem: a job that is opened and saved is
    unchanged. *)

From S2P Require Import Prelude GoCore GoText NullTime JsCore Jobs Store Fsm Runs Scheduler Server View Api.

(** ** Sending *)

(** The text of a time, when its year has four digits. *)
Definition time_text (t : time) : option string :=
  match Marshal_time t with Some (Quoted text) => Some text | _ => None end.

Definition nullable_text (t : option time) : option (option string) :=
  match t with
  | None => Some None
  | Some t => let? text := time_text t in Some (Some text)
  end.

(** An empty map or list of a stored job is [nil]. *)
Definition sent_map (m : Config) : option (list (string * string)) :=
  if bool_decide (m = ∅) then None else Some (ascend m).
Definition sent_list (l : list string) : option (list string) :=
  match l with [] => None | _ => Some l end.

Definition map_json (m : Config) : jsval := json_opt json_map (sent_map m).

(** [None]: a time cannot be written. *)
Definition sent_job (j : Job.t) : option GoJob.t :=
  let? last_success := nullable_text (Job.LastSuccess j) in
  let? last_error := nullable_text (Job.LastError j) in
  let? next := time_text (Job.Next j) in
  let? starts_at := nullable_text (Job.StartsAt j) in
  let? expires_at := nullable_text (Job.ExpiresAt j) in
  Some (GoJob.mk (Job.ID j) (Job.Name j) (Job.DisplayName j) (Job.Timezone j) (Job.Schedule j)
    (Job.Owner j) (Job.OwnerEmail j) (Job.SuccessCount j) (Job.ErrorCount j) last_success last_error
    (Job.Disabled j) (sent_map (Job.Tags j)) (sent_map (Job.Metadata j)) (Job.Retries j)
    (sent_list (Job.DependentJobs j)) (Job.ParentJob j)
    (JObj (prod_map (λ k : string, k) map_json <$> ascend (Job.Processors j)))
    (Job.Concurrency j) (Job.Executor j) (map_json (Job.ExecutorConfig j)) (Job.Status j) next
    (Job.Ephemeral j) starts_at expires_at).

(** ** Reading *)

(** The tags of the struct. *)
Definition job_tags : list string :=
  ["id"; "name"; "displayname"; "timezone"; "schedule"; "owner"; "owner_email"; "success_count"; "error_count";
   "last_success"; "last_error"; "disabled"; "tags"; "metadata"; "retries"; "dependent_jobs"; "parent_job";
   "processors"; "concurrency"; "executor"; "executor_config"; "status"; "next"; "ephemeral"; "starts_at"; "expires_at"].

(** A key stands for the field with that tag; if there is none, for the one it is
    equal to but for case. *)
Definition stands_for (key tag : string) : bool :=
  if existsb (String.eqb key) job_tags then String.eqb key tag else EqualFoldWord key tag.

Section decode.
Context {A : Type}.
(** A decoder of the values of a type: [None] is an error; the current value is
    given to it. *)
Variable decode : jsval → A → option A.

(** The members of an object one after another. *)
Fixpoint decode_field (tag : string) (fs : list (string * jsval)) (cur : A) : option A :=
  match fs with
  | [] => Some cur
  | (k, v) :: fs =>
      if stands_for k tag then let? cur := decode v cur in decode_field tag fs cur
      else decode_field tag fs cur
  end.

Fixpoint decode_elems (zero : A) (vs : list jsval) : option (list A) :=
  match vs with
  | [] => Some []
  | v :: vs =>
      let? a := decode v zero in
      let? l := decode_elems zero vs in
      Some (a :: l)
  end.

Fixpoint decode_members (zero : A) (fs : list (string * jsval)) (m : gmap string A) : option (gmap string A) :=
  match fs with
  | [] => Some m
  | (k, v) :: fs =>
      let? a := decode v zero in
      decode_members zero fs (<[k := a]> m)
  end.
End decode.

(** [null] leaves a value as it is. *)
Definition decode_string (v : jsval) (cur : string) : option string :=
  match v with JStr s => Some s | JNull => Some cur | _ => None end.
Definition decode_bool (v : jsval) (cur : bool) : option bool :=
  match v with JBool b => Some b | JNull => Some cur | _ => None end.
Definition decode_int (lo hi : Z) (v : jsval) (cur : Z) : option Z :=
  match v with
  | JNum z => if within lo hi z then Some z else None
  | JNull => Some cur
  | _ => None
  end.
(** [null] is no map, or no list. *)
Definition decode_map {A} (decode : jsval → A → option A) (zero : A) (v : jsval) (cur : gmap string A)
    : option (gmap string A) :=
  match v with
  | JObj fs => decode_members decode zero fs cur
  | JNull => Some ∅
  | _ => None
  end.
Definition decode_strings (v : jsval) (_ : list string) : option (list string) :=
  match v with
  | JArr vs => decode_elems decode_string "" vs
  | JNull => Some []
  | _ => None
  end.
Definition decode_config : jsval → Config → option Config := decode_map decode_string "".

(** The text between quotes. *)
Fixpoint escape (s : string) : string :=
  match s with
  | EmptyString => EmptyString
  | String c s =>
      if Ascii.eqb c "034" || Ascii.eqb c "092" then String "092" (String c (escape s)) else String c (escape s)
  end.
Definition data_of (v : jsval) : json_data :=
  match v with JNull => Null | JStr s => Quoted (escape s) | _ => Other end.

Definition decode_time (v : jsval) (cur : time) : option time :=
  let (t, ok) := Unmarshal_time (data_of v) cur in if ok then Some t else None.
Definition decode_nullable (v : jsval) (cur : NullableTime.t) : option NullableTime.t :=
  let (t, ok) := NullableTime.UnmarshalJSON (data_of v) cur in if ok then Some t else None.

Definition int_min : Z := - 2 ^ 63.
Definition int_max : Z := 2 ^ 63 - 1.
Definition uint_max : Z := 2 ^ 64 - 1.

(** [c.BindJSON(&job)] on the job with its default; [None] is the answer 400. *)
Definition BindJSON (v : jsval) : option Job.t :=
  match v with
  | JObj fs =>
      let str tag := decode_field decode_string tag fs in
      let? id := str "id" "" in
      let? name := str "name" "" in
      let? displayname := str "displayname" "" in
      let? timezone := str "timezone" "" in
      let? schedule := str "schedule" "" in
      let? owner := str "owner" "" in
      let? owner_email := str "owner_email" "" in
      let? success_count := decode_field (decode_int int_min int_max) "success_count" fs 0 in
      let? error_count := decode_field (decode_int int_min int_max) "error_count" fs 0 in
      let? last_success := decode_field decode_nullable "last_success" fs NullableTime.none in
      let? last_error := decode_field decode_nullable "last_error" fs NullableTime.none in
      let? disabled := decode_field decode_bool "disabled" fs false in
      let? tags := decode_field decode_config "tags" fs ∅ in
      let? metadata := decode_field decode_config "metadata" fs ∅ in
      let? retries := decode_field (decode_int 0 uint_max) "retries" fs 0 in
      let? dependent_jobs := decode_field decode_strings "dependent_jobs" fs [] in
      let? parent_job := str "parent_job" "" in
      let? processors := decode_field (decode_map decode_config ∅) "processors" fs ∅ in
      let? concurrency := str "concurrency" "allow" in
      let? executor := str "executor" "" in
      let? executor_config := decode_field decode_config "executor_config" fs ∅ in
      let? status := str "status" "" in
      let? next := decode_field decode_time "next" fs zero_time in
      let? ephemeral := decode_field decode_bool "ephemeral" fs false in
      let? starts_at := decode_field decode_nullable "starts_at" fs NullableTime.none in
      let? expires_at := decode_field decode_nullable "expires_at" fs NullableTime.none in
      Some (Job.mk id name displayname timezone schedule owner owner_email success_count error_count
        (NullableTime.Get last_success) (NullableTime.Get last_error) disabled tags metadata retries
        dependent_jobs parent_job processors concurrency executor executor_config status next ephemeral
        (NullableTime.Get starts_at) (NullableTime.Get expires_at))
  | JNull => Some (Job.mk "" "" "" "" "" "" "" 0 0 None None false ∅ ∅ 0 [] "" ∅ "allow" "" ∅ "" zero_time false None None)
  | _ => None
  end.

Section handler.
Context `{Env, Engine}.
Variable sortByStart : list Exec.t → list Exec.t.

(** What the edit form sends, handled. *)
Definition handle_PUT (now : time) (body : jsval) (s : Server.t) : option (Server.t * Z) :=
  if Server.pauseNewJobs s then Some (s, 503) else
  match BindJSON body with
  | None => Some (s, 400)
  | Some job => jobCreateOrUpdateHandler sortByStart now job s
  end.

(** [jobGetHandler]: [None] when there is no such job. *)
Definition jobGetHandler (jobName : string) (s : Server.t) : option Job.t := GetJob jobName (Server.db s).
End handler.

(** ** Lemmas *)

Lemma fold_insert_map {A} (m : gmap string A) :
  fold_left (λ m kv, <[kv.1 := kv.2]> m) (ascend m) ∅ = m.
Proof.
  assert (∀ (l : list (string * A)), fold_left (λ m kv, <[kv.1 := kv.2]> m) l (∅ : gmap string A) = list_to_map (reverse l)) as H.
  { intros l. rewrite <- (reverse_involutive l) at 1. generalize (reverse l). clear l.
    induction l as [|[k a] l IH]; [done|].
    rewrite reverse_cons, fold_left_app, IH. done. }
  rewrite H. assert (reverse (ascend m) ≡ₚ map_to_list m) as Hp
    by (by rewrite reverse_Permutation, ascend_Permutation).
  rewrite <- (list_to_map_to_list m) at 2. symmetry. apply list_to_map_proper; [apply NoDup_fst_map_to_list|done].
Qed.

Lemma decode_members_sent {A} decode (f : A → jsval) zero l m :
  (∀ a, decode (f a) zero = Some a) →
  decode_members decode zero (prod_map (λ k : string, k) f <$> l) m = Some (fold_left (λ m kv, <[kv.1 := kv.2]> m) l m).
Proof.
  intros Hd. revert m. induction l as [|[k a] l IH]; intros m; [done|]. cbn. by rewrite Hd, IH.
Qed.

Lemma decode_config_sent m cur : cur = ∅ → decode_config (map_json m) cur = Some m.
Proof.
  intros ->. unfold map_json, sent_map. case_bool_decide as E; [by subst|].
  cbn [json_opt json_map decode_config decode_map]. unfold decode_config, decode_map, json_map.
  rewrite (decode_members_sent decode_string JStr) by done. apply (f_equal Some), fold_insert_map.
Qed.

Lemma decode_strings_sent l cur : decode_strings (json_opt json_strings (sent_list l)) cur = Some l.
Proof.
  destruct l as [|s l]; [done|]. cbn [sent_list json_opt json_strings decode_strings]. unfold json_strings.
  generalize (s :: l). clear. induction l as [|s l IH]; [done|]. cbn. by rewrite IH.
Qed.

Lemma decode_processors_sent m :
  decode_map decode_config ∅ (JObj (prod_map (λ k : string, k) map_json <$> ascend m)) ∅ = Some m.
Proof.
  cbn [decode_map]. rewrite (decode_members_sent decode_config map_json); [apply (f_equal Some), fold_insert_map|].
  intros a. by apply decode_config_sent.
Qed.

Lemma escape_plain s : ContainsChar s "034" = false → ContainsChar s "092" = false → escape s = s.
Proof.
  induction s as [|c s IH]; [done|]. cbn [ContainsChar escape].
  intros [H1 H2]%orb_false_elim [H3 H4]%orb_false_elim. by rewrite H1, H3, IH.
Qed.

Lemma time_text_read t text : time_text t = Some text →
  data_of (JStr text) = Quoted text ∧ parse_RFC3339 text = Some t.
Proof.
  unfold time_text, Marshal_time. destruct (within 0 9999 _) eqn:Hy; [|done]. intros [= <-].
  unfold within in Hy. split; [|apply parse_format; lia].
  cbn [data_of]. by rewrite escape_plain by (by apply format_absent).
Qed.

Lemma decode_time_sent t text cur : time_text t = Some text → decode_time (JStr text) cur = Some t.
Proof. intros [Hd Hp]%time_text_read. unfold decode_time. rewrite Hd. cbn. by rewrite Hp. Qed.

Lemma decode_nullable_sent t text : nullable_text t = Some text →
  ∃ v, decode_nullable (json_opt JStr text) NullableTime.none = Some v ∧ NullableTime.Get v = t.
Proof.
  destruct t as [t|]; cbn; [|intros [= <-]; by eexists].
  destruct (time_text t) as [s|] eqn:Ht; [|done]. intros [= <-]. apply time_text_read in Ht as [Hd Hp].
  unfold decode_nullable. cbn [json_opt]. rewrite Hd. cbn. rewrite Hp. by eexists.
Qed.

Lemma decode_int_same lo hi z cur : lo ≤ z ≤ hi → decode_int lo hi (JNum z) cur = Some z.
Proof. intros Hz. cbn. unfold within. by rewrite (proj2 (Z.leb_le _ _)), (proj2 (Z.leb_le _ _)) by lia. Qed.

(** Every tag of the struct is a key of what is sent, once. *)
Lemma decode_sent_field {A} (decode : jsval → A → option A) tag v g cur :
  own tag (fields (job_json g)) = Some v → tag ∈ job_tags →
  decode_field decode tag (fields (job_json g)) cur = decode v cur.
Proof.
  intros Hv Htag. cbn in Htag. cbn [job_json fields] in *.
  repeat (apply elem_of_cons in Htag as [->|Htag];
    [cbn in Hv; injection Hv as <-; cbn; by destruct (decode _ cur)|]). by apply elem_of_nil in Htag.
Qed.

Ltac sent_field :=
  erewrite decode_sent_field; [|reflexivity|apply (bool_decide_unpack _); vm_compute; exact I].

(** The numbers of a job are those of its type. *)
Definition sized (j : Job.t) : Prop :=
  int_min ≤ Job.SuccessCount j ≤ int_max ∧ int_min ≤ Job.ErrorCount j ≤ int_max ∧ 0 ≤ Job.Retries j ≤ uint_max.

(** The object of a job is read as that job. *)
Lemma BindJSON_sent j g : sized j → sent_job j = Some g → BindJSON (job_json g) = Some j.
Proof.
  intros (Hs & He & Hr). unfold sent_job.
  destruct (nullable_text (Job.LastSuccess j)) as [ls|] eqn:Hls; [|done].
  destruct (nullable_text (Job.LastError j)) as [le|] eqn:Hle; [|done].
  destruct (time_text (Job.Next j)) as [next|] eqn:Hn; [|done].
  destruct (nullable_text (Job.StartsAt j)) as [st|] eqn:Hst; [|done].
  destruct (nullable_text (Job.ExpiresAt j)) as [ex|] eqn:Hex; [|done]. intros [= <-].
  apply decode_nullable_sent in Hls as (vls & Dls & Gls), Hle as (vle & Dle & Gle),
    Hst as (vst & Dst & Gst), Hex as (vex & Dex & Gex).
  set (g := GoJob.mk _ _ _ _ _ _ _ _ _ _ _ _ _ _ _ _ _ _ _ _ _ _ _ _ _ _).
  change (job_json g) with (JObj (fields (job_json g))). cbn [BindJSON].
  repeat sent_field. subst g. unfold decode_string, decode_bool.
  cbn -[decode_int decode_nullable decode_time decode_config decode_strings decode_map map_json json_opt
    json_strings int_min int_max uint_max sent_map sent_list].
  change (json_opt json_map (sent_map ?m)) with (map_json m).
  rewrite !decode_int_same, Dls, Dle, !decode_config_sent, decode_strings_sent, decode_processors_sent by done.
  rewrite (decode_time_sent (Job.Next j)), Dst, Dex by done. cbn. rewrite Gls, Gle, Gst, Gex. by destruct j.
Qed.

Section save.
Context `{Env, Engine, !EngineLaws, !TimezoneLaw}.
Variable sortByStart : list Exec.t → list Exec.t.

(** A stored job set again is stored, and stays as it is but for its next run. *)
Lemma handler_again now n j s : server_ok sortByStart s → Server.pauseNewJobs s = false →
  GetJob n (Server.db s) = Some j →
  ∃ s', jobCreateOrUpdateHandler sortByStart now j s = Some (s', 201) ∧
    configs (Server.db s') = configs (Server.db s).
Proof.
  intros Hs Hp (p & Hj & ->)%GetJob_Some. destruct (reachable_ok _ _ (proj1 Hs)) as [Hdb Hl].
  pose proof (ok_valid _ Hdb _ _ Hj) as Hv. pose proof (ok_stored _ Hdb _ _ Hj) as Hst.
  unfold jobCreateOrUpdateHandler. rewrite Hp, Hv.
  destruct (grpc_SetJob_spec sortByStart now (ToProto (NewJobFromProto p)) s Hs) as (s' & err & -> & _ & _ & Herr).
  - apply ToProto_uint32.
  - by rewrite NewJobFromProto_ToProto.
  - rewrite NewJobFromProto_ToProto in Herr by done. destruct err as [err|].
    + destruct Herr as (_ & _ & Hne & Hnone).
      destruct (children_listed_parents_stored _ Hl _ _ Hj Hne) as [q Hq]. congruence.
    + exists s'. split; [done|]. rewrite Herr. apply insert_id. rewrite (ok_keyed _ Hdb _ _ Hj).
      by apply lookup_configs.
Qed.

Lemma stored_sized p : stored p → sized (NewJobFromProto p).
Proof.
  intros (Hs & He & Hr & _). unfold sized, int_min, int_max, uint_max, in_int32, in_uint32 in *. cbn. lia.
Qed.

(** ** Properties *)

(** C34. A job that is opened in the interface and saved without a change is
    unchanged: whatever the leader has seen, the object it sends for a stored job
    is read as that job again, and storing it is answered with 201 and leaves the
    configurations of all jobs as they were. *)
Theorem edit_keeps_job now s n j g :
  served sortByStart s → Server.pauseNewJobs s = false →
  jobGetHandler n s = Some j → sent_job j = Some g →
  BindJSON (job_json g) = Some j ∧
  ∃ s', handle_PUT sortByStart now (job_json g) s = Some (s', 201) ∧
    configs (Server.db s') = configs (Server.db s).
Proof.
  intros Hs%served_ok Hp Hj Hg.
  assert (BindJSON (job_json g) = Some j) as Hread.
  { destruct (GetJob_Some _ _ _ Hj) as (p & Hl & ->). apply BindJSON_sent; [|done]. apply stored_sized.
    destruct (reachable_ok _ _ (proj1 Hs)) as [Hdb _]. by eapply ok_stored. }
  split; [done|]. unfold handle_PUT. rewrite Hp, Hread. by apply handler_again with n.
Qed.
End save.

(** ** Examples *)

Section demo.
#[local] Existing Instance demo_env.
#[local] Existing Instance demo_timezone.

Lemma edit_keeps_job_witness :
  ∃ j g, jobGetHandler "b" demo_two = Some j ∧ sent_job j = Some g ∧ GoJob.parent_job g = "a" ∧
    BindJSON (job_json g) = Some j.
Proof.
  assert (match jobGetHandler "b" demo_two with
    | Some j => match sent_job j with Some g => GoJob.parent_job g = "a" | None => False end
    | None => False
    end) as Hsent by (vm_compute; reflexivity).
  assert (Server.pauseNewJobs demo_two = false) as Hpause by (vm_compute; reflexivity).
  destruct (jobGetHandler "b" demo_two) as [j|] eqn:Hj; [|contradiction].
  destruct (sent_job j) as [g|] eqn:Hg; [|contradiction]. exists j, g.
  split; [exact eq_refl|]. split; [exact Hg|]. split; [exact Hsent|].
  exact (proj1 (edit_keeps_job no_sort 5 demo_two "b" j g (proj1 (proj2 served_demo)) Hpause Hj Hg)).
Defined.

(** A form that leaves the default out keeps it; another case of a key is read. *)
Example BindJSON_examples :
  (Job.Concurrency <$> BindJSON (JObj [("name", JStr "a")])) = Some "allow" ∧
  (Job.Name <$> BindJSON (JObj [("NAME", JStr "a"); ("unknown", JNum 1)])) = Some "a" ∧
  BindJSON (JObj [("retries", JNum (-1))]) = None ∧
  (Job.StartsAt <$> BindJSON (JObj [("starts_at", JStr "1970-01-01T00:01")])) = Some (Some 60000000000) ∧
  BindJSON (JObj [("starts_at", JStr "")]) = None.
Proof. by vm_compute. Qed.
End demo.
