(* ===== verification/JobViews.v ===== *)
(** * JobViews: the pages of jobs, running executions and nodes

    The element trees of src/ui/src/jobs/JobShow.tsx, JobList.tsx, JobEdit.tsx,
    src/ui/src/executions/BusyList.tsx and src/ui/src/nodes/NodeList.tsx, one
    Module per file, and what they ask of the server's data: every sortable column is
    one it can sort by, and the executions tab shows what it sends of one. *)

From S2P Require Import Prelude JsCore View DataProvider Fields Api.

Module JobShowPage.

Definition JobShowActions (props : jsval) : jsval :=
  let data_ := jget "data" props in
  JEl "TopToolbar" [("sx", JObj [("gap", JNum 1); ("mt", JNum 2); ("mb", JNum 1)])]
    [JEl "RunButton" [] [];
     JEl "ToggleButton" [] [];
     JEl "EditButton" [("record", data_)] []].

Definition SectionHeader (props : jsval) : jsval :=
  let Icon := jget "icon" props in
  let title := jget "title" props in
  JEl "Box"
    [("sx", JObj
         [("display", JStr "flex");
          ("alignItems", JStr "center");
          ("gap", JDec 15 1);
          ("mb", JNum 2);
          ("pb", JNum 1);
          ("borderBottom", JStr "1px solid");
          ("borderColor", JStr "divider")])]
    [JEl "Box"
       [("sx", JObj
            [("width", JNum 36);
             ("height", JNum 36);
             ("borderRadius", JDec 15 1);
             ("background", JStr "linear-gradient(135deg, #3182ce 0%, #2c5282 100%)");
             ("display", JStr "flex");
             ("alignItems", JStr "center");
             ("justifyContent", JStr "center");
             ("color", JStr "white")])]
       [JEl (fname Icon) [("fontSize", JStr "small")] []];
     JEl "Typography"
       [("variant", JStr "h6");
        ("sx", JObj [("fontWeight", JNum 600); ("color", JStr "text.primary")])]
       [title]].

Definition JobHeader (record : jsval) : jsval :=
  if negb (truthy record) then
    JNull
  else
  JEl "Box" [("sx", JObj [("mb", JNum 3)])]
    [JEl "Box"
       [("sx", JObj
            [("display", JStr "flex");
             ("alignItems", JStr "center");
             ("gap", JNum 2);
             ("mb", JNum 1)])]
       [JEl "Box"
          [("sx", JObj
               [("width", JNum 48);
                ("height", JNum 48);
                ("borderRadius", JNum 2);
                ("background", JStr "linear-gradient(135deg, #1a365d 0%, #2c5282 100%)");
                ("display", JStr "flex");
                ("alignItems", JStr "center");
                ("justifyContent", JStr "center");
                ("color", JStr "white");
                ("boxShadow", JStr "0 4px 6px -1px rgba(26, 54, 93, 0.2)")])]
          [JEl "JobIcon" [] []];
        JEl "Box" []
          [JEl "Typography"
             [("variant", JStr "h5");
              ("sx", JObj [("fontWeight", JNum 600); ("color", JStr "text.primary")])]
             [js_or (jget "displayname" record) (jget "name" record)];
           JEl "Typography"
             [("variant", JStr "body2"); ("sx", JObj [("color", JStr "text.secondary")])]
             [jget "schedule" record;
              JStr " ";
              js_and
                (jget "timezone" record)
                (JStr ("(" +:+ js_String (jget "timezone" record) +:+ ")"))]];
        JEl "Box" [("sx", JObj [("ml", JStr "auto")])] [JEl "StatusChip" [] []]]].

Definition FieldGroup (props : jsval) : jsval :=
  let children := jget "children" props in
  JEl "Box"
    [("sx", JObj
         [("display", JStr "grid");
          ("gridTemplateColumns", JObj [("xs", JStr "1fr"); ("sm", JStr "1fr 1fr"); ("md", JStr "1fr 1fr 1fr")]);
          ("gap", JNum 2);
          ("& .RaLabeled-label", JObj
              [("fontSize", JStr "0.75rem");
               ("fontWeight", JNum 600);
               ("textTransform", JStr "uppercase");
               ("letterSpacing", JStr "0.05em");
               ("color", JStr "text.secondary")])])]
    [children].

Definition StyledJsonField (props : jsval) : jsval :=
  let source := jget "source" props in
  let label := jget "label" props in
  JEl "Box" [("sx", JObj [("mt", JNum 2)])]
    [JEl "Labeled" [("label", js_or label source)]
       [JEl "JsonField"
          [("source", source);
           ("reactJsonOptions", JObj
               [("name", JNull);
                ("collapsed", JBool false);
                ("enableClipboard", JBool true);
                ("displayDataTypes", JBool false);
                ("style", JObj
                    [("backgroundColor", JStr "#f7fafc");
                     ("padding", JStr "12px");
                     ("borderRadius", JStr "8px")])])]
          []]].

Definition JobShow (props : jsval) : jsval :=
  JEl "Show"
    ([("actions", JEl "JobShowActions" (fields props) [])]
     ++ fields props
     ++ [("sx", JObj [("& .RaShow-main", JObj [("p", JObj [("xs", JNum 2); ("md", JNum 3)])])])])
    [JEl "JobHeader" [] [];
     JEl "TabbedShowLayout"
       [("sx", JObj [("& .RaTabbedShowLayout-content", JObj [("p", JNum 0); ("pt", JNum 3)])])]
       [JEl "Tab" [("label", JStr "Summary"); ("icon", JEl "JobIcon" [] [])]
          [JEl "Card" [("sx", JObj [("mb", JNum 3)])]
             [JEl "CardContent" []
                [JEl "SectionHeader"
                   [("icon", JFun "ScheduleIcon"); ("title", JStr "Schedule Information")]
                   [];
                 JEl "FieldGroup" []
                   [JEl "Labeled" [("label", JStr "Name")] [JEl "TextField" [("source", JStr "name")] []];
                    JEl "Labeled" [("label", JStr "Display Name")]
                      [JEl "TextField" [("source", JStr "displayname"); ("emptyText", JStr "-")] []];
                    JEl "Labeled" [("label", JStr "Group")]
                      [JEl "TextField" [("source", JStr "metadata.group"); ("emptyText", JStr "-")] []];
                    JEl "Labeled" [("label", JStr "Timezone")]
                      [JEl "TextField" [("source", JStr "timezone"); ("emptyText", JStr "UTC")] []];
                    JEl "Labeled" [("label", JStr "Schedule")]
                      [JEl "TextField" [("source", JStr "schedule")] []];
                    JEl "Labeled" [("label", JStr "Next Run")]
                      [JEl "DateField" [("source", JStr "next"); ("showTime", JBool true)] []];
                    JEl "Labeled" [("label", JStr "Status")] [JEl "StatusChip" [] []]]]];
           JEl "Card" [("sx", JObj [("mb", JNum 3)])]
             [JEl "CardContent" []
                [JEl "SectionHeader"
                   [("icon", JFun "PlaylistPlayIcon"); ("title", JStr "Execution History")]
                   [];
                 JEl "FieldGroup" []
                   [JEl "Labeled" [("label", JStr "Last Success")]
                      [JEl "DateField"
                         [("source", JStr "last_success");
                          ("showTime", JBool true);
                          ("emptyText", JStr "Never")]
                         []];
                    JEl "Labeled" [("label", JStr "Last Error")]
                      [JEl "DateField"
                         [("source", JStr "last_error");
                          ("showTime", JBool true);
                          ("emptyText", JStr "Never")]
                         []];
                    JEl "Labeled" [("label", JStr "Success Count")]
                      [JEl "NumberField" [("source", JStr "success_count")] []];
                    JEl "Labeled" [("label", JStr "Error Count")]
                      [JEl "NumberField" [("source", JStr "error_count")] []];
                    JEl "Labeled" [("label", JStr "Retries")]
                      [JEl "NumberField" [("source", JStr "retries")] []];
                    JEl "Labeled" [("label", JStr "Concurrency")]
                      [JEl "TextField" [("source", JStr "concurrency")] []]]]];
           JEl "Card" [("sx", JObj [("mb", JNum 3)])]
             [JEl "CardContent" []
                [JEl "SectionHeader" [("icon", JFun "SettingsIcon"); ("title", JStr "Configuration")]
                   [];
                 JEl "FieldGroup" []
                   [JEl "Labeled" [("label", JStr "Ephemeral")]
                      [JEl "BooleanField" [("source", JStr "ephemeral")] []];
                    JEl "Labeled" [("label", JStr "Disabled")]
                      [JEl "BooleanField" [("source", JStr "disabled")] []];
                    JEl "Labeled" [("label", JStr "Starts At")]
                      [JEl "DateField"
                         [("source", JStr "starts_at");
                          ("showTime", JBool true);
                          ("emptyText", JStr "Not set")]
                         []];
                    JEl "Labeled" [("label", JStr "Expires At")]
                      [JEl "DateField"
                         [("source", JStr "expires_at");
                          ("showTime", JBool true);
                          ("emptyText", JStr "Not set")]
                         []];
                    JEl "Labeled" [("label", JStr "Executor")]
                      [JEl "TextField" [("source", JStr "executor")] []];
                    JEl "Labeled" [("label", JStr "Parent Job")]
                      [JEl "TextField" [("source", JStr "parent_job"); ("emptyText", JStr "None")] []]];
                 JEl "StyledJsonField"
                   [("source", JStr "executor_config"); ("label", JStr "Executor Config")]
                   [];
                 JEl "StyledJsonField" [("source", JStr "tags"); ("label", JStr "Tags")] [];
                 JEl "StyledJsonField" [("source", JStr "processors"); ("label", JStr "Processors")] [];
                 JEl "StyledJsonField" [("source", JStr "metadata"); ("label", JStr "Metadata")] []]]];
        JEl "Tab"
          [("label", JStr "Executions");
           ("path", JStr "executions");
           ("icon", JEl "PlaylistPlayIcon" [] [])]
          [JEl "Card" []
             [JEl "CardContent"
                [("sx", JObj [("p", JNum 0); ("&:last-child", JObj [("pb", JNum 0)])])]
                [JEl "ReferenceManyField"
                   [("reference", JStr "executions"); ("target", JStr "jobs"); ("label", JStr "")]
                   [JEl "Datagrid"
                      [("rowClick", JStr "expand");
                       ("isRowSelectable", JFun "() => false");
                       ("expand", JEl "SpecialOutputPanel" [] []);
                       ("sx", JObj
                           [("& .RaDatagrid-headerCell", JObj
                                [("backgroundColor", JStr "#f7fafc");
                                 ("fontWeight", JNum 600);
                                 ("fontSize", JStr "0.75rem");
                                 ("textTransform", JStr "uppercase");
                                 ("letterSpacing", JStr "0.05em");
                                 ("color", JStr "#4a5568")]);
                            ("& .RaDatagrid-rowCell", JObj [("borderBottom", JStr "1px solid #e2e8f0")]);
                            ("& .RaDatagrid-expandedPanel", JObj [("backgroundColor", JStr "#f7fafc")])])]
                      [JEl "TextField" [("source", JStr "id"); ("label", JStr "ID")] [];
                       JEl "TextField"
                         [("source", JStr "group"); ("label", JStr "Group"); ("sortable", JBool false)]
                         [];
                       JEl "DateField"
                         [("source", JStr "started_at");
                          ("label", JStr "Started");
                          ("showTime", JBool true)]
                         [];
                       JEl "ZeroDateField"
                         [("source", JStr "finished_at");
                          ("label", JStr "Finished");
                          ("showTime", JBool true)]
                         [];
                       JEl "TextField"
                         [("source", JStr "node_name"); ("label", JStr "Node"); ("sortable", JBool false)]
                         [];
                       JEl "SuccessField" [] [];
                       JEl "NumberField" [("source", JStr "attempt"); ("label", JStr "Attempt")] []]]]]];
        JEl "Tab"
          [("label", JStr "Dependencies");
           ("path", JStr "dependencies");
           ("icon", JEl "AccountTreeIcon" [] [])]
          [JEl "JobDependencyDiagram" [] []]]].

End JobShowPage.

Module JobListPage.

Definition JobFilter (props : jsval) : jsval :=
  JEl "Filter" (fields props)
    [JEl "TextInput"
       [("label", JStr "Search");
        ("source", JStr "q");
        ("alwaysOn", JBool true);
        ("sx", JObj [("ml", JNum 2)])]
       [];
     JEl "SelectInput"
       [("source", JStr "status");
        ("choices", JArr
            [JObj [("id", JStr "success"); ("name", JStr "Success")];
             JObj [("id", JStr "failed"); ("name", JStr "Failed")];
             JObj [("id", JStr "untriggered"); ("name", JStr "Waiting to Run")]])]
       [];
     JEl "BooleanInput" [("source", JStr "disabled")] []].

Definition JobBulkActionButtons : jsval :=
  JEl "Fragment" []
    [JEl "BulkRunButton" [] [];
     JEl "BulkToggleButton" [] [];
     JEl "BulkDeleteButton" [] []].

Definition JobPagination (props : jsval) : jsval :=
  JEl "Pagination"
    ([("rowsPerPageOptions", JArr [JNum 5; JNum 10; JNum 25; JNum 50; JNum 100])]
     ++ fields props)
    [].

(** [groups] are the options of the memo, JobList.groupOptions. *)
Definition JobGroupFilter (groups props : jsval) : jsval :=
  let selectedGroup := jget "selectedGroup" props in
  let onGroupChange := jget "onGroupChange" props in
  JEl "Box"
    [("sx", JObj
         [("display", JStr "flex");
          ("justifyContent", JStr "flex-end");
          ("px", JNum 2);
          ("py", JDec 15 1)])]
    [JEl "MuiTextField"
       [("select", JBool true);
        ("label", JStr "Group");
        ("value", selectedGroup);
        ("onChange", JFun "(event) => onGroupChange(event.target.value)");
        ("size", JStr "small");
        ("sx", JObj [("minWidth", JNum 180)])]
       [JEl "MenuItem" [("value", JStr "")] [JStr "All groups"];
        jmap (λ group, JEl "MenuItem" [("key", group); ("value", group)] [group]) groups]].

Definition PREFIX : jsval :=
  JStr "JobList".

Definition classes : jsval :=
  JObj
    [("hiddenOnSmallScreens", JStr (js_String PREFIX +:+ "-hiddenOnSmallScreens"));
     ("cell", JStr (js_String PREFIX +:+ "-cell"))].

Definition ListHeader : jsval :=
  JEl "Box"
    [("sx", JObj
         [("mb", JNum 3);
          ("display", JStr "flex");
          ("alignItems", JStr "center");
          ("gap", JNum 2)])]
    [JEl "Box"
       [("sx", JObj
            [("width", JNum 48);
             ("height", JNum 48);
             ("borderRadius", JNum 2);
             ("background", JStr "linear-gradient(135deg, #3182ce 0%, #2c5282 100%)");
             ("display", JStr "flex");
             ("alignItems", JStr "center");
             ("justifyContent", JStr "center");
             ("color", JStr "white");
             ("boxShadow", JStr "0 4px 6px -1px rgba(49, 130, 206, 0.2)")])]
       [JEl "UpdateIcon" [] []];
     JEl "Box" []
       [JEl "Typography"
          [("variant", JStr "h5");
           ("sx", JObj [("fontWeight", JNum 600); ("color", JStr "text.primary")])]
          [JStr "Scheduled Jobs"];
        JEl "Typography"
          [("variant", JStr "body2"); ("sx", JObj [("color", JStr "text.secondary")])]
          [JStr "Manage your distributed cron jobs"]]].

Definition JobDatagridContent : jsval :=
  JEl "StyledDatagrid"
    [("rowClick", JStr "show");
     ("bulkActionButtons", JEl "JobBulkActionButtons" [] [])]
    [JEl "TextField" [("source", JStr "id")] [];
     JEl "TextField" [("source", JStr "displayname"); ("label", JStr "Display name")] [];
     JEl "FunctionField"
       [("label", JStr "Group"); ("render", JFun "(record: any) => getJobGroup(record)")]
       [];
     JEl "TextField"
       [("source", JStr "timezone");
        ("sortable", JBool false);
        ("cellClassName", jget "hiddenOnSmallScreens" classes);
        ("headerClassName", jget "hiddenOnSmallScreens" classes)]
       [];
     JEl "TextField" [("source", JStr "schedule")] [];
     JEl "NumberField"
       [("source", JStr "success_count");
        ("cellClassName", jget "hiddenOnSmallScreens" classes);
        ("headerClassName", jget "hiddenOnSmallScreens" classes)]
       [];
     JEl "NumberField"
       [("source", JStr "error_count");
        ("cellClassName", jget "hiddenOnSmallScreens" classes);
        ("headerClassName", jget "hiddenOnSmallScreens" classes)]
       [];
     JEl "DateField" [("source", JStr "last_success"); ("showTime", JBool true)] [];
     JEl "DateField" [("source", JStr "last_error"); ("showTime", JBool true)] [];
     JEl "EnabledField" [("label", JStr "Enabled")] [];
     JEl "NumberField" [("source", JStr "retries"); ("sortable", JBool false)] [];
     JEl "StatusField" [] [];
     JEl "DateField" [("source", JStr "next"); ("showTime", JBool true)] [];
     JEl "EditButton" [] []].

Definition JobDatagrid (listContext groupedData props : jsval) : jsval :=
  let selectedGroup := jget "selectedGroup" props in
  if negb (truthy groupedData) then
    JEl "JobDatagridContent" [] []
  else
  let groupedContext :=
    JObj
      (fields listContext
       ++ [("data", groupedData);
           ("total", if truthy selectedGroup then js_len groupedData else jget "total" listContext)]) in
  JEl "ListContextProvider" [("value", groupedContext)] [JEl "JobDatagridContent" [] []].

Definition JobList (selectedGroup setSelectedGroup props : jsval) : jsval :=
  JEl "Box" [("sx", JObj [("p", JObj [("xs", JNum 2); ("md", JNum 3)])])]
    [JEl "ListHeader" [] [];
     JEl "List"
       (fields props
        ++ [("filters", JEl "JobFilter" [] []);
            ("pagination", JEl "JobPagination" [] []);
            ("sx", JObj
                [("& .RaList-main", JObj
                     [("boxShadow", JStr "0 1px 3px 0 rgba(0, 0, 0, 0.1), 0 1px 2px 0 rgba(0, 0, 0, 0.06)");
                      ("borderRadius", JNum 3);
                      ("border", JStr "1px solid #e2e8f0")]);
                 ("& .RaList-content", JObj [("boxShadow", JStr "none")])])])
       [JEl "JobGroupFilter"
          [("selectedGroup", selectedGroup); ("onGroupChange", setSelectedGroup)]
          [];
        JEl "JobDatagrid" [("selectedGroup", selectedGroup)] []]].

End JobListPage.

Module JobEditPage.

Definition JobEditActions : jsval :=
  JEl "TopToolbar" [("sx", JObj [("mt", JNum 2); ("mb", JNum 1)])]
    [JEl "ListButton" [] []; JEl "ShowButton" [] []].

Definition JobCreateActions : jsval :=
  JEl "TopToolbar" [("sx", JObj [("mt", JNum 2); ("mb", JNum 1)])]
    [JEl "ListButton" [] []].

Definition JobEdit (record : jsval) : jsval :=
  JEl "Edit"
    (fields record
     ++ [("actions", JEl "JobEditActions" [] []);
         ("sx", JObj [("& .RaEdit-main", JObj [("mt", JNum 2)])])])
    [JEl "EditForm" [] []].

Definition JobCreate (props : jsval) : jsval :=
  JEl "Create"
    (fields props
     ++ [("actions", JEl "JobCreateActions" [] []);
         ("sx", JObj [("& .RaCreate-main", JObj [("mt", JNum 2)])])])
    [JEl "EditForm" [] []].

Definition EditForm (record : jsval) : jsval :=
  JEl "SimpleForm" (fields record)
    [JEl "TextInput"
       [("disabled", JBool true);
        ("source", JStr "id");
        ("helperText", JStr "Job id. Must be unique, it's a copy of name.")]
       [];
     JEl "TextInput"
       [("source", JStr "name");
        ("helperText", JStr "Job name. Must be unique, acts as the id.");
        ("validate", JFun "required()")]
       [];
     JEl "TextInput"
       [("source", JStr "displayname");
        ("helperText", JStr "Display name of the job. If present, displayed instead of the name.")]
       [];
     JEl "TextInput"
       [("source", JStr "metadata.group");
        ("label", JStr "Group");
        ("helperText", JStr "Group related jobs together in the jobs table.")]
       [];
     JEl "TextInput"
       [("source", JStr "timezone");
        ("helperText", JStr "The timezone where the cron expression will be evaluated in.")]
       [];
     JEl "TextInput"
       [("source", JStr "schedule");
        ("helperText", JStr "Cron expression for the job. When to run the job.");
        ("validate", JFun "required()")]
       [];
     JEl "TextInput"
       [("source", JStr "owner");
        ("helperText", JStr "Arbitrary string indicating the owner of the job.");
        ("disabled", JBool true)]
       [];
     JEl "TextInput"
       [("source", JStr "owner_email");
        ("helperText", JStr "Email address to use for notifications.")]
       [];
     JEl "TextInput"
       [("source", JStr "parent_job");
        ("helperText", JStr "Job id of job that this job is dependent upon.")]
       [];
     JEl "BooleanInput"
       [("source", JStr "ephemeral");
        ("helperText", JStr "Delete the job after the first successful execution.")]
       [];
     JEl "DateTimeInput"
       [("source", JStr "starts_at");
        ("helperText", JStr "The job will not be executed before this time.")]
       [];
     JEl "DateTimeInput"
       [("source", JStr "expires_at");
        ("helperText", JStr "The job will not be executed after this time.")]
       [];
     JEl "SelectInput"
       [("source", JStr "concurrency");
        ("choices", JArr
            [JObj [("id", JStr "allow"); ("name", JStr "Allow")];
             JObj [("id", JStr "forbid"); ("name", JStr "Forbid")]]);
        ("helperText", JStr "Concurrency policy for this job (allow, forbid).")]
       [];
     JEl "JsonInput"
       [("source", JStr "processors");
        ("reactJsonOptions", JObj
            [("name", JNull);
             ("collapsed", JBool false);
             ("enableClipboard", JBool true);
             ("displayDataTypes", JBool false)]);
        ("helperText", JStr "Processor plugins to use for this job.")]
       [];
     JEl "JsonInput"
       [("source", JStr "tags");
        ("reactJsonOptions", JObj
            [("name", JNull);
             ("collapsed", JBool false);
             ("enableClipboard", JBool true);
             ("displayDataTypes", JBool false)]);
        ("helperText", JStr "Tags of the target servers to run this job against.")]
       [];
     JEl "TextInput"
       [("source", JStr "metadata.group");
        ("label", JStr "Job Group");
        ("helperText", JStr "Nhập tên nhóm (VD: demo)");
        ("fullWidth", JBool true)]
       [];
     JEl "JsonInput"
       [("source", JStr "metadata");
        ("reactJsonOptions", JObj
            [("name", JNull);
             ("collapsed", JBool false);
             ("enableClipboard", JBool true);
             ("displayDataTypes", JBool false)]);
        ("helperText", JStr "Job metadata describes the job and allows filtering from the API.")]
       [];
     JEl "TextInput"
       [("source", JStr "executor");
        ("helperText", JStr "Executor plugin to be used in this job.");
        ("validate", JFun "required()")]
       [];
     JEl "JsonInput"
       [("source", JStr "executor_config");
        ("reactJsonOptions", JObj
            [("name", JNull);
             ("collapsed", JBool true);
             ("enableClipboard", JBool false);
             ("displayDataTypes", JBool false)]);
        ("helperText", JStr "Configuration arguments for the specific executor.");
        ("validate", JFun "required()")]
       [];
     JEl "BooleanInput"
       [("source", JStr "disabled"); ("helperText", JStr "Is this job disabled?")]
       [];
     JEl "NumberInput"
       [("source", JStr "retries");
        ("helperText", JStr "Number of times to retry a job that failed an execution.")]
       []].

End JobEditPage.

Module BusyListPage.

Definition ListHeader : jsval :=
  JEl "Box"
    [("sx", JObj
         [("mb", JNum 3);
          ("display", JStr "flex");
          ("alignItems", JStr "center");
          ("gap", JNum 2)])]
    [JEl "Box"
       [("sx", JObj
            [("width", JNum 48);
             ("height", JNum 48);
             ("borderRadius", JNum 2);
             ("background", JStr "linear-gradient(135deg, #d69e2e 0%, #b7791f 100%)");
             ("display", JStr "flex");
             ("alignItems", JStr "center");
             ("justifyContent", JStr "center");
             ("color", JStr "white");
             ("boxShadow", JStr "0 4px 6px -1px rgba(214, 158, 46, 0.2)")])]
       [JEl "PlayCircleOutlineIcon" [] []];
     JEl "Box" []
       [JEl "Typography"
          [("variant", JStr "h5");
           ("sx", JObj [("fontWeight", JNum 600); ("color", JStr "text.primary")])]
          [JStr "Running Jobs"];
        JEl "Typography"
          [("variant", JStr "body2"); ("sx", JObj [("color", JStr "text.secondary")])]
          [JStr "Jobs currently being executed across the cluster"]]].

Definition BusyList (props : jsval) : jsval :=
  JEl "Box" [("sx", JObj [("p", JObj [("xs", JNum 2); ("md", JNum 3)])])]
    [JEl "ListHeader" [] [];
     JEl "List"
       (fields props
        ++ [("pagination", JBool false);
            ("sx", JObj
                [("& .RaList-main", JObj
                     [("boxShadow", JStr "0 1px 3px 0 rgba(0, 0, 0, 0.1), 0 1px 2px 0 rgba(0, 0, 0, 0.06)");
                      ("borderRadius", JNum 3);
                      ("overflow", JStr "hidden");
                      ("border", JStr "1px solid #e2e8f0")]);
                 ("& .RaList-content", JObj [("boxShadow", JStr "none")])])])
       [JEl "Datagrid"
          [("rowClick", JStr "expand");
           ("isRowSelectable", (JFun "() => false"));
           ("expand", JEl "OutputPanel" [] []);
           ("sx", JObj
               [("& .RaDatagrid-headerCell", JObj
                    [("backgroundColor", JStr "#f7fafc");
                     ("fontWeight", JNum 600);
                     ("fontSize", JStr "0.75rem");
                     ("textTransform", JStr "uppercase");
                     ("letterSpacing", JStr "0.05em");
                     ("color", JStr "#4a5568")]);
                ("& .RaDatagrid-row", JObj [("&:hover", JObj [("backgroundColor", JStr "#f7fafc")])]);
                ("& .RaDatagrid-rowCell", JObj [("borderBottom", JStr "1px solid #e2e8f0")])])]
          [JEl "TextField" [("source", JStr "id"); ("sortable", JBool false)] [];
           JEl "TextField" [("source", JStr "job_name"); ("sortable", JBool false)] [];
           JEl "TextField" [("source", JStr "node_name"); ("sortable", JBool false)] [];
           JEl "DateField"
             [("source", JStr "started_at");
              ("sortable", JBool false);
              ("showTime", JBool true)]
             []]]].

End BusyListPage.

Module NodeListPage.

Definition NodeHeader : jsval :=
  JEl "Box"
    [("sx", JObj
         [("mb", JNum 3);
          ("display", JStr "flex");
          ("alignItems", JStr "center");
          ("gap", JNum 2)])]
    [JEl "Box"
       [("sx", JObj
            [("width", JNum 48);
             ("height", JNum 48);
             ("borderRadius", JNum 2);
             ("background", JStr "linear-gradient(135deg, #2ecc71 0%, #27ae60 100%)");
             ("display", JStr "flex");
             ("alignItems", JStr "center");
             ("justifyContent", JStr "center");
             ("color", JStr "white");
             ("boxShadow", JStr "0 4px 6px -1px rgba(46, 204, 113, 0.2)")])]
       [JEl "DnsIcon" [] []];
     JEl "Box" []
       [JEl "Typography"
          [("variant", JStr "h5");
           ("sx", JObj [("fontWeight", JNum 600); ("color", JStr "text.primary")])]
          [JStr "Cluster Nodes"];
        JEl "Typography"
          [("variant", JStr "body2"); ("sx", JObj [("color", JStr "text.secondary")])]
          [JStr "Monitor your distributed Dkron server instances and their status"]]].

Definition NodeList (props : jsval) : jsval :=
  JEl "Box" [("sx", JObj [("p", JObj [("xs", JNum 2); ("md", JNum 3)])])]
    [JEl "NodeHeader" [] [];
     JEl "List"
       (fields props
        ++ [("bulkActionButtons", JBool false);
            ("sx", JObj
                [("& .RaList-main", JObj
                     [("boxShadow", JStr "0 1px 3px 0 rgba(0, 0, 0, 0.1), 0 1px 2px 0 rgba(0, 0, 0, 0.06)");
                      ("borderRadius", JNum 3);
                      ("border", JStr "1px solid #e2e8f0")]);
                 ("& .RaList-content", JObj [("boxShadow", JStr "none")])])])
       [JEl "StyledDatagrid" [("rowClick", JBool false)]
          [JEl "TextField"
             [("source", JStr "Name");
              ("label", JStr "Node Name");
              ("sx", JObj [("fontWeight", JNum 500)])]
             [];
           JEl "TextField" [("source", JStr "Addr"); ("label", JStr "Address")] [];
           JEl "FunctionField"
             [("label", JStr "Status");
              ("render", JFun "(record: any) => renderStatusChip(record)")]
             [];
           JEl "TextField"
             [("source", JStr "Tags.version");
              ("label", JStr "Version");
              ("defaultValue", JStr "-")]
             []]]].

End NodeListPage.

(** ** What the pages ask for *)

(** The [source]s of the fields and inputs of a tree. *)
Definition sources (v : jsval) : list string := js_String <$> prop_values "source" v.

(** The columns a list can be sorted by: with a source, and not
    [sortable={false}]. *)
Definition sortable_sources (v : jsval) : list string :=
  flat_map (λ ps, match jget "source" ps with
                  | JStr s => if is_false (jget "sortable" ps) then [] else [s]
                  | _ => []
                  end) (snd <$> elements v).

Definition show_page : jsval := JobShowPage.JobShow (JObj []).
Definition executions_tab : jsval := default JUndef (subtrees "Tab" show_page !! 1%nat).

(** An execution with no empty field but the output: [omitempty] drops none. *)
Definition filled_execution (e : Execution.t) : Prop :=
  Execution.id e ≠ "" ∧ Execution.job_name e ≠ "" ∧ Execution.node_name e ≠ "" ∧
  Execution.group e ≠ 0 ∧ Execution.attempt e ≠ 0.

(** A sort request of the list. *)
Definition sort_query (field order : string) (k : string) : option string :=
  if String.eqb k "_sort" then Some field
  else if String.eqb k "_order" then Some order else None.

(** ** Lemmas *)

Lemma sort_query_selects_all field order l :
  List.filter (jobMatches (jobOptions_of [] (sort_query field order))) l = l.
Proof. induction l as [|j l IH]; [done|]. cbn. by rewrite IH. Qed.

(** What the server sends is the execution with some output and some flag. *)
Lemma truncateOutput_object limit e :
  0 ≤ limit →
  ∃ o b, truncateOutput limit e = apiExecution (with_output o e) b ∧
    b = (limit <? js_length (Execution.output e)).
Proof.
  intros Hl. unfold truncateOutput. destruct (Z.ltb_spec (-1) limit); [|lia]. cbn [andb].
  destruct (limit <? js_length (Execution.output e)); [by eexists _, true|].
  exists (Execution.output e), false. by destruct e.
Qed.

Lemma executions_sources :
  sources executions_tab = ["id"; "group"; "started_at"; "finished_at"; "node_name"; "attempt"].
Proof. vm_compute. reflexivity. Qed.

Lemma omit_str_filled k s : s ≠ "" → omit_str k s = [(k, JStr s)].
Proof. intros Hs. unfold omit_str. by rewrite (proj2 (String.eqb_neq _ _) Hs). Qed.

Lemma omit_num_filled k z : z ≠ 0 → omit_num k z = [(k, JNum z)].
Proof. intros Hz. unfold omit_num. by rewrite (proj2 (Z.eqb_neq _ _) Hz). Qed.

Lemma apiExecution_defined o e b :
  filled_execution e →
  Forall (λ s, is_undef (jget s (apiExecution (with_output o e) b)) = false)
    ["id"; "group"; "started_at"; "finished_at"; "node_name"; "attempt"].
Proof.
  intros (Hi & Hj & Hn & Hg & Ha). apply Forall_forall. intros s Hs.
  assert (jget s (apiExecution (with_output o e) b) = jget s (JObj
    [("id", JStr (Execution.id e)); ("started_at", JStr (Execution.started_at e));
     ("finished_at", JStr (Execution.finished_at e)); ("node_name", JStr (Execution.node_name e));
     ("group", JNum (Execution.group e)); ("attempt", JNum (Execution.attempt e))])) as ->.
  { unfold apiExecution. cbn [jget]. rewrite own_app, own_single_ne by set_solver.
    rewrite execution_json_other by set_solver. unfold execution_json.
    rewrite !(omit_str_filled _ _ Hi), !(omit_str_filled _ _ Hj), !(omit_str_filled _ _ Hn),
      !(omit_num_filled _ _ Hg), !(omit_num_filled _ _ Ha).
    rewrite !own_app. assert (own s (omit_str "output" (Execution.output e)) = None) as ->.
    { unfold omit_str. destruct (String.eqb _ ""); [done|]. apply own_single_ne. set_solver. }
    repeat (apply elem_of_cons in Hs as [->|Hs]; [done|]). by apply elem_of_nil in Hs. }
  repeat (apply elem_of_cons in Hs as [->|Hs]; [done|]). by apply elem_of_nil in Hs.
Qed.

Lemma apiExecution_finished_at e b :
  jget "finished_at" (apiExecution e b) = JStr (Execution.finished_at e).
Proof.
  unfold apiExecution, execution_json, omit_str, omit_num. cbn [jget]. rewrite !own_app. cbn.
  by repeat (destruct (String.eqb _ ""); cbn); repeat (destruct (_ =? 0); cbn).
Qed.

Lemma apiExecution_output_value e b :
  jget "output" (apiExecution e b) =
    if String.eqb (Execution.output e) "" then JUndef else JStr (Execution.output e).
Proof.
  unfold apiExecution. cbn [jget]. rewrite own_app, own_single_ne, execution_json_output by done.
  by destruct (String.eqb _ "").
Qed.

Lemma tagged_apiExecution t e b : tagged t (apiExecution e b) = [].
Proof.
  unfold apiExecution, execution_json, omit_str, omit_num. cbn [tagged].
  rewrite !flat_map_app. cbn.
  by repeat (destruct (String.eqb _ ""); cbn); repeat (destruct (_ =? 0); cbn).
Qed.

Lemma panel_of_server e b :
  length (tagged "FullButton" (SpecialOutputPanel (apiExecution e b))) = Nat.b2n b.
Proof.
  pose proof (tagged_apiExecution "FullButton" e b) as Ht. unfold SpecialOutputPanel.
  rewrite apiExecution_truncated, apiExecution_output_value.
  change (truthy (apiExecution e b)) with true. cbn [negb].
  revert Ht. generalize (apiExecution e b) as v. intros v Hv. unfold js_or, js_and. cbn [truthy].
  destruct b, (String.eqb (Execution.output e) "") eqn:He; cbn; rewrite ?Hv, ?He; done.
Qed.

Lemma panel_texts_of_server e b :
  texts (SpecialOutputPanel (apiExecution e b)) =
    [if String.eqb (Execution.output e) "" then "Nothing to show" else Execution.output e].
Proof.
  unfold SpecialOutputPanel.
  rewrite apiExecution_truncated, apiExecution_output_value.
  change (truthy (apiExecution e b)) with true. cbn [negb].
  generalize (apiExecution e b) as v. intros v. unfold js_or, js_and. cbn [truthy].
  destruct b, (String.eqb (Execution.output e) "") eqn:He; cbn; rewrite ?He; cbn; by rewrite ?He.
Qed.

(** ** Properties *)

(** The columns the job table and the executions tab can be sorted by are
    ones the store keeps an index on, for the right kind of item (the id stands
    for the name of a job and for the start of an execution): sorting the job
    list never fails, in either order. *)
Lemma sortable_columns_indexed (scan : string → bool → list GoJob.t) (field order : string) :
  (field ∈ sortable_sources executions_tab →
   ((if String.eqb field "id" then "started_at" else field), "executions") ∈ job_indexes) ∧
  (field ∈ sortable_sources JobListPage.JobDatagridContent →
   let o := jobOptions_of [] (sort_query field order) in
   (JobOptions.Sort o, "jobs") ∈ job_indexes ∧
   GetJobs scan o = Some (scan (JobOptions.Sort o) (String.eqb order "DESC"))).
Proof.
  split; intros Hf.
  - assert (sortable_sources executions_tab = ["id"; "started_at"; "finished_at"; "attempt"]) as He
      by (vm_compute; reflexivity).
    rewrite He in Hf. repeat (apply elem_of_cons in Hf as [->|Hf]; [apply (bool_decide_unpack _); vm_compute; exact I|]).
    by apply elem_of_nil in Hf.
  - cbn zeta. assert ((JobOptions.Sort (jobOptions_of [] (sort_query field order)), "jobs") ∈
      job_indexes) as Hin.
    { assert (sortable_sources JobListPage.JobDatagridContent = ["id"; "displayname"; "schedule";
        "success_count"; "error_count"; "last_success"; "last_error"; "next"]) as He
        by (vm_compute; reflexivity).
      rewrite He in Hf. repeat (apply elem_of_cons in Hf as [->|Hf]; [apply (bool_decide_unpack _); vm_compute; exact I|]).
      by apply elem_of_nil in Hf. }
    split; [exact Hin|]. unfold GetJobs, has_index.
    rewrite bool_decide_true by (apply list_elem_of_fmap; by exists (JobOptions.Sort (jobOptions_of [] (sort_query field order)), "jobs")).
    f_equal. apply sort_query_selects_all.
Qed.

(** An execution as the server sends it, with the output limit the page
    asks for, in the executions tab: every column with a source has a value;
    the status column says "Running" exactly while it has no end; and the
    expanded row offers to load the full output exactly when the server cut it,
    and shows the part it sent, or says that there is nothing to show. *)
Lemma execution_row_of_server (limit : Z) (e : Execution.t) :
  0 ≤ limit → filled_execution e →
  let v := truncateOutput limit e in
  let sent := match jget "output" v with JStr s => s | _ => "" end in
  Forall (λ s, is_undef (jget s v) = false) (sources executions_tab) ∧
  (success_title (SuccessField v) = JStr "Running" ↔ Execution.finished_at e = zero_date) ∧
  length (tagged "FullButton" (SpecialOutputPanel v)) =
    Nat.b2n (limit <? js_length (Execution.output e)) ∧
  texts (SpecialOutputPanel v) = [if String.eqb sent "" then "Nothing to show" else sent].
Proof.
  intros Hl Hfill. cbn zeta. set (v := truncateOutput limit e).
  destruct (truncateOutput_object limit e Hl) as (o & b & Hv & Hb). fold v in Hv.
  split_and!.
  - rewrite executions_sources, Hv. by apply apiExecution_defined.
  - rewrite success_title_SuccessField, Hv. rewrite apiExecution_finished_at. cbn [is_str truthy andb].
    fold (apiExecution (with_output o e) b).
    change (truthy (apiExecution (with_output o e) b)) with true. cbn [andb Execution.finished_at with_output].
    destruct (String.eqb_spec (Execution.finished_at e) zero_date); [done|].
    split; [|done]. by destruct (truthy _).
  - rewrite <-Hb, Hv. apply panel_of_server.
  - rewrite Hv, panel_texts_of_server. by rewrite apiExecution_output.
Qed.

Lemma sortable_columns_indexed_witness :
  "next" ∈ sortable_sources JobListPage.JobDatagridContent ∧
  GetJobs (λ _ _, []) (jobOptions_of [] (sort_query "next" "ASC")) = Some [].
Proof.
  assert ("next" ∈ sortable_sources JobListPage.JobDatagridContent) as Hn
    by (apply (bool_decide_unpack _); vm_compute; exact I).
  split; [exact Hn|].
  exact (proj2 (proj2 (sortable_columns_indexed (λ _ _, []) "next" "ASC") Hn)).
Defined.

Lemma execution_row_of_server_witness :
  let e := Execution.mk "e1" "job" "2024-01-01T00:00:00Z" zero_date false "head tail" "node" 1 1 in
  filled_execution e ∧
  texts (SpecialOutputPanel (truncateOutput 4 e)) = ["tail"].
Proof.
  assert (filled_execution (Execution.mk "e1" "job" "2024-01-01T00:00:00Z" zero_date false
    "head tail" "node" 1 1)) as He by (repeat split; discriminate).
  split; [exact He|].
  exact (proj2 (proj2 (proj2 (execution_row_of_server 4 _ ltac:(lia) He)))).
Defined.
