(* ===== verification/Routes.v ===== *)
(** * Routes: from the requests of the interface to the handlers of the server

    The routes of src/dkron/api.go, the handlers that only read, and the way of
    a request from the URL a component of src/ui/src makes to the data it shows.
    The router (gin), the fetching of JSON (ra-core), the writing and reading of
    query strings and the resolution of URLs are other code: an interface with
    its laws, and parameters with theirs.  The theorems: what the tab of the
    executions of a job is given, and that a cut output can be loaded. *)

From stdpp Require Import countable pretty.
From S2P Require Import Prelude GoCore GoText JsCore Jobs NullTime Store Fsm Runs Running Nodes Scheduler Server View DataProvider Requests Fields Api JobViews.

(** ** Routes *)

Module Handler.
Inductive t : Type :=
  | expvarHandler | healthHandler | prometheusHandler | indexHandler | membersHandler | leaderHandler
  | isLeaderHandler | leaveHandler | restoreHandler | busyHandler | pauseStatusHandler | pauseHandler
  | unpauseHandler | statsHandler | jobCreateOrUpdateHandler | jobsHandler | jobDeleteHandler
  | jobAutoDisableCheckHandler | jobRunHandler | jobToggleHandler | jobGetHandler | executionsHandler
  | executionsDeleteHandler | executionHandler.

#[global] Instance eq_dec : EqDecision t.
Proof. solve_decision. Defined.
End Handler.

Record route := mk_route { r_method : string; r_pattern : string; r_handler : Handler.t }.

Definition APIRoutes (EnablePrometheus : bool) : list route :=
  [mk_route "GET" "/debug/vars" Handler.expvarHandler;
   mk_route "GET" "/health" Handler.healthHandler] ++
  (if EnablePrometheus then [mk_route "GET" "/metrics" Handler.prometheusHandler] else []) ++
  [mk_route "GET" "/v1" Handler.indexHandler;
   mk_route "GET" "/v1/" Handler.indexHandler;
   mk_route "GET" "/v1/members" Handler.membersHandler;
   mk_route "GET" "/v1/leader" Handler.leaderHandler;
   mk_route "GET" "/v1/isleader" Handler.isLeaderHandler;
   mk_route "POST" "/v1/leave" Handler.leaveHandler;
   mk_route "POST" "/v1/restore" Handler.restoreHandler;
   mk_route "GET" "/v1/busy" Handler.busyHandler;
   mk_route "GET" "/v1/pause" Handler.pauseStatusHandler;
   mk_route "POST" "/v1/pause" Handler.pauseHandler;
   mk_route "POST" "/v1/unpause" Handler.unpauseHandler;
   mk_route "GET" "/v1/stats" Handler.statsHandler;
   mk_route "POST" "/v1/jobs" Handler.jobCreateOrUpdateHandler;
   mk_route "PATCH" "/v1/jobs" Handler.jobCreateOrUpdateHandler;
   mk_route "GET" "/v1/jobs" Handler.jobsHandler;
   mk_route "DELETE" "/v1/jobs/:job" Handler.jobDeleteHandler;
   mk_route "POST" "/v1/jobs/:job/auto-disable-check" Handler.jobAutoDisableCheckHandler;
   mk_route "POST" "/v1/jobs/:job/run" Handler.jobRunHandler;
   mk_route "POST" "/v1/jobs/:job/toggle" Handler.jobToggleHandler;
   mk_route "POST" "/v1/jobs/:job" Handler.jobRunHandler;
   mk_route "PUT" "/v1/jobs/:job" Handler.jobCreateOrUpdateHandler;
   mk_route "GET" "/v1/jobs/:job" Handler.jobGetHandler;
   mk_route "GET" "/v1/jobs/:job/executions" Handler.executionsHandler;
   mk_route "DELETE" "/v1/jobs/:job/executions" Handler.executionsDeleteHandler;
   mk_route "GET" "/v1/jobs/:job/executions/:execution" Handler.executionHandler].

(** A pattern and a path, part by part: [:name] stands for any part that is not
    empty. *)
Fixpoint match_parts (pattern path : list string) : option (list (string * string)) :=
  match pattern, path with
  | [], [] => Some []
  | p :: pattern, s :: path =>
      match p with
      | String c name =>
          if Ascii.eqb c ":" then
            if String.eqb s "" then None else
            match match_parts pattern path with Some ps => Some ((name, s) :: ps) | None => None end
          else if String.eqb p s then match_parts pattern path else None
      | EmptyString => if String.eqb s "" then match_parts pattern path else None
      end
  | _, _ => None
  end.
Definition match_path (pattern path : string) : option (list (string * string)) :=
  match_parts (Split "/" pattern) (Split "/" path).

(** The router. *)
Class Gin := {
  gin_dispatch : list route → string → string → option (Handler.t * list (string * string));
}.

(** A request that one route of its method matches goes to it. *)
Class GinLaws `{Gin} : Prop := {
  gin_dispatch_one before r after path params :
    match_path (r_pattern r) path = Some params →
    Forall (λ r', r_method r' = r_method r → match_path (r_pattern r') path = None) (before ++ after) →
    gin_dispatch (before ++ r :: after) (r_method r) path = Some (r_handler r, params);
}.

(** A router that tries one route after another. *)
Fixpoint first_route (routes : list route) (method path : string) : option (Handler.t * list (string * string)) :=
  match routes with
  | [] => None
  | r :: routes =>
      if String.eqb (r_method r) method then
        match match_path (r_pattern r) path with
        | Some params => Some (r_handler r, params)
        | None => first_route routes method path
        end
      else first_route routes method path
  end.
#[global] Instance first_gin : Gin := { gin_dispatch := first_route }.

#[global] Instance first_gin_laws : GinLaws.
Proof.
  split. cbn. intros before r after path params Hr Hall. apply Forall_app in Hall as [Hall _].
  induction Hall as [|r' before Hr' Hall IH]; cbn.
  - by rewrite String.eqb_refl, Hr.
  - destruct (String.eqb_spec (r_method r') (r_method r)) as [E|]; [|done]. by rewrite (Hr' E).
Qed.

(** ** Handlers that read *)

(** The status, the header X-Total-Count, and the body: [None] when nothing is
    written. *)
Record reply := mk_reply { code : Z; total : option Z; content : option jsval }.

Section handlers.
Context `{Env, Engine}.
(** A time as JSON; the executions of a job in the order of an index. *)
Variable show_time : time → string.
Variable arrange : string → bool → list Exec.t → list Exec.t.

(** The index an order asks for: an error when there is none; one on the jobs
    has no executions. *)
Definition list_executions (sort order jobName : string) (db : DB.t) : option (list Exec.t) :=
  let l := Store.GetExecutions jobName db in
  let descending := String.eqb order "DESC" in
  if String.eqb sort "" then Some (if descending then reverse l else l) else
  match List.find (λ kv, String.eqb kv.1 sort) job_indexes with
  | None => None
  | Some (_, prefix) => Some (if String.eqb prefix "executions" then arrange sort descending l else [])
  end.

(** An execution as it is sent. *)
Definition sent_execution (e : Exec.t) : Execution.t :=
  Execution.mk (Key e) (Exec.JobName e) (show_time (Exec.StartedAt e)) (show_time (Exec.FinishedAt e))
    (Exec.Success e) (Exec.Output e) (Exec.NodeName e) (Exec.Group e) (Exec.Attempt e).

Definition executionsHandler (jobName : string) (q : string → option string) (s : Server.t) : reply :=
  let sort := default_query q "_sort" "" in
  let sort := if String.eqb sort "id" then "started_at" else sort in
  let order := default_query q "_order" "DESC" in
  let (limit, ok) := Atoi (default_query q "output_size_limit" "") in
  let outputSizeLimit := if ok then limit else -1 in
  match Store.GetJob jobName (Server.db s) with
  | None => mk_reply 404 None None
  | Some job =>
      match list_executions sort order (Job.Name job) (Server.db s) with
      | None => mk_reply 200 None None
      | Some executions =>
          mk_reply 200 (Some (Z.of_nat (length executions)))
            (Some (JArr (truncateOutput outputSizeLimit ∘ sent_execution <$> executions)))
      end
  end.

Definition GetExecution (jobName executionName : string) (db : DB.t) : option Exec.t :=
  NewExecutionFromProto <$> DB.executions db !! (jobName +:+ ":" +:+ executionName).

Definition executionHandler (jobName executionName : string) (s : Server.t) : reply :=
  match Store.GetJob jobName (Server.db s) with
  | None => mk_reply 404 None None
  | Some job =>
      match GetExecution (Job.Name job) executionName (Server.db s) with
      | None => mk_reply 404 None None
      | Some execution => mk_reply 200 None (Some (JObj (execution_json (sent_execution execution))))
      end
  end.

(** The json of a day. *)
Definition stat_json (stat : Store.ExecutionStat.t) : jsval :=
  JObj [("date", JStr (show_time (Store.ExecutionStat.Date stat)));
        ("success_count", JNum (Store.ExecutionStat.SuccessCount stat));
        ("failed_count", JNum (Store.ExecutionStat.FailedCount stat))].

Definition statsHandler (now : time) (q : string → option string) (s : Server.t) : reply :=
  let (days, ok) := Atoi (default_query q "days" "30") in
  let days := if ok then days else 30 in
  mk_reply 200 None (Some (JObj [("stats", JArr (stat_json <$> GetExecutionStats now days (Server.db s)))])).

Definition pauseStatusHandler (s : Server.t) : reply :=
  mk_reply 200 None (Some (JObj [("paused", JBool (Server.pauseNewJobs s))])).
End handlers.

(** *** The router and the handlers *)

(** A request as the server reads it. *)
Record request := mk_request { q_method : string; q_path : string; q_query : string → option string }.

Section serve.
Context `{Env, Engine, Gin}.
Variable show_time : time → string.
Variable arrange : string → bool → list Exec.t → list Exec.t.
Variable EnablePrometheus : bool.
(** What the handlers that are not above answer, and the router itself. *)
Variable elsewhere : option Handler.t → request → Server.t → reply.

Definition serve_read (now : time) (r : request) (s : Server.t) : reply :=
  match gin_dispatch (APIRoutes EnablePrometheus) (q_method r) (q_path r) with
  | Some (Handler.executionsHandler, [("job", job)]) => executionsHandler show_time arrange job (q_query r) s
  | Some (Handler.executionHandler, [("job", job); ("execution", execution)]) =>
      executionHandler show_time job execution s
  | Some (Handler.statsHandler, []) => statsHandler show_time now (q_query r) s
  | Some (Handler.pauseStatusHandler, []) => pauseStatusHandler s
  | Some (h, _) => elsewhere (Some h) r s
  | None => elsewhere None r s
  end.
End serve.

(** ** The way of a request *)

(** A part of a path that neither the browser nor the server rewrites. *)
Definition plain_char (c : ascii) : bool :=
  is_letter c || is_digit c || ContainsChar "-_." c.
Definition plain_part (s : string) : bool :=
  forallb plain_char (String.list_ascii_of_string s) &&
  negb (existsb (String.eqb s) [""; "."; ".."]).

(** The configured URL of the API, the query strings the interface writes, and
    the request the server reads when a URL is asked for. *)
Class Web := {
  apiUrl : string;
  stringify : list (string * jsval) → string;
  read_request : string → string → request;
}.

(** The URL of the API is that of the path [/v1]; text and numbers of a query
    arrive as text. *)
Class WebLaws `{Web} : Prop := {
  read_path meth ps : ps ≠ [] → forallb plain_part ps = true →
    let r := read_request meth (apiUrl +:+ "/" +:+ Join "/" ps) in
    q_method r = meth ∧ q_path r = "/v1/" +:+ Join "/" ps;
  read_query meth ps q : ps ≠ [] → forallb plain_part ps = true →
    let r := read_request meth (apiUrl +:+ "/" +:+ Join "/" ps +:+ "?" +:+ stringify q) in
    q_method r = meth ∧ q_path r = "/v1/" +:+ Join "/" ps ∧
    ∀ k v, jm_get k q = Some v → match v with JStr _ | JNum _ => True | _ => False end →
      q_query r k = Some (js_String v);
}.

(** What [fetchJson] makes of a reply. *)
Definition answered (r : reply) : outcome Response :=
  if (200 <=? code r) && (code r <? 300) then
    Resolved (mkResponse (code r)
      (match total r with Some n => {["x-total-count" := pretty n]} | None => ∅ end)
      (default JUndef (content r)))
  else Rejected.

(** The URL [FullButton] asks for. *)
Definition fullOutputUrl (apiUrl : string) (record : jsval) : string :=
  apiUrl +:+ "/jobs/" +:+ js_String (jget "job_name" record) +:+
    "/executions/" +:+ js_String (jget "id" record).

(** ** Lemmas *)

Lemma plain_part_absent c s : plain_char c = false → plain_part s = true → ContainsChar s c = false.
Proof.
  intros Hc [Hs _]%andb_prop. induction s as [|d s IH]; [done|].
  cbn in Hs |- *. apply andb_prop in Hs as [Hd Hs].
  rewrite (IH Hs), orb_false_r. apply Ascii.eqb_neq. congruence.
Qed.

Lemma plain_part_nonempty s : plain_part s = true → String.eqb s "" = false.
Proof. intros [_ Hs]%andb_prop. by destruct s. Qed.

Lemma Split_v1 ps : ps ≠ [] → forallb plain_part ps = true →
  Split "/" ("/v1/" +:+ Join "/" ps) = "" :: "v1" :: ps.
Proof.
  intros Hne Hps. destruct ps as [|p ps]; [done|].
  change ("/v1/" +:+ Join "/" (p :: ps)) with (Join "/" ("" :: "v1" :: p :: ps)).
  apply Split_Join; [done|]. do 2 (constructor; [done|]). apply List.Forall_forall. intros x Hx.
  apply plain_part_absent; [done|]. exact (proj1 (forallb_forall _ _) Hps x Hx).
Qed.

Section routing.
Context `{GinLaws}.

Lemma filter_one {A} (f : A → bool) l r : List.filter f l = [r] →
  f r = true ∧ ∃ before after, l = before ++ r :: after ∧ Forall (λ x, f x = false) (before ++ after).
Proof.
  induction l as [|x l IH]; [done|]. cbn. destruct (f x) eqn:Hx.
  - intros [= -> Hl]. split; [done|]. exists [], l. split; [done|]. cbn.
    clear IH. revert Hl. induction l as [|y l IH]; [done|]. cbn. destruct (f y) eqn:Hy; [done|]. auto.
  - intros (Hr & before & after & -> & Hall)%IH. split; [done|]. exists (x :: before), after. by split; [|constructor].
Qed.

(** A request under /v1 that one route alone matches. *)
Lemma dispatch_v1 prometheus meth ps r params : ps ≠ [] → forallb plain_part ps = true →
  List.filter (λ r, String.eqb (r_method r) meth &&
    match match_parts (Split "/" (r_pattern r)) ("" :: "v1" :: ps) with Some _ => true | None => false end)
    (APIRoutes prometheus) = [r] →
  match_parts (Split "/" (r_pattern r)) ("" :: "v1" :: ps) = Some params →
  gin_dispatch (APIRoutes prometheus) meth ("/v1/" +:+ Join "/" ps) = Some (r_handler r, params).
Proof.
  intros Hne Hps ([Hm _]%andb_prop & before & after & -> & Hall)%filter_one Hr.
  apply String.eqb_eq in Hm as <-. apply gin_dispatch_one.
  - unfold match_path. by rewrite Split_v1.
  - eapply Forall_impl; [exact Hall|]. cbn. intros x Hx Hxm. rewrite Hxm, String.eqb_refl in Hx.
    revert Hx. unfold match_path. rewrite Split_v1 by done. by destruct (match_parts (Split "/" (r_pattern x)) _).
Qed.

Context `{WebLaws}.

Lemma dispatch_read prometheus meth ps r params : ps ≠ [] → forallb plain_part ps = true →
  List.filter (λ r, String.eqb (r_method r) meth &&
    match match_parts (Split "/" (r_pattern r)) ("" :: "v1" :: ps) with Some _ => true | None => false end)
    (APIRoutes prometheus) = [r] →
  match_parts (Split "/" (r_pattern r)) ("" :: "v1" :: ps) = Some params →
  let q := read_request meth (apiUrl +:+ "/" +:+ Join "/" ps) in
  gin_dispatch (APIRoutes prometheus) (q_method q) (q_path q) = Some (r_handler r, params).
Proof.
  intros Hne Hps Hf Hm. destruct (read_path meth ps Hne Hps) as [Hmeth Hpath]. cbn zeta.
  rewrite Hmeth, Hpath. by apply dispatch_v1.
Qed.

(** What the buttons of a job ask for reaches the handlers that run and toggle it. *)
Lemma buttons_served prometheus n : plain_part n = true →
  let to url :=
    let q := read_request "POST" url in gin_dispatch (APIRoutes prometheus) (q_method q) (q_path q) in
  to (path (RunAction apiUrl) n) = Some (Handler.jobRunHandler, [("job", n)]) ∧
  to (path (ToggleAction apiUrl) n) = Some (Handler.jobToggleHandler, [("job", n)]) ∧
  to (path (BulkToggleAction apiUrl) n) = Some (Handler.jobToggleHandler, [("job", n)]).
Proof.
  intros Hn to. destruct n as [|c n]; [done|].
  assert (∀ ps, forallb plain_part ps = true → forallb plain_part (String c n :: ps) = true) as Hps
    by (intros ps Hps; cbn [forallb]; by rewrite Hn).
  assert (to (path (ToggleAction apiUrl) (String c n)) = Some (Handler.jobToggleHandler, [("job", String c n)])) as Ht.
  { apply (dispatch_read prometheus "POST" ["jobs"; String c n; "toggle"]
      (mk_route "POST" "/v1/jobs/:job/toggle" Handler.jobToggleHandler)); [done|by apply Hps|by destruct prometheus|done]. }
  split_and!; [|exact Ht|exact Ht].
  apply (dispatch_read prometheus "POST" ["jobs"; String c n]
    (mk_route "POST" "/v1/jobs/:job" Handler.jobRunHandler)); [done|by apply Hps|by destruct prometheus|done].
Qed.
End routing.

(** ** Properties *)

Section interface.
Context `{Env, Engine, GinLaws, WebLaws}.
Variable show_time : time → string.
Variable arrange : string → bool → list Exec.t → list Exec.t.
Variable EnablePrometheus : bool.
Variable elsewhere : option Handler.t → request → Server.t → reply.
Variable now : time.

Abbreviation serve := (serve_read show_time arrange EnablePrometheus elsewhere now).

Lemma serve_executions q n s : plain_part n = true →
  q_method q = "GET" → q_path q = "/v1/" +:+ Join "/" ["jobs"; n; "executions"] →
  serve q s = executionsHandler show_time arrange n (q_query q) s.
Proof.
  intros Hn Hm Hp. destruct n as [|c n]; [done|]. unfold serve_read. rewrite Hm, Hp.
  rewrite (dispatch_v1 EnablePrometheus "GET" ["jobs"; String c n; "executions"]
    (mk_route "GET" "/v1/jobs/:job/executions" Handler.executionsHandler) [("job", String c n)]);
    [done|done|cbn [forallb]; by rewrite Hn|by destruct EnablePrometheus|done].
Qed.

Lemma serve_execution q n e s : plain_part n = true → plain_part e = true →
  q_method q = "GET" → q_path q = "/v1/" +:+ Join "/" ["jobs"; n; "executions"; e] →
  serve q s = executionHandler show_time n e s.
Proof.
  intros Hn He Hm Hp. destruct n as [|c n]; [done|]. destruct e as [|d e]; [done|].
  unfold serve_read. rewrite Hm, Hp.
  rewrite (dispatch_v1 EnablePrometheus "GET" ["jobs"; String c n; "executions"; String d e]
    (mk_route "GET" "/v1/jobs/:job/executions/:execution" Handler.executionHandler)
    [("job", String c n); ("execution", String d e)]);
    [done|done|cbn [forallb]; by rewrite Hn, He|by destruct EnablePrometheus|done].
Qed.

Lemma readList_page (n : nat) v :
  readList (answered (mk_reply 200 (Some (Z.of_nat n)) (Some v))) = Page v (Some (Z.of_nat n)).
Proof.
  cbn -[pretty Z.of_nat]. f_equal. unfold totalOf.
  rewrite split_pop_absent by (done || apply pretty_digits; lia). apply parseInt_pretty. lia.
Qed.

Lemma executions_path n q :
  ("jobs" +:+ String "/" (n +:+ String "/" "executions")) +:+ "?" +:+ q =
  "jobs" +:+ "/" +:+ js_String (JStr n) +:+ "/" +:+ "executions" +:+ "?" +:+ q.
Proof.
  change ("jobs/" +:+ ((n +:+ "/executions") +:+ ("?" +:+ q)) = "jobs/" +:+ (n +:+ ("/executions?" +:+ q))).
  by rewrite string_app_assoc.
Qed.

(** The columns of the tab have an index on the executions. *)
Lemma list_executions_indexed field order name db : field ∈ sortable_sources executions_tab →
  list_executions arrange (if String.eqb field "id" then "started_at" else field) order name db =
    Some (arrange (if String.eqb field "id" then "started_at" else field) (String.eqb order "DESC")
      (Store.GetExecutions name db)).
Proof.
  assert (sortable_sources executions_tab = ["id"; "started_at"; "finished_at"; "attempt"]) as ->
    by (vm_compute; reflexivity).
  intros Hf. repeat (apply elem_of_cons in Hf as [->|Hf]; [done|]). by apply elem_of_nil in Hf.
Qed.

Context (fetchJson : string → Options → outcome Response).

(** A listed execution is found by its name. *)
Lemma GetExecution_listed e db : db_ok db → e ∈ Store.GetExecutions (Exec.JobName e) db →
  GetExecution (Exec.JobName e) (Key e) db = Some e.
Proof.
  intros Hdb (k & p & [Hl _]%map_lookup_filter_Some & ->)%elem_of_GetExecutions.
  destruct (ok_executions db Hdb _ _ Hl) as [-> _]. unfold GetExecution, ex_key in *. by rewrite Hl.
Qed.

Lemma GetJob_name n db job : db_ok db → Store.GetJob n db = Some job → Job.Name job = n.
Proof.
  unfold Store.GetJob, getJobTx. intros Hdb [p [Hp ->]]%fmap_Some. exact (ok_keyed db Hdb _ _ Hp).
Qed.

(** The row of an execution whose output was cut names it. *)
Lemma row_names limit x : Execution.id x ≠ "" → Execution.job_name x ≠ "" → 0 ≤ limit →
  jget "id" (truncateOutput limit x) = JStr (Execution.id x) ∧
  jget "job_name" (truncateOutput limit x) = JStr (Execution.job_name x).
Proof.
  intros Hid Hjob Hl. destruct (truncateOutput_spec limit x Hl) as (_ & _ & Hrow).
  rewrite !Hrow by set_solver. unfold apiExecution, execution_json, omit_str.
  rewrite (proj2 (String.eqb_neq _ _) Hid), (proj2 (String.eqb_neq _ _) Hjob). unfold omit_num.
  split; repeat (destruct (String.eqb _ ""); cbn); by repeat (destruct (_ =? 0); cbn).
Qed.

Lemma row_cut limit x : 0 < limit → limit < js_length (Execution.output x) →
  jget "output_truncated" (truncateOutput limit x) = JBool true ∧
  ∃ cut, jget "output" (truncateOutput limit x) = JStr cut ∧ cut ≠ "".
Proof.
  intros Hl Hlen. unfold truncateOutput.
  rewrite (proj2 (Z.ltb_lt _ _)), (proj2 (Z.ltb_lt _ _)) by lia. cbn [andb].
  rewrite apiExecution_truncated, apiExecution_output_value. cbn [Execution.output with_output]. split; [done|].
  unfold js_length in *.
  destruct (substring_suffix (String.length (Execution.output x) - Z.to_nat limit) (Execution.output x))
    as (cut & Hcut & Hlen'); [lia|].
  replace (String.length _ - (String.length _ - _))%nat with (Z.to_nat limit) in Hcut by lia.
  replace (Z.to_nat (Z.of_nat (String.length (Execution.output x)) - limit))
    with (String.length (Execution.output x) - Z.to_nat limit)%nat by lia.
  set (sent := String.substring _ _ _) in *. assert (sent ≠ "") as Hne.
  { intros E. apply (f_equal String.length) in Hcut. rewrite E, length_string_app in Hcut. cbn in Hcut. lia. }
  exists sent. split; [|done]. by rewrite (proj2 (String.eqb_neq _ _) Hne).
Qed.

(** C38. The tab asks for a page of the executions of a job: whatever page it is, it
    is given all of them, as the index of the column it is sorted by has them,
    with outputs cut to 200 bytes, and their number; it fails when there is no
    such job. *)
Theorem executions_tab_loads (s : Server.t) (n : string) flattenObject ls params :
  (∀ f d l, arrange f d l ≡ₚ l) →
  (∀ url o, fetchJson url o = answered (serve (read_request (default "GET" (method o)) url) s)) →
  plain_part n = true → target params = "jobs" → DataProvider.id params = JStr n →
  field params ∈ sortable_sources executions_tab →
  getManyReference fetchJson flattenObject stringify apiUrl ls "executions" params =
    match Store.GetJob n (Server.db s) with
    | None => RequestFailed
    | Some job =>
        let all := Store.GetExecutions (Job.Name job) (Server.db s) in
        let sort := if String.eqb (field params) "id" then "started_at" else field params in
        Page (JArr (truncateOutput 200 ∘ sent_execution show_time <$>
                arrange sort (String.eqb (order params) "DESC") all))
          (Some (Z.of_nat (length all)))
    end.
Proof.
  intros Harr Hfetch Hn Ht Hid Hf. unfold getManyReference, httpClient.
  rewrite Hfetch. cbn [method requestOptions default from_option].
  destruct (manyReferenceQuery_reserved flattenObject params) as (_ & _ & Hsort & Hord & Hlim & _).
  unfold manyReferenceUrl. rewrite Ht, Hid.
  set (q := manyReferenceQuery flattenObject params) in *.
  destruct (read_query "GET" ["jobs"; n; "executions"] q) as (Hm & Hp & Hq); [done|cbn [forallb]; by rewrite Hn|].
  cbn [Join] in Hm, Hp, Hq. rewrite executions_path in Hm, Hp, Hq.
  rewrite (serve_executions _ n s Hn Hm Hp). unfold executionsHandler, default_query.
  rewrite (Hq _ _ Hsort I), (Hq _ _ Hord I), (Hq _ _ Hlim I). cbn -[answered readList list_executions].
  destruct (Store.GetJob n (Server.db s)) as [job|]; [|done].
  rewrite list_executions_indexed by done. replace (Atoi _) with (200, true) by done. cbn beta iota zeta.
  by rewrite readList_page, (Permutation_length (Harr _ _ _)).
Qed.

(** "Load full output" in the row of a listed execution whose output was cut:
    the request reaches that execution, and the row then shows the whole output. *)
Lemma full_output_loads (s : Server.t) (e : Exec.t) ls :
  (∀ url o, fetchJson url o = answered (serve (read_request (default "GET" (method o)) url) s)) →
  db_ok (Server.db s) → is_Some (Store.GetJob (Exec.JobName e) (Server.db s)) →
  e ∈ Store.GetExecutions (Exec.JobName e) (Server.db s) →
  plain_part (Exec.JobName e) = true → plain_part (Key e) = true →
  200 < js_length (Exec.Output e) →
  let row := truncateOutput 200 (sent_execution show_time e) in
  let answer := httpClient fetchJson ls (fullOutputUrl apiUrl row) (mkOptions None None None) in
  let v := settleFull answer (clickFull (expandRow row)) in
  ov_notes v = [("Success loading full output", false)] ∧ screen (rerender v) = [Exec.Output e].
Proof.
  intros Hfetch Hdb [job Hjob] He Hn Hk Hlen row answer v.
  assert (Exec.JobName e ≠ "") as Hn' by (by intros E; rewrite E in Hn).
  assert (Key e ≠ "") as Hk' by (by intros E; rewrite E in Hk).
  destruct (row_names 200 (sent_execution show_time e) Hk' Hn' ltac:(lia)) as [Hid Hname].
  destruct (row_cut 200 (sent_execution show_time e) ltac:(lia) Hlen) as [Htr (cut & Hcut & Hcut')].
  assert (answer = Resolved (mkResponse 200 ∅ (JObj (execution_json (sent_execution show_time e))))) as Ha.
  { unfold answer, httpClient. rewrite Hfetch. cbn [method requestOptions default from_option].
    unfold fullOutputUrl, row. rewrite Hid, Hname.
    destruct (read_path "GET" ["jobs"; Exec.JobName e; "executions"; Key e]) as [Hm Hp];
      [done|cbn [forallb]; by rewrite Hn, Hk|].
    unfold answered. erewrite serve_execution; [|exact Hn|exact Hk|exact Hm|exact Hp].
    unfold executionHandler. rewrite Hjob, (GetJob_name _ _ _ Hdb Hjob), GetExecution_listed by done. done. }
  unfold v. rewrite Ha.
  destruct (fullOutput_loaded row (mkResponse 200 ∅ (JObj (execution_json (sent_execution show_time e))))
    (Exec.Output e) cut) as (_ & Hnotes & _ & _ & _ & Hscreen); try done.
  - unfold row. by rewrite Htr.
  - cbn [json]. unfold jget. rewrite execution_json_output. cbn [Execution.output sent_execution].
    by destruct (String.eqb_spec (Exec.Output e) "") as [E|]; [rewrite E in Hlen|].
  - intros E. by rewrite E in Hlen.
Qed.
End interface.

(** With times as Go writes them, a row of the tab says "Running" exactly while the
    execution of the store has no end. *)
Lemma running_shown (e : Exec.t) :
  filled_execution (sent_execution format_RFC3339 e) →
  0 ≤ Civil.Year (civil (Exec.FinishedAt e)) ≤ 9999 →
  success_title (SuccessField (truncateOutput 200 (sent_execution format_RFC3339 e))) = JStr "Running" ↔
  Exec.FinishedAt e = zero_time.
Proof.
  intros Hfill Hy.
  destruct (execution_row_of_server 200 (sent_execution format_RFC3339 e) ltac:(lia) Hfill) as (_ & Hrun & _).
  rewrite Hrun. change zero_date with (format_RFC3339 zero_time). cbn [Execution.finished_at sent_execution].
  split; [|by intros ->]. intros E. apply (f_equal parse_RFC3339) in E.
  rewrite !parse_format in E; [by injection E|vm_compute; split; discriminate|done].
Qed.

(** ** Examples *)

(** A browser and a server on the local machine; a query travels as a number. *)
Definition local_url : string := "http://localhost:8080/v1".
#[global] Instance local_web : Web := {
  apiUrl := local_url;
  stringify q := pretty (Z.pos (encode (prod_map (λ k : string, k) js_String <$> q)));
  read_request meth url :=
    match strip_prefix local_url url with
    | Some rest =>
        match Split "?" rest with
        | p :: qs =>
            mk_request meth ("/v1" +:+ p) (λ k,
              l ← decode (A := list (string * string)) (Z.to_pos (digits_value 0 (Join "?" qs))); jm_get k l)
        | [] => mk_request meth rest (λ _, None)
        end
    | None => mk_request meth url (λ _, None)
    end;
}.

Lemma strip_prefix_app p s : strip_prefix p (p +:+ s) = Some s.
Proof.
  induction p as [|c p IH]; [done|]. change (String c p +:+ s) with (String c (p +:+ s)). cbn.
  by rewrite Ascii.eqb_refl.
Qed.

Lemma Join_plain_absent c ps : plain_char c = false → Ascii.eqb c "/" = false →
  forallb plain_part ps = true → ContainsChar (Join "/" ps) c = false.
Proof.
  intros Hc Hs. induction ps as [|p [|q ps] IH]; [done| |].
  - cbn. intros [Hp _]%andb_prop. by apply plain_part_absent.
  - intros [Hp Hps]%andb_prop. rewrite Join_cons, ContainsChar_app, plain_part_absent by done.
    cbn [ContainsChar orb]. by rewrite IH, orb_false_r, Ascii.eqb_sym.
Qed.

Lemma jm_get_text k v (q : list (string * jsval)) : jm_get k q = Some v →
  jm_get k (prod_map (λ k : string, k) js_String <$> q) = Some (js_String v).
Proof. induction q as [|[k' w] q IH]; [done|]. cbn. destruct (decide _); [by intros [= ->]|done]. Qed.

#[global] Instance local_web_laws : WebLaws.
Proof.
  assert (∀ ps, forallb plain_part ps = true → ContainsChar ("/" +:+ Join "/" ps) "?" = false) as Habs.
  { intros ps Hps. rewrite ContainsChar_app. by apply Join_plain_absent. }
  split; cbn [read_request apiUrl local_web]; intros meth ps.
  - intros _ Hps. rewrite strip_prefix_app, (Split_absent "?" _ (Habs ps Hps)). done.
  - intros q _ Hps. rewrite strip_prefix_app, <- (string_app_assoc "/" (Join "/" ps)).
    change ("?" +:+ ?s) with (String "?" s). rewrite (Split_app "?" _ _ (Habs ps Hps)), Join_Split.
    split; [done|]. split; [done|]. intros k v Hk _. cbn -[pretty].
    rewrite digits_value_pretty by done. cbn -[encode decode]. rewrite decode_encode. by apply jm_get_text.
Qed.

Section demo.
#[local] Existing Instance demo_env.
#[local] Existing Instance list_engine.

Definition long_output : string := Join " " (replicate 50 "line").
Definition demo_execution : PbExecution.t :=
  PbExecution.mk "a" true long_output "node" 1 1 1000 2000.
Definition demo_db : DB.t := Fsm.after demo_sort 2000 (SetExecutionType demo_execution) Fsm.demo_a.
Definition demo_server : Server.t := Server.mk demo_db NewScheduler false.
Definition demo_show (t : time) : string := pretty t.
Definition demo_arrange (_ : string) (descending : bool) (l : list Exec.t) : list Exec.t :=
  if descending then reverse l else l.
Definition demo_fetch (url : string) (o : Options) : outcome Response :=
  answered (serve_read demo_show demo_arrange true (λ _ _ _, mk_reply 404 None None) 0
    (read_request (default "GET" (method o)) url) demo_server).

Lemma demo_arrange_perm f d l : demo_arrange f d l ≡ₚ l.
Proof. unfold demo_arrange. destruct d; [apply reverse_Permutation|done]. Qed.

Lemma demo_db_ok : db_ok demo_db.
Proof.
  apply (reachable_ok demo_sort), reachable_after, reachable_after. constructor.
Qed.

Lemma executions_tab_loads_witness :
  ∃ row, jget "id" row = JStr "1000-node" ∧
    getManyReference demo_fetch (λ _, []) stringify apiUrl ∅ "executions"
      (mkParams 3 10 "id" "DESC" (JObj []) "jobs" (JStr "a")) = Page (JArr [row]) (Some 1).
Proof.
  eexists. split; [|rewrite (executions_tab_loads demo_show demo_arrange true (λ _ _ _, mk_reply 404 None None) 0
    demo_fetch demo_server "a"); [reflexivity| | |done|done|done|apply (bool_decide_unpack _); vm_compute; exact I]].
  - reflexivity.
  - apply demo_arrange_perm.
  - done.
Defined.

Lemma full_output_loads_witness :
  let e := NewExecutionFromProto demo_execution in
  let row := truncateOutput 200 (sent_execution demo_show e) in
  screen (rerender (settleFull (httpClient demo_fetch ∅ (fullOutputUrl apiUrl row) (mkOptions None None None))
    (clickFull (expandRow row)))) = [long_output].
Proof.
  refine (proj2 (full_output_loads demo_show demo_arrange true (λ _ _ _, mk_reply 404 None None) 0 demo_fetch
    demo_server (NewExecutionFromProto demo_execution) ∅ _ demo_db_ok _ _ _ _ _)); try done.
  apply list_elem_of_In. vm_compute. by left.
Defined.
End demo.
