(* ===== verification/Dashboard.v ===== *)
(** * Dashboard: the front page

    src/ui/src/dashboard: the cards with the counters the server put into the
    page (src/dkron/ui.go, see Api), their links into the job list, and the page
    around them. *)

From S2P Require Import Prelude JsCore View DataProvider Fields Stats Api.

Section dashboard.
(** [alpha] of the component library: the text of a colour with an opacity. *)
Variable alpha : jsval → jsval → string.

Definition CardWithIcon (props : jsval) : jsval :=
  let icon := jget "icon" props in
  let title := jget "title" props in
  let subtitle := jget "subtitle" props in
  let to := jget "to" props in
  let children := jget "children" props in
  let color := js_default (jget "color" props) (JStr "#3182ce") in
  JEl "Card"
    [("sx", JObj
         [("minHeight", JNum 140);
          ("display", JStr "flex");
          ("flexDirection", JStr "column");
          ("flex", JStr "1");
          ("position", JStr "relative");
          ("overflow", JStr "hidden");
          ("transition", JStr "all 0.2s ease-in-out");
          ("&:hover", JObj
              [("transform", JStr "translateY(-2px)");
               ("boxShadow", JStr "0 10px 15px -3px rgba(0, 0, 0, 0.1), 0 4px 6px -2px rgba(0, 0, 0, 0.05)")]);
          ("& a", JObj [("textDecoration", JStr "none"); ("color", JStr "inherit")])])]
    [JEl "Link" [("to", to)]
       [JEl "Box"
          [("sx", JObj
               [("p", JNum 3);
                ("display", JStr "flex");
                ("flexDirection", JStr "column");
                ("height", JStr "100%");
                ("position", JStr "relative")])]
          [JEl "Box"
             [("sx", JObj
                  [("position", JStr "absolute");
                   ("top", JNum (-20));
                   ("right", JNum (-20));
                   ("width", JNum 100);
                   ("height", JNum 100);
                   ("borderRadius", JStr "50%");
                   ("backgroundColor", JStr (alpha color (JDec 1 1)))])]
             [];
           JEl "Box"
             [("sx", JObj
                  [("position", JStr "absolute");
                   ("top", JNum 10);
                   ("right", JNum 10);
                   ("width", JNum 60);
                   ("height", JNum 60);
                   ("borderRadius", JStr "50%");
                   ("backgroundColor", JStr (alpha color (JDec 5 2)))])]
             [];
           JEl "Box"
             [("sx", JObj
                  [("width", JNum 48);
                   ("height", JNum 48);
                   ("borderRadius", JNum 2);
                   ("backgroundColor", JStr (alpha color (JDec 1 1)));
                   ("display", JStr "flex");
                   ("alignItems", JStr "center");
                   ("justifyContent", JStr "center");
                   ("mb", JNum 2);
                   ("color", color)])]
             [JEl (fname icon) (fields (JObj [("sx", JObj [("fontSize", JNum 24)])])) []];
           JEl "Box" [("sx", JObj [("position", JStr "relative"); ("zIndex", JNum 1)])]
             [JEl "Typography"
                [("variant", JStr "h4");
                 ("component", JStr "div");
                 ("sx", JObj
                     [("fontWeight", JNum 700);
                      ("color", JStr "text.primary");
                      ("mb", JDec 5 1);
                      ("lineHeight", JDec 12 1)])]
                [js_or subtitle (JStr "0")];
              JEl "Typography"
                [("variant", JStr "body2");
                 ("sx", JObj [("color", JStr "text.secondary"); ("fontWeight", JNum 500)])]
                [title]]]];
     children].

End dashboard.

Definition Leader (props : jsval) : jsval :=
  let value := jget "value" props in
  JEl "CardWithIcon"
    [("to", JStr "/jobs");
     ("icon", JFun "Icon");
     ("title", JStr "Leader");
     ("subtitle", value);
     ("color", JStr "#1a365d")]
    [].

Definition TotalJobs (props : jsval) : jsval :=
  let value := jget "value" props in
  JEl "CardWithIcon"
    [("to", JStr "/jobs");
     ("icon", JFun "Icon");
     ("title", JStr "Total Jobs");
     ("subtitle", value);
     ("color", JStr "#3182ce")]
    [].

Definition SuccessfulJobs (props : jsval) : jsval :=
  let value := jget "value" props in
  JEl "CardWithIcon"
    [("to", JStr ("/jobs?filter={" +:+ dquote +:+ "status" +:+ dquote +:+ ":" +:+ dquote +:+ "success" +:+ dquote +:+ "}"));
     ("icon", JFun "Icon");
     ("title", JStr "Successful Jobs");
     ("subtitle", value);
     ("color", JStr "#38a169")]
    [].

Definition FailedJobs (props : jsval) : jsval :=
  let value := jget "value" props in
  JEl "CardWithIcon"
    [("to", JStr ("/jobs?filter={" +:+ dquote +:+ "status" +:+ dquote +:+ ":" +:+ dquote +:+ "failed" +:+ dquote +:+ "}"));
     ("icon", JFun "Icon");
     ("title", JStr "Failed Jobs");
     ("subtitle", value);
     ("color", JStr "#e53e3e")]
    [].

Definition UntriggeredJobs (props : jsval) : jsval :=
  let value := jget "value" props in
  JEl "CardWithIcon"
    [("to", JStr ("/jobs?filter={" +:+ dquote +:+ "status" +:+ dquote +:+ ":" +:+ dquote +:+ "untriggered" +:+ dquote +:+ "}"));
     ("icon", JFun "Icon");
     ("title", JStr "Untriggered Jobs");
     ("subtitle", value);
     ("color", JStr "#d69e2e")]
    [].

Definition fakeProps : jsval :=
  JObj
    [("basePath", JStr "/members");
     ("count", JNum 10);
     ("hasCreate", JBool false);
     ("hasEdit", JBool false);
     ("hasList", JBool true);
     ("hasShow", JBool false);
     ("location", JObj
         [("pathname", JStr "/");
          ("search", JStr "");
          ("hash", JStr "");
          ("state", JUndef)]);
     ("match", JObj
         [("path", JStr "/");
          ("url", JStr "/");
          ("isExact", JBool true);
          ("params", JObj [])]);
     ("options", JObj []);
     ("permissions", JNull);
     ("resource", JStr "members")].

Definition Dashboard (window : jsval) : jsval :=
  JEl "Box" [("sx", JObj [("p", JObj [("xs", JNum 2); ("md", JNum 3)])])]
    [JEl "Box" [("sx", JObj [("mb", JNum 4)])]
       [JEl "Typography"
          [("variant", JStr "h4");
           ("component", JStr "h1");
           ("sx", JObj
               [("fontWeight", JNum 700);
                ("color", JStr "text.primary");
                ("mb", JNum 1);
                ("fontSize", JObj [("xs", JStr "1.75rem"); ("md", JStr "2.125rem")])])]
          [JStr "Dashboard"];
        JEl "Typography"
          [("variant", JStr "body1"); ("sx", JObj [("color", JStr "text.secondary")])]
          [JStr "Monitor your distributed job scheduler at a glance"]];
     JEl "Box"
       [("sx", JObj
            [("display", JStr "grid");
             ("gridTemplateColumns", JObj
                 [("xs", JStr "1fr");
                  ("sm", JStr "repeat(2, 1fr)");
                  ("md", JStr "repeat(3, 1fr)");
                  ("lg", JStr "repeat(5, 1fr)")]);
             ("gap", JObj [("xs", JNum 2); ("md", JNum 3)]);
             ("mb", JNum 4)])]
       [JEl "Leader" [("value", js_or (jget "DKRON_LEADER" window) (JStr "devel"))] [];
        JEl "TotalJobs" [("value", js_or (jget "DKRON_TOTAL_JOBS" window) (JStr "0"))] [];
        JEl "SuccessfulJobs"
          [("value", js_or (jget "DKRON_SUCCESSFUL_JOBS" window) (JStr "0"))]
          [];
        JEl "FailedJobs" [("value", js_or (jget "DKRON_FAILED_JOBS" window) (JStr "0"))] [];
        JEl "UntriggeredJobs"
          [("value", js_or (jget "DKRON_UNTRIGGERED_JOBS" window) (JStr "0"))]
          []];
     JEl "Box" [("sx", JObj [("mb", JNum 4)])] [JEl "ExecutionStatsChart" [] []];
     JEl "Card" []
       [JEl "Box"
          [("sx", JObj
               [("p", JNum 3);
                ("borderBottom", JStr "1px solid");
                ("borderColor", JStr "divider");
                ("display", JStr "flex");
                ("alignItems", JStr "center");
                ("gap", JNum 2)])]
          [JEl "Box"
             [("sx", JObj
                  [("width", JNum 44);
                   ("height", JNum 44);
                   ("borderRadius", JNum 2);
                   ("background", JStr "linear-gradient(135deg, #1a365d 0%, #2c5282 100%)");
                   ("display", JStr "flex");
                   ("alignItems", JStr "center");
                   ("justifyContent", JStr "center");
                   ("color", JStr "white");
                   ("boxShadow", JStr "0 4px 6px -1px rgba(26, 54, 93, 0.2)")])]
             [JEl "DnsIcon" [] []];
           JEl "Box" []
             [JEl "Typography"
                [("variant", JStr "h6");
                 ("sx", JObj [("fontWeight", JNum 600); ("color", JStr "text.primary")])]
                [JStr "Cluster Nodes"];
              JEl "Typography"
                [("variant", JStr "body2"); ("sx", JObj [("color", JStr "text.secondary")])]
                [JStr "Active members in your Dkron cluster"]]];
        JEl "CardContent"
          [("sx", JObj [("p", JNum 0); ("&:last-child", JObj [("pb", JNum 0)])])]
          [JEl "List" (fields fakeProps)
             [JEl "Datagrid"
                [("isRowSelectable", JFun "() => false");
                 ("sx", JObj
                     [("& .RaDatagrid-headerCell", JObj
                          [("backgroundColor", JStr "#f7fafc");
                           ("fontWeight", JNum 600);
                           ("color", JStr "#4a5568");
                           ("fontSize", JStr "0.75rem");
                           ("textTransform", JStr "uppercase");
                           ("letterSpacing", JStr "0.05em")]);
                      ("& .RaDatagrid-rowCell", JObj [("borderBottom", JStr "1px solid #e2e8f0")])])]
                [JEl "TextField" [("source", JStr "Name"); ("sortable", JBool false)] [];
                 JEl "TextField" [("source", JStr "Addr"); ("sortable", JBool false)] [];
                 JEl "TextField" [("source", JStr "Port"); ("sortable", JBool false)] [];
                 JEl "TextField"
                   [("label", JStr "Status");
                    ("source", JStr "statusText");
                    ("sortable", JBool false)]
                   [];
                 JEl "TagsField" [] []]]]]].

(** The globals the server writes into the page. *)
Definition window_of (leader : string) (aclEnabled : bool) (c : Z * Z * Z * Z) : jsval :=
  let '(total, successful, failed, untriggered) := c in
  JObj
    [("DKRON_API_URL", JStr "../v1"); ("DKRON_LEADER", JStr leader);
     ("DKRON_TOTAL_JOBS", JNum total); ("DKRON_SUCCESSFUL_JOBS", JNum successful);
     ("DKRON_FAILED_JOBS", JNum failed); ("DKRON_UNTRIGGERED_JOBS", JNum untriggered);
     ("DKRON_ACL_ENABLED", JBool aclEnabled)].

(** The cards of the page. *)
Definition card_components (alpha : jsval → jsval → string) : components :=
  [("CardWithIcon", CardWithIcon alpha); ("Leader", Leader); ("TotalJobs", TotalJobs);
   ("SuccessfulJobs", SuccessfulJobs); ("FailedJobs", FailedJobs);
   ("UntriggeredJobs", UntriggeredJobs)].

Definition dashboard_page (alpha : jsval → jsval → string) (leader : string) (aclEnabled : bool)
    (c : Z * Z * Z * Z) : jsval :=
  expand 12 (card_components alpha) (Dashboard (window_of leader aclEnabled c)).

(** The links of a page: where they lead and the text in them. *)
Definition links (v : jsval) : list (jsval * list string) :=
  (λ l, (match l with JEl _ ps _ => jget "to" (JObj ps) | _ => JUndef end, texts l)) <$>
    subtrees "Link" v.

(** The address of the job list with a status filter. *)
Definition status_link (st : string) : string :=
  "/jobs?filter={" +:+ dquote +:+ "status" +:+ dquote +:+ ":" +:+ dquote +:+ st +:+ dquote +:+ "}".

(** ** Lemmas *)

Lemma dashboard_links alpha leader acl (t s f u : nat) :
  links (dashboard_page alpha leader acl
    (Z.of_nat t, Z.of_nat s, Z.of_nat f, Z.of_nat u)) =
  [(JStr "/jobs", [if String.eqb leader "" then "devel" else leader; "Leader"]);
   (JStr "/jobs", [pretty (Z.of_nat t); "Total Jobs"]);
   (JStr (status_link "success"), [pretty (Z.of_nat s); "Successful Jobs"]);
   (JStr (status_link "failed"), [pretty (Z.of_nat f); "Failed Jobs"]);
   (JStr (status_link "untriggered"), [pretty (Z.of_nat u); "Untriggered Jobs"])].
Proof.
  destruct leader as [|c leader], t as [|t], s as [|s], f as [|f], u as [|u];
    vm_compute; reflexivity.
Qed.

(** ** Properties *)

(** The dashboard shows five cards, each a link into the job list: the
    leader (or "devel"), the number of all jobs, and for the successful, failed
    and untriggered jobs a number that is the length of the very list the card
    leads to, with zero shown as "0". *)
Lemma dashboard_cards (alpha : jsval → jsval → string) (scan : string → bool → list GoJob.t)
    (leader : string) (acl : bool) :
  Forall (λ j, GoJob.status j ∈ statuses) (scan "name" false) →
  let shown st := pretty (Z.of_nat (length (listed scan st))) in
  links (dashboard_page alpha leader acl (uiCounters scan)) =
  [(JStr "/jobs", [if String.eqb leader "" then "devel" else leader; "Leader"]);
   (JStr "/jobs", [shown ""; "Total Jobs"]);
   (JStr (status_link "success"), [shown "success"; "Successful Jobs"]);
   (JStr (status_link "failed"), [shown "failed"; "Failed Jobs"]);
   (JStr (status_link "untriggered"), [shown "untriggered"; "Untriggered Jobs"])].
Proof. intros Hst. cbn zeta. rewrite (uiCounters_lists scan Hst). apply dashboard_links. Qed.

Lemma dashboard_cards_witness :
  let job n st := GoJob.mk n n "" "" "@hourly" "" "" 0 0 None None false None None 0 None "" JNull
    "allow" "shell" JNull st "" false None None in
  let scan (_ : string) (_ : bool) := [job "a" "success"; job "b" ""; job "c" "running"] in
  Forall (λ j, GoJob.status j ∈ statuses) (scan "name" false) ∧
  snd <$> links (dashboard_page (λ _ _, "") "node1" false (uiCounters scan)) =
    [["node1"; "Leader"]; ["3"; "Total Jobs"]; ["1"; "Successful Jobs"]; ["0"; "Failed Jobs"];
     ["1"; "Untriggered Jobs"]].
Proof.
  intros job scan.
  assert (Forall (λ j, GoJob.status j ∈ statuses) (scan "name" false)) as Hst
    by repeat constructor.
  split; [exact Hst|]. rewrite (dashboard_cards (λ _ _, "") scan "node1" false Hst). reflexivity.
Defined.
