(* ===== verification/Shell.v ===== *)
(** * Shell: the application around the pages

    src/ui/src/App.tsx, the login page, the layout with its clock, and the
    theme.  The login page and the clock are state machines; what the rest
    refers to by name (resources, routes) is looked up in the tree of [App]. *)

From S2P Require Import Prelude JsCore View DataProvider Fields Api JobViews Dashboard.

(** ** App *)

Definition jobs : jsval :=
  JObj
    [("list", JFun "JobList");
     ("edit", JFun "JobEdit");
     ("create", JFun "JobCreate");
     ("show", JFun "JobShow");
     ("icon", JFun "JobIcon")].

(** The imported providers and theme stand for themselves, by name. *)
Definition App (window : jsval) : jsval :=
  JEl "Admin"
    [("dashboard", JFun "Dashboard");
     ("loginPage", JFun "LoginPage");
     ("authProvider", if truthy (jget "DKRON_ACL_ENABLED" window) then JFun "authProvider" else JUndef);
     ("dataProvider", JFun "dataProvider");
     ("layout", JFun "Layout");
     ("theme", JFun "lightTheme")]
    [JEl "Resource"
       ([("name", JStr "jobs")]
        ++ fields jobs)
       [];
     JEl "Resource"
       [("name", JStr "busy");
        ("options", JObj [("label", JStr "Busy")]);
        ("list", JFun "BusyList");
        ("icon", JFun "PlayCircleOutlineIcon")]
       [];
     JEl "Resource" [("name", JStr "executions")] [];
     JEl "Resource"
       [("name", JStr "members");
        ("options", JObj [("label", JStr "Nodes")]);
        ("list", JFun "NodeList");
        ("icon", JFun "DnsIcon")]
       [];
     JEl "CustomRoutes" []
       [JEl "Route" [("path", JStr "/settings"); ("element", JEl "Settings" [] [])] []]].

(** ** Layout *)

Definition AppBarPREFIX : jsval :=
  JStr "CustomAppBar".

Definition classes : jsval :=
  JObj
    [("title", JStr (js_String AppBarPREFIX +:+ "-title"));
     ("spacer", JStr (js_String AppBarPREFIX +:+ "-spacer"));
     ("logo", JStr (js_String AppBarPREFIX +:+ "-logo"))].

Definition CustomUserMenu (props : jsval) : jsval :=
  JEl "UserMenu" (fields props)
    [JEl "MenuItemLink"
       [("to", JStr "https://dkron.io/docs/basics/getting-started");
        ("primaryText", JStr "Documentation");
        ("leftIcon", JEl "BookIcon" [] [])]
       [];
     JEl "MenuItemLink"
       [("to", JStr "https://github.com/distribworks/dkron");
        ("primaryText", JStr "GitHub");
        ("leftIcon", JEl "GitHubIcon" [] [])]
       [];
     JEl "Logout" [] []].

Definition CustomAppBar (logo props : jsval) : jsval :=
  JEl "StyledAppBar"
    (fields props
     ++ [("elevation", JNum 0);
         ("userMenu", JEl "CustomUserMenu" [] []);
         ("sx", JObj
             [("borderBottom", JStr "1px solid");
              ("borderColor", JStr "rgba(255, 255, 255, 0.1)")])])
    [JEl "Box"
       [("sx", JObj [("display", JStr "flex"); ("alignItems", JStr "center"); ("gap", JNum 1)])]
       [JEl "Link"
          [("to", JStr "/");
           ("style", JObj [("display", JStr "flex"); ("alignItems", JStr "center")])]
          [JEl "img" [("src", logo); ("alt", JStr "Dkron"); ("className", jget "logo" classes)]
             []]];
     JEl "Typography"
       [("variant", JStr "h6");
        ("color", JStr "inherit");
        ("className", jget "title" classes);
        ("id", JStr "react-admin-title");
        ("sx", JObj [("ml", JNum 2)])]
       [];
     JEl "span" [("className", jget "spacer" classes)] [];
     JEl "Box"
       [("sx", JObj
            [("display", JStr "flex");
             ("alignItems", JStr "center");
             ("gap", JNum 2);
             ("mr", JNum 1)])]
       [JEl "Clock" [] []]].

Definition StyledSidebar (props : jsval) : jsval :=
  JEl "CustomSidebar"
    (fields props
     ++ [("size", JNum 220)])
    [].

Definition ThemedLayout (props : jsval) : jsval :=
  JEl "Layout"
    (fields props
     ++ [("appBar", JFun "AppBar");
         ("sidebar", JFun "StyledSidebar");
         ("sx", JObj [("& .RaLayout-content", JObj [("backgroundColor", JStr "#f7fafc")])])])
    [].

Definition Settings : jsval :=
  JEl "Card" [] [JEl "Title" [("title", JStr "Settings")] []; JEl "CardContent" [] []].

(** ** Clock *)

Section clock.

(** The component: the date shown, the timer it holds, and the timers that run
    in the browser. *)
Record Clock := mkClock {
  shown : Z;
  timer : option nat;
  running : list nat;
  mounted : bool;
}.

Inductive clockEvent : Type :=
  | Mount (id : nat)
  | Tick (id : nat) (date : Z)
  | Unmount.

(** [Mount id]: [setInterval] answers with a new [id]; a running timer ticks at
    any time. *)
Definition clockStep (c : Clock) (e : clockEvent) : Clock :=
  match e with
  | Mount id => mkClock (shown c) (Some id) (id :: running c) true
  | Tick id date =>
      if bool_decide (id ∈ running c) then mkClock date (timer c) (running c) (mounted c) else c
  | Unmount =>
      mkClock (shown c) (timer c)
        (match timer c with Some id => list_remove_one id (running c) | None => running c end) false
  end.

(** [toLocaleTimeString] is the browser's. *)
Definition clockRender (toLocaleTimeString : Z → string) (c : Clock) : jsval :=
  JEl "Box"
    [("sx", JObj
         [("display", JStr "flex");
          ("alignItems", JStr "center");
          ("gap", JDec 75 2);
          ("backgroundColor", JStr "rgba(255, 255, 255, 0.1)");
          ("borderRadius", JNum 2);
          ("px", JDec 15 1);
          ("py", JDec 5 1)])]
    [JEl "AccessTimeIcon" [("sx", JObj [("fontSize", JNum 16); ("opacity", JDec 9 1)])] [];
     JEl "Typography"
       [("variant", JStr "body2");
        ("sx", JObj
            [("fontFamily", JStr ("" +:+ dquote +:+ "Roboto Mono" +:+ dquote +:+ ", monospace"));
             ("fontWeight", JNum 500);
             ("fontSize", JStr "0.8rem");
             ("letterSpacing", JStr "0.02em")])]
       [JStr (toLocaleTimeString (shown c))]].

End clock.

(** ** LoginPage *)

Module LoginClasses.
Definition t : jsval :=
  JObj
    [("card", JStr (js_String (JStr "RaLogin") +:+ "-card"));
     ("avatar", JStr (js_String (JStr "RaLogin") +:+ "-avatar"));
     ("icon", JStr (js_String (JStr "RaLogin") +:+ "-icon"))].
End LoginClasses.

Module LoginFormClasses.
Definition t : jsval :=
  JObj
    [("content", JStr (js_String (JStr "RaLoginForm") +:+ "-content"));
     ("button", JStr (js_String (JStr "RaLoginForm") +:+ "-button"));
     ("icon", JStr (js_String (JStr "RaLoginForm") +:+ "-icon"))].
End LoginFormClasses.

Definition LoginView (token loading logo className props : jsval) : jsval :=
  let className := jget "className" props in
  JEl "Root" []
    [JEl "Card" [("className", jget "card" LoginClasses.t)]
       [JEl "Box"
          [("sx", JObj [("pt", JNum 4); ("pb", JNum 2); ("px", JNum 4); ("textAlign", JStr "center")])]
          [JEl "Box"
             [("sx", JObj [("mb", JNum 3); ("display", JStr "flex"); ("justifyContent", JStr "center")])]
             [JEl "img"
                [("src", logo); ("alt", JStr "Dkron"); ("style", JObj [("maxWidth", JNum 140)])]
                []];
           JEl "Typography"
             [("variant", JStr "h5");
              ("component", JStr "h1");
              ("sx", JObj [("fontWeight", JNum 600); ("color", JStr "text.primary"); ("mb", JNum 1)])]
             [JStr "Welcome Back"];
           JEl "Typography"
             [("variant", JStr "body2"); ("sx", JObj [("color", JStr "text.secondary")])]
             [JStr "Sign in to access your job scheduler"]];
        JEl "form" [("onSubmit", JFun "handleSubmit"); ("className", className)]
          [JEl "CardContent" [("className", jget "content" LoginFormClasses.t)]
             [JEl "TextField"
                [("name", JStr "token");
                 ("label", JStr "Access Token");
                 ("type", JStr "password");
                 ("value", token);
                 ("onChange", JFun "e => setToken(e.target.value)");
                 ("fullWidth", JBool true);
                 ("variant", JStr "outlined");
                 ("margin", JStr "normal");
                 ("autoFocus", JBool true);
                 ("sx", JObj [("& .MuiOutlinedInput-root", JObj [("borderRadius", JNum 2)])])]
                [];
              JEl "Button"
                [("variant", JStr "contained");
                 ("type", JStr "submit");
                 ("color", JStr "primary");
                 ("disabled", loading);
                 ("fullWidth", JBool true);
                 ("size", JStr "large");
                 ("sx", JObj
                     [("mt", JNum 2);
                      ("mb", JNum 1);
                      ("py", JDec 15 1);
                      ("borderRadius", JNum 2);
                      ("fontWeight", JNum 600);
                      ("textTransform", JStr "none");
                      ("fontSize", JStr "1rem")])]
                [if truthy loading
                 then JEl "CircularProgress"
                        [("className", jget "icon" LoginFormClasses.t);
                         ("size", JNum 24);
                         ("thickness", JNum 3);
                         ("sx", JObj [("color", JStr "white")])]
                        []
                 else JStr "Sign In"]]]];
     JEl "Typography"
       [("variant", JStr "body2");
        ("sx", JObj
            [("mt", JNum 4);
             ("color", JStr "rgba(255, 255, 255, 0.6)");
             ("textAlign", JStr "center")])]
       [JStr "Dkron - Distributed Job Scheduling System"]].

Section login.

(** The states of the page, the storage of the browser, and the notifications. *)
Record LoginState := mkLogin {
  l_token : string;
  l_loading : bool;
  l_storage : storage;
  l_notes : list string;
}.

Inductive loginEvent : Type :=
  | Type_ (token : string)
  | Submit.

(** [login] of the hook calls the provider and navigates on once it resolves;
    the page does not change its state then. The form is not submitted while
    its button is disabled. *)
Definition loginStep (s : LoginState) (e : loginEvent) : LoginState :=
  match e with
  | Type_ token => mkLogin token (l_loading s) (l_storage s) (l_notes s)
  | Submit =>
      if l_loading s then s else
      match Auth.authProvider (Auth.login (JStr (l_token s))) (l_storage s) with
      | (ls, Resolved _) => mkLogin (l_token s) true ls (l_notes s)
      | (ls, Rejected) => mkLogin (l_token s) false ls (l_notes s ++ ["Invalid token"])
      end
  end.
End login.

(** ** What the pages refer to *)

(** The resources [App] declares. *)
Definition resources (app : jsval) : list string :=
  js_String ∘ jget "name" <$> tagged "Resource" app.

(** The resources the pages refer to: by reference fields, by the list on the
    dashboard, by the links of its cards. *)
Definition link_resource (to : jsval) : string :=
  match to with
  | JStr (String "/"%char s) =>
      match String.index 0 "?" s with Some n => String.substring 0 n s | None => s end
  | _ => ""
  end.

Definition referred (window : jsval) : list string :=
  (js_String <$> prop_values "reference" show_page) ++
  (js_String <$> prop_values "resource" (Dashboard window)) ++
  (link_resource ∘ fst <$> links (expand 12 (card_components (λ _ _, "")) (Dashboard window))).

(** ** Lemmas *)

(** How React drives the component: it mounts what is not mounted, with a timer
    that does not run yet, and unmounts what is. *)
Inductive clock_cycle : Clock → Clock → Prop :=
  | cycle_mount c id : mounted c = false → id ∉ running c → clock_cycle c (clockStep c (Mount id))
  | cycle_tick c id date : clock_cycle c (clockStep c (Tick id date))
  | cycle_unmount c : mounted c = true → clock_cycle c (clockStep c Unmount).

Definition clock_start (date : Z) : Clock := mkClock date None [] false.

Definition clock_ok (c : Clock) : Prop :=
  if mounted c then ∃ id, timer c = Some id ∧ running c = [id] else running c = [].

Lemma clock_ok_step c c' : clock_cycle c c' → clock_ok c → clock_ok c'.
Proof.
  unfold clock_ok. intros [c0 id Hm _|c0 id date|c0 Hm]; cbn.
  - rewrite Hm. intros ->. by exists id.
  - by destruct (bool_decide _).
  - rewrite Hm. intros (id & -> & ->). cbn. by rewrite decide_True.
Qed.

Lemma clock_ok_reachable date c : rtc clock_cycle (clock_start date) c → clock_ok c.
Proof.
  intros H. assert (∀ x, rtc clock_cycle x c → clock_ok x → clock_ok c) as Hr.
  { induction 1; [done|]. eauto using clock_ok_step. }
  by apply (Hr _ H).
Qed.

Definition login_run (es : list loginEvent) (s : LoginState) : LoginState :=
  fold_left loginStep es s.

Lemma app_resources leader acl c :
  resources (App (window_of leader acl c)) = ["jobs"; "busy"; "executions"; "members"].
Proof. destruct c as [[[t s] f] u], acl; reflexivity. Qed.

Lemma referred_lists leader acl (t s f u : nat) :
  referred (window_of leader acl (Z.of_nat t, Z.of_nat s, Z.of_nat f, Z.of_nat u)) =
    ["executions"; "members"; "jobs"; "jobs"; "jobs"; "jobs"; "jobs"].
Proof.
  destruct leader as [|c leader], t as [|t], s as [|s], f as [|f], u as [|u];
    vm_compute; reflexivity.
Qed.

(** ** Properties *)

(** The clock: while it is mounted exactly one timer runs, the one it
    holds, and every tick of it shows the new date; once it is unmounted none
    runs, and no tick changes what it shows. *)
Lemma clock_one_timer (start date : Z) (id : nat) (c : Clock) :
  rtc clock_cycle (clock_start start) c →
  let c' := clockStep c (Tick id date) in
  if mounted c then
    length (running c) = 1%nat ∧ (timer c = Some id → shown c' = date) ∧
    (timer c ≠ Some id → c' = c)
  else running c = [] ∧ c' = c.
Proof.
  intros Hok%clock_ok_reachable. unfold clock_ok in Hok. cbn.
  destruct (mounted c) eqn:Hm.
  - destruct Hok as (i & Ht & Hr). rewrite Hr, Ht. split; [done|].
    destruct (decide (id = i)) as [->|Hne].
    + rewrite bool_decide_true by set_solver. split; [done|]. by intros [].
    + rewrite bool_decide_false by set_solver. split; [|done]. by intros [= <-].
  - rewrite Hok, bool_decide_false by set_solver. done.
Qed.

(** The login page accepts every token, so it never says "Invalid token":
    submitting stores the token as typed and leaves the page loading; whether
    the user is let in then depends on nothing but the token being there, and
    every later request carries it. *)
Lemma login_accepts_any (es : list loginEvent) (s : LoginState) (t : string) :
  l_loading s = false → l_loading (login_run es s) = false →
  let s' := loginStep (loginStep (login_run es s) (Type_ t)) Submit in
  l_notes s' = l_notes s ∧ l_loading s' = true ∧ l_storage s' !! "token" = Some t ∧
  (Auth.authProvider Auth.checkAuth (l_storage s')).2 =
    (if String.eqb t "" then Rejected else Resolved JUndef) ∧
  default ∅ (headers (requestOptions (l_storage s') (mkOptions None None None))) !! "authorization" =
    (if String.eqb t "" then None else Some ("Bearer " +:+ t)).
Proof.
  intros Hs Hr. cbn zeta.
  assert (l_notes (login_run es s) = l_notes s) as Hn.
  { clear Hr. revert s Hs. unfold login_run. induction es as [|e es IH] using rev_ind; [done|].
    intros s Hs. rewrite fold_left_app. cbn. rewrite <-(IH s Hs).
    destruct (fold_left loginStep es s) as [tok ld ls ns], e; [done|]. by destruct ld. }
  assert (loginStep (loginStep (login_run es s) (Type_ t)) Submit =
    mkLogin t true (<["token" := t]> (l_storage (login_run es s))) (l_notes s)) as ->.
  { rewrite <-Hn. destruct (login_run es s) as [tok ld ls ns]. cbn in Hr. by subst ld. }
  cbn [l_notes l_loading l_storage]. rewrite lookup_insert_eq. split_and!; try done.
  - cbn [Auth.authProvider snd]. rewrite getToken_insert. cbn. by destruct (String.eqb t "").
  - rewrite requestOptions_lookup, getToken_insert, lookup_insert_eq. cbn [truthy].
    destruct (String.eqb t ""); cbn [negb].
    + rewrite decide_False by naive_solver. cbn. unfold defaultHeaders.
      by rewrite lookup_singleton_ne.
    + by rewrite decide_True.
Qed.

(** The application: requests are authenticated exactly when the server
    says that access control is on; the resources are declared once each, and
    every resource the pages refer to (the executions of a job, the members on
    the dashboard, the lists behind the cards) is declared. *)
Lemma app_wiring (leader : string) (acl : bool) (t s f u : nat) :
  let window := window_of leader acl (Z.of_nat t, Z.of_nat s, Z.of_nat f, Z.of_nat u) in
  let app := App window in
  jget "authProvider" <$> tagged "Admin" app = [if acl then JFun "authProvider" else JUndef] ∧
  NoDup (resources app) ∧ (∀ r, r ∈ referred window → r ∈ resources app).
Proof.
  cbn zeta. split_and!.
  - destruct acl; reflexivity.
  - rewrite app_resources. apply (bool_decide_unpack _). vm_compute. exact I.
  - intros r. rewrite app_resources, referred_lists. set_solver.
Qed.

Lemma login_accepts_any_witness :
  let s := mkLogin "" false ∅ [] in
  l_notes (loginStep (loginStep s (Type_ "anything")) Submit) = [] ∧
  l_storage (loginStep (loginStep s (Type_ "anything")) Submit) !! "token" = Some "anything".
Proof.
  pose proof (login_accepts_any [] (mkLogin "" false ∅ []) "anything" eq_refl eq_refl) as H.
  split; [exact (proj1 H)|]. exact (proj1 (proj2 (proj2 H))).
Defined.

Lemma clock_one_timer_witness :
  let c := clockStep (clock_start 0) (Mount 7) in
  shown (clockStep c (Tick 7 1000)) = 1000.
Proof.
  refine (proj1 (proj2 (clock_one_timer 0 1000 7 (clockStep (clock_start 0) (Mount 7)) _)) eq_refl).
  apply rtc_once. apply cycle_mount; [reflexivity|]. apply not_elem_of_nil.
Defined.
