(* ===== verification/Site.v ===== *)
(** * Site: the pages of the project's website

    src/website: the home page and its sections, the page of the Pro edition
    and the site configuration, as element trees.  [Layout], [CountUp] and the
    icons are library components.  Characters outside ASCII are their UTF-8
    bytes. *)

From S2P Require Import Prelude JsCore View.

(** ** Configuration *)

Section config.
(** The themes required from a package, the resolver of file names, and the
    current year. *)
Variables (lightCodeTheme darkCodeTheme year : jsval) (resolve : string → jsval).

Definition footer : jsval :=
  JObj
    [("style", JStr "dark");
     ("links", JArr
         [JObj
            [("title", JStr "Docs");
             ("items", JArr [JObj [("label", JStr "Intro"); ("to", JStr "/docs/intro")]])];
          JObj
            [("title", JStr "Community");
             ("items", JArr
                 [JObj
                    [("label", JStr "Stack Overflow");
                     ("href", JStr "https://stackoverflow.com/questions/tagged/dkron")];
                  JObj [("label", JStr "Gitter"); ("href", JStr "https://gitter.im/distribworks/dkron")];
                  JObj [("label", JStr "Twitter"); ("href", JStr "https://twitter.com/distribworks")]])];
          JObj
            [("title", JStr "More");
             ("items", JArr
                 [JObj [("label", JStr "Blog"); ("to", JStr "/blog")];
                  JObj [("label", JStr "GitHub"); ("href", JStr "https://github.com/distribworks/dkron")]])]]);
     ("copyright", JStr ("Copyright © " +:+ js_String year +:+ " Distributed Works. Built with Docusaurus."))].

Definition config : jsval :=
  JObj
    [("title", JStr "Dkron");
     ("tagline", JStr "Easy, Reliable Cron jobs");
     ("url", JStr "https://dkron.io");
     ("baseUrl", JStr "/");
     ("onBrokenLinks", JStr "throw");
     ("markdown", JObj
         [("mermaid", JBool true);
          ("hooks", JObj [("onBrokenMarkdownLinks", JStr "warn")])]);
     ("favicon", JStr "img/favicon.ico");
     ("organizationName", JStr "distribworks");
     ("projectName", JStr "dkron");
     ("customFields", JObj
         [("description", JStr "A distributed Cron service with, API, no SPOF and an easy to use dashboard.");
          ("description_extended", JStr "Dkron is a system service for workload automation that runs scheduled jobs, just like unix cron service but distributed in several machines in a cluster. This is the only job scheduler in the market with truly no SPOF. It is open source and available for free.")]);
     ("plugins", JArr [JFun "async function myPlugin(context, options) { return { name: 'docusaurus-tailwindcss', configurePostCss(postcssOptions) { postcssOptions.plugins.push(require('tailwindcss')); postcssOptions.plugins.push(require('autoprefixer')); return postcssOptions; }, }; }"]);
     ("themes", JArr [JStr "@docusaurus/theme-mermaid"]);
     ("presets", JArr
         [JArr
            [JStr "redocusaurus";
             JObj
               [("specs", JArr [JObj [("spec", JStr "static/openapi/openapi.yaml"); ("route", JStr "/api/")]]);
                ("theme", JObj [("primaryColor", JStr "#1890ff")])]];
          JArr
            [JStr "classic";
             JObj
               [("docs", JObj
                    [("sidebarPath", resolve "./sidebars.js");
                     ("editUrl", JStr "https://github.com/distribworks/dkron/tree/main/website/docs/");
                     ("lastVersion", JStr "current");
                     ("versions", JObj [("current", JObj [("label", JStr "v4"); ("path", JStr "")])])]);
                ("blog", JObj
                    [("showReadingTime", JBool true);
                     ("editUrl", JStr "https://github.com/distribworks/dkron/tree/main/website/blog/")]);
                ("theme", JObj [("customCss", resolve "./src/css/custom.css")])]]]);
     ("themeConfig", JObj
         [("colorMode", JObj [("defaultMode", JStr "light"); ("disableSwitch", JBool true)]);
          ("navbar", JObj
              [("title", JStr "");
               ("logo", JObj [("alt", JStr "Dkron Logo"); ("src", JStr "img/dkron-logo-black.png")]);
               ("items", JArr
                   [JObj
                      [("type", JStr "doc");
                       ("docId", JStr "basics/getting-started");
                       ("position", JStr "left");
                       ("label", JStr "Docs")];
                    JObj [("to", JStr "/api/"); ("label", JStr "API"); ("position", JStr "left")];
                    JObj [("to", JStr "/blog"); ("label", JStr "Blog"); ("position", JStr "left")];
                    JObj [("to", JStr "/license"); ("label", JStr "License"); ("position", JStr "left")];
                    JObj
                      [("href", JStr "https://github.com/distribworks/dkron");
                       ("label", JStr "GitHub");
                       ("position", JStr "right")];
                    JObj [("type", JStr "docsVersionDropdown")];
                    JObj
                      [("to", JStr "/pro/");
                       ("label", JStr "PRO");
                       ("position", JStr "left");
                       ("className", JStr "navbar-link-go-pro")]])]);
          ("footer", footer);
          ("prism", JObj [("theme", lightCodeTheme); ("darkTheme", darkCodeTheme)]);
          ("algolia", JObj
              [("appId", JStr "M5K5E6F8F3");
               ("apiKey", JStr "a982a80736a4c0775dc829d142d311b6");
               ("indexName", JStr "Documentation site")])]);
     ("scripts", JArr [JObj [("src", JStr "/js/linkedin.js"); ("defer", JBool true)]])].

End config.

Definition sidebars : jsval :=
  JObj [("tutorialSidebar", JArr [JObj [("type", JStr "autogenerated"); ("dirName", JStr ".")]])].

(** ** Sections of the home page *)

Definition HomepageBanner : jsval :=
  JEl "div" [("className", JStr "bg-gradient-to-tr from-pink-600 to-fuchsia-700")]
    [JEl "div" [("className", JStr "px-3 py-3 mx-auto max-w-7xl sm:px-6 lg:px-8")]
       [JEl "div" [("className", JStr "flex flex-wrap items-center justify-between")]
          [JEl "div" [("className", JStr "flex items-center flex-1")]
             [JEl "span" [("className", JStr "flex p-2 rounded-md bg-fuchsia-800")]
                [JEl "SpeakerphoneIcon"
                   [("className", JStr "w-6 h-6 text-white"); ("aria-hidden", JStr "true")]
                   []];
              JEl "p" [("className", JStr "mb-0 ml-3 font-medium text-white truncate")]
                [JEl "span" [("className", JStr "md:hidden")] [JStr "Dkron 4.0 Beta is here!"];
                 JEl "span" [("className", JStr "hidden md:inline")]
                   [JStr "Big news! Dkron 4.0 Stable is here!"]]];
           JEl "div"
             [("className", JStr "flex-shrink-0 order-3 w-full mt-2 sm:order-2 sm:mt-0 sm:w-auto")]
             [JEl "a"
                [("href", JStr "/blog/dkron-pro-4.0-stable/");
                 ("className", JStr "flex items-center justify-center px-4 py-2 text-sm font-medium bg-white border border-transparent rounded-sm shadow-sm text-fuchsia-600 hover:bg-indigo-50")]
                [JStr "Learn more"]]]]].

Definition HomepageHeader (siteConfig : jsval) : jsval :=
  JEl "header" []
    [JEl "div" [("className", JStr "container relative overflow-hidden")]
       [JEl "div"
          [("className", JStr "absolute inset-y-0 w-full h-full");
           ("aria-hidden", JStr "true")]
          [JEl "div" [("className", JStr "relative h-full")]
             [JEl "svg"
                [("className", JStr "absolute mt-8 -top-16");
                 ("width", JNum 400);
                 ("height", JNum 620);
                 ("viewBox", JStr "0 0 1200 630");
                 ("xmlns", JStr "http://www.w3.org/2000/svg")]
                [JEl "defs" []
                   [JEl "pattern"
                      [("id", JStr "pattern");
                       ("x", JStr "0");
                       ("y", JStr "0");
                       ("width", JStr "100");
                       ("height", JStr "100");
                       ("patternUnits", JStr "userSpaceOnUse");
                       ("patternTransform", JStr "translate(0, 0) rotate(0) skewX(0)")]
                      [JEl "svg"
                         [("width", JStr "46"); ("height", JStr "46"); ("viewBox", JStr "0 0 100 100")]
                         [JEl "g"
                            [("className", JStr "text-pink-100");
                             ("fill", JStr "currentColor");
                             ("opacity", JStr "1")]
                            [JEl "path"
                               [("d", JStr "M95.2171 74.9997V25.0003L50.1086 0L5 25.0003V74.9997L50.1086 100L95.2171 74.9997Z")]
                               []]]]];
                 JEl "rect"
                   [("x", JStr "0");
                    ("y", JStr "0");
                    ("width", JNum 400);
                    ("height", JNum 1200);
                    ("fill", JStr "url(#pattern)")]
                   []];
              JEl "svg"
                [("className", JStr "absolute mt-2 transform rotate-180 right-8");
                 ("width", JNum 400);
                 ("height", JNum 320);
                 ("viewBox", JStr "0 0 1200 630");
                 ("xmlns", JStr "http://www.w3.org/2000/svg")]
                [JEl "defs" []
                   [JEl "pattern"
                      [("id", JStr "pattern");
                       ("x", JStr "0");
                       ("y", JStr "0");
                       ("width", JStr "100");
                       ("height", JStr "100");
                       ("patternUnits", JStr "userSpaceOnUse");
                       ("patternTransform", JStr "translate(0, 0) rotate(0) skewX(0)")]
                      [JEl "svg"
                         [("width", JStr "46"); ("height", JStr "46"); ("viewBox", JStr "0 0 100 100")]
                         [JEl "g"
                            [("className", JStr "text-pink-100");
                             ("fill", JStr "currentColor");
                             ("opacity", JStr "1")]
                            [JEl "path"
                               [("d", JStr "M95.2171 74.9997V25.0003L50.1086 0L5 25.0003V74.9997L50.1086 100L95.2171 74.9997Z")]
                               []]]]];
                 JEl "rect"
                   [("x", JStr "0");
                    ("y", JStr "0");
                    ("width", JNum 400);
                    ("height", JNum 1200);
                    ("fill", JStr "url(#pattern)")]
                   []]]];
        JEl "div"
          [("className", JStr "relative px-4 mx-auto mt-16 max-w-7xl sm:mt-24 sm:px-6")]
          [JEl "div" [("className", JStr "text-center")]
             [JEl "h1"
                [("className", JStr "text-4xl font-extrabold tracking-tight text-fuchsia-900 sm:text-5xl md:text-6xl lg:text-5xl xl:text-6xl")]
                [JEl "span" [("className", JStr "block xl:inline")] [jget "tagline" siteConfig]];
              JEl "p"
                [("className", JStr "max-w-md mx-auto mt-3 text-lg text-gray-500 sm:text-xl md:mt-5 md:max-w-3xl")]
                [jget "description" (jget "customFields" siteConfig)];
              JEl "div" [("className", JStr "mt-10 sm:flex sm:justify-center")]
                [JEl "div" [("className", JStr "rounded-md shadow")]
                   [JEl "a"
                      [("href", JStr "https://github.com/distribworks/dkron/releases");
                       ("className", JStr "flex items-center justify-center w-full px-8 py-3 text-base font-medium text-white border-2 border-transparent border-solid rounded-md bg-gradient-to-r from-fuchsia-600 to-pink-600 hover:bg-fuchsia-700 md:py-4 md:text-lg md:px-10 hover:no-underline hover:text-white/90")]
                      [JStr "Download"]];
                 JEl "div" [("className", JStr "mt-3 rounded-md shadow sm:mt-0 sm:ml-3")]
                   [JEl "a"
                      [("href", JStr "http://test.dkron.io:8080/ui");
                       ("className", JStr "flex items-center justify-center w-full px-8 py-3 text-base font-medium bg-white border-2 border-solid rounded-md text-fuchsia-600 hover:text-fuchsia-700 border-fuchsia-600 hover:bg-white md:py-4 md:text-lg md:px-10 hover:no-underline")]
                      [JStr "Live demo"]]]]];
        JEl "div" [("className", JStr "relative mt-4")]
          [JEl "div"
             [("className", JStr "absolute inset-0 flex flex-col");
              ("aria-hidden", JStr "true")]
             [JEl "div" [("className", JStr "flex-1")] [];
              JEl "div" [("className", JStr "flex-1 w-full")] []];
           JEl "div" [("className", JStr "px-4 mx-auto max-w-7xl sm:px-6")]
             [JEl "img"
                [("className", JStr "relative rounded-lg");
                 ("src", JStr "../img/job-list-new.png");
                 ("alt", JStr "App screenshot")]
                []]]]].

Definition HomepageDescPanel (siteConfig : jsval) : jsval :=
  JEl "div" [("className", JStr "bg-white")]
    [JEl "div" [("className", JStr "px-4 py-8 mx-auto max-w-7xl sm:px-6 lg:px-8")]
       [JEl "div"
          [("className", JStr "px-6 py-10 rounded-md bg-gradient-to-tr from-pink-600 to-fuchsia-700 sm:py-16 sm:px-12 lg:p-16 lg:flex lg:items-center")]
          [JEl "div" [("className", JStr "lg:w-0 lg:flex-1")]
             [JEl "p" [("className", JStr "max-w-3xl text-2xl text-pink-50")]
                [jget "description_extended" (jget "customFields" siteConfig)]];
           JEl "div"
             [("className", JStr "relative mt-12 sm:w-full sm:max-w-md lg:mt-0 lg:ml-8 lg:flex-1")]
             [JEl "div"
                [("className", JStr "absolute right-0 flex items-center justify-center transform -translate-y-1/2 opacity-10 md:opacity-50 top-1/2")]
                [JEl "svg"
                   [("className", JStr "w-64 h-auto");
                    ("viewBox", JStr "0 0 120 124");
                    ("fill", JStr "none");
                    ("xmlns", JStr "http://www.w3.org/2000/svg")]
                   [JEl "path"
                      [("d", JStr "M111.75 52.2198V74.4199C111.75 82.3199 107.54 89.6198 100.7 93.5698L81.4795 104.67C80.1895 97.7599 75.6896 91.9798 69.5796 88.9498C68.0796 88.1998 67.1197 86.6698 67.1197 84.9898V71.9099C67.1197 67.8399 63.8196 64.5399 59.7496 64.5399C55.6796 64.5399 52.3794 67.8399 52.3794 71.9099V84.9898C52.3794 86.6698 51.4195 88.1998 49.9095 88.9498C43.7995 91.9898 39.2996 97.7599 38.0096 104.67L18.7896 93.5698C11.9496 89.6198 7.73955 82.3199 7.73955 74.4199V52.2198C14.3695 54.5598 21.6196 53.5499 27.3096 49.7699C28.7096 48.8399 30.5095 48.7799 31.9695 49.6199L43.1495 56.0698C46.6095 58.0698 51.1095 57.0798 53.2295 53.6898C55.4595 50.1298 54.2695 45.4699 50.6695 43.3899L39.3396 36.8498C37.8796 36.0098 37.0395 34.4198 37.1395 32.7398C37.5595 25.9298 34.8095 19.1398 29.4695 14.5698L48.6895 3.46982C55.5295 -0.480176 63.9596 -0.480176 70.7996 3.46982L90.0196 14.5698C84.6796 19.1398 81.9297 25.9298 82.3497 32.7298C82.4497 34.4098 81.6095 36.0098 80.1495 36.8498L68.8196 43.3899C65.2896 45.4299 64.0897 49.9298 66.1197 53.4598C68.1597 56.9898 72.6595 58.1899 76.1895 56.1599L87.5196 49.6199C88.9796 48.7799 90.7795 48.8399 92.1795 49.7699C97.8695 53.5399 105.12 54.5598 111.75 52.2198ZM68.8895 97.1898C68.1695 96.6198 67.1097 97.1498 67.1097 98.0698V108.75C67.1097 112.82 63.8095 116.12 59.7395 116.12C55.6695 116.12 52.3697 112.82 52.3697 108.75V98.0798C52.3697 97.1498 51.2996 96.6398 50.5696 97.2098C46.9596 100.08 44.7296 104.6 45.0196 109.64C45.4496 116.97 51.3395 122.93 58.6595 123.45C67.2895 124.06 74.4695 117.24 74.4695 108.75C74.4795 104.06 72.2895 99.8898 68.8895 97.1898ZM20.4595 45.0698C21.3295 44.7298 21.4297 43.5398 20.6197 43.0798L11.3794 37.7398C7.78944 35.6698 6.59961 31.0298 8.79961 27.4798C10.9196 24.0498 15.5196 23.1099 19.0196 25.1299L29.8096 31.3598C29.7996 25.9998 26.8695 20.7899 21.6595 18.1699C15.0295 14.8399 6.75953 17.0899 2.71953 23.3099C-1.91047 30.4499 0.429507 39.9199 7.69951 44.1199C11.7395 46.4599 16.4295 46.6598 20.4595 45.0698ZM117.179 23.9898C113.109 16.9398 104.1 14.5298 97.0396 18.5998C92.9896 20.9398 90.4796 24.8998 89.8296 29.1898C89.6896 30.1098 90.6795 30.7799 91.4795 30.3099L100.72 24.9698C104.25 22.9298 108.75 24.1399 110.79 27.6699C112.83 31.1999 111.62 35.6998 108.09 37.7398L98.8497 43.0798C98.0497 43.5398 98.1396 44.7298 98.9996 45.0698C103.04 46.6598 107.73 46.4599 111.78 44.1299C118.84 40.0499 121.249 31.0398 117.179 23.9898Z");
                       ("fill", JStr "white")]
                      []]]]]]].

Module Features.
Definition features : jsval :=
  JArr
    [JObj
       [("title", JStr "Easy integration");
        ("img", JStr "../img/integration.png");
        ("description", JEl "" []
            [JStr "Dkron is easy to setup and use. Choose your OS package and it's ready to run out-of-the-box. The administration panel and it's simple JSON API makes a breeze to integrate with you current workflow or deploy system."])];
     JObj
       [("title", JStr "Always available");
        ("img", JStr "../img/available.png");
        ("description", JEl "" []
            [JStr "Using the power of the Raft protocol, Dkron is designed to be always available. If the cluster leader node fails, a follower will replace it, all without human intervention."])];
     JObj
       [("title", JStr "Flexible targets");
        ("img", JStr "../img/targets.png");
        ("description", JEl "" []
            [JStr "Simple but powerful tag-based target node selection for jobs. Tag node count allows to run jobs in an arbitrary number of nodes in the same group or groups."])]].

Definition HomepageFeatures : jsval :=
  JEl "section" [("className", JStr "py-12 mt-16 bg-zinc-100")]
    [JEl "div" [("className", JStr "px-4 mx-auto max-w-7xl sm:px-6 lg:px-8")]
       [JEl "h2" [("className", JStr "text-4xl font-bold text-fuchsia-700")] [JStr "Features"];
        JEl "dl"
          [("className", JStr "space-y-10 lg:space-y-0 lg:grid lg:grid-cols-3 lg:gap-16")]
          [jmap (λ feature,
               JEl "div" [("key", jget "title" feature)]
                 [JEl "dt" []
                    [JEl "div" [("className", JStr "")]
                       [JEl "img" [("src", jget "img" feature); ("alt", JStr "")] []];
                     JEl "p"
                       [("className", JStr "mt-4 text-2xl font-bold text-transparent bg-clip-text bg-gradient-to-r from-pink-400 to-fuchsia-600")]
                       [jget "title" feature]];
                  JEl "dd" [("className", JStr "mt-4 ml-0 text-base text-gray-500")]
                    [jget "description" feature]])
             features]]].
End Features.

Module UseCases.
Definition useCases : jsval :=
  JArr
    [JObj [("name", JStr "Email delivery"); ("img", JStr "img/email-delivery.png")];
     JObj [("name", JStr "Payroll generation"); ("img", JStr "img/payroll-generation.png")];
     JObj [("name", JStr "Bookkeeping"); ("img", JStr "img/book-keeping.png")];
     JObj
       [("name", JStr "Data consolidation for BI");
        ("img", JStr "img/data-consolidation.png")];
     JObj
       [("name", JStr "Recurring invoicing");
        ("img", JStr "img/recurring-invoicing.png")];
     JObj [("name", JStr "Data transfer"); ("img", JStr "img/data-transfer.png")]].

Definition HomepageUseCases : jsval :=
  JEl "section" [("className", JStr "bg-gradient-to-tr from-pink-600 to-fuchsia-700")]
    [JEl "div"
       [("className", JStr "px-4 py-12 mx-auto border-t border-gray-200 max-w-7xl sm:px-6 lg:py-20 lg:px-8")]
       [JEl "h3" [("className", JStr "text-4xl font-bold text-white")]
          [JStr "Example use cases"];
        JEl "div" [("className", JStr "grid sm:grid-cols-2 gap-0.5 md:grid-cols-3 lg:mt-8")]
          [jmap (λ use,
               JEl "div"
                 [("key", jget "name" use);
                  ("className", JStr "flex items-center col-span-1 px-8 py-8 bg-gray-50/20")]
                 [JEl "img"
                    [("className", JStr "shrink-0 max-h-16");
                     ("src", jget "img" use);
                     ("alt", jget "name" use)]
                    [];
                  JEl "p" [("className", JStr "mb-0 ml-4 text-xl text-white")] [jget "name" use]])
             useCases]]].
End UseCases.

Module Pricing.
Definition tiers : jsval :=
  JArr
    [JObj
       [("name", JStr "Free");
        ("href", JStr "https://github.com/distribworks/dkron/");
        ("priceYearly", JStr "FREE")];
     JObj [("name", JStr "Pro"); ("href", JStr "/pro/"); ("priceYearly", JNum 450)]].

Definition sections : jsval :=
  JArr
    [JObj
       [("name", JStr "Features");
        ("features", JArr
            [JObj
               [("name", JStr "Executor plugins");
                ("tiers", JObj [("Free", JBool true); ("Pro", JBool true)])];
             JObj
               [("name", JStr "Processor plugins");
                ("tiers", JObj [("Free", JBool true); ("Pro", JBool true)])];
             JObj
               [("name", JStr "Web UI");
                ("tiers", JObj [("Free", JBool true); ("Pro", JBool true)])];
             JObj
               [("name", JStr "Rest API");
                ("tiers", JObj [("Free", JBool true); ("Pro", JBool true)])];
             JObj
               [("name", JStr "Job retries");
                ("tiers", JObj [("Free", JBool true); ("Pro", JBool true)])];
             JObj
               [("name", JStr "Job chaining");
                ("tiers", JObj [("Free", JBool true); ("Pro", JBool true)])];
             JObj
               [("name", JStr "Concurrency control");
                ("tiers", JObj [("Free", JBool true); ("Pro", JBool true)])];
             JObj
               [("name", JStr "Metrics");
                ("tiers", JObj [("Free", JBool true); ("Pro", JBool true)])];
             JObj
               [("name", JStr "Embedded storage engine");
                ("tiers", JObj [("Free", JBool true); ("Pro", JBool true)])];
             JObj [("name", JStr "Fast mode"); ("tiers", JObj [("Pro", JBool true)])];
             JObj [("name", JStr "Docker executor"); ("tiers", JObj [("Pro", JBool true)])];
             JObj [("name", JStr "AWS ECS executor"); ("tiers", JObj [("Pro", JBool true)])];
             JObj [("name", JStr "Elasticsearch processor"); ("tiers", JObj [("Pro", JBool true)])];
             JObj [("name", JStr "Advanced Email processor"); ("tiers", JObj [("Pro", JBool true)])];
             JObj [("name", JStr "Slack processor"); ("tiers", JObj [("Pro", JBool true)])];
             JObj [("name", JStr "Encryption"); ("tiers", JObj [("Pro", JBool true)])];
             JObj [("name", JStr "Web UI Authentication"); ("tiers", JObj [("Pro", JBool true)])];
             JObj [("name", JStr "API Authentication"); ("tiers", JObj [("Pro", JBool true)])];
             JObj [("name", JStr "Access Control"); ("tiers", JObj [("Pro", JBool true)])];
             JObj [("name", JStr "Cross region failover"); ("tiers", JObj [("Pro", JBool true)])];
             JObj
               [("name", JStr "Dedicated Support");
                ("tiers", JObj [("Free", JStr "None"); ("Pro", JStr "Email")])];
             JObj
               [("name", JStr "License");
                ("tiers", JObj [("Free", JStr "LGPL"); ("Pro", JStr "Commercial - No custom terms")])];
             JObj [("name", JStr "Purchasing"); ("tiers", JObj [("Pro", JStr "Credit Card")])]])]].

(** The table for wide screens. *)
Definition pricingTable : jsval :=
  JEl "table" [("className", JStr "w-full table-fixed")]
    [JEl "caption" [("className", JStr "sr-only")] [JStr "Pricing plan comparison"];
     JEl "thead" []
       [JEl "tr" []
          [JEl "th"
             [("className", JStr "pb-4 pl-6 pr-6 text-sm font-medium text-left text-gray-900");
              ("scope", JStr "col")]
             [JEl "span" [("className", JStr "sr-only")] [JStr "Feature by"];
              JEl "span" [] [JStr "Plans"]];
           jmap (λ tier,
               JEl "th"
                 [("key", jget "name" tier);
                  ("className", JStr "w-1/4 px-6 pb-4 text-lg font-medium leading-6 text-left text-gray-900");
                  ("scope", JStr "col")]
                 [jget "name" tier;
                  JEl "svg"
                    [("className", JStr "w-2 h-2 mx-2 text-gray-800/20");
                     ("fill", JStr "currentColor");
                     ("viewBox", JStr "0 0 8 8")]
                    [JEl "circle" [("cx", JNum 4); ("cy", JNum 4); ("r", JNum 3)] []];
                  JEl "a" [("className", JStr "text-xs"); ("href", jget "href" tier)]
                    [JStr "Learn more"]])
             tiers]];
     JEl "tbody" [("className", JStr "border-t border-gray-200 divide-y divide-gray-200")]
       [JEl "tr" []
          [JEl "th"
             [("className", JStr "py-8 pl-6 pr-6 text-sm font-medium text-left text-gray-900 align-top");
              ("scope", JStr "row")]
             [JStr "Pricing"];
           jmap (λ tier,
               JEl "td" [("key", jget "name" tier); ("className", JStr "h-full px-6 py-8 align-top")]
                 [JEl "div" [("className", JStr "flex flex-col justify-between h-full")]
                    [JEl "div" []
                       [JEl "p" [("className", JStr "mb-0")]
                          [if is_str "Pro" (jget "name" tier)
                           then JEl "" []
                                  [JEl "span"
                                     [("className", JStr "text-4xl font-extrabold text-transparent bg-clip-text bg-gradient-to-r from-pink-400 to-fuchsia-600")]
                                     [JStr "$"; jget "priceYearly" tier];
                                   JEl "span" [("className", JStr "text-base font-medium text-gray-500")] [JStr "/year"]]
                           else JEl "span"
                                  [("className", JStr "text-4xl font-extrabold text-transparent bg-clip-text bg-gradient-to-r from-pink-400 to-fuchsia-600")]
                                  [jget "priceYearly" tier]]]]])
             tiers];
        jmap (λ section,
            JEl "Fragment" [("key", jget "name" section)]
              [JEl "tr" []
                 [JEl "th"
                    [("className", JStr "py-3 pl-6 text-sm font-medium text-left text-gray-900 bg-gray-50");
                     ("colSpan", JNum 4);
                     ("scope", JStr "colgroup")]
                    [jget "name" section]];
               jmap (λ feature,
                   JEl "tr" [("key", jget "name" feature)]
                     [JEl "th"
                        [("className", JStr "py-2 pl-6 pr-6 text-sm font-normal text-left text-gray-500");
                         ("scope", JStr "row")]
                        [jget "name" feature];
                      jmap (λ tier,
                          JEl "td" [("key", jget "name" tier); ("className", JStr "px-6 py-2")]
                            [if is_string (jindex (js_String (jget "name" tier)) (jget "tiers" feature))
                             then JEl "span" [("className", JStr "block text-sm text-gray-700")]
                                    [jindex (js_String (jget "name" tier)) (jget "tiers" feature)]
                             else JEl "" []
                                    [if is_true (jindex (js_String (jget "name" tier)) (jget "tiers" feature))
                                     then JEl "CheckIcon"
                                            [("className", JStr "w-5 h-5 text-green-500"); ("aria-hidden", JStr "true")]
                                            []
                                     else JEl "MinusIcon"
                                            [("className", JStr "w-5 h-5 text-gray-400"); ("aria-hidden", JStr "true")]
                                            [];
                                     JEl "span" [("className", JStr "sr-only")]
                                       [if is_true (jindex (js_String (jget "name" tier)) (jget "tiers" feature))
                                        then JStr "Included"
                                        else JStr "Not included";
                                        JStr " in ";
                                        jget "name" tier]]])
                        tiers])
                 (jget "features" section)])
          sections];
     JEl "tfoot" []
       [JEl "tr" [("className", JStr "border-t border-gray-200")]
          [JEl "th" [("className", JStr "sr-only"); ("scope", JStr "row")]
             [JStr "Choose your plan"];
           jmap (λ tier,
               JEl "td" [("key", jget "name" tier); ("className", JStr "px-6 pt-5")]
                 [if is_str "Pro" (jget "name" tier)
                  then JEl "" []
                         [JEl "a"
                            [("href", JStr "https://buy.stripe.com/9AQ9BP1UV8jkgowaEF");
                             ("target", JStr "_blank");
                             ("className", JStr "block w-full py-3 mt-2 text-base font-medium text-center text-white border-2 border-transparent rounded-md gumroad-button bg-gradient-to-r from-fuchsia-600 to-pink-600 hover:bg-fuchsia-700 md:py-4 md:text-lg md:px-10 hover:no-underline hover:text-white/90")]
                            [JStr "Subscribe"];
                          JEl "a"
                            [("href", jget "href" tier);
                             ("target", JStr "_blank");
                             ("rel", JStr "noopener noreferrer");
                             ("className", JStr "block w-full mt-1 text-center")]
                            [JStr "Learn more"]]
                  else JEl "a"
                         [("href", jget "href" tier);
                          ("className", JStr "block w-full py-3 mb-5 text-base font-medium text-center text-white border-2 border-transparent rounded-md bg-gradient-to-r from-fuchsia-600 to-pink-600 hover:bg-fuchsia-700 md:py-4 md:text-lg md:px-10 hover:no-underline hover:text-white/90")]
                         [JStr "Download"]])
             tiers]]].

Definition HomepagePricing : jsval :=
  JEl "section" [("className", JStr "py-12 bg-white")]
    [JEl "div" [("className", JStr "px-4 mx-auto max-w-7xl sm:px-6 lg:px-8")]
       [JEl "h2" [("className", JStr "text-4xl font-bold text-fuchsia-700")] [JStr "Plans"];
        JEl "div" [("className", JStr "max-w-2xl py-4 mx-auto bg-white sm:py-8 lg:max-w-7xl")]
          [JEl "div" [("className", JStr "space-y-24 lg:hidden")]
             [jmap (λ tier,
                  JEl "section" [("key", jget "name" tier)]
                    [JEl "div" [("className", JStr "px-4 mb-8")]
                       [JEl "h2" [("className", JStr "text-lg font-medium leading-6 text-gray-900")]
                          [jget "name" tier];
                        JEl "p" [("className", JStr "mt-4 mb-0")]
                          [if is_str "Pro" (jget "name" tier)
                           then JEl "" []
                                  [JEl "span" [("className", JStr "text-4xl font-extrabold text-gray-900")]
                                     [JStr "$"; jget "priceYearly" tier];
                                   JEl "span" [("className", JStr "text-base font-medium text-gray-500")] [JStr "/year"]]
                           else JEl "span" [("className", JStr "text-4xl font-extrabold text-gray-900")]
                                  [jget "priceYearly" tier]]];
                     jmap (λ section,
                         JEl "table" [("key", jget "name" section); ("className", JStr "w-full inline-table")]
                           [JEl "caption"
                              [("className", JStr "px-4 py-3 text-sm font-medium text-left text-gray-900 border-t border-gray-200 bg-gray-50")]
                              [jget "name" section];
                            JEl "thead" []
                              [JEl "tr" []
                                 [JEl "th" [("className", JStr "sr-only"); ("scope", JStr "col")] [JStr "Feature"];
                                  JEl "th" [("className", JStr "sr-only"); ("scope", JStr "col")] [JStr "Included"]]];
                            JEl "tbody" [("className", JStr "divide-y divide-gray-200")]
                              [jmap (λ feature,
                                   JEl "tr" [("key", jget "name" feature); ("className", JStr "border-t border-gray-200")]
                                     [JEl "th"
                                        [("className", JStr "px-4 py-5 text-sm font-normal text-left text-gray-500");
                                         ("scope", JStr "row")]
                                        [jget "name" feature];
                                      JEl "td" [("className", JStr "py-5 pr-4")]
                                        [if is_string (jindex (js_String (jget "name" tier)) (jget "tiers" feature))
                                         then JEl "span" [("className", JStr "block text-sm text-right text-gray-700")]
                                                [jindex (js_String (jget "name" tier)) (jget "tiers" feature)]
                                         else JEl "" []
                                                [if is_true (jindex (js_String (jget "name" tier)) (jget "tiers" feature))
                                                 then JEl "CheckIcon"
                                                        [("className", JStr "w-5 h-5 ml-auto text-green-500");
                                                         ("aria-hidden", JStr "true")]
                                                        []
                                                 else JEl "MinusIcon"
                                                        [("className", JStr "w-5 h-5 ml-auto text-gray-400");
                                                         ("aria-hidden", JStr "true")]
                                                        [];
                                                 JEl "span" [("className", JStr "sr-only")]
                                                   [if is_true (jindex (js_String (jget "name" tier)) (jget "tiers" feature))
                                                    then JStr "Yes"
                                                    else JStr "No"]]]])
                                 (jget "features" section)]])
                       sections;
                     JEl "div" [("className", JStr "px-4 pt-5 border-t border-gray-200")]
                       [if is_str "Pro" (jget "name" tier)
                        then JEl "a"
                               [("href", JStr "https://gum.co/dkron-pro");
                                ("target", JStr "_blank");
                                ("className", JStr "block w-full py-3 text-base font-medium text-center text-white border-2 border-transparent rounded-md gumroad-button bg-gradient-to-r from-fuchsia-600 to-pink-600 hover:bg-fuchsia-700 md:py-4 md:text-lg md:px-10 hover:no-underline hover:text-white/90")]
                               [JStr "Buy"]
                        else JEl "a"
                               [("href", JStr "https://github.com/distribworks/dkron/releases");
                                ("className", JStr "block w-full py-3 text-base font-medium text-center text-white border-2 border-transparent rounded-md bg-gradient-to-r from-fuchsia-600 to-pink-600 hover:bg-fuchsia-700 md:py-4 md:text-lg md:px-10 hover:no-underline hover:text-white/90")]
                               [JStr "Download"]]])
                tiers];
           JEl "div" [("className", JStr "hidden lg:block")] [pricingTable]];
        JEl "p" [("className", JStr "mb-0")]
          [JStr "All sales come with a two week, 100% money back guarantee."];
        JEl "p" []
          [JStr "Looking to embed Dkron in your virtual server or appliance? ";
           JEl "a" [("href", JStr "docs/pro/commercial-faq")] [JStr "Read the Commercial FAQ."]]]].
End Pricing.

Definition HomepageStats : jsval :=
  JEl "section" [("className", JStr "py-12 mt-16 bg-zinc-100")]
    [JEl "div" [("className", JStr "px-4 mx-auto max-w-7xl sm:px-6 lg:px-8")]
       [JEl "h2" [("className", JStr "text-4xl font-bold text-fuchsia-700")] [JStr "Stats"];
        JEl "div" [("className", JStr "flex flex-row")]
          [JEl "div" [("class", JStr "basis-1/2 ")]
             [JEl "CountUp"
                [("end", JNum 807);
                 ("duration", JNum 5);
                 ("useEasing", JBool true);
                 ("className", JStr "text-6xl font-bold")]
                [];
              JEl "h3" [] [JStr "Clusters Running"]];
           JEl "div" [("class", JStr "basis-1/2")]
             [JEl "CountUp"
                [("end", JNum 2536);
                 ("duration", JNum 5);
                 ("useEasing", JBool true);
                 ("className", JStr "text-6xl font-bold")]
                [];
              JEl "h3" [] [JStr "Servers Running"]]]]].

Definition HomepageTestimonials : jsval :=
  JEl "section" [("className", JStr "bg-gradient-to-tr from-fuchsia-600 to-pink-600")]
    [JEl "div" [("className", JStr "py-16 bg-zinc-900/90")]
       [JEl "div" [("className", JStr "px-4 mx-auto max-w-7xl sm:px-6 lg:px-8")]
          [JEl "h2" [("className", JStr "text-4xl font-bold text-pink-600")]
             [JStr "What people are saying"]];
        JEl "div"
          [("className", JStr "mx-auto max-w-7xl md:grid md:grid-cols-2 md:px-6 lg:px-8")]
          [JEl "div"
             [("className", JStr "px-4 py-12 sm:px-6 md:flex md:flex-col md:py-16 md:pl-0 md:pr-10 lg:pr-16")]
             [JEl "blockquote" [("className", JStr "mt-6 border-0 md:flex-grow md:flex md:flex-col")]
                [JEl "div" [("className", JStr "relative text-lg font-medium text-white md:flex-grow")]
                   [JEl "svg"
                      [("className", JStr "absolute w-16 h-16 transform -translate-x-3 -translate-y-2 text-fuchsia-300/20 -top-8 -left-8");
                       ("fill", JStr "currentColor");
                       ("viewBox", JStr "0 0 32 32");
                       ("aria-hidden", JStr "true")]
                      [JEl "path"
                         [("d", JStr "M9.352 4C4.456 7.456 1 13.12 1 19.36c0 5.088 3.072 8.064 6.624 8.064 3.36 0 5.856-2.688 5.856-5.856 0-3.168-2.208-5.472-5.088-5.472-.576 0-1.344.096-1.536.192.48-3.264 3.552-7.104 6.624-9.024L9.352 4zm16.512 0c-4.8 3.456-8.256 9.12-8.256 15.36 0 5.088 3.072 8.064 6.624 8.064 3.264 0 5.856-2.688 5.856-5.856 0-3.168-2.304-5.472-5.184-5.472-.576 0-1.248.096-1.44.192.48-3.264 3.456-7.104 6.528-9.024L25.864 4z")]
                         []];
                    JEl "p" [("className", JStr "relative")]
                      [JStr "Dkron is an essential part of our fault-tolerant distributed automation workflow. Its deceptively simple setup hides a well implemented architecture. Using established tools to coordinate our large number of endpoints, allows us to set-and-forget many of the tasks that would normally require a single, dedicated server."]];
                 JEl "footer" [("className", JStr "mt-8")]
                   [JEl "div" [("className", JStr "flex items-start")]
                      [JEl "div"
                         [("className", JStr "inline-flex flex-shrink-0 border-2 border-white rounded-full")]
                         [JEl "img"
                            [("className", JStr "w-12 h-12 rounded-full");
                             ("src", JStr "https://www.gravatar.com/avatar/196032196bfacfc2e1e4c5891ca500a6");
                             ("alt", JStr "")]
                            []];
                       JEl "div" [("className", JStr "ml-4")]
                         [JEl "div" [("className", JStr "text-base font-medium text-white")]
                            [JStr "Geoff Jukes"];
                          JEl "div" [("className", JStr "text-base font-medium text-pink-200")]
                            [JStr "Director of Information Technology, Blackstone Publishing"]]]]]];
           JEl "div"
             [("className", JStr "px-4 py-12 sm:px-6 md:flex md:flex-col md:py-16 md:pl-0 md:pr-10 lg:pr-16")]
             [JEl "blockquote" [("className", JStr "mt-6 border-0 md:flex-grow md:flex md:flex-col")]
                [JEl "div" [("className", JStr "relative text-lg font-medium text-white md:flex-grow")]
                   [JEl "svg"
                      [("className", JStr "absolute w-16 h-16 transform -translate-x-3 -translate-y-2 text-fuchsia-300/20 -top-8 -left-8");
                       ("fill", JStr "currentColor");
                       ("viewBox", JStr "0 0 32 32");
                       ("aria-hidden", JStr "true")]
                      [JEl "path"
                         [("d", JStr "M9.352 4C4.456 7.456 1 13.12 1 19.36c0 5.088 3.072 8.064 6.624 8.064 3.36 0 5.856-2.688 5.856-5.856 0-3.168-2.208-5.472-5.088-5.472-.576 0-1.344.096-1.536.192.48-3.264 3.552-7.104 6.624-9.024L9.352 4zm16.512 0c-4.8 3.456-8.256 9.12-8.256 15.36 0 5.088 3.072 8.064 6.624 8.064 3.264 0 5.856-2.688 5.856-5.856 0-3.168-2.304-5.472-5.184-5.472-.576 0-1.248.096-1.44.192.48-3.264 3.456-7.104 6.528-9.024L25.864 4z")]
                         []];
                    JEl "p" [("className", JStr "relative")]
                      [JStr "Dkron is an essential piece of our infrastructure: you can trust that the cron jobs will execute. Also, Dkron help us to identify failed cron jobs really fast. The system and the API are very easy to use and well designed. Will definitely keep using it!"]];
                 JEl "footer" [("className", JStr "mt-8")]
                   [JEl "div" [("className", JStr "flex items-start")]
                      [JEl "div"
                         [("className", JStr "inline-flex flex-shrink-0 border-2 border-white rounded-full")]
                         [JEl "img"
                            [("className", JStr "w-12 h-12 rounded-full");
                             ("src", JStr "https://www.gravatar.com/avatar/37803c500666eded79f8cd23b276b77c");
                             ("alt", JStr "")]
                            []];
                       JEl "div" [("className", JStr "ml-4")]
                         [JEl "div" [("className", JStr "text-base font-medium text-white")]
                            [JStr "Adrià Galín"];
                          JEl "div" [("className", JStr "text-base font-medium text-pink-200")]
                            [JStr "Director of SRE, Jobandtalent"]]]]]]]]].

Module Users.
Definition users : jsval :=
  JArr
    [JObj
       [("name", JStr "MallGroup");
        ("url", JStr "https://mallgroup.com");
        ("img", JStr "/img/mallgroup-logo.svg")];
     JObj
       [("name", JStr "American Express");
        ("url", JStr "https://aexp.com");
        ("img", JStr "/img/AXP_BlueBoxLogo_EXTRALARGEscale_RGB_DIGITAL_1600x1600.png")];
     JObj
       [("name", JStr "Flickr");
        ("url", JStr "https://flickr.com");
        ("img", JStr "/img/Flickr_logo.png")];
     JObj
       [("name", JStr "Socal Gas");
        ("url", JStr "https://www.socalgas.com/");
        ("img", JStr "/img/SoCal_Gas.png")];
     JObj
       [("name", JStr "Jobandtalent");
        ("url", JStr "https://www.jobandtalent.com");
        ("img", JStr "/img/jt-logo.png")];
     JObj
       [("name", JStr "Linkfluence");
        ("url", JStr "https://linkfluence.com/");
        ("img", JStr "/img/logo_linkfluence.png")];
     JObj
       [("name", JStr "Voiceworks");
        ("url", JStr "https://www.voiceworks.com/en");
        ("img", JStr "/img/voiceworks-logo.svg")];
     JObj
       [("name", JStr "enreach");
        ("url", JStr "https://www.enreach.fi/");
        ("img", JStr "/img/logo-enreach.svg")];
     JObj
       [("name", JStr "Blackstone Publishing");
        ("url", JStr "https://www.blackstonepublishing.com/");
        ("img", JStr "/img/Blackstone_publishing_Logo_v2.png")];
     JObj
       [("name", JStr "Allianz");
        ("url", JStr "https://www.allianz.com/");
        ("img", JStr "/img/Allianz.svg")];
     JObj
       [("name", JStr "Kata AI");
        ("url", JStr "https://kata.ai/");
        ("img", JStr "/img/kata_ai.png")];
     JObj
       [("name", JStr "delcampe");
        ("url", JStr "https://www.delcampe.net/");
        ("img", JStr "/img/logo-delcampe.svg")]].

Definition HomepageUsers : jsval :=
  JEl "section" [("className", JStr "bg-slate-700/90")]
    [JEl "div"
       [("className", JStr "px-4 py-12 mx-auto border-t border-gray-200 max-w-7xl sm:px-6 lg:py-20 lg:px-8")]
       [JEl "h3"
          [("className", JStr "mb-12 text-sm font-bold tracking-wider text-center uppercase text-gray-50")]
          [JStr "Trusted by"];
        JEl "div" [("className", JStr "grid grid-cols-2 gap-12 md:grid-cols-3 lg:grid-cols-4")]
          [jmap (λ user,
               JEl "div"
                 [("key", jget "name" user);
                  ("className", JStr "flex justify-center col-span-1 lg:col-span-1")]
                 [JEl "a"
                    [("href", jget "url" user);
                     ("target", JStr "_blank");
                     ("rel", JStr "noopener noreferrer")]
                    [JEl "img"
                       [("className", JStr "h-10 transition duration-200 filter grayscale hover:grayscale-0 brightness-200 hover:brightness-100");
                        ("src", jget "img" user);
                        ("alt", jget "name" user)]
                       []]])
             users]];
     JEl "div"
       [("className", JStr "max-w-lg px-4 py-12 mx-auto border-t border-gray-200 sm:px-6 lg:py-20 lg:px-8")]
       [JEl "h3"
          [("className", JStr "mb-12 text-sm font-bold tracking-wider text-center uppercase text-gray-50")]
          [JStr "Partners"];
        JEl "div" [("className", JStr "grid grid-cols-2 gap-12")]
          [JEl "div" [("className", JStr "flex justify-center col-span-1 lg:col-span-1")]
             [JEl "a"
                [("href", JStr "https://www.noraina.cloud/");
                 ("target", JStr "_blank");
                 ("rel", JStr "noopener noreferrer")]
                [JEl "img"
                   [("src", JStr "//www.noraina.cloud/assets/static/logo.0f04e74.1968b830a90e93ddc4373b0d6426be8b.png");
                    ("className", JStr "h-16 transition duration-200 filter brightness-100 hover:brightness-200");
                    ("alt", JStr "Noraina Cloud")]
                   []]];
           JEl "div" [("className", JStr "flex justify-center col-span-1 lg:col-span-1")]
             [JEl "a"
                [("href", JStr "https://gemfury.com/f/partner");
                 ("target", JStr "_blank");
                 ("rel", JStr "noopener noreferrer")]
                [JEl "img" [("src", JStr "//badge.fury.io/fp/gemfury.svg"); ("alt", JStr "")] []]]]]].
End Users.

(** ** Pages *)

Definition Home : jsval :=
  JEl "" []
    [JEl "HomepageBanner" [] [];
     JEl "Layout"
       [("title", JStr "Dkron - Cloud native job scheduling system");
        ("description", JStr "Cloud native job scheduling system")]
       [JEl "HomepageHeader" [] [];
        JEl "main" []
          [JEl "HomepageDescPanel" [] [];
           JEl "HomepageFeatures" [] [];
           JEl "HomepageUseCases" [] [];
           JEl "HomepagePricing" [] [];
           JEl "HomepageStats" [] [];
           JEl "HomepageTestimonials" [] [];
           JEl "HomepageUsers" [] []];
        JEl "img"
          [("height", JStr "1");
           ("width", JStr "1");
           ("alt", JStr "");
           ("src", JStr "https://px.ads.linkedin.com/collect/?pid=8378297&fmt=gif")]
          []]].

Module ProPage.
Definition features : jsval :=
  JArr
    [JObj
       [("title", JStr "Security");
        ("img", JEl "ShieldCheckIcon" [("className", JStr "w-12 h-12")] []);
        ("description", JEl "" []
            [JStr "Pro has enhanced security using industry standard SSL encryption for communication between all components of the application, the embedded storage engine and nodes. You can also enable basic authentication to restrict access to the WebUI and the API."])];
     JObj
       [("title", JStr "Pro plugins");
        ("img", JEl "HeartIcon" [("className", JStr "w-12 h-12")] []);
        ("description", JEl "" []
            [JStr "Do you need to store job output in Elasticsearch? Do you need to run docker based jobs? Dkron Pro adds some commercially supported plugins ready to cover your needs."])];
     JObj
       [("title", JStr "Support");
        ("img", JEl "SupportIcon" [("className", JStr "w-12 h-12")] []);
        ("description", JEl "" []
            [JStr "Priority support from the author. Workload automation is a critical process in your business. Guarantee direct access to a Dkron expert. Your subscription gives you priority support for any unforeseen issues."])]].

Definition details : jsval :=
  JArr
    [JObj
       [("name", JStr "Documentation");
        ("description", JEl "" []
            [JEl "p" []
               [JStr "Detailed documentation about configuring and using each feature can be found in the Dkron docs site. Read the ";
                JEl "a" [("href", JStr "/pro/commercial-faq/")] [JStr "Commercial FAQ"];
                JStr " for further details."];
             JEl "p" []
               [JStr "Sales of Dkron Pro also benefit the community by ensuring that Dkron itself will remain well supported for the foreseeable future."]])];
     JObj
       [("name", JStr "Support");
        ("description", JEl "" []
            [JEl "p" []
               [JStr "When you buy Dkron Pro, a custom URL associated with your email address will be sent to you. You use this URL to install the package corresponding to your architecture. You configure and use Dkron Pro exactly like you would Dkron."];
             JEl "p" []
               [JEl "strong" [] [JStr "Pro tip"];
                JStr ": use a mailing list for your email when purchasing to ensure you get critical email updates, even if employees leave the company."]])];
     JObj
       [("name", JStr "Installation");
        ("description", JEl "" []
            [JEl "p" []
               [JStr "Dkron Pro will receive bug fixes and new functionality over time. All upgrades will be free to subscribers with a simple package upgrade. See the changelog for more detail."]])];
     JObj
       [("name", JStr "Upgrades");
        ("description", JEl "" []
            [JEl "p" []
               [JStr "Dkron Pro will receive bug fixes and new functionality over time. All upgrades will be free to subscribers with a simple package upgrade. See the changelog for more detail."]])];
     JObj
       [("name", JStr "Licensing");
        ("description", JEl "" []
            [JEl "p" [] [JStr "Dkron is available under the terms of the GNU LGPLv3 license."];
             JEl "p" []
               [JStr "In addition to its useful functionality, buying Dkron Pro grants your organization a Dkron commercial license instead of the GNU LGPL, avoiding any legal issues your lawyers might raise. Please see the ";
                JEl "a" [("href", JStr "/pro/commercial-faq/")] [JStr "Commercial FAQ"];
                JStr " for further detail on licensing including options for distributing Dkron Pro with your own products."]])]].

Definition featuresList : jsval :=
  JArr
    [JObj [("name", JStr "Multi-region support")];
     JObj [("name", JStr "Full SSL encryption")];
     JObj [("name", JStr "Elasticsearch processor")];
     JObj [("name", JStr "Docker executor")];
     JObj [("name", JStr "AWS ECS executor")];
     JObj [("name", JStr "Advanced email processor")];
     JObj [("name", JStr "WebUI and API authorization")]].

Definition Pro : jsval :=
  JEl "Layout" [("title", JStr "Dkron Pro")]
    [JEl "div" [("className", JStr "main-wrapper")]
       [JEl "header" [("className", JStr "bg-gradient-to-tr from-pink-600 to-fuchsia-700")]
          [JEl "div" [("className", JStr "container relative overflow-hidden")]
             [JEl "div"
                [("className", JStr "absolute inset-y-0 w-full h-full");
                 ("aria-hidden", JStr "true")]
                [JEl "div" [("className", JStr "relative h-full")]
                   [JEl "svg"
                      [("className", JStr "absolute mt-8 -top-16 opacity-10");
                       ("width", JNum 400);
                       ("height", JNum 620);
                       ("viewBox", JStr "0 0 1200 630");
                       ("xmlns", JStr "http://www.w3.org/2000/svg")]
                      [JEl "defs" []
                         [JEl "pattern"
                            [("id", JStr "pattern");
                             ("x", JStr "0");
                             ("y", JStr "0");
                             ("width", JStr "100");
                             ("height", JStr "100");
                             ("patternUnits", JStr "userSpaceOnUse");
                             ("patternTransform", JStr "translate(0, 0) rotate(0) skewX(0)")]
                            [JEl "svg"
                               [("width", JStr "46"); ("height", JStr "46"); ("viewBox", JStr "0 0 100 100")]
                               [JEl "g"
                                  [("className", JStr "text-pink-100");
                                   ("fill", JStr "currentColor");
                                   ("opacity", JStr "1")]
                                  [JEl "path"
                                     [("d", JStr "M95.2171 74.9997V25.0003L50.1086 0L5 25.0003V74.9997L50.1086 100L95.2171 74.9997Z")]
                                     []]]]];
                       JEl "rect"
                         [("x", JStr "0");
                          ("y", JStr "0");
                          ("width", JNum 400);
                          ("height", JNum 1200);
                          ("fill", JStr "url(#pattern)")]
                         []];
                    JEl "svg"
                      [("className", JStr "absolute mt-2 transform rotate-180 right-8 opacity-10");
                       ("width", JNum 400);
                       ("height", JNum 320);
                       ("viewBox", JStr "0 0 1200 630");
                       ("xmlns", JStr "http://www.w3.org/2000/svg")]
                      [JEl "defs" []
                         [JEl "pattern"
                            [("id", JStr "pattern");
                             ("x", JStr "0");
                             ("y", JStr "0");
                             ("width", JStr "100");
                             ("height", JStr "100");
                             ("patternUnits", JStr "userSpaceOnUse");
                             ("patternTransform", JStr "translate(0, 0) rotate(0) skewX(0)")]
                            [JEl "svg"
                               [("width", JStr "46"); ("height", JStr "46"); ("viewBox", JStr "0 0 100 100")]
                               [JEl "g"
                                  [("className", JStr "text-pink-100");
                                   ("fill", JStr "currentColor");
                                   ("opacity", JStr "1")]
                                  [JEl "path"
                                     [("d", JStr "M95.2171 74.9997V25.0003L50.1086 0L5 25.0003V74.9997L50.1086 100L95.2171 74.9997Z")]
                                     []]]]];
                       JEl "rect"
                         [("x", JStr "0");
                          ("y", JStr "0");
                          ("width", JNum 400);
                          ("height", JNum 1200);
                          ("fill", JStr "url(#pattern)")]
                         []]]];
              JEl "div"
                [("className", JStr "absolute right-0 flex items-center justify-center transform -translate-x-1/2 -translate-y-1/2 opacity-10 left-1/2 top-1/2")]
                [JEl "svg"
                   [("class", JStr "w-96 h-auto");
                    ("viewBox", JStr "0 0 120 124");
                    ("fill", JStr "none");
                    ("xmlns", JStr "http://www.w3.org/2000/svg")]
                   [JEl "path"
                      [("d", JStr "M111.75 52.2198V74.4199C111.75 82.3199 107.54 89.6198 100.7 93.5698L81.4795 104.67C80.1895 97.7599 75.6896 91.9798 69.5796 88.9498C68.0796 88.1998 67.1197 86.6698 67.1197 84.9898V71.9099C67.1197 67.8399 63.8196 64.5399 59.7496 64.5399C55.6796 64.5399 52.3794 67.8399 52.3794 71.9099V84.9898C52.3794 86.6698 51.4195 88.1998 49.9095 88.9498C43.7995 91.9898 39.2996 97.7599 38.0096 104.67L18.7896 93.5698C11.9496 89.6198 7.73955 82.3199 7.73955 74.4199V52.2198C14.3695 54.5598 21.6196 53.5499 27.3096 49.7699C28.7096 48.8399 30.5095 48.7799 31.9695 49.6199L43.1495 56.0698C46.6095 58.0698 51.1095 57.0798 53.2295 53.6898C55.4595 50.1298 54.2695 45.4699 50.6695 43.3899L39.3396 36.8498C37.8796 36.0098 37.0395 34.4198 37.1395 32.7398C37.5595 25.9298 34.8095 19.1398 29.4695 14.5698L48.6895 3.46982C55.5295 -0.480176 63.9596 -0.480176 70.7996 3.46982L90.0196 14.5698C84.6796 19.1398 81.9297 25.9298 82.3497 32.7298C82.4497 34.4098 81.6095 36.0098 80.1495 36.8498L68.8196 43.3899C65.2896 45.4299 64.0897 49.9298 66.1197 53.4598C68.1597 56.9898 72.6595 58.1899 76.1895 56.1599L87.5196 49.6199C88.9796 48.7799 90.7795 48.8399 92.1795 49.7699C97.8695 53.5399 105.12 54.5598 111.75 52.2198ZM68.8895 97.1898C68.1695 96.6198 67.1097 97.1498 67.1097 98.0698V108.75C67.1097 112.82 63.8095 116.12 59.7395 116.12C55.6695 116.12 52.3697 112.82 52.3697 108.75V98.0798C52.3697 97.1498 51.2996 96.6398 50.5696 97.2098C46.9596 100.08 44.7296 104.6 45.0196 109.64C45.4496 116.97 51.3395 122.93 58.6595 123.45C67.2895 124.06 74.4695 117.24 74.4695 108.75C74.4795 104.06 72.2895 99.8898 68.8895 97.1898ZM20.4595 45.0698C21.3295 44.7298 21.4297 43.5398 20.6197 43.0798L11.3794 37.7398C7.78944 35.6698 6.59961 31.0298 8.79961 27.4798C10.9196 24.0498 15.5196 23.1099 19.0196 25.1299L29.8096 31.3598C29.7996 25.9998 26.8695 20.7899 21.6595 18.1699C15.0295 14.8399 6.75953 17.0899 2.71953 23.3099C-1.91047 30.4499 0.429507 39.9199 7.69951 44.1199C11.7395 46.4599 16.4295 46.6598 20.4595 45.0698ZM117.179 23.9898C113.109 16.9398 104.1 14.5298 97.0396 18.5998C92.9896 20.9398 90.4796 24.8998 89.8296 29.1898C89.6896 30.1098 90.6795 30.7799 91.4795 30.3099L100.72 24.9698C104.25 22.9298 108.75 24.1399 110.79 27.6699C112.83 31.1999 111.62 35.6998 108.09 37.7398L98.8497 43.0798C98.0497 43.5398 98.1396 44.7298 98.9996 45.0698C103.04 46.6598 107.73 46.4599 111.78 44.1299C118.84 40.0499 121.249 31.0398 117.179 23.9898Z");
                       ("fill", JStr "white")]
                      []]];
              JEl "div"
                [("className", JStr "relative px-4 mx-auto my-32 max-w-7xl sm:mt-24 sm:px-6")]
                [JEl "div" [("className", JStr "text-center")]
                   [JEl "h1"
                      [("className", JStr "text-4xl font-extrabold tracking-tight text-white sm:text-5xl md:text-6xl lg:text-5xl xl:text-6xl")]
                      [JEl "span" [("className", JStr "block xl:inline")] [JStr "Dkron Pro"]];
                    JEl "p"
                      [("className", JStr "max-w-md mx-auto mt-3 text-lg text-gray-100 sm:text-xl md:mt-5 md:max-w-3xl")]
                      [JStr "Improved security, features and reliability for your scheduled jobs"];
                    JEl "div" [("className", JStr "mt-10 sm:flex sm:justify-center")]
                      [JEl "div" [("className", JStr "rounded-md shadow")]
                         [JEl "a"
                            [("href", JStr "https://buy.stripe.com/9AQ9BP1UV8jkgowaEF");
                             ("target", JStr "_blank");
                             ("className", JStr "block w-full py-3 mt-2 text-base font-medium text-center text-white border-2 border-transparent rounded-md gumroad-button bg-gradient-to-r from-fuchsia-600 to-pink-600 hover:bg-fuchsia-700 md:py-4 md:text-lg md:px-10 hover:no-underline hover:text-white/90")]
                            [JStr "Subscribe"]]];
                    JEl "p"
                      [("className", JStr "max-w-md mx-auto mt-3 text-lg text-gray-100 sm:text-xl md:mt-5 md:max-w-3xl")]
                      [JStr "Licenses are not transferable to another company. We will transfer the license from a user-specific email to a group email address (e.g. john_smith@example.com -> tech@example.com) but only for the same domain. It is strongly recommended that you buy the license using a group email address so the license is not attached to any one employee’s email address."]]]]];
        JEl "section" [("className", JStr "py-16 bg-zinc-100")]
          [JEl "div" [("className", JStr "px-4 mx-auto max-w-7xl sm:px-6 lg:px-8")]
             [JEl "h2" [("className", JStr "text-4xl font-bold text-fuchsia-700")]
                [JStr "Key Features"];
              JEl "dl"
                [("className", JStr "mt-16 space-y-10 lg:space-y-0 lg:grid lg:grid-cols-3 lg:gap-16")]
                [jmap (λ feature,
                     JEl "div" [("key", jget "title" feature)]
                       [JEl "dt" []
                          [JEl "div" [("className", JStr "")] [jget "img" feature];
                           JEl "p"
                             [("className", JStr "mt-4 text-2xl font-bold text-transparent bg-clip-text bg-gradient-to-r from-pink-400 to-fuchsia-600")]
                             [jget "title" feature]];
                        JEl "dd" [("className", JStr "mt-4 ml-0 text-base text-gray-500")]
                          [jget "description" feature]])
                   features]]];
        JEl "section" [("class", JStr "bg-gradient-to-tr from-fuchsia-600 to-pink-600")]
          [JEl "div" [("class", JStr "py-8 bg-zinc-900/90")]
             [JEl "div"
                [("className", JStr "px-4 py-16 mx-auto max-w-7xl sm:px-6 lg:py-24 lg:px-8 lg:grid lg:grid-cols-3 lg:gap-x-8")]
                [JEl "div" []
                   [JEl "h2"
                      [("className", JStr "text-base font-semibold tracking-wide text-pink-200 uppercase")]
                      [JStr "Everything you need"];
                    JEl "p" [("className", JStr "mt-2 text-3xl font-extrabold text-pink-600")]
                      [JStr "Features"]];
                 JEl "div" [("className", JStr "mt-12 lg:mt-0 lg:col-span-2")]
                   [JEl "dl"
                      [("className", JStr "space-y-10 sm:space-y-0 sm:grid sm:grid-cols-2 sm:grid-rows-4 sm:grid-flow-col sm:gap-x-6 sm:gap-y-6 lg:gap-x-8")]
                      [jmap (λ item,
                           JEl "div" [("key", jget "name" item); ("className", JStr "relative")]
                             [JEl "dt" []
                                [JEl "CheckIcon"
                                   [("className", JStr "absolute w-6 h-6 text-green-500");
                                    ("aria-hidden", JStr "true")]
                                   [];
                                 JEl "p" [("className", JStr "mb-0 text-lg font-medium leading-6 text-gray-50 ml-9")]
                                   [jget "name" item]]])
                         featuresList]]]]];
        JEl "section" [("className", JStr "bg-white")]
          [JEl "div"
             [("className", JStr "grid max-w-2xl grid-cols-1 px-4 py-16 mx-auto gap-y-16 gap-x-8 sm:px-6 lg:max-w-7xl lg:px-8 lg:grid-cols-2")]
             [JEl "div" []
                [JEl "h2"
                   [("className", JStr "text-3xl font-extrabold tracking-tight sm:text-4xl text-fuchsia-700")]
                   [JStr "Product Details"];
                 JEl "dl"
                   [("className", JStr "grid grid-cols-1 mt-16 gap-x-6 gap-y-10 sm:grid-cols-2 sm:gap-y-16 lg:gap-x-8")]
                   [jmap (λ detail,
                        JEl "div"
                          [("key", jget "name" detail); ("className", JStr "pt-4 border-t border-gray-200")]
                          [JEl "dt"
                             [("className", JStr "font-medium text-transparent bg-clip-text bg-gradient-to-r from-pink-400 to-fuchsia-600")]
                             [jget "name" detail];
                           JEl "dd" [("className", JStr "mt-3 ml-0 text-gray-500")] [jget "description" detail]])
                      details]];
              JEl "div" [("className", JStr "grid items-center justify-center gap-4 sm:gap-6")]
                [JEl "img"
                   [("src", JStr "../img/dkron-black.png");
                    ("alt", JStr "");
                    ("className", JStr "rounded-lg")]
                   [];
                 JEl "img"
                   [("src", JStr "../img/dkron-gradient.png");
                    ("alt", JStr "");
                    ("className", JStr "rounded-lg")]
                   [];
                 JEl "img"
                   [("src", JStr "../img/dkron-gray.png");
                    ("alt", JStr "");
                    ("className", JStr "rounded-lg")]
                   []]]]]].
End ProPage.

(** The home page as rendered, with the configuration of the site. *)
Definition home_components (siteConfig : jsval) : components :=
  [("HomepageBanner", λ _, HomepageBanner); ("HomepageHeader", λ _, HomepageHeader siteConfig);
   ("HomepageDescPanel", λ _, HomepageDescPanel siteConfig);
   ("HomepageFeatures", λ _, Features.HomepageFeatures);
   ("HomepageUseCases", λ _, UseCases.HomepageUseCases);
   ("HomepagePricing", λ _, Pricing.HomepagePricing);
   ("HomepageStats", λ _, HomepageStats);
   ("HomepageTestimonials", λ _, HomepageTestimonials);
   ("HomepageUsers", λ _, Users.HomepageUsers)].

Definition home_page (siteConfig : jsval) : jsval := expand 40 (home_components siteConfig) Home.

(** ** Reading the pages *)

(** The arrays among the children of a tree, whose members need keys. *)
Fixpoint child_arrays (v : jsval) : list (list jsval) :=
  match v with
  | JEl _ ps ch => flat_map (λ p, child_arrays p.2) ps ++ flat_map child_arrays ch
  | JArr l => l :: flat_map child_arrays l
  | _ => []
  end.

(** The anchors that open a new window, and the ones of them that leave it a
    handle on the page. *)
Definition new_window (v : jsval) : list jsval :=
  List.filter (λ a, is_str "_blank" (jget "target" a)) (tagged "a" v).
Definition leaks_opener (a : jsval) : bool :=
  negb (is_str "noopener noreferrer" (jget "rel" a)).

(** What a cell of the comparison says about a feature. *)
Inductive mark : Type := Included | NotIncluded | Says (t : list string).

Definition mark_of_cell (td : jsval) : mark :=
  match tagged "CheckIcon" td, tagged "MinusIcon" td with
  | _ :: _, _ => Included
  | [], _ :: _ => NotIncluded
  | [], [] => Says (texts td)
  end.

Definition mark_of_value (v : jsval) : mark :=
  match v with JStr s => Says [s] | JBool true => Included | _ => NotIncluded end.

(** The rows of a table that hold cells: the heading and the marks. *)
Definition rows (table : jsval) : list (list string * list mark) :=
  flat_map (λ tr, match subtrees "td" tr with
                  | [] => []
                  | tds => [(flat_map texts (subtrees "th" tr), mark_of_cell <$> tds)]
                  end) (subtrees "tr" table).

(** The features of the data, in order, each with its mark in every tier. *)
Definition feature_rows : list (list string * list mark) :=
  flat_map (λ section,
    (λ feature, ([js_String (jget "name" feature)],
       (λ tier, mark_of_value (jindex (js_String (jget "name" tier)) (jget "tiers" feature)))
         <$> elems Pricing.tiers)) <$> elems (jget "features" section)) (elems Pricing.sections).

Definition pricing_tables : list jsval := subtrees "table" Pricing.HomepagePricing.

(** ** Properties *)

(** The two renderings of the plans (one table per plan on small screens,
    one table with a column per plan on large ones) say the same about every
    feature in every plan, and what they say is what the data holds: on the
    large screen the feature rows stand between the prices and the links, on
    the small one each plan's table has its column. *)
Lemma pricing_tables_agree :
  match pricing_tables with
  | [free; pro; desktop] =>
      (take (length feature_rows) (drop 1 (rows desktop)) = feature_rows) ∧
      length (rows desktop) = (length feature_rows + 2)%nat ∧
      rows free = (λ r, (r.1, take 1 r.2)) <$> feature_rows ∧
      rows pro = (λ r, (r.1, drop 1 r.2)) <$> feature_rows
  | _ => False
  end.
Proof. vm_compute. split_and!; reflexivity. Qed.

(** On the rendered home page and on the Pro page, the members of every
    mapped array have React keys that tell them apart. *)
Lemma site_keys (lightCodeTheme darkCodeTheme year : jsval) (resolve : string → jsval) :
  let site := config lightCodeTheme darkCodeTheme year resolve in
  Forall (λ l, keys_distinct l = true) (child_arrays (home_page site) ++ child_arrays ProPage.Pro) ∧
  (25 ≤ length (child_arrays (home_page site) ++ child_arrays ProPage.Pro))%nat.
Proof.
  cbn zeta. split.
  - apply Forall_forall. intros l Hl.
    assert (forallb keys_distinct (child_arrays (home_page (config lightCodeTheme darkCodeTheme
      year resolve)) ++ child_arrays ProPage.Pro) = true) as Hall by (vm_compute; reflexivity).
    rewrite forallb_forall in Hall. by apply Hall, list_elem_of_In.
  - vm_compute. repeat constructor.
Qed.

(** Of the links of both pages that open a new window, all but the ones to
    the shops do so without leaving it a handle on the page
    ([rel="noopener noreferrer"]); and the shops differ: the small screen's
    "Buy" leads to another one than "Subscribe" everywhere else. *)
Lemma site_new_windows (lightCodeTheme darkCodeTheme year : jsval) (resolve : string → jsval) :
  let site := config lightCodeTheme darkCodeTheme year resolve in
  let anchors := new_window (home_page site) ++ new_window ProPage.Pro in
  (jget "href" <$> List.filter leaks_opener anchors) =
    JStr <$> ["https://gum.co/dkron-pro"; "https://buy.stripe.com/9AQ9BP1UV8jkgowaEF";
              "https://buy.stripe.com/9AQ9BP1UV8jkgowaEF"] ∧
  length (List.filter (λ a, negb (leaks_opener a)) anchors) = 15%nat.
Proof. vm_compute. split; reflexivity. Qed.
