(* ===== verification/Theme.v ===== *)
(** * Theme: colours and styles

    src/ui/src/theme.ts and the styles the components of src/ui/src give to
    [styled], as functions of the theme they are called with.  What the style
    functions read of the theme is there, every colour is one a browser reads,
    and the chips of the pages tell their states apart. *)

From S2P Require Import Prelude JsCore View JobViews Shell.

(** ** theme.ts *)

Definition primaryColor : jsval :=
  JStr "#1a365d".

Definition secondaryColor : jsval :=
  JStr "#3182ce".

Definition palette : jsval :=
  JObj
    [("mode", JStr "light");
     ("primary", JObj
         [("main", primaryColor);
          ("light", JStr "#2a4a7f");
          ("dark", JStr "#0d1f3c");
          ("contrastText", JStr "#ffffff")]);
     ("secondary", JObj
         [("main", secondaryColor);
          ("light", JStr "#63b3ed");
          ("dark", JStr "#2c5282");
          ("contrastText", JStr "#ffffff")]);
     ("success", JObj [("main", JStr "#38a169"); ("light", JStr "#68d391"); ("dark", JStr "#276749")]);
     ("warning", JObj [("main", JStr "#d69e2e"); ("light", JStr "#ecc94b"); ("dark", JStr "#b7791f")]);
     ("error", JObj [("main", JStr "#e53e3e"); ("light", JStr "#fc8181"); ("dark", JStr "#c53030")]);
     ("info", JObj [("main", secondaryColor); ("light", JStr "#63b3ed"); ("dark", JStr "#2c5282")]);
     ("background", JObj [("default", JStr "#f7fafc"); ("paper", JStr "#ffffff")]);
     ("text", JObj [("primary", JStr "#1a202c"); ("secondary", JStr "#4a5568")])].

Definition themeComponents (defaultTheme : jsval) : jsval :=
  JObj
    (fields (jget "components" defaultTheme)
     ++ [("MuiCard", JObj
             [("styleOverrides", JObj
                  [("root", JObj
                       [("boxShadow", JStr "0 1px 3px 0 rgba(0, 0, 0, 0.1), 0 1px 2px 0 rgba(0, 0, 0, 0.06)");
                        ("borderRadius", JNum 12);
                        ("border", JStr "1px solid #e2e8f0")])])]);
         ("MuiCardHeader", JObj
             [("styleOverrides", JObj
                  [("root", JObj [("padding", JStr "20px 24px 16px")]);
                   ("title", JObj
                       [("fontSize", JStr "1.125rem");
                        ("fontWeight", JNum 600);
                        ("color", JStr "#1a202c")])])]);
         ("MuiCardContent", JObj
             [("styleOverrides", JObj
                  [("root", JObj
                       [("padding", JStr "16px 24px 24px");
                        ("&:last-child", JObj [("paddingBottom", JNum 24)])])])]);
         ("MuiButton", JObj
             [("styleOverrides", JObj
                  [("root", JObj
                       [("borderRadius", JNum 8);
                        ("padding", JStr "8px 16px");
                        ("fontWeight", JNum 500);
                        ("boxShadow", JStr "none");
                        ("textTransform", JStr "none")])])]);
         ("MuiAppBar", JObj [("styleOverrides", JObj [("root", JObj [("boxShadow", JStr "0 1px 3px 0 rgba(0, 0, 0, 0.1), 0 1px 2px 0 rgba(0, 0, 0, 0.06)")])])]);
         ("MuiDrawer", JObj [("styleOverrides", JObj [("paper", JObj [("backgroundColor", JStr "#1a365d"); ("color", JStr "#ffffff")])])]);
         ("MuiListItemIcon", JObj [("styleOverrides", JObj [("root", JObj [("color", JStr "inherit"); ("minWidth", JNum 40)])])]);
         ("MuiTableCell", JObj
             [("styleOverrides", JObj
                  [("root", JObj [("borderBottom", JStr "1px solid #e2e8f0")]);
                   ("head", JObj
                       [("fontWeight", JNum 600);
                        ("backgroundColor", JStr "#f7fafc");
                        ("color", JStr "#4a5568");
                        ("fontSize", JStr "0.75rem");
                        ("textTransform", JStr "uppercase");
                        ("letterSpacing", JStr "0.05em")])])]);
         ("MuiTableRow", JObj [("styleOverrides", JObj [("root", JObj [("&:hover", JObj [("backgroundColor", JStr "#f7fafc")])])])]);
         ("MuiChip", JObj [("styleOverrides", JObj [("root", JObj [("borderRadius", JNum 6); ("fontWeight", JNum 500)])])]);
         ("MuiTooltip", JObj
             [("styleOverrides", JObj
                  [("tooltip", JObj
                       [("backgroundColor", JStr "#1a202c");
                        ("fontSize", JStr "0.75rem");
                        ("borderRadius", JNum 6)])])]);
         ("MuiTextField", JObj [("styleOverrides", JObj [("root", JObj [("& .MuiOutlinedInput-root", JObj [("borderRadius", JNum 8)])])])]);
         ("MuiPaper", JObj [("styleOverrides", JObj [("rounded", JObj [("borderRadius", JNum 12)])])]);
         ("MuiTab", JObj [("styleOverrides", JObj [("root", JObj [("textTransform", JStr "none"); ("fontWeight", JNum 500)])])])]).

(** The default theme of the component library is a parameter. *)
Definition lightTheme (defaultTheme : jsval) : jsval :=
  JObj
    (fields defaultTheme
     ++ [("palette", palette);
         ("typography", JObj [("fontFamily", JStr ("" +:+ dquote +:+ "Inter" +:+ dquote +:+ ", " +:+ dquote +:+ "Roboto" +:+ dquote +:+ ", " +:+ dquote +:+ "Helvetica" +:+ dquote +:+ ", " +:+ dquote +:+ "Arial" +:+ dquote +:+ ", sans-serif"))]);
         ("shape", JObj [("borderRadius", JNum 8)]);
         ("components", themeComponents defaultTheme)]).

(** ** Styles *)

Section styles.
(** [theme.spacing(n)] and [theme.breakpoints.down(size)]. *)
Variable spacing : Z → string.
Variable down : string → string.

Definition CustomSidebar (theme : jsval) : jsval :=
  JObj
    [("& .RaSidebar-fixed", JObj
         [("backgroundColor", jget "main" (jget "primary" (jget "palette" theme)));
          ("color", JStr "#ffffff");
          ("paddingTop", JStr (spacing 2))]);
     ("& .MuiDrawer-paper", JObj
         [("backgroundColor", jget "main" (jget "primary" (jget "palette" theme)));
          ("color", JStr "#ffffff");
          ("borderRight", JStr "none");
          ("paddingTop", JStr (spacing 2))]);
     ("& .RaMenuItemLink-active", JObj
         [("backgroundColor", JStr "rgba(255, 255, 255, 0.15)");
          ("borderRadius", JStr "8px");
          ("&:before", JObj
              [("content", JStr ("" +:+ dquote +:+ "" +:+ dquote +:+ ""));
               ("position", JStr "absolute");
               ("left", JNum 0);
               ("top", JStr "50%");
               ("transform", JStr "translateY(-50%)");
               ("width", JNum 4);
               ("height", JStr "60%");
               ("backgroundColor", JStr "#ffffff");
               ("borderRadius", JStr "0 4px 4px 0")])]);
     ("& .MuiListItemIcon-root", JObj [("color", JStr "rgba(255, 255, 255, 0.8)")]);
     ("& .RaMenuItemLink-active .MuiListItemIcon-root", JObj [("color", JStr "#ffffff")]);
     ("& .MuiTypography-root", JObj [("color", JStr "rgba(255, 255, 255, 0.9)")]);
     ("& .RaMenuItemLink-active .MuiTypography-root", JObj [("color", JStr "#ffffff"); ("fontWeight", JNum 600)])].

Definition StyledAppBar (theme : jsval) : jsval :=
  JObj
    [("backgroundColor", jget "main" (jget "primary" (jget "palette" theme)));
     ("& .RaAppBar-toolbar", JObj [("minHeight", JNum 64)]);
     ("& ." +:+ js_String (jget "title" Shell.classes), JObj
         [("flex", JNum 1);
          ("textOverflow", JStr "ellipsis");
          ("whiteSpace", JStr "nowrap");
          ("overflow", JStr "hidden")]);
     ("& ." +:+ js_String (jget "spacer" Shell.classes), JObj [("flex", JNum 1)]);
     ("& ." +:+ js_String (jget "logo" Shell.classes), JObj [("maxWidth", JStr "110px"); ("filter", JStr "brightness(0) invert(1)")])].

Definition StyledDatagrid (theme : jsval) : jsval :=
  JObj
    [("& ." +:+ js_String (jget "hiddenOnSmallScreens" JobListPage.classes), JObj
         [("display", JStr "table-cell");
          (js_String (JStr (down "md")), JObj [("display", JStr "none")])]);
     ("& ." +:+ js_String (jget "cell" JobListPage.classes), JObj [("padding", JStr "6px 8px 6px 8px")]);
     ("& .RaDatagrid-headerCell", JObj
         [("backgroundColor", JStr "#f7fafc");
          ("fontWeight", JNum 600);
          ("fontSize", JStr "0.75rem");
          ("textTransform", JStr "uppercase");
          ("letterSpacing", JStr "0.05em");
          ("color", JStr "#4a5568")]);
     ("& .RaDatagrid-row", JObj [("&:hover", JObj [("backgroundColor", JStr "#f7fafc")])]);
     ("& .RaDatagrid-rowCell", JObj [("borderBottom", JStr "1px solid #e2e8f0")])].

Definition NodeDatagrid (theme : jsval) : jsval :=
  JObj
    [("& .RaDatagrid-headerCell", JObj
         [("backgroundColor", JStr "#f7fafc");
          ("fontWeight", JNum 600);
          ("fontSize", JStr "0.75rem");
          ("textTransform", JStr "uppercase");
          ("letterSpacing", JStr "0.05em");
          ("color", JStr "#4a5568")]);
     ("& .RaDatagrid-row", JObj [("&:hover", JObj [("backgroundColor", JStr "#f7fafc")])]);
     ("& .RaDatagrid-rowCell", JObj [("borderBottom", JStr "1px solid #e2e8f0"); ("padding", JStr "12px 8px")])].

Definition Root (theme : jsval) : jsval :=
  JObj
    [("display", JStr "flex");
     ("flexDirection", JStr "column");
     ("minHeight", JStr "100vh");
     ("height", JStr "1px");
     ("alignItems", JStr "center");
     ("justifyContent", JStr "center");
     ("backgroundRepeat", JStr "no-repeat");
     ("backgroundSize", JStr "cover");
     ("background", JStr "linear-gradient(135deg, #1a365d 0%, #2c5282 50%, #1a365d 100%)");
     ("& ." +:+ js_String (jget "card" LoginClasses.t), JObj
         [("minWidth", JNum 380);
          ("maxWidth", JNum 420);
          ("borderRadius", JNum 16);
          ("boxShadow", JStr "0 25px 50px -12px rgba(0, 0, 0, 0.25)");
          ("overflow", JStr "hidden")]);
     ("& ." +:+ js_String (jget "avatar" LoginClasses.t), JObj
         [("margin", JStr "1em");
          ("display", JStr "flex");
          ("justifyContent", JStr "center")]);
     ("& ." +:+ js_String (jget "icon" LoginClasses.t), JObj [("backgroundColor", jget "main" (jget "secondary" (jget "palette" theme)))])].
End styles.

(** ** Lemmas *)

(** A colour as three bytes in hexadecimal digits. *)
Definition is_hex (c : ascii) : bool := is_digit c || within 97 102 (byte_of c).
Definition hex_colour (v : jsval) : bool :=
  match v with
  | JStr (String "#" s) => (String.length s =? 6)%nat && forallb is_hex (String.list_ascii_of_string s)
  | _ => false
  end.

(** What the theme of the library has under the same names does not matter. *)
Lemma light_palette d : jget "palette" (lightTheme d) = palette.
Proof. unfold lightTheme. cbn [jget]. by rewrite own_app. Qed.

Lemma light_component d k : own k (skipn (length (fields (jget "components" d))) (fields (themeComponents d))) ≠ None →
  jget k (jget "components" (lightTheme d)) =
    default JUndef (own k (skipn (length (fields (jget "components" d))) (fields (themeComponents d)))).
Proof.
  unfold lightTheme. cbn [jget]. rewrite own_app. cbn. rewrite own_app, drop_app_length.
  by destruct (own k _).
Qed.

(** Every colour of the palette is one, in each of the shades the components of
    the library take. *)
Lemma palette_colours :
  Forall (λ role, Forall (λ shade, hex_colour (jget shade (jget role palette)) = true) ["main"; "light"; "dark"])
    ["primary"; "secondary"; "success"; "warning"; "error"; "info"] ∧
  Forall (λ v, hex_colour v = true)
    (snd <$> fields (jget "background" palette) ++ fields (jget "text" palette)).
Proof. by repeat constructor. Qed.

(** The bar, the sidebar and the drawer have one colour, the primary one, and the
    icon of the login page has the secondary one, whatever the theme of the
    library is. *)
Lemma styles_read_palette spacing d :
  let theme := lightTheme d in
  jget "backgroundColor" (StyledAppBar theme) = primaryColor ∧
  jget "backgroundColor" (jget "& .RaSidebar-fixed" (CustomSidebar spacing theme)) = primaryColor ∧
  jget "backgroundColor" (jget "& .MuiDrawer-paper" (CustomSidebar spacing theme)) = primaryColor ∧
  jget "backgroundColor"
    (jget "paper" (jget "styleOverrides" (jget "MuiDrawer" (jget "components" theme)))) = primaryColor ∧
  jget "backgroundColor" (jget "& .RaLogin-icon" (Root theme)) = secondaryColor.
Proof.
  cbn zeta. unfold StyledAppBar, CustomSidebar, Root. rewrite light_palette. repeat (split; [reflexivity|]).
  split; [|reflexivity]. rewrite light_component; unfold themeComponents; cbn [fields]; by rewrite drop_app_length.
Qed.
