(* ===== verification/Entry.v ===== *)
(** * Entry: the buttons as elements, and where pages are entered

    The elements the four buttons of src/ui/src/jobs render (their behaviour is in
    file Requests), the action of src/ui/src/settings/actions.ts, the routes and
    the mounting of the application (src/ui/src/routes.tsx, index.tsx), and the
    script of src/website/static/js/linkedin.js, which every page of the website
    loads.  What is shown: a button takes clicks exactly while no request of a
    single button is under way, and no call of the script's function is lost,
    however often the script runs. *)

From S2P Require Import Prelude JsCore View Requests.

(** ** Buttons *)

Definition RunButton_view (loading handleClick : jsval) : jsval :=
  JEl "Button" [("label", JStr "Run"); ("onClick", handleClick); ("disabled", loading)]
    [JEl "RunIcon" [] []].

Definition ToggleButton_view (loading handleClick : jsval) : jsval :=
  JEl "Button"
    [("label", JStr "Toggle"); ("onClick", handleClick); ("disabled", loading)]
    [JEl "ToggleIcon" [] []].

Definition BulkRunButton_view (loading runMany : jsval) : jsval :=
  JEl "Button" [("label", JStr "Run"); ("onClick", runMany); ("disabled", loading)]
    [JEl "RunIcon" [] []].

Definition BulkToggleButton_view (loading toggleMany : jsval) : jsval :=
  JEl "Button"
    [("label", JStr "Toggle");
     ("title", JStr "Enable/disable execution of selected jobs");
     ("onClick", toggleMany);
     ("disabled", loading)]
    [JEl "RunIcon" [] []].

(** ** Settings and mounting *)

Definition CHANGE_THEME : jsval :=
  JStr "CHANGE_THEME".

Definition changeTheme (theme : jsval) : jsval :=
  JObj [("type", CHANGE_THEME); ("payload", theme)].

Definition Routes : jsval :=
  JArr
    [JEl "Route" [("path", JStr "/configuration"); ("element", JEl "Configuration" [] [])]
       []].

Definition mounted : jsval :=
  JEl "React.StrictMode" [] [JEl "App" [] []].

(** ** The tracking script *)

Module Window.
(** What the script uses of the page: the partners, the calls the function of the
    script has queued, when there is one, and the scripts of the document. *)
Record t := mk {
  data_partner_ids : option (list string);
  lintrk : option (list (jsval * jsval));
  scripts : list string;
}.
End Window.

Definition partner_id : string := "8378297".

Definition insight : string := "https://snap.licdn.com/li.lms-analytics/insight.min.js".

(** One run of the script; its element is inserted before the first script. *)
Definition linkedin (w : Window.t) : Window.t :=
  Window.mk (Some (default [] (Window.data_partner_ids w) ++ [partner_id]))
    (match Window.lintrk w with None => Some [] | l => l end)
    (insight :: Window.scripts w).

(** A call of the function; [None] is the error of calling what is undefined. *)
Definition lintrk_call (a b : jsval) (w : Window.t) : option Window.t :=
  match Window.lintrk w with
  | None => None
  | Some q => Some (Window.mk (Window.data_partner_ids w) (Some (q ++ [(a, b)])) (Window.scripts w))
  end.

(** What happens on a page: the script runs, or its function is called. *)
Inductive page_event : Type := Run | Call (a b : jsval).

Fixpoint page_events (l : list page_event) (w : Window.t) : option Window.t :=
  match l with
  | [] => Some w
  | Run :: l => page_events l (linkedin w)
  | Call a b :: l => match lintrk_call a b w with Some w => page_events l w | None => None end
  end.

(** ** Lemmas *)

(** A single button can be pressed exactly while none of its requests is under
    way. *)
Lemma single_button_disabled a record b : rtc (step_one a record) idle b →
  prop_values "disabled" (RunButton_view (JBool (loading b)) (JFun "handleClick")) = [JBool (negb (bool_decide (pending b = [])))] ∧
  prop_values "disabled" (ToggleButton_view (JBool (loading b)) (JFun "handleClick")) = [JBool (negb (bool_decide (pending b = [])))].
Proof.
  intros Hb. apply (rtc_invariant _ one_inv) in Hb as [_ Hl _ _]; [|apply one_inv_step|apply one_inv_idle].
  rewrite Hl. by split.
Qed.

(** Once the script has run, every call is queued, in order, and it may run again
    without losing any; every run counts the partner once more and loads the
    library once more. *)
Lemma page_events_queued l w : is_Some (Window.lintrk w) → ∃ w', page_events l w = Some w' ∧
  Window.lintrk w' = Some (default [] (Window.lintrk w) ++
    omap (λ e, match e with Call a b => Some (a, b) | Run => None end) l) ∧
  (∃ n, n = length (List.filter (λ e, match e with Run => true | _ => false end) l) ∧
     default [] (Window.data_partner_ids w') = default [] (Window.data_partner_ids w) ++ replicate n partner_id ∧
     length (Window.scripts w') = (n + length (Window.scripts w))%nat).
Proof.
  revert w. induction l as [|[|a b] l IH]; intros w [q Hq]; cbn [page_events].
  - exists w. rewrite Hq. cbn. rewrite app_nil_r. split; [done|]. split; [done|]. exists 0%nat. by rewrite app_nil_r.
  - destruct (IH (linkedin w)) as (w' & -> & Hl & n & Hn & Hi & Hs); [cbn; by rewrite Hq|].
    exists w'. split; [done|]. split; [cbn in *; by rewrite Hl, Hq|]. exists (S n). split; [cbn; by rewrite Hn|].
    rewrite Hi, Hs. cbn. rewrite <- app_assoc. split; [done|lia].
  - unfold lintrk_call. rewrite Hq.
    destruct (IH (Window.mk (Window.data_partner_ids w) (Some (q ++ [(a, b)])) (Window.scripts w)))
      as (w' & -> & Hl & Hn); [done|].
    exists w'. split; [done|]. split; [|exact Hn]. cbn in *. by rewrite Hl, <- app_assoc.
Qed.

Lemma linkedin_ready l w : ∃ w', page_events (Run :: l) w = Some w'.
Proof.
  cbn. destruct (page_events_queued l (linkedin w)) as (w' & -> & _); [|by exists w'].
  cbn. by destruct (Window.lintrk w).
Qed.
